(* ===== verification/_CoqProject ===== *)
-Q . S2P
Prelude.v
Scalars.v
Shift.v
Store.v
Edits.v
Symmetry.v
Pipeline.v
Export.v
Filters.v
Metrics.v
Noise.v
Frequency.v
Normalize.v
Offsets.v
Hw3App.v
Hw3Simple.v
ImageIO.v
GuiCommon.v
NoiseGui.v
CountingGui.v
DenoiseGui.v
Experiments.v
Demos.v
Csv.v
Plots.v
