(* ===== verification/Prelude.v ===== *)
(** * A verification library for the image-processing course code of [src/]

    The repository holds Python programs for a course on image
    processing: a Tk frequency-domain editor ([HW3/lab_2.py]), the
    HW3 periodic-noise scripts ([HW3/hw3_frequency.py],
    [HW3/hw3_simple.py]), spatial denoising filters
    ([ex2/common/filters.py]), noise generators ([ex2/common/noise.py]),
    pixel metrics ([HW2/common/metrics.py]) and small Tk front ends that
    load images, apply those functions and show counts.  Images are
    lists of rows of integers (the [project/common] helpers) or numpy
    arrays (HW3).  This library models each part as Rocq definitions
    that follow the code line by line and proves what makes it correct.

    ** Files, in dependency order

    - [Prelude] (this file): Python's exceptions as values ([exn],
      [outcome]); a state and exception monad [pyM] that keeps the
      mutations made before a raise; Python/numpy indexing ([np_index],
      [py_lookup]: negative indices wrap, others raise [IndexError]);
      [range] as [zrange]; [int()] of a float ([py_int]), [%] ([py_mod]);
      arrays as [matrix] with their shape ([rect]), reads ([mat_get]) and
      in-place updates ([mat_alter], [row_alter]); the generic lemmas
      the components share and the hint databases [fl] and [fl_rw].
    - [Scalars]: the interface [Scalars]/[ScalarLaws] of the numbers the
      editor stores (float image and mask, complex spectrum) and an
      exact instance on Gaussian rationals used by the examples.
    - [Shift]: [np.fft.fftshift]/[ifftshift] as rotations, their round
      trips, the Hermitian partner [hpartner] of the centred spectrum
      and the partner [reflect] the edit tools use.
    - [Store]: the state of [UltimateFrequencyLab] as a record [lab],
      the handlers [load_image], [reset_image], [clear_all],
      [update_display], [trigger_recompute]; FFTs are the interface
      [Transform] (not computed).
    - [Edits]: [on_click] with its five tools (brush/erase on the mask,
      sine, line, ring and grid on the spectrum), [cv2.circle] as a
      clipped disc.
    - [Symmetry]: conjugate symmetry of the spectrum, which edits keep
      it, and the even-size counterexample.
    - [Pipeline]: [worker_loop], [task_queue], [result_queue] and
      [check_queue] as a step relation interleaving Tk handlers, the
      worker thread and the consumer; invariants by rule induction.
    - [Export]: [save_result], with [astype(np.uint8)] as truncation
      and the low eight bits of the result.
    - [Filters]: [get_pixel_safe], the median, mean, trimmed alpha and
      contra-harmonic filters, [clamp_pixel].
    - [Metrics]: the three pixel counters and the counting handlers of
      the three counting GUIs.
    - [Noise]: the five generators, with Python's global generator as
      an explicit state ([RandomSource]).
    - [Frequency]: the loop that adds the symmetric peaks of
      [add_periodic_noise] and of [hw3_simple.main].
    - [Normalize]: [normalize_to_uint8] and [scale_to_uint8].
    - [Offsets]: [str.strip], [str.split], [int()] and [parse_offsets],
      and the fallback to the default offsets of [HW3App.run]/[main].
    - [Hw3App]: the rest of [HW3/hw3_frequency.py]: [read_grayscale],
      [save_results], [run_pipeline], [find_default_images], the window
      [HW3App] (the record [hw3_app] of its Tk variables and the disk,
      [run], the pickers, the loop [launch_gui]) and the command line
      [main], over a disk ([file_system]) of images, folders and folder
      listings, in the monad [ioM] whose errors are the exceptions
      [run] catches; the spectral transforms are the interface
      [Spectral].
    - [Hw3Simple]: [HW3/hw3_simple.py]'s [main] over the same disk,
      with [Frequency.simple_peaks] for its peaks and the interface
      [SimpleSpectral] for its transforms.
    - [ImageIO]: [project/common/image_io.py]; the disk is a [gmap] from
      paths to 8-bit images, [load_grayscale_image] copies a file row by
      row and [save_grayscale_image] clamps the pixels and calls
      [Image.save], which finds the format from
      [os.path.splitext(path)[1].lower()] ([py_ext]) in PIL's registry
      of plugins, a parameter ([PilRegistry], with the laws
      [PilRegistryLaws]: a writer keeps the shape and 8 bits, PNG keeps
      the pixels).
    - [GuiCommon]: what the Tk front ends share: [lift] (a library call
      that may raise, inside a handler), the pixel reads of
      [show_image], well-formed images ([img_ok]) and disks ([files_ok]).
    - [NoiseGui]: [ex2/task1_add_noise/gui.py]; the window is the record
      [noise_app] (disk, state of [random], images, label, messages),
      each button a [pyM] handler, Tk's loop [na_run].
    - [CountingGui]: the three counting windows
      ([HW2/task2_count_noisy_pixels/gui.py],
      [HW2/task4_count_fixed_pixels/gui.py],
      [ex2/task5_count_damaged_clean_pixels/gui.py]) as one record
      [count_app], their load and count handlers, their loop [tk_run],
      and the contract [count_spec] of the count buttons.
    - [DenoiseGui]: [project/task3_denoise/gui.py]; the record
      [denoise_app], the load and [apply_filter] handlers,
      [update_metrics], the loop [dn_run], and the contract
      [denoise_spec] that [apply_filter] refines.
    - [Experiments]: [project/experiments/multiple_filters.py] and
      [ex2/experiments/multiple_noise_levels.py]; a run is the record
      [experiment] (disk, state of [random], CSV files as rows), each
      script's [main] a [pyM] program over it.
    - [Demos]: the five command-line demos; the counting ones as the
      line they print, the saving ones as [pyM] programs.
    - [Csv]: Python's [csv.writer] and [csv.reader] (excel dialect) on
      ASCII text: quoting, and the reader's state machine over the
      lines of a file opened with [newline=""].
    - [Plots]: [ex2/experiments/generate_plots.py] and
      [HW2/experiments/generate_tables.py] over a disk of texts, the
      cells written by the experiments as [str()] of their values.

    The GUIs reach the library through [from common import ...]; the
    snapshot keeps one copy of each helper module ([filters] and [noise]
    under [ex2/common], [metrics] under [HW2/common], [image_io] and
    [utils] under [project/common]), and every front end is modelled
    against that copy.

    ** What the theorems show

    - Editor: every reachable state of the interleaved system satisfies
      the store and queue invariant (the worker never crashes), results
      are published in FIFO order, the backlog drains and the consumer
      ends on the result of the latest edit ([Pipeline]); clicks queue
      exactly one snapshot, brush/erase never touch the spectrum, the
      grid tool never raises, a negative sine click writes then raises
      ([Edits]); loaded spectra are Hermitian and clicks keep them so in
      odd shapes, but break it in even ones ([Symmetry]).
    - Filters: the median removes a lone impulse and stays within the
      value range; trimmed alpha with trim 0 is the mean, with half the
      window the median; contra-harmonic with Q = 0 is the mean; the
      error paths (negative window or trim, negative Q on a black pixel)
      raise as stated.
    - Metrics: the partition bounds of the counts, [IndexError] on a
      smaller image, percentages in [[0, 100]] in the counting GUIs.
    - Counting GUIs: through any events, whatever shapes are loaded,
      the label shows a count >= 0 and a percentage in [[0, 100]]; on
      images of one shape each button refines its contract.
    - Noise: salt and pepper only writes 0 or 255 and additive noise
      stays in [[0, 255]], for every sequence of draws.
    - Image I/O: saving to a lossless format (PNG) then loading gives
      the clamped image back and leaves other files alone; the
      [ValueError] (empty list, unknown extension, width 0),
      [IndexError] (short row, before the extension is looked at),
      [KeyError] and [OSError] paths, and a lossy format reading back
      as what its codec keeps.
    - Add-noise GUI: an invariant of every reachable window (the label
      always shows the count of the images held), the four buttons that
      are the identity at level 0, and saving then loading the noisy
      image.
    - Denoise GUI: [apply_filter] refines [denoise_spec] on every branch;
      loading two
      images and filtering always reaches a label with the metrics; a
      negative trim raises and changes nothing.
    - Experiments: the four filters at window 3 never raise; both
      scripts run to the end on any well-formed input, whatever the
      generator draws, and write tables of one row per filter or level,
      in order, whose counts are within the bounds of the metrics.
    - HW3: the peak loop adds the amplitude once per offset and choice
      of [h // 2 ± dr], [w // 2 ± dc] landing on a cell; the peaks keep
      the spectrum Hermitian in every shape, the two
      scripts add the same peaks; both normalisers land in [[0, 255]]
      and agree exactly outside ranges in [(0, 1e-6)]; [parse_offsets]
      reads back printed offsets.
    - Export: the saved bytes are in [[0, 255]], the scaled result for
      results in [[0, 1]], wrapped around above [256/255].
    - HW3 simple script: an unreadable second image is reported only
      after the four images of part 1 are written.
    - Demos: the counting demos print what the counting windows show,
      and raise where they raise.
    - CSV and plots: the reader reads back any rows the writer wrote
      whose fields are within [csv.field_size_limit()] (131072
      characters), never raises on a file of at most that many
      characters, and raises on a longer unquoted field; [generate_plots]
      plots exactly the
      counts of the tables the experiments write; [generate_tables]
      writes the cells of every table as they were written.
    - HW3 application: [run] never lets an exception out and, when an
      image cannot be read, writes nothing; the window and [main --cli]
      write the same files for the same inputs; [find_default_images]
      returns the two least image names of the folder or raises when
      there are fewer than two; in the window every [Run and Save] shows
      one message box and the status line repeats the last one.

    ** Bounds and fuel

    All loops of the code are over [range] of a length and are modelled
    by structural recursion on lists ([for_], [foldl], [mapM]); no
    definition needs fuel except the decimal printer [show_fuel] of
    [Offsets], a specification helper whose fuel [S n] exceeds the
    number of digits of [n].  The worker's infinite loop is a step
    relation; its termination is proved on the backlog measure.
    Integers are unbounded ([Z]) as in Python; floats are modelled as
    exact rationals, so rounding is outside every theorem.

    ** Not modelled

    Tk widgets, drawing, file dialogs and message boxes (their effects
    on state are modelled where a handler has them; a dialog is the path
    it returns), the codecs of [cv2] (the disk of [Hw3App] is a lossless
    store of 8-bit arrays, and [cv2.imwrite]'s error on an unknown
    extension is not modelled), PIL's plugins themselves (a parameter
    with laws; the registry a witness uses knows PNG only), the file
    PIL leaves behind when a writer fails on an existing path (the
    model keeps the disk as it was), [Path]
    normalisation other than the empty path being the working folder (paths are taken
    already normal), the spectral parts of [add_periodic_noise] and
    [add_ripple_waves] other than the peak loop, non-integral [Q] in the contra-harmonic
    filter and its GUI entry, the FFT itself (an interface), logarithms and trigonometric
    functions (the magnitude spectra, the ripple of HW3, the phase of
    the sine tool at angles other than multiples of 90 degrees), the
    straight-line scripts [HW3/1.py]-[3.py] (a chain of [cv2] and numpy
    calls: [imread], [resize], [fft2], [log], [cv2.normalize], [imwrite],
    with no logic of their own beyond the library), [matplotlib]'s
    figures (a plot is the data it is given), the [%.2f] formatting of
    the [print] calls, [str()] of a float (the interface [FloatRepr],
    with Python's round-trip guarantee as its law), NUL characters
    and dialects other than [excel] in the CSV model, the 4300-digit
    limit of [int()] on strings (Python 3.11 and later), and
    [str.lower()] on non-ASCII characters. *)

From Stdlib Require Import ZArith QArith Ascii Lia.
From stdpp Require Import base list option numbers.
Local Open Scope nat_scope.

Declare Scope fl_scope.
Delimit Scope fl_scope with fl.

Create HintDb fl discriminated.
Create Rewrite HintDb fl_rw.

(** [str.lower()] on a character: ASCII capitals to small letters. *)
Definition ascii_lower (c : ascii) : ascii :=
  let n := nat_of_ascii c in
  if decide (65 <= n <= 90)%nat then ascii_of_nat (n + 32) else c.

(** Split the conjunctions of the goal, and only them. *)
Ltac split_ands := repeat match goal with |- _ /\ _ => split end.

(** Closes [rect h w m] for a concrete array by computing its shape. *)
Ltac rect_by_compute := split; [reflexivity|repeat constructor].

(** ** Python exceptions and a state monad that keeps mutations on raise *)

(** The exceptions the modelled handlers can raise: numpy's
    [IndexError] on an out-of-bounds subscript, the error of using
    an array attribute that is still [None], division by zero, and
    [ValueError] (the reduction of an empty array, [int()] of a string
    that is not a number, saving an empty image or to an unknown file
    extension), [KeyError] and [OSError]. *)
Inductive exn :=
| IndexError
  (** [AttributeError] or [TypeError] from using [None] as an array *)
| NoneError
  (** [x // 0], [x / 0], [0 ** -k] *)
| ZeroDivisionError
| ValueError
  (** [FileNotFoundError] and the other [OSError]s of opening a file *)
| OSError
  (** a missing key of a [dict], as PIL's table of save handlers *)
| KeyError.

#[export] Instance exn_eq_dec : EqDecision exn.
Proof. solve_decision. Defined.

Inductive outcome (A : Type) : Type :=
| Ok (a : A)
| Raise (e : exn).
Arguments Ok {_} _.
Arguments Raise {_} _.

(** A pure Python function that may raise: [outcome] as an error monad. *)
#[export] Instance outcome_ret : MRet outcome := fun A a => Ok a.
#[export] Instance outcome_bind : MBind outcome := fun A B f m =>
  match m with Ok a => f a | Raise e => Raise e end.

Lemma outcome_bind_Ok {A B} (m : outcome A) (f : A -> outcome B) a :
  m = Ok a -> (m ≫= f) = f a.
Proof. by intros ->. Qed.

(** A loop that accumulates into local variables and may raise. *)
Fixpoint fold_outcome {A B} (f : B -> A -> outcome B) (acc : B) (l : list A) : outcome B :=
  match l with
  | [] => Ok acc
  | a :: l' => acc' ← f acc a; fold_outcome f acc' l'
  end.

Section Outcome.
Context {A B : Type}.
Implicit Types (e : exn).

Lemma mapM_nil_outcome (f : A -> outcome B) : mapM f [] = Ok [].
Proof. done. Qed.

Lemma mapM_cons_outcome (f : A -> outcome B) a l :
  mapM f (a :: l) =
    match f a with
    | Ok b => match mapM f l with Ok bs => Ok (b :: bs) | Raise e => Raise e end
    | Raise e => Raise e
    end.
Proof. done. Qed.

Lemma mapM_Ok (f : A -> outcome B) l vs :
  mapM f l = Ok vs <-> Forall2 (fun a b => f a = Ok b) l vs.
Proof.
  revert vs. induction l as [|a l IH]; intros vs.
  - split; [intros [= <-]; constructor|by inversion 1].
  - rewrite mapM_cons_outcome. split.
    + intros E. destruct (f a) as [b|e] eqn:Ef; [|discriminate].
      destruct (mapM f l) as [bs|e] eqn:Em; [|discriminate].
      injection E as <-. constructor; [done|by apply IH].
    + inversion 1 as [|? b ? bs Hb Hbs]; subst. rewrite Hb.
      by rewrite (proj2 (IH bs) Hbs).
Qed.

Lemma mapM_ext_outcome (f g : A -> outcome B) l :
  (forall a, f a = g a) -> mapM f l = mapM g l.
Proof.
  intros E. induction l as [|a l IH]; [done|]. by rewrite !mapM_cons_outcome, E, IH.
Qed.

(** Every element succeeds: the loop produces a result. *)
Lemma mapM_Ok_intro (f : A -> outcome B) (P : A -> B -> Prop) l :
  (forall a, a ∈ l -> exists b, f a = Ok b /\ P a b) ->
  exists vs, mapM f l = Ok vs /\ Forall2 P l vs.
Proof.
  induction l as [|a l IH]; intros Hl; [by exists []|].
  destruct (Hl a) as (b & Hb & Pb); [by left|].
  destruct IH as (vs & Hvs & Pvs); [intros; apply Hl; by right|].
  exists (b :: vs). rewrite mapM_cons_outcome, Hb, Hvs. split; [done|by constructor].
Qed.

(** Every element either succeeds or raises [e], and one raises: the
    loop raises [e]. *)
Lemma mapM_Raise (f : A -> outcome B) e l :
  (forall a, a ∈ l -> f a = Raise e \/ exists b, f a = Ok b) ->
  (exists a, a ∈ l /\ f a = Raise e) -> mapM f l = Raise e.
Proof.
  induction l as [|a l IH]; intros Hl (a0 & Ha0 & Ea0); [by apply elem_of_nil in Ha0|].
  rewrite mapM_cons_outcome.
  destruct (Hl a) as [Ea|[b Eb]]; [by left| |]; rewrite ?Ea, ?Eb; [done|].
  rewrite IH; [done|intros; apply Hl; by right|].
  apply elem_of_cons in Ha0 as [->|Ha0]; [congruence|eauto].
Qed.
(** A loop whose body only ever raises [e] raises nothing else. *)
Lemma mapM_Ok_or_Raise (f : A -> outcome B) e l :
  (forall a, a ∈ l -> f a = Raise e \/ exists b, f a = Ok b) ->
  mapM f l = Raise e \/ exists vs, mapM f l = Ok vs.
Proof.
  induction l as [|a l IH]; intros Hl; [right; by exists []|].
  rewrite mapM_cons_outcome.
  destruct (Hl a) as [->|[b ->]]; [by left|by left|].
  destruct IH as [->|[vs ->]]; [intros; apply Hl; by right|by left|right; eauto].
Qed.

(** [fold_outcome] of a body that cannot fail is a [foldl]. *)
Lemma fold_outcome_Ok (f : B -> A -> outcome B) (g : B -> A -> B) acc l :
  (forall b a, f b a = Ok (g b a)) -> fold_outcome f acc l = Ok (foldl g acc l).
Proof.
  intros Hf. revert acc. induction l as [|a l IH]; intros acc; [done|].
  simpl. rewrite (outcome_bind_Ok _ _ (g acc a)) by apply Hf. apply IH.
Qed.

Lemma fold_outcome_Ok_or_Raise (f : B -> A -> outcome B) e acc l :
  (forall b a, a ∈ l -> f b a = Raise e \/ exists b', f b a = Ok b') ->
  fold_outcome f acc l = Raise e \/ exists b, fold_outcome f acc l = Ok b.
Proof.
  revert acc. induction l as [|a l IH]; intros acc Hf; simpl; [eauto|].
  destruct (Hf acc a) as [->|[b' ->]]; [by left|by left|].
  cbn [mbind outcome_bind]. apply IH. intros; apply Hf; by right.
Qed.

(** A body that only raises [e], and raises at some element whatever
    the accumulator, makes the loop raise [e]. *)
Lemma fold_outcome_Raise (f : B -> A -> outcome B) e acc l :
  (forall b a, a ∈ l -> f b a = Raise e \/ exists b', f b a = Ok b') ->
  (exists a, a ∈ l /\ forall b, f b a = Raise e) ->
  fold_outcome f acc l = Raise e.
Proof.
  revert acc. induction l as [|a l IH]; intros acc Hf (a0 & Ha0 & Ea0);
    [by apply elem_of_nil in Ha0|].
  simpl. destruct (Hf acc a) as [E|[b' E]]; [by left| |]; rewrite E; [done|].
  cbn [mbind outcome_bind]. apply IH; [intros; apply Hf; by right|].
  apply elem_of_cons in Ha0 as [->|Ha0]; [congruence|eauto].
Qed.
End Outcome.

(** A counting loop: the body adds one exactly on the elements that
    satisfy [P]. *)
Lemma fold_outcome_count {A} (body : Z -> A -> outcome Z) (P : A -> Prop)
    `{!forall a, Decision (P a)} acc l :
  (forall n a, a ∈ l -> body n a = Ok (if decide (P a) then (n + 1)%Z else n)) ->
  fold_outcome body acc l = Ok (acc + Z.of_nat (length (filter P l)))%Z.
Proof.
  revert acc. induction l as [|a l IH]; intros acc Hb; simpl; [f_equal; lia|].
  rewrite (outcome_bind_Ok _ _ _ (Hb acc a ltac:(by left))), IH by (intros; apply Hb; by right).
  rewrite filter_cons. f_equal. destruct (decide (P a)); simpl; lia.
Qed.

(** A loop body that first reads [g a] and then updates the
    accumulator: the loop is the update loop over what [mapM g] read. *)
Lemma fold_outcome_mapM {A B C} (g : A -> outcome C) (k : B -> C -> outcome B)
    (f : B -> A -> outcome B) acc l vs :
  (forall b a, f b a = (c ← g a; k b c)) -> mapM g l = Ok vs ->
  fold_outcome f acc l = fold_outcome k acc vs.
Proof.
  intros Hf Hl. apply mapM_Ok in Hl. revert acc.
  induction Hl as [|a c l vs Ha _ IH]; intros acc; [done|].
  simpl. rewrite Hf, (outcome_bind_Ok _ _ c Ha).
  destruct (k acc c) as [b|e]; [apply IH|done].
Qed.


Lemma foldl_Zadd_perm (l l' : list Z) a : l ≡ₚ l' -> foldl Z.add a l = foldl Z.add a l'.
Proof.
  intros Hp. revert a. induction Hp as [|x l l' _ IH|x y l|l l' l'' _ IH1 _ IH2];
    intros a; simpl; try done.
  - f_equal. lia.
  - by rewrite IH1.
Qed.

Lemma foldl_Zadd_shift (l : list Z) a : foldl Z.add a l = (a + foldl Z.add 0 l)%Z.
Proof.
  revert a. induction l as [|x l IH]; intros a; simpl; [lia|].
  rewrite IH, (IH (0 + x)%Z). lia.
Qed.

(** A Python method that mutates [self] and may raise: the state reached
    when the exception is raised is kept, exactly as in-place numpy
    writes done before the raise are kept. *)
Definition pyM (S A : Type) : Type := S -> S * outcome A.

#[export] Instance pyM_ret S : MRet (pyM S) := fun A a s => (s, Ok a).
#[export] Instance pyM_bind S : MBind (pyM S) := fun A B f c s =>
  match c s with
  | (s', Ok a) => f a s'
  | (s', Raise e) => (s', Raise e)
  end.

Definition get {S} : pyM S S := fun s => (s, Ok s).
Definition put {S} (s : S) : pyM S unit := fun _ => (s, Ok tt).
Definition modify {S} (f : S -> S) : pyM S unit := fun s => (f s, Ok tt).
Definition throw {S A} (e : exn) : pyM S A := fun s => (s, Raise e).

(** Run a [pyM] step whose failure is an [option]: [None] raises
    [IndexError] without touching the state. *)
Definition lift_index {S A} (o : option A) : pyM S A :=
  match o with Some a => mret a | None => throw IndexError end.

(** Compute a [pyM] program on a concrete or destructed state. *)
Ltac pyM_run :=
  unfold mbind, mret, pyM_bind, pyM_ret, get, put, modify, throw, lift_index; simpl.

Lemma pyM_bind_ok {S A B} (c : pyM S A) (f : A -> pyM S B) s s' a :
  c s = (s', Ok a) -> (c ≫= f) s = f a s'.
Proof. intros H. unfold mbind, pyM_bind. by rewrite H. Qed.

Lemma pyM_bind_raise {S A B} (c : pyM S A) (f : A -> pyM S B) s s' e :
  c s = (s', Raise e) -> (c ≫= f) s = (s', Raise e).
Proof. intros H. unfold mbind, pyM_bind. by rewrite H. Qed.

(** A loop over [l] that updates a local accumulator and the state. *)
Fixpoint fold_pyM {S A B} (f : B -> A -> pyM S B) (acc : B) (l : list A) : pyM S B :=
  match l with
  | [] => mret acc
  | a :: l' => b ← f acc a; fold_pyM f b l'
  end.

(** A loop whose body keeps [I] and never raises from a state in [I]. *)
Lemma fold_pyM_inv {S A B} (I : B -> Prop) (f : B -> A -> pyM S B) l acc s :
  I acc ->
  (forall b a s, a ∈ l -> I b -> exists b' s', f b a s = (s', Ok b') /\ I b') ->
  exists b s', fold_pyM f acc l s = (s', Ok b) /\ I b.
Proof.
  revert acc s. induction l as [|a l IH]; intros acc s Hacc Hf; [by exists acc, s|].
  destruct (Hf acc a s ltac:(by left) Hacc) as (b' & s' & Eb & Hb).
  simpl. rewrite (pyM_bind_ok _ _ s s' b' Eb). apply IH; [done|].
  intros; apply Hf; [by right|done].
Qed.

(** [for a in l: body(a)] *)
Fixpoint for_ {S A} (l : list A) (body : A -> pyM S unit) : pyM S unit :=
  match l with
  | [] => mret tt
  | a :: l' => body a;; for_ l' body
  end.

(** [c] keeps the state property [P], on every outcome. *)
Definition preserves {S A} (P : S -> Prop) (c : pyM S A) : Prop :=
  forall s, P s -> P (c s).1.

Section Preserves.
Context {S : Type} (P : S -> Prop).

Lemma preserves_ret {A} (a : A) : preserves P (mret a).
Proof. by intros s Hs. Qed.

Lemma preserves_get : preserves P get.
Proof. by intros s Hs. Qed.

Lemma preserves_throw {A} e : preserves P (throw (A:=A) e).
Proof. by intros s Hs. Qed.

Lemma preserves_lift_index {A} (o : option A) : preserves P (lift_index o).
Proof. destruct o; by intros s Hs. Qed.

Lemma preserves_modify f : (forall s, P s -> P (f s)) -> preserves P (modify f).
Proof. intros Hf s Hs. apply Hf, Hs. Qed.

Lemma preserves_put s' : P s' -> preserves P (put s').
Proof. by intros Hs' s _. Qed.

Lemma preserves_bind {A B} (c : pyM S A) (k : A -> pyM S B) :
  preserves P c -> (forall a, preserves P (k a)) -> preserves P (c ≫= k).
Proof.
  intros Hc Hk s Hs. unfold mbind, pyM_bind.
  specialize (Hc s Hs). destruct (c s) as [s' [a|e]]; simpl in *; [by apply Hk|done].
Qed.

(** [st = get(); k(st)]: the continuation runs on the state it read. *)
Lemma preserves_get_bind {B} (k : S -> pyM S B) :
  (forall s, P s -> P (k s s).1) -> preserves P (get ≫= k).
Proof. intros Hk s Hs. by apply Hk. Qed.

Lemma preserves_get_bind' {B} (k : S -> pyM S B) :
  (forall s, P s -> preserves P (k s)) -> preserves P (get ≫= k).
Proof. intros Hk s Hs. by apply (Hk s Hs s). Qed.

Lemma preserves_for {A} (l : list A) body :
  (forall a, preserves P (body a)) -> preserves P (for_ l body).
Proof.
  intros Hb. induction l as [|a l IH]; simpl.
  - apply preserves_ret.
  - apply preserves_bind; [apply Hb|intros; apply IH].
Qed.

(** A loop whose every iteration succeeds and keeps [P] succeeds. *)
Lemma for_ok {A} (l : list A) body s :
  (forall a s, P s -> exists s', body a s = (s', Ok tt) /\ P s') ->
  P s -> exists s', for_ l body s = (s', Ok tt) /\ P s'.
Proof.
  intros Hb. revert s. induction l as [|a l IH]; intros s Hs; simpl.
  - by exists s.
  - destruct (Hb a s Hs) as (s1 & E1 & Hs1).
    rewrite (pyM_bind_ok _ _ s s1 tt E1). by apply IH.
Qed.
End Preserves.

#[export] Hint Resolve preserves_ret preserves_get preserves_throw preserves_lift_index
  preserves_bind preserves_for : fl.

(** ** Generic list lemmas *)

Lemma last_map {A B} (f : A -> B) (l : list A) : list.last (map f l) = option_map f (list.last l).
Proof. induction l as [|x [|y l] IH]; simpl in *; done. Qed.

Lemma map_app_inv_length {A B} (f : A -> B) (l : list A) (l1 l2 : list B) :
  map f l = l1 ++ l2 -> length l = length l1 + length l2.
Proof. intros E. by rewrite <- length_app, <- E, length_map. Qed.

(** Counting the elements of a list that satisfy a decidable predicate. *)
Section Count.
Context {A : Type}.
Implicit Types (P Q : A -> Prop) (l : list A).

Lemma length_filter_impl P Q `{!forall x, Decision (P x)} `{!forall x, Decision (Q x)} l :
  (forall x, P x -> Q x) -> length (filter P l) <= length (filter Q l).
Proof.
  intros HPQ. induction l as [|x l IH]; [done|]. rewrite !filter_cons.
  destruct (decide (P x)), (decide (Q x)); simpl; naive_solver lia.
Qed.

Lemma length_filter_compl P `{!forall x, Decision (P x)} l :
  length (filter P l) + length (filter (fun x => ~ P x) l) = length l.
Proof. rewrite <- length_app. apply Permutation_length, filter_app_complement. Qed.

Lemma length_filter_Forall P `{!forall x, Decision (P x)} l :
  Forall P l -> length (filter P l) = length l.
Proof. induction 1; [done|]. rewrite filter_cons_True by done. simpl. lia. Qed.

Lemma filter_Forall_not P `{!forall x, Decision (P x)} l :
  Forall (fun x => ~ P x) l -> filter P l = [].
Proof. induction 1; [done|]. by rewrite filter_cons_False. Qed.

Lemma length_filter_perm P `{!forall x, Decision (P x)} l l' :
  l ≡ₚ l' -> length (filter P l) = length (filter P l').
Proof. intros Hp. by rewrite Hp. Qed.
End Count.

Lemma Forall2_filter_le {A B} (R : A -> B -> Prop) (P : A -> Prop) (Q : B -> Prop)
    `{!forall x, Decision (P x)} `{!forall x, Decision (Q x)} (l : list A) (k : list B) :
  Forall2 R l k -> (forall a b, R a b -> Q b -> P a) ->
  length (filter Q k) <= length (filter P l).
Proof.
  intros HR HPQ. induction HR as [|a b l k Hab _ IH]; [done|]. rewrite !filter_cons.
  destruct (decide (Q b)), (decide (P a)); simpl; naive_solver lia.
Qed.

Lemma length_filter_prod {A B} (P : A -> Prop) (Q : B -> Prop)
    `{!forall x, Decision (P x)} `{!forall x, Decision (Q x)} (l1 : list A) (l2 : list B) :
  length (filter (fun ab => P ab.1 /\ Q ab.2) (list_prod l1 l2)) =
    length (filter P l1) * length (filter Q l2).
Proof.
  induction l1 as [|a l1 IH]; [done|].
  change (list_prod (a :: l1) l2) with (map (pair a) l2 ++ list_prod l1 l2).
  rewrite list.filter_app, length_app, IH, filter_cons.
  destruct (decide (P a)) as [Ha|Ha]; simpl.
  - f_equal. clear IH. induction l2 as [|b l2 IH2]; [done|].
    change (map (pair a) (b :: l2)) with ((a, b) :: map (pair a) l2).
    rewrite !filter_cons. repeat case_decide; simpl in *; first [by rewrite IH2|naive_solver].
  - rewrite (filter_Forall_not _ (map (pair a) l2)); [done|].
    clear IH. induction l2; simpl; constructor; naive_solver.
Qed.


(** ** Python integer conversions *)

(** [int(q)] truncates toward zero. Python floats are modelled by exact
    rationals. *)
Definition py_int (q : Q) : Z := Z.quot (Qnum q) (Zpos (Qden q)).

(** Python's [a % b] rounds the quotient toward negative infinity, as
    [Z.modulo] does: for [b > 0] the result lies in [0 <= _ < b]. *)
Definition py_mod (a b : Z) : Z := Z.modulo a b.

Lemma py_mod_range a b : (0 < b)%Z -> (0 <= py_mod a b < b)%Z.
Proof. intros Hb. unfold py_mod. apply Z.mod_pos_bound. lia. Qed.

(** ** numpy subscripts *)

(** [a[i]] on an axis of length [n]: a negative [i >= -n] counts from the
    end, anything else out of [0 <= i < n] raises [IndexError]. *)
Definition np_index (n : nat) (i : Z) : option nat :=
  if (0 <=? i)%Z && (i <? Z.of_nat n)%Z then Some (Z.to_nat i)
  else if (- Z.of_nat n <=? i)%Z && (i <? 0)%Z then Some (Z.to_nat (i + Z.of_nat n))
  else None.

Lemma np_index_in_range n i :
  (0 <= i < Z.of_nat n)%Z -> np_index n i = Some (Z.to_nat i).
Proof.
  intros H. unfold np_index.
  destruct (Z.leb_spec 0 i), (Z.ltb_spec i (Z.of_nat n)); simpl; lia || done.
Qed.

Lemma np_index_negative n i :
  (- Z.of_nat n <= i < 0)%Z -> np_index n i = Some (Z.to_nat (i + Z.of_nat n)).
Proof.
  intros H. unfold np_index.
  destruct (Z.leb_spec 0 i); [lia|]. simpl.
  destruct (Z.leb_spec (- Z.of_nat n) i), (Z.ltb_spec i 0); simpl; lia || done.
Qed.

Lemma np_index_None n i :
  np_index n i = None <-> (i < - Z.of_nat n \/ Z.of_nat n <= i)%Z.
Proof.
  unfold np_index.
  destruct (Z.leb_spec 0 i), (Z.ltb_spec i (Z.of_nat n)),
    (Z.leb_spec (- Z.of_nat n) i), (Z.ltb_spec i 0);
    simpl; split; intros; try done; lia.
Qed.

Lemma np_index_lt n i k : np_index n i = Some k -> k < n.
Proof.
  unfold np_index.
  destruct (Z.leb_spec 0 i), (Z.ltb_spec i (Z.of_nat n)),
    (Z.leb_spec (- Z.of_nat n) i), (Z.ltb_spec i 0);
    simpl; intros Hk; try discriminate; injection Hk as <-; lia.
Qed.

(** [l[i]] on a Python list: the same rule as a numpy axis. *)
Definition py_lookup {A} (l : list A) (i : Z) : outcome A :=
  match np_index (length l) i ≫= fun k => l !! k with
  | Some a => Ok a
  | None => Raise IndexError
  end.

Lemma py_lookup_in_range {A} (l : list A) i :
  (0 <= i < Z.of_nat (length l))%Z -> exists a, l !! Z.to_nat i = Some a /\ py_lookup l i = Ok a.
Proof.
  intros Hi. unfold py_lookup. rewrite np_index_in_range by done. simpl.
  destruct (lookup_lt_is_Some_2 l (Z.to_nat i)) as [a Ha]; [lia|]. rewrite Ha. eauto.
Qed.

Lemma py_lookup_nat {A} (l : list A) (k : nat) a :
  l !! k = Some a -> py_lookup l (Z.of_nat k) = Ok a.
Proof.
  intros Ha. pose proof (lookup_lt_Some _ _ _ Ha).
  unfold py_lookup. rewrite np_index_in_range by lia. simpl. by rewrite Nat2Z.id, Ha.
Qed.

Lemma py_lookup_cases {A} (l : list A) i :
  py_lookup l i = Raise IndexError \/ exists a, py_lookup l i = Ok a.
Proof. unfold py_lookup. case_match; eauto. Qed.

Lemma py_lookup_too_big {A} (l : list A) i :
  (Z.of_nat (length l) <= i)%Z -> py_lookup l i = Raise IndexError.
Proof.
  intros Hi. unfold py_lookup.
  by rewrite (proj2 (np_index_None (length l) i)) by lia.
Qed.

(** [range(a, b)] *)
Definition zrange (a b : Z) : list Z := seqZ a (b - a).

Lemma length_zrange a b : length (zrange a b) = Z.to_nat (b - a).
Proof. apply length_seqZ. Qed.

Lemma elem_of_zrange a b i : i ∈ zrange a b <-> (a <= i < b)%Z.
Proof. unfold zrange. rewrite elem_of_seqZ. lia. Qed.

(** ** Matrices as lists of rows *)

Abbreviation matrix A := (list (list A)).

Section Matrix.
Context {A : Type}.

(** [h, w = m.shape] *)
Definition rows (m : matrix A) : nat := length m.
Definition cols (m : matrix A) : nat :=
  match m with [] => 0 | r :: _ => length r end.

(** [m] is an [h] by [w] array. *)
Record rect (h w : nat) (m : matrix A) : Prop := {
  rect_rows : length m = h;
  rect_cols : Forall (fun r => length r = w) m;
}.

Definition mat_get (m : matrix A) (r c : nat) : option A :=
  m !! r ≫= fun row => row !! c.

(** In-place update of one cell, [m[r, c] = f(m[r, c])], for indices
    already checked to be in range. *)
Definition mat_alter (f : A -> A) (r c : nat) (m : matrix A) : matrix A :=
  alter (alter f c) r m.

(** In-place update of a whole row, [m[r, :] = f(m[r, :])]. *)
Definition row_alter (f : A -> A) (r : nat) (m : matrix A) : matrix A :=
  alter (fmap f) r m.

(** [np.full((h, w), x)] *)
Definition mat_fill (h w : nat) (x : A) : matrix A := replicate h (replicate w x).

Lemma rect_rows_cols h w (m : matrix A) :
  rect h w m -> 0 < h -> rows m = h /\ cols m = w.
Proof.
  intros [Hl Hf] Hh. destruct m as [|r m]; simpl in *; [lia|].
  inversion Hf; subst. split; [done|]. done.
Qed.

Lemma rect_lookup h w (m : matrix A) r row :
  rect h w m -> m !! r = Some row -> length row = w.
Proof.
  intros [_ Hf] Hr. rewrite Forall_lookup in Hf. eauto.
Qed.

Lemma rect_mat_get_Some h w (m : matrix A) r c :
  rect h w m -> r < h -> c < w -> is_Some (mat_get m r c).
Proof.
  intros Hm Hr Hc. destruct Hm as [Hl Hf].
  destruct (lookup_lt_is_Some_2 m r) as [row Hrow]; [lia|].
  unfold mat_get. rewrite Hrow. simpl.
  apply lookup_lt_is_Some_2. rewrite Forall_lookup in Hf.
  rewrite (Hf _ _ Hrow). done.
Qed.

Lemma mat_alter_rect h w f r c (m : matrix A) :
  rect h w m -> rect h w (mat_alter f r c m).
Proof.
  intros [Hl Hf]. split.
  - unfold mat_alter. by rewrite length_alter.
  - apply Forall_lookup. intros i row. unfold mat_alter.
    destruct (decide (r = i)) as [->|Hne].
    + rewrite list_lookup_alter_eq.
      destruct (m !! i) as [row0|] eqn:E; simpl; [|done].
      intros [= <-]. rewrite length_alter.
      rewrite Forall_lookup in Hf. eauto.
    + rewrite list_lookup_alter_ne; [|done].
      rewrite Forall_lookup in Hf. eauto.
Qed.

Lemma row_alter_rect h w f r (m : matrix A) :
  rect h w m -> rect h w (row_alter f r m).
Proof.
  intros [Hl Hf]. split.
  - unfold row_alter. by rewrite length_alter.
  - apply Forall_lookup. intros i row. unfold row_alter.
    destruct (decide (r = i)) as [->|Hne].
    + rewrite list_lookup_alter_eq.
      destruct (m !! i) as [row0|] eqn:E; simpl; [|done].
      intros [= <-]. rewrite length_fmap.
      rewrite Forall_lookup in Hf. eauto.
    + rewrite list_lookup_alter_ne; [|done].
      rewrite Forall_lookup in Hf. eauto.
Qed.

Lemma mat_fill_rect h w x : rect h w (mat_fill h w x).
Proof.
  split; [apply length_replicate|].
  apply Forall_replicate, length_replicate.
Qed.

Lemma mat_get_alter_eq f r c (m : matrix A) :
  mat_get (mat_alter f r c m) r c = f <$> mat_get m r c.
Proof.
  unfold mat_get, mat_alter. rewrite list_lookup_alter_eq.
  destruct (m !! r) as [row|]; simpl; [|done].
  apply list_lookup_alter_eq.
Qed.

Lemma mat_get_alter_ne f r c r' c' (m : matrix A) :
  (r, c) <> (r', c') ->
  mat_get (mat_alter f r c m) r' c' = mat_get m r' c'.
Proof.
  intros Hne. unfold mat_get, mat_alter.
  destruct (decide (r = r')) as [<-|Hr].
  - rewrite list_lookup_alter_eq. destruct (m !! r) as [row|]; simpl; [|done].
    rewrite list_lookup_alter_ne; [done|]. congruence.
  - by rewrite list_lookup_alter_ne.
Qed.

Lemma mat_get_row_alter f r r' c (m : matrix A) :
  mat_get (row_alter f r m) r' c =
    if decide (r = r') then f <$> mat_get m r' c else mat_get m r' c.
Proof.
  unfold mat_get, row_alter. case_decide as Hr.
  - subst. rewrite list_lookup_alter_eq.
    destruct (m !! r') as [row|]; simpl; [|done].
    apply list_lookup_fmap.
  - by rewrite list_lookup_alter_ne.
Qed.

Lemma mat_get_fill h w x r c :
  r < h -> c < w -> mat_get (mat_fill h w x) r c = Some x.
Proof.
  intros Hr Hc. unfold mat_get, mat_fill.
  rewrite lookup_replicate_2; [|done]. simpl.
  by rewrite lookup_replicate_2.
Qed.

(** Two rectangular matrices are equal when their cells are. *)
Lemma mat_ext h w (m1 m2 : matrix A) :
  rect h w m1 -> rect h w m2 ->
  (forall r c, r < h -> c < w -> mat_get m1 r c = mat_get m2 r c) -> m1 = m2.
Proof.
  intros [Hl1 Hf1] [Hl2 Hf2] Hcell.
  apply list_eq_same_length with h; [done|done|].
  intros r row1 row2 Hr E1 E2.
  rewrite Forall_lookup in Hf1, Hf2.
  apply list_eq_same_length with w; [eauto|eauto|].
  intros c x1 x2 Hc F1 F2.
  specialize (Hcell r c Hr Hc). unfold mat_get in Hcell.
  rewrite E1, E2 in Hcell. simpl in Hcell. congruence.
Qed.
End Matrix.

(** An elementwise numpy operation, [f(m)]. *)
Definition mat_map {A B} (f : A -> B) (m : matrix A) : matrix B := map (map f) m.

Lemma mat_map_rect {A B} (f : A -> B) h w (m : matrix A) :
  rect h w m -> rect h w (mat_map f m).
Proof.
  intros [Hl Hf]. unfold mat_map. split; [by rewrite length_map|]. clear Hl.
  induction Hf; simpl; constructor; [by rewrite length_map|done].
Qed.

Lemma mat_get_map {A B} (f : A -> B) (m : matrix A) r c :
  mat_get (mat_map f m) r c = f <$> mat_get m r c.
Proof.
  unfold mat_get, mat_map. rewrite list_lookup_fmap.
  destruct (m !! r) as [row|]; simpl; [|done]. apply list_lookup_fmap.
Qed.


#[export] Hint Resolve mat_alter_rect row_alter_rect mat_fill_rect mat_map_rect : fl.
#[export] Hint Rewrite @mat_get_alter_eq @mat_get_map @mat_get_fill using lia : fl_rw.
