(* ===== verification/Scalars.v ===== *)
(** * Scalars of the sample matrix, the mask and the spectrum

    [lab_2.py] keeps three numpy arrays: the image and the mask as
    [float32] arrays, the shifted spectrum [fshift] as a [complex128]
    array.  The edit tools only add to spectrum cells, conjugate
    values, read real constants as complex numbers, multiply a spectrum
    cell by a mask cell, and build [strength * exp(1j * deg2rad(phase))].
    The class [Scalars] names these operations and [ScalarLaws] the
    algebraic laws the theorems use; the theorems of the edit tools hold
    for every lawful instance.  The instance [qc_scalars] (Gaussian
    rationals over [Qc]) computes, so the examples evaluate; no instance
    on floats is built, so rounding is outside the model. *)

From stdpp Require Import base tactics.
From Stdlib Require Import ZArith QArith Qcanon.
From S2P Require Import Prelude.

Class Scalars (R C : Type) := {
  r0 : R;
  r1 : R;
  (** [uint8 / 255.0], the load-time conversion of a pixel *)
  of_byte : Z -> R;
  c0 : C;
  cadd : C -> C -> C;
  (** [np.conj] *)
  cconj : C -> C;
  (** a real float used where numpy expects a complex *)
  of_real : R -> C;
  (** [fshift * mask], one cell *)
  rscale : C -> R -> C;
  (** [m * np.exp(1j * np.deg2rad(phase))] *)
  polar : R -> R -> C;
}.

Declare Scope scalar_scope.
Delimit Scope scalar_scope with sc.
Infix "+c" := cadd (at level 50, left associativity) : scalar_scope.
Open Scope scalar_scope.

Class ScalarLaws (R C : Type) `{!Scalars R C} := {
  cadd_assoc a b c : a +c (b +c c) = (a +c b) +c c;
  cadd_comm a b : a +c b = b +c a;
  cadd_0_l a : c0 +c a = a;
  cadd_cancel_l a b c : a +c b = a +c c -> b = c;
  cconj_involutive a : cconj (cconj a) = a;
  cconj_add a b : cconj (a +c b) = cconj a +c cconj b;
  cconj_of_real r : cconj (of_real r) = of_real r;
  rscale_1 a : rscale a r1 = a;
  rscale_0 a : rscale a r0 = c0;
  polar_phase0 m : polar m r0 = of_real m;
}.

Section Laws.
Context `{ScalarLaws R C}.

Lemma cadd_0_r a : a +c c0 = a.
Proof. rewrite cadd_comm. apply cadd_0_l. Qed.

Lemma cconj_0 : cconj c0 = c0.
Proof.
  rewrite <- (cadd_0_l (cconj c0)).
  rewrite <- (cconj_involutive c0) at 1.
  rewrite <- cconj_add, cadd_0_r. apply cconj_involutive.
Qed.

Lemma cconj_inj a b : cconj a = cconj b -> a = b.
Proof. intros E. by rewrite <- (cconj_involutive a), E, cconj_involutive. Qed.
End Laws.

#[export] Hint Rewrite @cconj_involutive @cconj_add @cconj_of_real
  @cadd_0_l @cadd_0_r @cconj_0 @rscale_1 @rscale_0 : fl_rw.

(** ** Gaussian rationals

    Exact complex arithmetic over canonical rationals.  [np.exp(1j*θ)]
    is exact here only where [cos θ] and [sin θ] are rational, at the
    multiples of 90 degrees; [polar] is given at those angles and
    takes the nearest lower multiple of 90 degrees elsewhere.  The
    frequency lab never sets its [phase] variable, which stays at
    [0.0], so every use in the program is at an exact angle. *)
Module GaussQ.
Definition qc_cexp_quarter (q : Z) : Qc * Qc :=
  match Z.modulo q 4 with
  | 0%Z => (1, 0)
  | 1%Z => (0, 1)
  | 2%Z => (-(1), 0)
  | _ => (0, -(1))
  end%Qc.

#[export] Instance qc_scalars : Scalars Qc (Qc * Qc) := {
  r0 := 0%Qc;
  r1 := 1%Qc;
  of_byte b := Q2Qc (b # 255);
  c0 := (0, 0)%Qc;
  cadd a b := (a.1 + b.1, a.2 + b.2)%Qc;
  cconj a := (a.1, - a.2)%Qc;
  of_real r := (r, 0)%Qc;
  rscale a m := (a.1 * m, a.2 * m)%Qc;
  polar m ph :=
    let u := qc_cexp_quarter (Z.div (Qnum (this ph)) (90 * Zpos (Qden (this ph)))) in
    (m * u.1, m * u.2)%Qc;
}.

#[export] Instance qc_scalar_laws : ScalarLaws Qc (Qc * Qc).
Proof.
  split.
  - intros [] [] []; simpl; f_equal; ring.
  - intros [] []; simpl; f_equal; ring.
  - intros []; simpl; f_equal; ring.
  - intros [a1 a2] [b1 b2] [c1 c2] E. simpl in E.
    pose proof (f_equal fst E) as E1. pose proof (f_equal snd E) as E2.
    cbn [fst snd] in E1, E2. f_equal.
    + apply (f_equal (fun z => z - a1)%Qc) in E1. by ring_simplify in E1.
    + apply (f_equal (fun z => z - a2)%Qc) in E2. by ring_simplify in E2.
  - intros []; simpl; f_equal; ring.
  - intros [] []; simpl; f_equal; ring.
  - intros r; simpl; f_equal; ring.
  - intros []; simpl; f_equal; ring.
  - intros []; simpl; f_equal; ring.
  - intros m; simpl. f_equal; ring.
Qed.

#[export] Instance qc_pair_eq_dec : EqDecision (Qc * Qc).
Proof. solve_decision. Defined.
End GaussQ.
