(* ===== verification/Shift.v ===== *)
(** * Zero-frequency shift and the geometry of the centred spectrum

    [np.fft.fftshift] rolls every axis of length [n] right by [n // 2];
    [np.fft.ifftshift] rolls it right by [n - n // 2] (left by [n // 2]).
    [lab_2.py] applies [fftshift] after [fft2] on load and reset, and
    [ifftshift] before [ifft2] in the worker.  This file models both as
    list rotations, proves that they undo each other on any matrix, and
    relates cell positions of the centred spectrum to DFT frequencies:
    [freq n p] is the frequency stored at position [p], [hpartner n p]
    the position of the conjugate frequency [-freq n p], and [reflect n p]
    the position [n-1-p] the edit tools use as the conjugate partner. *)

From stdpp Require Import base list.
From Stdlib Require Import Lia.
From S2P Require Import Prelude.
Local Open Scope nat_scope.

(** [np.roll(l, k)] for [0 <= k <= len(l)]: element [i] moves to
    [(i + k) mod n]. *)
Definition roll {A} (k : nat) (l : list A) : list A :=
  drop (length l - k) l ++ take (length l - k) l.

(** One axis. *)
Definition fftshift1 {A} (l : list A) : list A := roll (length l / 2) l.
Definition ifftshift1 {A} (l : list A) : list A := roll (length l - length l / 2) l.

(** Both axes of a 2-D array: roll the rows, and roll within every row. *)
Definition fftshift {A} (m : matrix A) : matrix A := fftshift1 (map fftshift1 m).
Definition ifftshift {A} (m : matrix A) : matrix A := ifftshift1 (map ifftshift1 m).

(** DFT frequency index held at position [p] of a centred axis of length
    [n]: [fftshift(F)[p] = F[(p - n//2) mod n]]. *)
Definition freq (n p : nat) : nat := (p + (n - n / 2)) mod n.

(** The position holding the frequency [-freq n p]: the Hermitian
    partner of [p] in the centred spectrum. *)
Definition hpartner (n p : nat) : nat := (2 * (n / 2) + n - p) mod n.

(** The partner the edit tools of [lab_2.py] write the conjugate to:
    [h-1-y] and [w-1-x]. *)
Definition reflect (n p : nat) : nat := n - 1 - p.

Lemma half_le n : n / 2 <= n.
Proof. apply Nat.Div0.div_le_upper_bound. lia. Qed.

Section Roll.
Context {A : Type}.

Lemma length_roll k (l : list A) : length (roll k l) = length l.
Proof.
  unfold roll. rewrite length_app, length_drop, length_take. lia.
Qed.

Lemma roll_lookup k (l : list A) i :
  k <= length l -> i < length l ->
  roll k l !! i = l !! ((i + (length l - k)) mod length l).
Proof.
  intros Hk Hi. unfold roll.
  destruct (decide (i < k)) as [Hik|Hik].
  - rewrite lookup_app_l by (rewrite length_drop; lia).
    rewrite lookup_drop. f_equal.
    rewrite Nat.mod_small by lia. lia.
  - rewrite lookup_app_r by (rewrite length_drop; lia).
    rewrite length_drop, lookup_take_lt by lia. f_equal.
    replace (i + (length l - k)) with ((i - k) + 1 * length l) by lia.
    rewrite Nat.Div0.mod_add, Nat.mod_small; lia.
Qed.

(** Rolling right by [k] then by [n - k] is the identity. *)
Lemma roll_roll k (l : list A) :
  k <= length l -> roll (length l - k) (roll k l) = l.
Proof.
  intros Hk. unfold roll at 1. rewrite length_roll.
  replace (length l - (length l - k)) with k by lia.
  unfold roll.
  rewrite drop_app_length' by (rewrite length_drop; lia).
  rewrite take_app_length' by (rewrite length_drop; lia).
  apply take_drop.
Qed.

Lemma roll_map {B} (f : A -> B) k (l : list A) :
  roll k (map f l) = map f (roll k l).
Proof.
  unfold roll. rewrite length_map, map_app, <- !fmap_drop, <- !fmap_take.
  done.
Qed.
End Roll.

(** ** Round trips *)

Lemma ifftshift1_fftshift1 {A} (l : list A) : ifftshift1 (fftshift1 l) = l.
Proof.
  unfold ifftshift1, fftshift1. rewrite length_roll.
  apply roll_roll, half_le.
Qed.

Lemma fftshift1_ifftshift1 {A} (l : list A) : fftshift1 (ifftshift1 l) = l.
Proof.
  unfold ifftshift1, fftshift1. rewrite length_roll.
  pose proof (half_le (length l)).
  replace (length l / 2) with (length l - (length l - length l / 2)) at 1 by lia.
  apply roll_roll. lia.
Qed.

Lemma length_fftshift1 {A} (l : list A) : length (fftshift1 l) = length l.
Proof. apply length_roll. Qed.

Lemma length_ifftshift1 {A} (l : list A) : length (ifftshift1 l) = length l.
Proof. apply length_roll. Qed.

Lemma fftshift1_map {A B} (f : A -> B) (l : list A) :
  fftshift1 (map f l) = map f (fftshift1 l).
Proof. unfold fftshift1. rewrite length_map. apply roll_map. Qed.

Lemma ifftshift1_map {A B} (f : A -> B) (l : list A) :
  ifftshift1 (map f l) = map f (ifftshift1 l).
Proof. unfold ifftshift1. rewrite length_map. apply roll_map. Qed.

Lemma Forall_roll {A} (P : A -> Prop) k (l : list A) : Forall P l -> Forall P (roll k l).
Proof. intros Hl. unfold roll. apply Forall_app. split; [by apply Forall_drop|by apply Forall_take]. Qed.

Lemma fftshift_rect {A} h w (m : matrix A) : rect h w m -> rect h w (fftshift m).
Proof.
  intros [Hl Hf]. unfold fftshift. split.
  - by rewrite length_fftshift1, length_map.
  - apply Forall_roll, Forall_map. eapply Forall_impl; [done|].
    intros r Hr. by rewrite length_fftshift1.
Qed.

Lemma ifftshift_rect {A} h w (m : matrix A) : rect h w m -> rect h w (ifftshift m).
Proof.
  intros [Hl Hf]. unfold ifftshift. split.
  - by rewrite length_ifftshift1, length_map.
  - apply Forall_roll, Forall_map. eapply Forall_impl; [done|].
    intros r Hr. by rewrite length_ifftshift1.
Qed.

#[export] Hint Resolve fftshift_rect ifftshift_rect : fl.

#[export] Hint Rewrite @ifftshift1_fftshift1 @fftshift1_ifftshift1
  @length_fftshift1 @length_ifftshift1 : fl_rw.

(** [ifftshift] undoes [fftshift] on every 2-D array (ragged ones too). *)
Lemma ifftshift_fftshift {A} (m : matrix A) : ifftshift (fftshift m) = m.
Proof.
  unfold ifftshift, fftshift.
  rewrite fftshift1_map, map_map, ifftshift1_map, ifftshift1_fftshift1.
  erewrite map_ext; [apply map_id|]. apply ifftshift1_fftshift1.
Qed.

(** [fftshift] undoes [ifftshift] on every 2-D array. *)
Lemma fftshift_ifftshift {A} (m : matrix A) : fftshift (ifftshift m) = m.
Proof.
  unfold ifftshift, fftshift.
  rewrite ifftshift1_map, map_map, fftshift1_map, fftshift1_ifftshift1.
  erewrite map_ext; [apply map_id|]. apply fftshift1_ifftshift1.
Qed.

Lemma fftshift1_lookup {A} (l : list A) p :
  p < length l -> fftshift1 l !! p = l !! freq (length l) p.
Proof.
  intros Hp. unfold fftshift1, freq. apply roll_lookup; [apply half_le|done].
Qed.

(** ** Positions and frequencies *)

Lemma freq_lt n p : 0 < n -> freq n p < n.
Proof. intros Hn. unfold freq. apply Nat.mod_upper_bound. lia. Qed.

(** The centre [n // 2] ([cx], [cy] in [on_click]) holds frequency 0. *)
Lemma freq_center n : 0 < n -> freq n (n / 2) = 0.
Proof.
  intros Hn. unfold freq.
  pose proof (half_le n).
  replace (n / 2 + (n - n / 2)) with (1 * n) by lia.
  apply Nat.Div0.mod_mul.
Qed.

Lemma hpartner_lt n p : 0 < n -> hpartner n p < n.
Proof. intros Hn. unfold hpartner. apply Nat.mod_upper_bound. lia. Qed.

(** [hpartner] really finds the conjugate frequency. *)
Lemma freq_hpartner n p :
  0 < n -> p < n -> (freq n (hpartner n p) + freq n p) mod n = 0.
Proof.
  intros Hn Hp. unfold freq, hpartner.
  rewrite Nat.Div0.add_mod_idemp_r, Nat.Div0.add_mod_idemp_l.
  rewrite <- Nat.add_assoc, Nat.Div0.add_mod_idemp_l.
  assert (2 * (n / 2) <= n) by (apply Nat.Div0.mul_div_le).
  replace ((2 * (n / 2) + n - p) + ((n - n / 2) + (p + (n - n / 2))))
    with (3 * n) by lia.
  apply Nat.Div0.mod_mul.
Qed.

Lemma hpartner_odd n p : Nat.odd n = true -> p < n -> hpartner n p = reflect n p.
Proof.
  intros Hodd Hp. unfold hpartner, reflect.
  apply Nat.odd_spec in Hodd as [k ->].
  replace ((2 * k + 1) / 2) with k by (apply Nat.div_unique with 1; lia).
  replace (2 * k + (2 * k + 1) - p) with ((2 * k + 1 - 1 - p) + 1 * (2 * k + 1)) by lia.
  rewrite Nat.Div0.mod_add, Nat.mod_small; lia.
Qed.

Lemma hpartner_even n p : Nat.even n = true -> p < n -> hpartner n p = (n - p) mod n.
Proof.
  intros Hev Hp. unfold hpartner.
  apply Nat.even_spec in Hev as [k ->].
  replace (2 * k / 2) with k by (apply Nat.div_unique with 0; lia).
  replace (2 * k + 2 * k - p) with ((2 * k - p) + 1 * (2 * k)) by lia.
  apply Nat.Div0.mod_add.
Qed.

Lemma reflect_lt n p : p < n -> reflect n p < n.
Proof. unfold reflect. lia. Qed.

Lemma reflect_involutive n p : p < n -> reflect n (reflect n p) = p.
Proof. unfold reflect. lia. Qed.

(** The centre is its own Hermitian partner. *)
Lemma hpartner_center n : 0 < n -> hpartner n (n / 2) = n / 2.
Proof.
  intros Hn. unfold hpartner. pose proof (Nat.Div0.mul_div_le n 2).
  replace (2 * (n / 2) + n - n / 2) with (n / 2 + 1 * n) by lia.
  rewrite Nat.Div0.mod_add. apply Nat.mod_small.
  apply Nat.Div0.div_lt_upper_bound; lia.
Qed.

(** On an axis of even length the cell [lab_2.py] pairs with [p] is never
    the Hermitian partner of [p]. *)
Theorem reflect_ne_hpartner_even n p :
  Nat.even n = true -> p < n -> reflect n p <> hpartner n p.
Proof.
  intros Hev Hp. rewrite hpartner_even by done. unfold reflect.
  apply Nat.even_spec in Hev as [k ->].
  destruct (decide (p = 0)) as [->|Hp0].
  - rewrite !Nat.sub_0_r, Nat.Div0.mod_same. lia.
  - rewrite Nat.mod_small by lia. lia.
Qed.

(** C6: The code's partner is the Hermitian one exactly on odd lengths. *)
Theorem reflect_hpartner_iff_odd n :
  0 < n -> (forall p, p < n -> reflect n p = hpartner n p) <-> Nat.odd n = true.
Proof.
  intros Hn. split.
  - intros Hall. destruct (Nat.odd n) eqn:Ho; [done|].
    assert (Hev : Nat.even n = true) by (rewrite <- Nat.negb_odd, Ho; done).
    exfalso. apply (reflect_ne_hpartner_even n 0 Hev Hn). by apply Hall.
  - intros Ho p Hp. symmetry. by apply hpartner_odd.
Qed.

#[export] Hint Resolve freq_lt hpartner_lt reflect_lt : fl.

(** On the odd length 5 every position is paired with its Hermitian
    partner. *)
Lemma reflect_hpartner_iff_odd_witness :
  (forall p, p < 5 -> reflect 5 p = hpartner 5 p) <-> Nat.odd 5 = true.
Proof. apply (reflect_hpartner_iff_odd 5). lia. Defined.
