(* ===== verification/Store.v ===== *)
(** * The spectrum store of [UltimateFrequencyLab] ([src/HW3/lab_2.py])

    The state of the application object: the sample matrix [self.img],
    the centred spectrum [self.fshift], the mask [self.mask], the last
    rendered result [self.result_cache] and the two [queue.Queue]s shared
    with the worker thread.  The discrete Fourier transform is the
    trusted library primitive of the class [Transform]; [fftshift] and
    [ifftshift] are the concrete rotations of [Shift].  The operations of
    this file are the handlers that replace the arrays wholesale:
    [load_image], [reset_image], [clear_all], and [trigger_recompute],
    which takes the snapshot the worker consumes. *)

From stdpp Require Import base list.
From Stdlib Require Import ZArith QArith Qcanon.
From S2P Require Import Prelude Scalars Shift.
Local Open Scope nat_scope.

(** The trusted transform: [np.fft.fft2], [np.fft.ifft2] and [np.abs]. *)
Class Transform (R C : Type) := {
  fft2 : matrix R -> matrix C;
  ifft2 : matrix C -> matrix C;
  cabs : C -> R;
}.

(** What the store relies on: the transforms keep the shape. *)
Class TransformLaws (R C : Type) `{!Transform R C} := {
  fft2_rect h w (m : matrix R) : rect h w m -> rect h w (fft2 m);
  ifft2_rect h w (m : matrix C) : rect h w m -> rect h w (ifft2 m);
}.

#[export] Hint Resolve fft2_rect ifft2_rect : fl.

(** A file dialog either is cancelled or yields what [cv2.imread]
    returned: [None] for an unreadable file, else a [uint8] array. *)
Inductive dialog (A : Type) : Type :=
| Cancelled
| Chosen (a : A).
Arguments Cancelled {_}.
Arguments Chosen {_} _.

(** [np.ones_like(a)] and [a.fill(x)]: an array of [x] of the shape of [a]. *)
Definition fill_like {A B} (x : A) (m : matrix B) : matrix A := mat_map (fun _ => x) m.

Lemma fill_like_rect {A B} (x : A) (m : matrix B) h w : rect h w m -> rect h w (fill_like x m).
Proof. apply mat_map_rect. Qed.

Lemma fill_like_idemp {A B} (x : A) (m : matrix B) : fill_like x (fill_like x m) = fill_like x m.
Proof.
  unfold fill_like, mat_map. rewrite map_map. apply map_ext. intros r. by rewrite map_map.
Qed.

#[export] Hint Resolve fill_like_rect : fl.

Section Store.
Context {R C : Type}.

(** [("compute", f_copy, m_copy)], the message put on [task_queue]. *)
Record request := mkRequest {
  req_fshift : matrix C;
  req_mask : matrix R;
}.

Record lab := mkLab {
  img : option (matrix R);
  fshift : option (matrix C);
  mask : option (matrix R);
  result_cache : option (matrix R);
  task_queue : list request;
  result_queue : list (matrix R);
}.

(** [__init__]: nothing loaded, both queues empty. *)
Definition lab_init : lab := mkLab None None None None [] [].

Definition set_fshift (f : matrix C) (st : lab) : lab :=
  mkLab (img st) (Some f) (mask st) (result_cache st) (task_queue st) (result_queue st).
Definition set_mask (m : matrix R) (st : lab) : lab :=
  mkLab (img st) (fshift st) (Some m) (result_cache st) (task_queue st) (result_queue st).
Definition set_tasks (q : list request) (st : lab) : lab :=
  mkLab (img st) (fshift st) (mask st) (result_cache st) q (result_queue st).
Definition set_results (q : list (matrix R)) (st : lab) : lab :=
  mkLab (img st) (fshift st) (mask st) (result_cache st) (task_queue st) q.
Definition set_cache (r : matrix R) (st : lab) : lab :=
  mkLab (img st) (fshift st) (mask st) (Some r) (task_queue st) (result_queue st).
End Store.

Arguments request : clear implicits.
Arguments lab : clear implicits.

Section Operations.
Context `{ScalarLaws R C} `{!Transform R C}.

Abbreviation lab := (lab R C).

(** [np.fft.fftshift(np.fft.fft2(img))] *)
Definition transform_image (i : matrix R) : matrix C := fftshift (fft2 i).

(** [update_display] only renders; it reads [self.fshift] and
    [self.mask], which raises on [None] once an image is loaded. *)
Definition update_display : pyM lab unit :=
  st ← get;
  match img st with
  | None => mret tt
  | Some _ =>
      match fshift st, mask st with
      | Some _, Some _ => mret tt
      | _, _ => throw NoneError
      end
  end.

(** [trigger_recompute]: return when no spectrum exists; otherwise copy
    the spectrum and the mask and put the pair on [task_queue]. *)
Definition trigger_recompute : pyM lab unit :=
  st ← get;
  match fshift st with
  | None => mret tt
  | Some f =>
      match mask st with
      | None => throw NoneError
      | Some m => put (set_tasks (task_queue st ++ [mkRequest f m]) st)
      end
  end.

(** [load_image]: scale the pixels to [0, 1], transform, reset the
    mask to ones, redraw and recompute. *)
Definition load_image (file : dialog (option (matrix Z))) : pyM lab unit :=
  match file with
  | Cancelled => mret tt
  | Chosen None => mret tt
  | Chosen (Some pix) =>
      let i := mat_map of_byte pix in
      modify (fun st => mkLab (Some i) (Some (transform_image i)) (Some (fill_like r1 i))
                          (result_cache st) (task_queue st) (result_queue st));;
      update_display;;
      trigger_recompute
  end.

(** [reset_image]: recompute the spectrum from the image and refill
    the mask with ones. *)
Definition reset_image : pyM lab unit :=
  st ← get;
  match img st with
  | None => mret tt
  | Some i =>
      modify (set_fshift (transform_image i));;
      st' ← get;
      match mask st' with
      | None => throw NoneError
      | Some m =>
          put (set_mask (fill_like r1 m) st');;
          update_display;;
          trigger_recompute
      end
  end.

(** [clear_all]: refill the mask with ones, keep the spectrum. *)
Definition clear_all : pyM lab unit :=
  st ← get;
  match fshift st with
  | None => mret tt
  | Some _ =>
      match mask st with
      | None => throw NoneError
      | Some m =>
          put (set_mask (fill_like r1 m) st);;
          update_display;;
          trigger_recompute
      end
  end.
End Operations.

(** ** Well-formedness of the store *)

Section Invariant.
Context `{ScalarLaws R C} `{!Transform R C} `{!TransformLaws R C}.

(** The three arrays exist together, and have one common non-empty shape. *)
Definition arrays_wf (i : option (matrix R)) (f : option (matrix C))
    (m : option (matrix R)) : Prop :=
  match i, f, m with
  | None, None, None => True
  | Some i, Some f, Some m =>
      exists h w, 0 < h /\ 0 < w /\ rect h w i /\ rect h w f /\ rect h w m
  | _, _, _ => False
  end.

(** A snapshot pairs a spectrum and a mask of one shape: the worker's
    [fshift * mask] never meets a dimension mismatch. *)
Definition req_wf (q : request R C) : Prop :=
  exists h w, 0 < h /\ 0 < w /\ rect h w (req_fshift q) /\ rect h w (req_mask q).

Definition lab_wf (st : lab R C) : Prop :=
  arrays_wf (img st) (fshift st) (mask st) /\ Forall req_wf (task_queue st).

Lemma lab_init_wf : lab_wf lab_init.
Proof. split; [done|constructor]. Qed.

Lemma update_display_state (st : lab R C) : (update_display st).1 = st.
Proof. unfold update_display. pyM_run. by repeat case_match. Qed.

(** The snapshot leaves the arrays, the result queue and the cache. *)
Lemma trigger_recompute_arrays (st : lab R C) :
  let st' := (trigger_recompute st).1 in
  img st' = img st /\ fshift st' = fshift st /\ mask st' = mask st /\
  result_cache st' = result_cache st /\ result_queue st' = result_queue st.
Proof. unfold trigger_recompute. pyM_run. by repeat case_match; simplify_eq. Qed.

Lemma trigger_recompute_tasks (st : lab R C) :
  exists new, task_queue (trigger_recompute st).1 = task_queue st ++ new.
Proof.
  unfold trigger_recompute. pyM_run.
  repeat case_match; simpl; eauto; exists []; by rewrite app_nil_r.
Qed.

(** On a well-formed store [update_display] only draws: it raises nothing and leaves the state as it was. *)
Lemma update_display_ok st :
  arrays_wf (img st) (fshift st) (mask st) -> update_display st = (st, Ok tt).
Proof.
  destruct st as [[i|] [f|] [m|] ? ? ?]; simpl; done.
Qed.

(** The snapshot taken by [trigger_recompute] is the live spectrum and
    mask, appended at the tail of the queue. *)
Lemma trigger_recompute_spec st :
  arrays_wf (img st) (fshift st) (mask st) ->
  trigger_recompute st =
    (match fshift st, mask st with
     | Some f, Some m => set_tasks (task_queue st ++ [mkRequest f m]) st
     | _, _ => st
     end, Ok tt).
Proof.
  destruct st as [[i|] [f|] [m|] ? ? ?]; simpl; done.
Qed.

(** The well-formed store gives the shape of the spectrum. *)
Lemma lab_wf_shape (st : lab R C) f :
  lab_wf st -> fshift st = Some f ->
  0 < rows f /\ 0 < cols f /\ rect (rows f) (cols f) f /\ is_Some (mask st).
Proof.
  intros [Ha _] Hf. destruct st as [[i|] [f0|] [m|] ? ? ?]; simpl in *; try done.
  injection Hf as ->. destruct Ha as (h & w & Hh & Hw & _ & Hrf & _).
  destruct (rect_rows_cols h w f Hrf Hh) as [-> ->]. split_ands; eauto.
Qed.

Lemma trigger_recompute_wf st :
  lab_wf st -> lab_wf (trigger_recompute st).1.
Proof.
  intros [Ha Hq]. rewrite trigger_recompute_spec by done.
  destruct st as [[i|] [f|] [m|] ? ? ?]; simpl in *; try done.
  split; [done|]. apply Forall_app; split; [done|].
  constructor; [|constructor].
  destruct Ha as (h & w & ? & ? & ? & ? & ?). by exists h, w.
Qed.
End Invariant.

Section Handlers.
Context `{ScalarLaws R C} `{!Transform R C} `{!TransformLaws R C}.

(** [load_image] on a decoded image: the three arrays are replaced and
    one snapshot of the new spectrum and mask is queued. *)
Lemma load_image_spec (pix : matrix Z) (st : lab R C) :
  let i := mat_map of_byte pix in
  load_image (Chosen (Some pix)) st =
    (mkLab (Some i) (Some (transform_image i)) (Some (fill_like r1 i))
       (result_cache st)
       (task_queue st ++ [mkRequest (transform_image i) (fill_like r1 i)])
       (result_queue st), Ok tt).
Proof. done. Qed.

Lemma load_image_wf file (st : lab R C) :
  lab_wf st ->
  (forall pix, file = Chosen (Some pix) ->
     exists h w, 0 < h /\ 0 < w /\ rect h w pix) ->
  lab_wf (load_image file st).1.
Proof.
  intros Hwf Hpix. destruct file as [|[pix|]]; try done.
  destruct (Hpix pix eq_refl) as (h & w & Hh & Hw & Hr).
  rewrite load_image_spec. destruct Hwf as [_ Hq]. split; simpl.
  - exists h, w. unfold transform_image. split_ands; try lia; eauto with fl.
  - apply Forall_app; split; [done|]. constructor; [|constructor].
    exists h, w. unfold transform_image. simpl. split_ands; try lia; eauto with fl.
Qed.

Lemma reset_image_spec (st : lab R C) i f m :
  img st = Some i -> fshift st = Some f -> mask st = Some m ->
  reset_image st =
    (mkLab (Some i) (Some (transform_image i)) (Some (fill_like r1 m))
       (result_cache st)
       (task_queue st ++ [mkRequest (transform_image i) (fill_like r1 m)])
       (result_queue st), Ok tt).
Proof. destruct st; simpl; intros -> -> ->. done. Qed.

(** Reset twice gives the arrays of one reset. *)
Lemma reset_image_idempotent (st : lab R C) :
  lab_wf st ->
  let st1 := (reset_image st).1 in
  let st2 := (reset_image st1).1 in
  img st2 = img st1 /\ fshift st2 = fshift st1 /\ mask st2 = mask st1.
Proof.
  intros [Ha _]. destruct st as [[i|] [f|] [m|] ? ? ?]; simpl in Ha |- *; try done.
  by rewrite fill_like_idemp.
Qed.

Lemma clear_all_spec (st : lab R C) f m :
  fshift st = Some f -> mask st = Some m -> img st <> None ->
  clear_all st =
    (mkLab (img st) (Some f) (Some (fill_like r1 m)) (result_cache st)
       (task_queue st ++ [mkRequest f (fill_like r1 m)]) (result_queue st), Ok tt).
Proof. destruct st as [[i|] ? ? ? ? ?]; simpl; intros -> -> ?; done. Qed.
End Handlers.

(** ** A computable transform on Gaussian rationals

    [np.fft.fft2] is trusted: the development states only what the
    store needs of it.  To run the handlers on concrete arrays, this
    instance keeps the zero-frequency coefficient of the DFT (the sum of
    the samples, at index [(0, 0)]) and zeroes the others, which is the
    exact DFT of a 1 by 1 array; [ifft2] is the identity, which is the
    exact inverse DFT on 1 by 1 arrays, and [cabs] takes the real part. *)
Module DcTransform.
Import GaussQ.

Definition dc_sum (m : matrix Qc) : Qc := foldr Qcplus 0%Qc (map (foldr Qcplus 0%Qc) m).

Definition dc_fft2 (m : matrix Qc) : matrix (Qc * Qc) :=
  mat_alter (fun _ => of_real (dc_sum m)) 0 0 (mat_map (fun _ => c0) m).

#[export] Instance dc_transform : Transform Qc (Qc * Qc) := {
  fft2 := dc_fft2;
  ifft2 m := m;
  cabs c := c.1;
}.

#[export] Instance dc_transform_laws : TransformLaws Qc (Qc * Qc).
Proof. split; simpl; [intros; unfold dc_fft2; by apply mat_alter_rect, mat_map_rect|done]. Qed.
End DcTransform.

(** ** The handlers on a loaded 2 by 2 image *)
Module StoreWitness.
Import GaussQ DcTransform.

Definition pix2 : matrix Z := [[0; 128]; [255; 64]]%Z.
Definition lab2 : lab Qc (Qc * Qc) :=
  (load_image (Chosen (Some pix2)) (lab_init : lab Qc (Qc * Qc))).1.

Lemma lab2_wf : lab_wf lab2.
Proof.
  apply load_image_wf; [apply lab_init_wf|].
  intros pix [= <-]. exists 2, 2. split_ands; [lia|lia|rect_by_compute].
Qed.

Lemma update_display_ok_witness : update_display lab2 = (lab2, Ok tt).
Proof. apply update_display_ok. apply lab2_wf. Defined.

Lemma reset_image_idempotent_witness :
  let st1 := (reset_image lab2).1 in
  let st2 := (reset_image st1).1 in
  img st2 = img st1 /\ fshift st2 = fshift st1 /\ mask st2 = mask st1.
Proof. apply reset_image_idempotent. apply lab2_wf. Defined.
End StoreWitness.
