(* ===== verification/Edits.v ===== *)
(** * The edit tools of [on_click] ([src/HW3/lab_2.py], lines 173-211)

    A click on the spectrum panel is turned into integer coordinates
    [x, y = int(xdata + 0.5), int(ydata + 0.5)]; under the lock, the
    selected tool then edits the mask (brush, erase) or the spectrum
    (sine, line, ring, grid); the display is redrawn and a snapshot is
    queued.  The coordinates are not checked: numpy subscripts wrap
    negative indices and raise [IndexError] on the others, and the
    writes done before the raise stay.  The spectrum tools are written
    in [pyM (matrix C)], with the spectrum as the state; [on_click]
    lifts them to the application state. *)

From stdpp Require Import base list.
From Stdlib Require Import ZArith QArith Qcanon.
From S2P Require Import Prelude Scalars Shift Store.
Local Open Scope Z_scope.

Inductive tool := Brush | Erase | Sine | Line | Ring | Grid.

#[export] Instance tool_eq_dec : EqDecision tool.
Proof. solve_decision. Defined.

(** The Tk variables read by [on_click]: [self.tool], [self.brush_size]
    (an [IntVar]), [self.strength], [self.freq_u], [self.freq_v] (two
    [DoubleVar]s) and [self.phase]. *)
Record controls (R : Type) := mkControls {
  tool_sel : tool;
  brush_size : Z;
  strength : R;
  freq_u : Q;
  freq_v : Q;
  phase : R;
}.
Arguments mkControls {_}.
Arguments tool_sel {_}. Arguments brush_size {_}. Arguments strength {_}.
Arguments freq_u {_}. Arguments freq_v {_}. Arguments phase {_}.

(** A matplotlib button press: whether it fell in the spectrum axes
    ([event.inaxes == self.ax2]) and its data coordinates. *)
Record click := mkClick { in_ax2 : bool; xdata : Q; ydata : Q }.

(** [int(v + 0.5)] *)
Definition click_coord (v : Q) : Z := py_int (v + (1 # 2))%Q.

(** ** The geometry of [cv2.circle] and of the ring *)

(** [cv2.circle(mask, (x, y), radius, value, -1)] fills the pixels of
    the disc of that radius around column [x], row [y], clipped to the
    array. *)
Definition in_disc (x y rad : Z) (i j : nat) : bool :=
  (Z.of_nat j - x) ^ 2 + (Z.of_nat i - y) ^ 2 <=? rad ^ 2.

Definition circle {R} (x y rad : Z) (v : R) (m : matrix R) : matrix R :=
  imap (fun i row => imap (fun j a => if in_disc x y rad i j then v else a) row) m.

(** [sqrt a < sqrt b + 6] for [0 <= a, b], decided on integers:
    [a < b + 12 sqrt b + 36] iff [a - b - 36 < 0] or
    [(a - b - 36)^2 < 144 b]. *)
Definition band_lt (a b : Z) : bool :=
  (a - b - 36 <? 0) || ((a - b - 36) ^ 2 <? 144 * b).

(** [abs(hypot(dx, dy) - r) < 6] with [d2 = dx^2 + dy^2] and [r2 = r^2]. *)
Definition in_ring (d2 r2 : Z) : bool := band_lt d2 r2 && band_lt r2 d2.

(** [ring = np.abs(np.hypot(xx - cx, yy - cy) - r) < 6] over the grid
    [yy, xx = np.ogrid[:h, :w]]. *)
Definition ring_mask (h w : nat) (cx cy r2 : Z) : matrix bool :=
  map (fun i => map (fun j => in_ring ((Z.of_nat j - cx) ^ 2 + (Z.of_nat i - cy) ^ 2) r2)
                    (seq 0 w)) (seq 0 h).

(** [np.flipud(np.fliplr(b))] *)
Definition flip2 {A} (b : matrix A) : matrix A := reverse (map reverse b).

Section Tools.
Context `{ScalarLaws R C} `{!Transform R C}.

(** [f[y, x] += v] *)
Definition add_at (y x : Z) (v : C) : pyM (matrix C) unit :=
  f ← get;
  r ← lift_index (np_index (rows f) y);
  c ← lift_index (np_index (cols f) x);
  put (mat_alter (fun a => a +c v) r c f).

(** [f[y, :] += v] *)
Definition add_row (y : Z) (v : C) : pyM (matrix C) unit :=
  f ← get;
  r ← lift_index (np_index (rows f) y);
  put (row_alter (fun a => a +c v) r f).

(** [f[b] += v] for a boolean array [b] of the shape of [f] *)
Definition add_where (b : matrix bool) (v : C) (f : matrix C) : matrix C :=
  zip_with (zip_with (fun (bit : bool) (a : C) => if bit then a +c v else a)) b f.

(** "sine": the point and, unless it is the centre, its conjugate at
    [(h-1-y, w-1-x)]. *)
Definition sine_tool (h w cx cy x y : Z) (val : C) : pyM (matrix C) unit :=
  add_at y x val;;
  if negb (bool_decide (x = cx) && bool_decide (y = cy))
  then add_at (h - 1 - y) (w - 1 - x) (cconj val)
  else mret tt.

(** "line": row [y] and row [h-1-y]. *)
Definition line_tool (h y : Z) (s : R) : pyM (matrix C) unit :=
  add_row y (of_real s);;
  add_row (h - 1 - y) (of_real s).

(** "ring": the annulus through the click and its flipped copy. *)
Definition ring_tool (h w : nat) (cx cy x y : Z) (s : R) : pyM (matrix C) unit :=
  let ring := ring_mask h w cx cy ((x - cx) ^ 2 + (y - cy) ^ 2) in
  modify (add_where ring (of_real s));;
  modify (add_where (flip2 ring) (of_real s)).

(** [for dy in [-v, v]: for dx in [-u, u]:] *)
Definition grid_offsets (u v : Z) : list (Z * Z) :=
  [(- v, - u); (- v, u); (v, - u); (v, u)].

(** "grid": four wrapped points around the click and their partners. *)
Definition grid_tool (h w x y u v : Z) (s : R) : pyM (matrix C) unit :=
  for_ (grid_offsets u v) (fun '(dy, dx) =>
    if bool_decide (dx = 0) && bool_decide (dy = 0) then mret tt
    else
      let ny := py_mod (y + dy) h in
      let nx := py_mod (x + dx) w in
      add_at ny nx (of_real s);;
      add_at (h - 1 - ny) (w - 1 - nx) (of_real s)).

(** Run a spectrum tool on [self.fshift]; what it wrote before a
    raise is kept. *)
Definition on_fshift (t : pyM (matrix C) unit) : pyM (lab R C) unit := fun st =>
  match fshift st with
  | Some f => let '(f', o) := t f in (set_fshift f' st, o)
  | None => (st, Raise NoneError)
  end.

Definition on_mask (t : matrix R -> matrix R) : pyM (lab R C) unit := fun st =>
  match mask st with
  | Some m => (set_mask (t m) st, Ok tt)
  | None => (st, Raise NoneError)
  end.

(** The body of [on_click] under [with self.lock:]. *)
Definition apply_tool (ctl : controls R) (h w : nat) (x y : Z) : pyM (lab R C) unit :=
  let hz := Z.of_nat h in
  let wz := Z.of_nat w in
  let cx := wz / 2 in
  let cy := hz / 2 in
  let s := strength ctl in
  match tool_sel ctl with
  | Brush => on_mask (circle x y (brush_size ctl) r1)
  | Erase => on_mask (circle x y (brush_size ctl) r0)
  | Sine => on_fshift (sine_tool hz wz cx cy x y (polar s (phase ctl)))
  | Line => on_fshift (line_tool hz y s)
  | Ring => on_fshift (ring_tool h w cx cy x y s)
  | Grid => on_fshift (grid_tool hz wz x y (py_int (freq_u ctl)) (py_int (freq_v ctl)) s)
  end.

Definition on_click (ctl : controls R) (ev : click) : pyM (lab R C) unit :=
  st ← get;
  match fshift st with
  | None => mret tt
  | Some f =>
      if negb (in_ax2 ev) then mret tt
      else
        apply_tool ctl (rows f) (cols f) (click_coord (xdata ev)) (click_coord (ydata ev));;
        update_display;;
        trigger_recompute
  end.
End Tools.

(** ** Cell-level behaviour of the numpy updates *)

Section ToolLemmas.
Context `{ScalarLaws R C} `{!Transform R C}.

(** [f[y, x] += v] on every branch: both subscripts resolve, or
    [IndexError] with [f] untouched. *)
Lemma add_at_spec y x v (f : matrix C) :
  add_at y x v f =
    match np_index (rows f) y, np_index (cols f) x with
    | Some r, Some c => (mat_alter (fun a => a +c v) r c f, Ok tt)
    | _, _ => (f, Raise IndexError)
    end.
Proof.
  unfold add_at. pyM_run.
  destruct (np_index (rows f) y), (np_index (cols f) x); done.
Qed.

Lemma add_row_spec y v (f : matrix C) :
  add_row y v f =
    match np_index (rows f) y with
    | Some r => (row_alter (fun a => a +c v) r f, Ok tt)
    | None => (f, Raise IndexError)
    end.
Proof. unfold add_row. pyM_run. destruct (np_index (rows f) y); done. Qed.

Lemma rows_mat_alter g r c (f : matrix C) : rows (mat_alter g r c f) = rows f.
Proof. apply length_alter. Qed.

Lemma rows_row_alter g r (f : matrix C) : rows (row_alter g r f) = rows f.
Proof. apply length_alter. Qed.

Lemma cols_mat_alter g r c h w (f : matrix C) :
  rect h w f -> (0 < h)%nat -> cols (mat_alter g r c f) = cols f.
Proof.
  intros Hf Hh. pose proof (mat_alter_rect h w g r c f Hf) as Hf'.
  apply rect_rows_cols in Hf, Hf'; [|lia..]. lia.
Qed.

(** In-range subscripts of an [h] by [w] spectrum. *)
Lemma np_index_rect_rows h w (f : matrix C) i :
  rect h w f -> 0 <= i < Z.of_nat h -> np_index (rows f) i = Some (Z.to_nat i).
Proof. intros [Hl _] Hi. unfold rows. rewrite Hl. by apply np_index_in_range. Qed.

Lemma np_index_rect_cols h w (f : matrix C) i :
  rect h w f -> (0 < h)%nat -> 0 <= i < Z.of_nat w -> np_index (cols f) i = Some (Z.to_nat i).
Proof.
  intros Hf Hh Hi. destruct (rect_rows_cols h w f Hf Hh) as [_ ->].
  by apply np_index_in_range.
Qed.

Lemma add_at_in_range h w y x v (f : matrix C) :
  rect h w f -> (0 < h)%nat -> 0 <= y < Z.of_nat h -> 0 <= x < Z.of_nat w ->
  add_at y x v f = (mat_alter (fun a => a +c v) (Z.to_nat y) (Z.to_nat x) f, Ok tt).
Proof.
  intros Hf Hh Hy Hx. rewrite add_at_spec.
  by rewrite (np_index_rect_rows h w), (np_index_rect_cols h w).
Qed.
End ToolLemmas.

(** ** The spectrum tools on every branch *)

Section ToolTheorems.
Context `{ScalarLaws R C} `{!Transform R C}.

(** A click inside the array: the point gets [val] and, off the
    centre, the cell [(h-1-y, w-1-x)] gets its conjugate. *)
Lemma sine_tool_in_range h w cx cy y x val (f : matrix C) :
  rect h w f -> (0 < h)%nat -> 0 <= y < Z.of_nat h -> 0 <= x < Z.of_nat w ->
  sine_tool (Z.of_nat h) (Z.of_nat w) cx cy x y val f =
    (let f1 := mat_alter (fun a => a +c val) (Z.to_nat y) (Z.to_nat x) f in
     if bool_decide (x = cx) && bool_decide (y = cy) then f1
     else mat_alter (fun a => a +c cconj val) (reflect h (Z.to_nat y))
            (reflect w (Z.to_nat x)) f1, Ok tt).
Proof.
  intros Hf Hh Hy Hx. unfold sine_tool.
  rewrite (pyM_bind_ok _ _ _ _ tt (add_at_in_range h w y x val f Hf Hh Hy Hx)).
  destruct (bool_decide (x = cx) && bool_decide (y = cy)); simpl; [done|].
  rewrite (add_at_in_range h w); [|eauto with fl|done|lia|lia].
  unfold reflect. do 3 f_equal; lia.
Qed.

(** C9: A click one row above the array ([-h <= y < 0]): the first write
    wraps to row [y + h], then [h-1-y >= h] raises.  The spectrum is
    left half edited. *)
Lemma sine_tool_wraps_then_raises h w y x val (f : matrix C) :
  rect h w f -> (0 < h)%nat -> - Z.of_nat h <= y < 0 -> 0 <= x < Z.of_nat w ->
  sine_tool (Z.of_nat h) (Z.of_nat w) (Z.of_nat w / 2) (Z.of_nat h / 2) x y val f =
    (mat_alter (fun a => a +c val) (Z.to_nat (y + Z.of_nat h)) (Z.to_nat x) f,
     Raise IndexError).
Proof.
  intros Hf Hh Hy Hx. unfold sine_tool.
  assert (Hrows : rows f = h) by apply Hf.
  assert (E1 : add_at y x val f =
    (mat_alter (fun a => a +c val) (Z.to_nat (y + Z.of_nat h)) (Z.to_nat x) f, Ok tt)).
  { rewrite add_at_spec, Hrows, np_index_negative by lia.
    by rewrite (np_index_rect_cols h w). }
  rewrite (pyM_bind_ok _ _ _ _ tt E1).
  assert (Hc : bool_decide (y = Z.of_nat h / 2) = false).
  { apply bool_decide_eq_false_2. pose proof (Z.div_pos (Z.of_nat h) 2). lia. }
  rewrite Hc, andb_false_r. simpl.
  rewrite add_at_spec, rows_mat_alter, Hrows.
  replace (np_index h (Z.of_nat h - 1 - y)) with (@None nat); [done|].
  symmetry. apply np_index_None. lia.
Qed.

(** The grid tool indexes modulo the shape: it never raises. *)
Lemma grid_tool_ok h w x y u v s (f : matrix C) :
  rect h w f -> (0 < h)%nat -> (0 < w)%nat ->
  exists f', grid_tool (Z.of_nat h) (Z.of_nat w) x y u v s f = (f', Ok tt) /\ rect h w f'.
Proof.
  intros Hf Hh Hw. unfold grid_tool. apply (for_ok (rect h w)); [|done].
  intros [dy dx] g Hg. simpl.
  destruct (bool_decide (dx = 0) && bool_decide (dy = 0)); [by exists g|].
  pose proof (py_mod_range (y + dy) (Z.of_nat h) ltac:(lia)).
  pose proof (py_mod_range (x + dx) (Z.of_nat w) ltac:(lia)).
  rewrite (pyM_bind_ok _ _ _ _ tt (add_at_in_range h w (py_mod (y + dy) (Z.of_nat h))
    (py_mod (x + dx) (Z.of_nat w)) (of_real s) g Hg Hh ltac:(lia) ltac:(lia))).
  rewrite (add_at_in_range h w); [|eauto with fl|done|lia|lia].
  eexists; split; [done|eauto with fl].
Qed.

Lemma line_tool_in_range h w y s (f : matrix C) :
  rect h w f -> 0 <= y < Z.of_nat h ->
  line_tool (Z.of_nat h) y s f =
    (row_alter (fun a => a +c of_real s) (reflect h (Z.to_nat y))
       (row_alter (fun a => a +c of_real s) (Z.to_nat y) f), Ok tt).
Proof.
  intros Hf Hy. assert (Hrows : rows f = h) by apply Hf.
  unfold line_tool.
  assert (E1 : add_row y (of_real s) f =
    (row_alter (fun a => a +c of_real s) (Z.to_nat y) f, Ok tt)).
  { by rewrite add_row_spec, Hrows, np_index_in_range by lia. }
  rewrite (pyM_bind_ok _ _ _ _ tt E1), add_row_spec, rows_row_alter, Hrows.
  rewrite np_index_in_range by lia.
  unfold reflect. do 3 f_equal. lia.
Qed.
End ToolTheorems.

(** ** The whole click handler *)

Section ClickTheorems.
Context `{ScalarLaws R C} `{!Transform R C}.

(** A tool changes only [fshift] or [mask], and never drops them. *)
Lemma apply_tool_fields ctl h w x y (st : lab R C) :
  let st1 := (apply_tool ctl h w x y st).1 in
  img st1 = img st /\ task_queue st1 = task_queue st /\
  result_queue st1 = result_queue st /\ result_cache st1 = result_cache st /\
  (is_Some (fshift st) -> is_Some (fshift st1)) /\
  (is_Some (mask st) -> is_Some (mask st1)).
Proof.
  unfold apply_tool, on_mask, on_fshift.
  destruct (tool_sel ctl); repeat case_match; simplify_eq; simpl; naive_solver.
Qed.

Lemma update_display_some (st : lab R C) :
  is_Some (fshift st) -> is_Some (mask st) -> update_display st = (st, Ok tt).
Proof.
  intros [f Hf] [m Hm]. unfold update_display. pyM_run.
  rewrite Hf, Hm. by destruct (img st).
Qed.

(** [on_click] is the tool, then, if the tool did not raise, the
    redraw and the snapshot. *)
Lemma on_click_spec ctl ev (st : lab R C) f :
  fshift st = Some f -> is_Some (mask st) -> in_ax2 ev = true ->
  on_click ctl ev st =
    match apply_tool ctl (rows f) (cols f) (click_coord (xdata ev)) (click_coord (ydata ev)) st with
    | (st1, Ok _) => trigger_recompute st1
    | (st1, Raise e) => (st1, Raise e)
    end.
Proof.
  intros Hf Hm Hin. unfold on_click.
  rewrite (pyM_bind_ok _ _ st st st eq_refl), Hf, Hin. simpl.
  destruct (apply_tool_fields ctl (rows f) (cols f) (click_coord (xdata ev))
              (click_coord (ydata ev)) st) as (_ & _ & _ & _ & Hf1 & Hm1).
  destruct (apply_tool _ _ _ _ _ st) as [st1 [a|e]] eqn:E; simpl in *.
  - rewrite (pyM_bind_ok _ _ _ _ _ E).
    rewrite (pyM_bind_ok _ _ _ _ _ (update_display_some st1 (Hf1 ltac:(by eexists)) (Hm1 Hm))).
    done.
  - by rewrite (pyM_bind_raise _ _ _ _ _ E).
Qed.

(** C8: An accepted click queues exactly one snapshot, and it is the
    spectrum and mask the edit left; a click whose tool raised queues
    nothing. *)
Theorem on_click_snapshot ctl ev (st : lab R C) f :
  lab_wf st -> fshift st = Some f -> in_ax2 ev = true ->
  match on_click ctl ev st with
  | (st', Ok _) => exists f' m', fshift st' = Some f' /\ mask st' = Some m' /\
                     task_queue st' = task_queue st ++ [mkRequest f' m']
  | (st', Raise _) => task_queue st' = task_queue st
  end.
Proof.
  intros [Ha _] Hf Hin.
  assert (Hm : is_Some (mask st)).
  { destruct st as [[i|] [f0|] [m|] ? ? ?]; simpl in *; try done; by eexists. }
  rewrite (on_click_spec ctl ev st f Hf Hm Hin).
  destruct (apply_tool_fields ctl (rows f) (cols f) (click_coord (xdata ev))
              (click_coord (ydata ev)) st) as (_ & Hq & _ & _ & Hf1 & Hm1).
  destruct (apply_tool _ _ _ _ _ st) as [st1 [a|e]] eqn:E; simpl in *; [|done].
  destruct (Hf1 ltac:(by eexists)) as [f1 Ef1], (Hm1 Hm) as [m1 Em1].
  unfold trigger_recompute. pyM_run. rewrite Ef1, Em1. simpl.
  exists f1, m1. by rewrite Hq.
Qed.

(** Paint and erase change the mask only: the spectrum is the same
    after the click, whatever the click. *)
Theorem on_click_brush_erase_fshift ctl ev (st : lab R C) :
  tool_sel ctl = Brush \/ tool_sel ctl = Erase ->
  fshift (on_click ctl ev st).1 = fshift st.
Proof.
  intros Ht. unfold on_click.
  rewrite (pyM_bind_ok _ _ st st st eq_refl).
  destruct (fshift st) as [f|] eqn:Hf; [|done].
  destruct (in_ax2 ev); simpl; [|done].
  apply (preserves_bind (fun s => fshift s = Some f)); [|intros _|done].
  - intros s Hs. unfold apply_tool, on_mask.
    destruct Ht as [-> | ->]; destruct (mask s); simpl; done.
  - apply preserves_bind; [intros s Hs; by rewrite update_display_state|].
    intros _ s Hs. by rewrite (proj1 (proj2 (trigger_recompute_arrays s))).
Qed.
End ClickTheorems.

(** ** Boolean masks of the ring tool *)

Section Masks.
Context `{ScalarLaws R C}.
Local Open Scope nat_scope.

Lemma ring_mask_rect h w cx cy r2 : rect h w (ring_mask h w cx cy r2).
Proof.
  unfold ring_mask. split; [by rewrite length_map, length_seq|].
  apply Forall_map, Forall_forall. intros i _. by rewrite length_map, length_seq.
Qed.

Lemma mat_get_ring_mask h w cx cy r2 r c :
  r < h -> c < w ->
  mat_get (ring_mask h w cx cy r2) r c =
    Some (in_ring ((Z.of_nat c - cx) ^ 2 + (Z.of_nat r - cy) ^ 2) r2).
Proof.
  intros Hr Hc. unfold mat_get, ring_mask.
  rewrite list_lookup_fmap, lookup_seq_lt by done. simpl.
  by rewrite list_lookup_fmap, lookup_seq_lt.
Qed.

Lemma flip2_rect {A} h w (b : matrix A) : rect h w b -> rect h w (flip2 b).
Proof.
  intros [Hl Hf]. unfold flip2. split; [by rewrite length_reverse, length_map|].
  apply Forall_reverse, Forall_map. eapply Forall_impl; [done|].
  intros row Hrow. by rewrite length_reverse.
Qed.

(** [np.flipud(np.fliplr(b))[r, c] = b[h-1-r, w-1-c]] *)
Lemma mat_get_flip2 {A} h w (b : matrix A) r c :
  rect h w b -> r < h -> c < w ->
  mat_get (flip2 b) r c = mat_get b (reflect h r) (reflect w c).
Proof.
  intros Hb Hr Hc. destruct Hb as [Hl Hf]. unfold mat_get, flip2, reflect.
  rewrite reverse_lookup by (rewrite length_map; lia).
  rewrite length_map, list_lookup_fmap, Hl.
  replace (h - S r) with (h - 1 - r) by lia.
  destruct (b !! (h - 1 - r)) as [row|] eqn:E; simpl; [|done].
  rewrite Forall_lookup in Hf. specialize (Hf _ _ E).
  rewrite reverse_lookup by lia. f_equal. lia.
Qed.

(** The value a boolean mask adds at a cell. *)
Definition mask_delta (b : matrix bool) (v : C) (r c : nat) : C :=
  match mat_get b r c with Some true => v | _ => c0 end.

Lemma mat_get_add_where h w (b : matrix bool) v (f : matrix C) r c :
  rect h w b -> rect h w f ->
  mat_get (add_where b v f) r c = (fun a => a +c mask_delta b v r c) <$> mat_get f r c.
Proof.
  intros [Hlb Hfb] [Hlf Hff]. unfold mask_delta, mat_get, add_where.
  rewrite lookup_zip_with.
  destruct (b !! r) as [brow|] eqn:Eb, (f !! r) as [frow|] eqn:Ef; simpl.
  - rewrite lookup_zip_with.
    rewrite Forall_lookup in Hfb. rewrite Forall_lookup in Hff.
    specialize (Hfb _ _ Eb). specialize (Hff _ _ Ef).
    destruct (brow !! c) as [bit|] eqn:Ebc, (frow !! c) as [a|] eqn:Efc; simpl.
    + destruct bit; simpl; rewrite ?cadd_0_r; done.
    + apply lookup_lt_Some in Ebc. apply lookup_ge_None_1 in Efc. lia.
    + apply lookup_lt_Some in Efc. apply lookup_ge_None_1 in Ebc. lia.
    + done.
  - apply lookup_lt_Some in Eb. apply lookup_ge_None_1 in Ef. lia.
  - apply lookup_lt_Some in Ef. apply lookup_ge_None_1 in Eb. lia.
  - done.
Qed.

Lemma add_where_rect h w (b : matrix bool) v (f : matrix C) :
  rect h w b -> rect h w f -> rect h w (add_where b v f).
Proof.
  intros [Hlb Hfb] [Hlf Hff]. unfold add_where. split.
  - rewrite length_zip_with. lia.
  - apply Forall_lookup. intros r row E.
    rewrite lookup_zip_with in E.
    destruct (b !! r) as [brow|] eqn:Eb, (f !! r) as [frow|] eqn:Ef; simpl in E; try done.
    injection E as <-. rewrite length_zip_with.
    rewrite Forall_lookup in Hfb. rewrite Forall_lookup in Hff.
    rewrite (Hfb _ _ Eb), (Hff _ _ Ef). lia.
Qed.

Lemma ring_tool_spec h w cx cy x y s (f : matrix C) :
  ring_tool h w cx cy x y s f =
    (let ring := ring_mask h w cx cy ((x - cx) ^ 2 + (y - cy) ^ 2) in
     add_where (flip2 ring) (of_real s) (add_where ring (of_real s) f), Ok tt).
Proof. done. Qed.
End Masks.

(** ** Every tool keeps the shape of the arrays *)

Section Shapes.
Context `{ScalarLaws R C} `{!Transform R C}.
Local Open Scope nat_scope.

Lemma add_at_rect h w y x v : preserves (rect h w) (add_at y x v).
Proof.
  intros f Hf. rewrite add_at_spec. repeat case_match; simpl; eauto with fl.
Qed.

Lemma add_row_rect h w y v : preserves (rect h w) (add_row y v).
Proof.
  intros f Hf. rewrite add_row_spec. repeat case_match; simpl; eauto with fl.
Qed.

#[local] Hint Resolve add_at_rect add_row_rect : fl.

Lemma sine_tool_rect h w hz wz cx cy x y val : preserves (rect h w) (sine_tool hz wz cx cy x y val).
Proof. unfold sine_tool. apply preserves_bind; [eauto with fl|]. intros _. case_match; eauto with fl. Qed.

Lemma line_tool_rect h w hz y s : preserves (rect h w) (line_tool hz y s).
Proof. unfold line_tool. eauto with fl. Qed.

Lemma grid_tool_rect h w hz wz x y u v s : preserves (rect h w) (grid_tool hz wz x y u v s).
Proof.
  unfold grid_tool. apply preserves_for. intros [dy dx]. simpl.
  case_match; eauto with fl.
Qed.

Lemma ring_tool_rect h w cx cy x y s : preserves (rect h w) (ring_tool h w cx cy x y s).
Proof.
  unfold ring_tool. apply preserves_bind; [|intros _]; apply preserves_modify;
    intros f Hf; apply add_where_rect; auto using flip2_rect, ring_mask_rect.
Qed.

Lemma circle_rect {A} h w x y rad (v : A) (m : matrix A) :
  rect h w m -> rect h w (circle x y rad v m).
Proof.
  intros [Hl Hf]. unfold circle. split; [by rewrite length_imap|].
  apply Forall_lookup. intros i row E. rewrite list_lookup_imap in E.
  destruct (m !! i) as [row0|] eqn:E0; simpl in E; [|done]. injection E as <-.
  rewrite length_imap. rewrite Forall_lookup in Hf. eauto.
Qed.

(** A click keeps the store well formed: the tool runs with the shape
    of the live spectrum. *)
Lemma apply_tool_wf ctl x y (st : lab R C) f :
  lab_wf st -> fshift st = Some f -> lab_wf (apply_tool ctl (rows f) (cols f) x y st).1.
Proof.
  intros Hwf Hf. destruct (lab_wf_shape st f Hwf Hf) as (Hh & Hw & Hrf & [m Hm]).
  destruct Hwf as [Ha Hq].
  destruct st as [[i|] f0 m0 rc tq rq]; simpl in *; [|by destruct f0, m0].
  subst f0 m0. destruct Ha as (h & w & Hh' & Hw' & Hri & Hrf' & Hrm).
  destruct (rect_rows_cols h w f Hrf' Hh') as [Eh Ew]. rewrite Eh, Ew in *.
  unfold apply_tool, on_mask, on_fshift; destruct (tool_sel ctl); simpl;
    try solve [split; [exists h, w; split_ands; eauto using circle_rect|done]].
  - pose proof (sine_tool_rect h w (Z.of_nat h) (Z.of_nat w) (Z.of_nat w / 2) (Z.of_nat h / 2)
                  x y (polar (strength ctl) (phase ctl)) f Hrf).
    destruct (sine_tool _ _ _ _ _ _ _ f); split; [exists h, w; split_ands; eauto|done].
  - pose proof (line_tool_rect h w (Z.of_nat h) y (strength ctl) f Hrf).
    destruct (line_tool _ _ _ f); split; [exists h, w; split_ands; eauto|done].
  - pose proof (ring_tool_rect h w (Z.of_nat w / 2) (Z.of_nat h / 2) x y (strength ctl) f Hrf).
    simpl in *. split; [exists h, w; split_ands; eauto|done].
  - pose proof (grid_tool_rect h w (Z.of_nat h) (Z.of_nat w) x y
                  (py_int (freq_u ctl)) (py_int (freq_v ctl)) (strength ctl) f Hrf).
    destruct (grid_tool _ _ _ _ _ _ _ f); split; [exists h, w; split_ands; eauto|done].
Qed.
End Shapes.

(** ** The tools on exact numbers *)
Module EditWitness.
Import GaussQ DcTransform StoreWitness.

Definition zero2 : matrix (Qc * Qc) := mat_fill 2 2 c0.
Definition one : Qc * Qc := of_real 1%Qc.
Definition grid_ctl : controls Qc := mkControls Grid 15 (Q2Qc 1000) 30 20 0%Qc.
Definition brush_ctl : controls Qc := mkControls Brush 1 (Q2Qc 1000) 30 20 0%Qc.
Definition f2 : matrix (Qc * Qc) := transform_image (mat_map of_byte pix2).

(** A sine click on row [-1] of a 2 by 2 spectrum. *)
Lemma sine_tool_wraps_then_raises_witness :
  sine_tool (Z.of_nat 2) (Z.of_nat 2) (Z.of_nat 2 / 2) (Z.of_nat 2 / 2) 0 (-1) one zero2 =
    (mat_alter (fun a => a +c one) (Z.to_nat (-1 + Z.of_nat 2)) (Z.to_nat 0) zero2,
     Raise IndexError).
Proof. apply (sine_tool_wraps_then_raises 2 2); [apply mat_fill_rect|lia|lia|lia]. Defined.

Lemma grid_tool_ok_witness :
  exists f', grid_tool (Z.of_nat 2) (Z.of_nat 2) 1 1 30 20 (Q2Qc 1000) zero2 = (f', Ok tt) /\
             rect 2 2 f'.
Proof. apply grid_tool_ok; [apply mat_fill_rect|lia|lia]. Defined.

Lemma on_click_snapshot_witness :
  match on_click grid_ctl (mkClick true 1 0) lab2 with
  | (st', Ok _) => exists f' m', fshift st' = Some f' /\ mask st' = Some m' /\
                     task_queue st' = task_queue lab2 ++ [mkRequest f' m']
  | (st', Raise _) => task_queue st' = task_queue lab2
  end.
Proof. apply (on_click_snapshot grid_ctl _ lab2 f2); [apply lab2_wf|reflexivity|reflexivity]. Defined.

Lemma on_click_brush_erase_fshift_witness :
  fshift (on_click brush_ctl (mkClick true 1 0) lab2).1 = fshift lab2.
Proof. apply on_click_brush_erase_fshift. by left. Defined.
End EditWitness.
