(* ===== verification/Symmetry.v ===== *)
(** * Conjugate symmetry of the centred spectrum

    The inverse transform of a spectrum is real exactly when the
    spectrum is Hermitian: [F[-k] = conj F[k]].  In the centred array
    [fshift] the partner of a cell is [hpartner]; the edit tools of
    [on_click] write their conjugate updates to [reflect], the cell
    [(h-1-y, w-1-x)].  This file proves:
    - the shifted transform of an image is Hermitian ([fftshift_hermitian]);
    - the sine, line and grid edits keep the [reflect]-symmetry the code
      aims at, in every shape;
    - [reflect] is the Hermitian partner exactly for odd lengths, so in
      odd shapes the edits keep the spectrum Hermitian, while in even
      shapes a single sine click already breaks it. *)

From stdpp Require Import base list.
From Stdlib Require Import ZArith QArith Qcanon.
From S2P Require Import Prelude Scalars Shift Store Edits.
Local Open Scope nat_scope.

Section Symmetry.
Context `{ScalarLaws R C}.

(** [f[pr r, pc c] = conj f[r, c]] on the [h] by [w] grid. *)
Definition sym_under (pr pc : nat -> nat) (h w : nat) (f : matrix C) : Prop :=
  forall r c, r < h -> c < w -> mat_get f (pr r) (pc c) = cconj <$> mat_get f r c.

(** The symmetry the edit tools maintain. *)
Definition refl_sym (h w : nat) : matrix C -> Prop := sym_under (reflect h) (reflect w) h w.

(** The symmetry of the spectrum of a real image, centred. *)
Definition herm_sym (h w : nat) : matrix C -> Prop := sym_under (hpartner h) (hpartner w) h w.

(** The symmetry of an uncentred DFT: [F[-k mod h, -l mod w] = conj F[k, l]]. *)
Definition dft_herm (h w : nat) : matrix C -> Prop :=
  sym_under (fun k => (h - k) mod h) (fun l => (w - l) mod w) h w.

Lemma sym_under_ext (pr pr' pc pc' : nat -> nat) h w f :
  (forall r, r < h -> pr r = pr' r) -> (forall c, c < w -> pc c = pc' c) ->
  sym_under pr pc h w f -> sym_under pr' pc' h w f.
Proof. intros Hr Hc Hf r c Hr' Hc'. rewrite <- Hr, <- Hc by done. by apply Hf. Qed.

(** In odd shapes the code's partner is the Hermitian partner. *)
Lemma refl_herm_odd h w f :
  Nat.odd h = true -> Nat.odd w = true -> refl_sym h w f <-> herm_sym h w f.
Proof.
  intros Hh Hw. split; apply sym_under_ext; intros; by rewrite hpartner_odd.
Qed.

(** ** Edits as added deltas *)

(** [f'] is [f] with [d r c] added to every cell. *)
Definition adds (f' f : matrix C) (d : nat -> nat -> C) : Prop :=
  forall r c, mat_get f' r c = (fun a => a +c d r c) <$> mat_get f r c.

(** A delta with the symmetry keeps the symmetry. *)
Lemma sym_adds pr pc h w (f f' : matrix C) d :
  sym_under pr pc h w f -> adds f' f d ->
  (forall r c, r < h -> c < w -> d (pr r) (pc c) = cconj (d r c)) ->
  sym_under pr pc h w f'.
Proof.
  intros Hf Hadd Hd r c Hr Hc. rewrite !Hadd, Hf, Hd by done.
  destruct (mat_get f r c); simpl; [|done]. by rewrite cconj_add.
Qed.

Lemma adds_trans (f2 f1 f : matrix C) d1 d2 :
  adds f1 f d1 -> adds f2 f1 d2 -> adds f2 f (fun r c => d1 r c +c d2 r c).
Proof.
  intros H1 H2 r c. rewrite H2, H1. destruct (mat_get f r c); simpl; [|done].
  by rewrite cadd_assoc.
Qed.

(** The delta of one cell. *)
Definition point (i0 j0 : nat) (v : C) (r c : nat) : C :=
  if decide ((r, c) = (i0, j0)) then v else c0.

Lemma adds_mat_alter (f : matrix C) i0 j0 v :
  adds (mat_alter (fun a => a +c v) i0 j0 f) f (point i0 j0 v).
Proof.
  intros r c. unfold point. case_decide as E.
  - simplify_eq. apply mat_get_alter_eq.
  - rewrite mat_get_alter_ne by congruence.
    destruct (mat_get f r c); simpl; [by rewrite cadd_0_r|done].
Qed.

Lemma adds_row_alter (f : matrix C) i0 v :
  adds (row_alter (fun a => a +c v) i0 f) f (fun r _ => if decide (r = i0) then v else c0).
Proof.
  intros r c. rewrite mat_get_row_alter.
  case_decide as E1; case_decide as E2; subst; try done.
  destruct (mat_get f r c); simpl; [by rewrite cadd_0_r|done].
Qed.

(** ** Cells and their partners *)

Section Pair.
Context (pr pc : nat -> nat) (h w : nat).
Hypothesis pr_range : forall r, r < h -> pr r < h.
Hypothesis pc_range : forall c, c < w -> pc c < w.
Hypothesis pr_inv : forall r, r < h -> pr (pr r) = r.
Hypothesis pc_inv : forall c, c < w -> pc (pc c) = c.

Lemma partner_eq r c i0 j0 :
  r < h -> c < w -> i0 < h -> j0 < w ->
  (pr r, pc c) = (i0, j0) <-> (r, c) = (pr i0, pc j0).
Proof.
  intros Hr Hc Hr0 Hj0. split; intros E; simplify_eq.
  - by rewrite pr_inv, pc_inv.
  - by rewrite pr_inv, pc_inv.
Qed.

(** [v] at a cell and [conj v] at its partner: a symmetric delta,
    also when the cell is its own partner. *)
Lemma pair_delta_sym i0 j0 v r c :
  i0 < h -> j0 < w -> r < h -> c < w ->
  point i0 j0 v (pr r) (pc c) +c point (pr i0) (pc j0) (cconj v) (pr r) (pc c)
  = cconj (point i0 j0 v r c +c point (pr i0) (pc j0) (cconj v) r c).
Proof.
  intros Hr0 Hj0 Hr Hc. unfold point. rewrite cconj_add.
  rewrite (decide_ext _ _ _ _ (partner_eq r c i0 j0 Hr Hc Hr0 Hj0)).
  assert (E2 : (pr r, pc c) = (pr i0, pc j0) <-> (r, c) = (i0, j0)).
  { rewrite partner_eq by auto. by rewrite pr_inv, pc_inv. }
  rewrite (decide_ext _ _ _ _ E2).
  repeat case_decide; rewrite ?cconj_involutive, ?cconj_0; apply cadd_comm.
Qed.

Lemma sym_alter_pair (f : matrix C) i0 j0 v :
  i0 < h -> j0 < w -> sym_under pr pc h w f ->
  sym_under pr pc h w
    (mat_alter (fun a => a +c cconj v) (pr i0) (pc j0)
       (mat_alter (fun a => a +c v) i0 j0 f)).
Proof.
  intros Hr0 Hj0 Hf. eapply sym_adds; [done| |].
  - eapply adds_trans; apply adds_mat_alter.
  - intros r c Hr Hc. by apply pair_delta_sym.
Qed.
End Pair.
End Symmetry.

(** ** Deciding the symmetry of a concrete spectrum *)

Section SymDecide.
Context `{ScalarLaws R C} `{!EqDecision C}.

Definition sym_underb (pr pc : nat -> nat) (h w : nat) (f : matrix C) : bool :=
  forallb (fun r => forallb (fun c =>
    bool_decide (mat_get f (pr r) (pc c) = cconj <$> mat_get f r c)) (seq 0 w)) (seq 0 h).

Lemma sym_underb_spec pr pc h w f : sym_underb pr pc h w f = true <-> sym_under pr pc h w f.
Proof.
  unfold sym_underb, sym_under. rewrite forallb_forall. split.
  - intros Hb r c Hr Hc.
    assert (Hr' : In r (seq 0 h)) by (apply in_seq; lia).
    specialize (Hb r Hr').
    apply forallb_forall with (x := c) in Hb; [|apply in_seq; lia].
    by apply bool_decide_eq_true_1 in Hb.
  - intros Hs r Hr%in_seq. apply forallb_forall. intros c Hc%in_seq.
    apply bool_decide_eq_true_2, Hs; lia.
Qed.
End SymDecide.

(** ** The spectrum tools keep the symmetry *)

Section ToolSymmetry.
Context `{ScalarLaws R C}.

Lemma reflect_range n p : p < n -> reflect n p < n.
Proof. unfold reflect. lia. Qed.

Lemma reflect_inv n p : p < n -> reflect n (reflect n p) = p.
Proof. unfold reflect. lia. Qed.

(** In odd lengths the centre [n // 2] is its own reflection. *)
Lemma reflect_center_odd n : Nat.odd n = true -> reflect n (n / 2) = n / 2.
Proof.
  intros Hodd. apply Nat.odd_spec in Hodd as [k ->]. unfold reflect.
  replace ((2 * k + 1) / 2) with k by (apply Nat.div_unique with 1; lia). lia.
Qed.

Lemma Z_to_nat_half n : Z.to_nat (Z.of_nat n / 2) = n / 2.
Proof. change 2%Z with (Z.of_nat 2). rewrite <- Nat2Z.inj_div. apply Nat2Z.id. Qed.

Lemma refl_sym_alter_pair h w (f : matrix C) i0 j0 v :
  i0 < h -> j0 < w -> refl_sym h w f ->
  refl_sym h w (mat_alter (fun a => a +c cconj v) (reflect h i0) (reflect w j0)
                  (mat_alter (fun a => a +c v) i0 j0 f)).
Proof.
  apply sym_alter_pair; auto using reflect_range, reflect_inv.
Qed.

(** A self-conjugate value added at a cell that is its own partner. *)
Lemma refl_sym_alter_fixed h w (f : matrix C) i0 j0 v :
  i0 < h -> j0 < w -> reflect h i0 = i0 -> reflect w j0 = j0 -> cconj v = v ->
  refl_sym h w f -> refl_sym h w (mat_alter (fun a => a +c v) i0 j0 f).
Proof.
  intros Hi Hj Fi Fj Hv Hf. eapply sym_adds; [done|apply adds_mat_alter|].
  intros r c Hr Hc. unfold point.
  assert (E : (reflect h r, reflect w c) = (i0, j0) <-> (r, c) = (i0, j0)).
  { rewrite (partner_eq (reflect h) (reflect w) h w); auto using reflect_inv.
    by rewrite Fi, Fj. }
  rewrite (decide_ext _ _ _ _ E). case_decide; [done|by rewrite cconj_0].
Qed.

(** The sine tool, on a click inside the array, keeps the symmetry of
    [reflect] when it writes both cells; at the centre of an odd
    shape it writes one self-partnered cell, which needs a real value. *)
Theorem sine_tool_refl_sym h w (y x : Z) val (f : matrix C) :
  rect h w f -> 0 < h -> (0 <= y < Z.of_nat h)%Z -> (0 <= x < Z.of_nat w)%Z ->
  (x = Z.of_nat w / 2 -> y = Z.of_nat h / 2 ->
     Nat.odd h = true /\ Nat.odd w = true /\ cconj val = val)%Z ->
  refl_sym h w f ->
  refl_sym h w (sine_tool (Z.of_nat h) (Z.of_nat w) (Z.of_nat w / 2) (Z.of_nat h / 2) x y val f).1.
Proof.
  intros Hf Hh Hy Hx Hc Hs. rewrite (sine_tool_in_range h w) by done. simpl.
  destruct (bool_decide (x = Z.of_nat w / 2)%Z) eqn:Ex, (bool_decide (y = Z.of_nat h / 2)%Z) eqn:Ey;
    simpl; try (apply refl_sym_alter_pair; [lia|lia|done]).
  apply bool_decide_eq_true_1 in Ex, Ey.
  destruct (Hc Ex Ey) as (Oh & Ow & Hv).
  assert (Ey' : Z.to_nat y = h / 2) by (rewrite Ey; apply Z_to_nat_half).
  assert (Ex' : Z.to_nat x = w / 2) by (rewrite Ex; apply Z_to_nat_half).
  rewrite Ey', Ex'. apply refl_sym_alter_fixed; auto using reflect_center_odd; lia.
Qed.
End ToolSymmetry.

Section LineGrid.
Context `{ScalarLaws R C}.

(** A real constant at a cell and at its [reflect] partner. *)
Lemma refl_sym_alter_real h w (f : matrix C) i0 j0 s :
  i0 < h -> j0 < w -> refl_sym h w f ->
  refl_sym h w (mat_alter (fun a => a +c of_real s) (reflect h i0) (reflect w j0)
                  (mat_alter (fun a => a +c of_real s) i0 j0 f)).
Proof.
  intros Hi Hj Hf. pose proof (refl_sym_alter_pair h w f i0 j0 (of_real s) Hi Hj Hf) as Hp.
  by rewrite cconj_of_real in Hp.
Qed.

(** The line tool, on a row inside the array, adds the constant to
    row [y] and to row [h-1-y]: the [reflect] symmetry is kept. *)
Theorem line_tool_refl_sym h w (y : Z) s (f : matrix C) :
  rect h w f -> (0 <= y < Z.of_nat h)%Z -> refl_sym h w f ->
  refl_sym h w (line_tool (Z.of_nat h) y s f).1.
Proof.
  intros Hf Hy Hs. rewrite (line_tool_in_range h w) by done. simpl.
  eapply sym_adds; [done|eapply adds_trans; apply adds_row_alter|].
  intros r c Hr Hc. cbv beta. rewrite cconj_add. unfold reflect in *.
  repeat case_decide; try (exfalso; lia);
    rewrite ?cconj_of_real, ?cconj_0; first [reflexivity | apply cadd_comm].
Qed.

(** The grid tool writes a real constant at each wrapped point and at
    its [reflect] partner: the [reflect] symmetry is kept for every
    click, in or out of the array. *)
Theorem grid_tool_refl_sym h w (x y u v : Z) s (f : matrix C) :
  rect h w f -> 0 < h -> 0 < w -> refl_sym h w f ->
  refl_sym h w (grid_tool (Z.of_nat h) (Z.of_nat w) x y u v s f).1.
Proof.
  intros Hf Hh Hw Hs.
  enough (Hp : preserves (fun g => rect h w g /\ refl_sym h w g)
                 (grid_tool (Z.of_nat h) (Z.of_nat w) x y u v s)) by (apply (Hp f); done).
  apply preserves_for. intros [dy dx] g [Hg Hgs]. simpl.
  destruct (bool_decide (dx = 0%Z) && bool_decide (dy = 0%Z)); [done|].
  pose proof (py_mod_range (y + dy) (Z.of_nat h) ltac:(lia)).
  pose proof (py_mod_range (x + dx) (Z.of_nat w) ltac:(lia)).
  rewrite (pyM_bind_ok _ _ _ _ tt (add_at_in_range h w (py_mod (y + dy) (Z.of_nat h))
    (py_mod (x + dx) (Z.of_nat w)) (of_real s) g Hg ltac:(lia) ltac:(lia) ltac:(lia))).
  rewrite (add_at_in_range h w); [|eauto with fl|lia|lia|lia]. simpl.
  split; [eauto with fl|].
  replace (Z.to_nat (Z.of_nat h - 1 - py_mod (y + dy) (Z.of_nat h)))
    with (reflect h (Z.to_nat (py_mod (y + dy) (Z.of_nat h)))) by (unfold reflect; lia).
  replace (Z.to_nat (Z.of_nat w - 1 - py_mod (x + dx) (Z.of_nat w)))
    with (reflect w (Z.to_nat (py_mod (x + dx) (Z.of_nat w)))) by (unfold reflect; lia).
  apply refl_sym_alter_real; [lia|lia|done].
Qed.
End LineGrid.

Section RingClick.
Context `{ScalarLaws R C} `{!Transform R C}.

(** The ring tool adds the constant on the annulus and on its flipped
    copy: the [reflect] symmetry is kept, whatever the click. *)
Theorem ring_tool_refl_sym h w cx cy x y s (f : matrix C) :
  rect h w f -> refl_sym h w f -> refl_sym h w (ring_tool h w cx cy x y s f).1.
Proof.
  intros Hf Hs. rewrite ring_tool_spec. simpl.
  set (ring := ring_mask h w cx cy ((x - cx) ^ 2 + (y - cy) ^ 2)%Z).
  assert (Hr : rect h w ring) by apply ring_mask_rect.
  eapply sym_adds; [done| |].
  - eapply adds_trans; intros r c; apply (mat_get_add_where h w);
      eauto using flip2_rect, add_where_rect.
  - intros r c Hr' Hc'. cbv beta. unfold mask_delta.
    rewrite !(mat_get_flip2 h w ring) by (done || apply reflect_range; lia).
    rewrite !reflect_inv by done.
    destruct (mat_get ring (reflect h r) (reflect w c)) as [[]|],
      (mat_get ring r c) as [[]|];
      rewrite ?cconj_add, ?cconj_of_real, ?cconj_0; apply cadd_comm.
Qed.

(** The spectrum after a click is the spectrum the tool left. *)
Lemma on_click_fshift ctl ev (st : lab R C) f :
  fshift st = Some f -> is_Some (mask st) -> in_ax2 ev = true ->
  fshift (on_click ctl ev st).1 =
    fshift (apply_tool ctl (rows f) (cols f) (click_coord (xdata ev))
              (click_coord (ydata ev)) st).1.
Proof.
  intros Hf Hm Hin. rewrite (on_click_spec ctl ev st f Hf Hm Hin).
  destruct (apply_tool _ _ _ _ _ st) as [st1 [a|e]]; simpl; [|done].
  apply trigger_recompute_arrays.
Qed.

(** Every click keeps the [reflect] symmetry of the spectrum, provided
    the sine and line tools get a point inside the array, and the sine
    tool is not clicked at the centre of an even shape.  With the
    program's phase of 0 the centre of an odd shape is fine. *)
Theorem on_click_refl_sym ctl ev (st : lab R C) f :
  lab_wf st -> fshift st = Some f -> refl_sym (rows f) (cols f) f ->
  phase ctl = r0 ->
  (tool_sel ctl = Sine \/ tool_sel ctl = Line ->
     (0 <= click_coord (ydata ev) < Z.of_nat (rows f))%Z) ->
  (tool_sel ctl = Sine ->
     (0 <= click_coord (xdata ev) < Z.of_nat (cols f))%Z /\
     (click_coord (xdata ev) = Z.of_nat (cols f) / 2 ->
      click_coord (ydata ev) = Z.of_nat (rows f) / 2 ->
      Nat.odd (rows f) = true /\ Nat.odd (cols f) = true)%Z) ->
  exists f', fshift (on_click ctl ev st).1 = Some f' /\ refl_sym (rows f) (cols f) f'.
Proof.
  intros Hwf Hf Hs Hph Hy Hsine.
  destruct (lab_wf_shape st f Hwf Hf) as (Hh & Hw & Hrf & Hm).
  destruct (in_ax2 ev) eqn:Hin.
  2:{ exists f. unfold on_click. pyM_run. by rewrite Hf, Hin. }
  rewrite (on_click_fshift ctl ev st f Hf Hm Hin).
  unfold apply_tool. destruct (tool_sel ctl) eqn:Ht;
    unfold on_mask, on_fshift; cbv beta; rewrite ?Hf.
  - destruct (mask st); simpl; eauto.
  - destruct (mask st); simpl; eauto.
  - destruct (Hsine eq_refl) as [Hx Hc]. specialize (Hy (or_introl eq_refl)).
    pose proof (sine_tool_refl_sym (rows f) (cols f) _ _
                  (polar (strength ctl) (phase ctl)) f Hrf Hh Hy Hx) as Hp.
    destruct (sine_tool _ _ _ _ _ _ _ f) as [f' o]. simpl in *. eexists; split; [done|].
    apply Hp; [|done]. intros Ex Ey. destruct (Hc Ex Ey). split_ands; try done.
    by rewrite Hph, polar_phase0, cconj_of_real.
  - specialize (Hy (or_intror eq_refl)).
    pose proof (line_tool_refl_sym (rows f) (cols f) _ (strength ctl) f Hrf Hy Hs) as Hp.
    destruct (line_tool _ _ _ f) as [f' o]. simpl in *. eauto.
  - pose proof (ring_tool_refl_sym (rows f) (cols f) (Z.of_nat (cols f) / 2)
                  (Z.of_nat (rows f) / 2) (click_coord (xdata ev)) (click_coord (ydata ev))
                  (strength ctl) f Hrf Hs) as Hp.
    destruct (ring_tool _ _ _ _ _ _ _ f) as [f' o]. simpl in *. eauto.
  - pose proof (grid_tool_refl_sym (rows f) (cols f) (click_coord (xdata ev))
                  (click_coord (ydata ev)) (py_int (freq_u ctl)) (py_int (freq_v ctl))
                  (strength ctl) f Hrf Hh Hw Hs) as Hp.
    destruct (grid_tool _ _ _ _ _ _ _ f) as [f' o]. simpl in *. eauto.
Qed.

(** C7: In odd shapes the code's pairing is the Hermitian one: a click
    keeps the spectrum Hermitian, so the worker's inverse transform
    stays the transform of a real image. *)
Corollary on_click_hermitian_odd ctl ev (st : lab R C) f :
  lab_wf st -> fshift st = Some f ->
  Nat.odd (rows f) = true -> Nat.odd (cols f) = true ->
  herm_sym (rows f) (cols f) f ->
  phase ctl = r0 ->
  (tool_sel ctl = Sine \/ tool_sel ctl = Line ->
     (0 <= click_coord (ydata ev) < Z.of_nat (rows f))%Z) ->
  (tool_sel ctl = Sine -> (0 <= click_coord (xdata ev) < Z.of_nat (cols f))%Z) ->
  exists f', fshift (on_click ctl ev st).1 = Some f' /\ herm_sym (rows f) (cols f) f'.
Proof.
  intros Hwf Hf Oh Ow Hs Hph Hy Hx.
  apply refl_herm_odd in Hs; [|done|done].
  destruct (on_click_refl_sym ctl ev st f Hwf Hf Hs Hph Hy) as (f' & E & Hs').
  { intros Ht. split; [by apply Hx|done]. }
  exists f'. split; [done|]. by apply refl_herm_odd.
Qed.
End RingClick.

(** ** Even shapes: the sine tool breaks the Hermitian symmetry *)

Section EvenShapes.
Context `{ScalarLaws R C}.

Lemma sym_under_fill pr pc h w :
  (forall r, r < h -> pr r < h) -> (forall c, c < w -> pc c < w) ->
  sym_under pr pc h w (mat_fill h w c0).
Proof.
  intros Hpr Hpc r c Hr Hc. rewrite !mat_get_fill by auto. simpl. by rewrite cconj_0.
Qed.

Lemma herm_sym_fill_zero h w : 0 < h -> 0 < w -> herm_sym h w (mat_fill h w c0).
Proof. intros Hh Hw. apply sym_under_fill; intros; by apply hpartner_lt. Qed.

Lemma reflect_fixed_odd n p : p < n -> reflect n p = p -> Nat.odd n = true.
Proof.
  unfold reflect. intros Hp E. apply Nat.odd_spec. exists p. lia.
Qed.

Lemma even_not_odd n : Nat.even n = true -> Nat.odd n = false.
Proof. intros E. by rewrite <- Nat.negb_even, E. Qed.

(** C5: If the height or the width is even, a sine click of a non-zero
    value inside the array, at a cell that is not its own Hermitian
    partner, leaves a spectrum that is not Hermitian: the conjugate
    went to [(h-1-y, w-1-x)], which is not the partner cell. *)
Theorem sine_tool_breaks_hermitian_even h w (y x : Z) val (f : matrix C) :
  rect h w f -> 0 < h -> 0 < w ->
  (Nat.even h = true \/ Nat.even w = true) ->
  (0 <= y < Z.of_nat h)%Z -> (0 <= x < Z.of_nat w)%Z ->
  (hpartner h (Z.to_nat y), hpartner w (Z.to_nat x)) <> (Z.to_nat y, Z.to_nat x) ->
  val <> c0 -> herm_sym h w f ->
  ~ herm_sym h w
      (sine_tool (Z.of_nat h) (Z.of_nat w) (Z.of_nat w / 2) (Z.of_nat h / 2) x y val f).1.
Proof.
  intros Hf Hh Hw Hev Hy Hx Hnp Hv Hs Hs'.
  rewrite (sine_tool_in_range h w) in Hs' by done. simpl in Hs'.
  destruct (bool_decide (x = Z.of_nat w / 2)%Z && bool_decide (y = Z.of_nat h / 2)%Z) eqn:Ec.
  { apply andb_true_iff in Ec as [Ex Ey].
    apply bool_decide_eq_true_1 in Ex, Ey. apply Hnp.
    rewrite Ex, Ey, !Z_to_nat_half, !hpartner_center by done. done. }
  set (yn := Z.to_nat y) in *. set (xn := Z.to_nat x) in *.
  assert (Hyn : yn < h) by lia. assert (Hxn : xn < w) by lia.
  (* the reflected cell is neither the clicked cell nor its partner *)
  assert (N1 : (reflect h yn, reflect w xn) <> (yn, xn)).
  { intros [= E1 E2]. apply reflect_fixed_odd in E1, E2; [|lia..].
    destruct Hev as [E|E]; apply even_not_odd in E; congruence. }
  assert (N2 : (reflect h yn, reflect w xn) <> (hpartner h yn, hpartner w xn)).
  { intros [= E1 E2]. destruct Hev as [E|E].
    - by apply (reflect_ne_hpartner_even h yn E Hyn).
    - by apply (reflect_ne_hpartner_even w xn E Hxn). }
  destruct (rect_mat_get_Some h w f yn xn Hf Hyn Hxn) as [a Ha].
  specialize (Hs' yn xn Hyn Hxn).
  rewrite !mat_get_alter_ne in Hs' by congruence.
  rewrite mat_get_alter_eq in Hs'.
  rewrite (Hs yn xn Hyn Hxn), Ha in Hs'. simpl in Hs'.
  injection Hs' as Hs'. rewrite cconj_add in Hs'.
  rewrite <- (cadd_0_r (cconj a)) in Hs' at 1.
  apply cadd_cancel_l in Hs'. apply Hv, cconj_inj. by rewrite <- Hs', cconj_0.
Qed.
End EvenShapes.

(** The end-to-end scenario of the design notes, on exact complex
    numbers: a 4 by 4 zero spectrum and a sine click of magnitude 10,
    phase 0, one step left of the centre. *)
Module EvenWitness.
Import GaussQ.

Lemma sine_tool_breaks_hermitian_even_witness :
  ~ herm_sym 4 4 (sine_tool 4 4 (4 / 2) (4 / 2) 1 2 (of_real (Q2Qc 10)) (mat_fill 4 4 c0)).1.
Proof.
  apply (sine_tool_breaks_hermitian_even 4 4 2 1 (of_real (Q2Qc 10)) (mat_fill 4 4 c0)).
  - apply mat_fill_rect.
  - lia.
  - lia.
  - left. reflexivity.
  - lia.
  - lia.
  - intros E. vm_compute in E. congruence.
  - apply (bool_decide_eq_false_1 (of_real (Q2Qc 10) = (c0 : Qc * Qc))).
    vm_compute. reflexivity.
  - apply herm_sym_fill_zero; lia.
Defined.
End EvenWitness.

(** ** The loaded spectrum is Hermitian *)

(** The DFT of a real array is Hermitian: the law of the trusted
    [np.fft.fft2] this development relies on. *)
Class TransformHermitian (R C : Type) `{!Scalars R C} `{!Transform R C} :=
  fft2_hermitian : forall h w (i : matrix R),
    0 < h -> 0 < w -> rect h w i -> dft_herm h w (fft2 i).

Section Shifted.
Context `{ScalarLaws R C} `{!Transform R C} `{!TransformLaws R C}
  `{!TransformHermitian R C}.

Lemma mat_get_fftshift {A} h w (F : matrix A) r c :
  rect h w F -> r < h -> c < w ->
  mat_get (fftshift F) r c = mat_get F (freq h r) (freq w c).
Proof.
  intros [Hl Hf] Hr Hc. unfold mat_get, fftshift.
  rewrite fftshift1_lookup by (rewrite length_map; lia).
  rewrite length_map, Hl, list_lookup_fmap.
  destruct (F !! freq h r) as [row|] eqn:E; simpl; [|done].
  rewrite Forall_lookup in Hf. specialize (Hf _ _ E).
  rewrite fftshift1_lookup by lia. by rewrite Hf.
Qed.

(** The frequency at the Hermitian partner is the opposite frequency. *)
Lemma freq_hpartner_neg n p :
  0 < n -> p < n -> freq n (hpartner n p) = (n - freq n p) mod n.
Proof.
  intros Hn Hp. pose proof (freq_hpartner n p Hn Hp) as E.
  pose proof (freq_lt n (hpartner n p) Hn). pose proof (freq_lt n p Hn).
  set (a := freq n (hpartner n p)) in *. set (b := freq n p) in *.
  apply Nat.Div0.mod_divides in E as [k Ek].
  assert (k < 2) by nia.
  destruct (decide (b = 0)) as [Hb|Hb].
  - rewrite Hb, Nat.sub_0_r, Nat.Div0.mod_same. destruct k as [|[|k]]; lia.
  - rewrite Nat.mod_small by lia. destruct k as [|[|k]]; lia.
Qed.

(** [fftshift] turns the symmetry of the DFT into the symmetry of the
    centred spectrum about [hpartner]. *)
Theorem fftshift_hermitian h w (F : matrix C) :
  0 < h -> 0 < w -> rect h w F -> dft_herm h w F -> herm_sym h w (fftshift F).
Proof.
  intros Hh Hw HF Hd r c Hr Hc.
  rewrite !(mat_get_fftshift h w) by auto using hpartner_lt.
  rewrite !freq_hpartner_neg by done.
  apply Hd; by apply freq_lt.
Qed.

(** C10: After [load_image] the spectrum is Hermitian. *)
Theorem load_image_hermitian (pix : matrix Z) (st : lab R C) h w :
  0 < h -> 0 < w -> rect h w pix ->
  exists f, fshift (load_image (Chosen (Some pix)) st).1 = Some f /\ herm_sym h w f.
Proof.
  intros Hh Hw Hp. rewrite load_image_spec. eexists; split; [done|].
  unfold transform_image. apply fftshift_hermitian; [done|done| |].
  - apply fft2_rect. by apply mat_map_rect.
  - apply fft2_hermitian; [done|done|]. by apply mat_map_rect.
Qed.
End Shifted.

(** ** The computable transform is Hermitian

    The zero-frequency transform of [Store.DcTransform] satisfies the
    Hermitian law: the only non-zero coefficient sits at [(0, 0)], its
    own partner, and is real. *)
Module DcHermitian.
Import GaussQ DcTransform.

Lemma neg_mod_zero n r : r < n -> (n - r) mod n = 0 -> r = 0.
Proof.
  intros Hr E. destruct (decide (r = 0)) as [|Hr0]; [done|].
  rewrite Nat.mod_small in E; lia.
Qed.

#[export] Instance dc_hermitian : TransformHermitian Qc (Qc * Qc).
Proof.
  intros h w i Hh Hw Hi r c Hr Hc. simpl. unfold dc_fft2.
  destruct (rect_mat_get_Some h w i r c Hi Hr Hc) as [a Ha].
  destruct (rect_mat_get_Some h w i ((h - r) mod h) ((w - c) mod w) Hi)
    as [b Hb]; [apply Nat.mod_upper_bound; lia..|].
  destruct (decide ((r, c) = (0, 0))) as [[= -> ->]|Hne].
  - rewrite !Nat.sub_0_r, !Nat.Div0.mod_same, mat_get_alter_eq, mat_get_map, Ha.
    simpl. repeat f_equal; try ring.
  - rewrite !mat_get_alter_ne, !mat_get_map, Ha, Hb; [simpl; repeat f_equal; try ring|done|].
    intros [= E1 E2]. apply Hne. symmetry in E1, E2.
    apply neg_mod_zero in E1, E2; [by subst|lia..].
Qed.
End DcHermitian.

(** ** A click on an odd-sized loaded spectrum, on exact numbers *)
Module OddWitness.
Import GaussQ DcTransform DcHermitian.

Definition odd_pix : matrix Z := [[10; 20; 30]; [40; 50; 60]; [70; 80; 90]]%Z.
Definition odd_f : matrix (Qc * Qc) := transform_image (mat_map of_byte odd_pix).
Definition odd_lab : lab Qc (Qc * Qc) :=
  (load_image (Chosen (Some odd_pix)) (lab_init : lab Qc (Qc * Qc))).1.
Definition sine_ctl : controls Qc := mkControls Sine 15 (Q2Qc 1000) 30 20 0%Qc.
Definition odd_click : click := mkClick true 0 1.

Lemma odd_lab_wf : lab_wf odd_lab.
Proof.
  apply load_image_wf; [apply lab_init_wf|].
  intros pix [= <-]. exists 3, 3. split_ands; [lia|lia|rect_by_compute].
Qed.

Lemma on_click_hermitian_odd_witness :
  exists f', fshift (on_click sine_ctl odd_click odd_lab).1 = Some f' /\
             herm_sym (rows odd_f) (cols odd_f) f'.
Proof.
  apply (on_click_hermitian_odd sine_ctl odd_click odd_lab odd_f).
  - apply odd_lab_wf.
  - reflexivity.
  - reflexivity.
  - reflexivity.
  - apply sym_underb_spec. vm_compute. reflexivity.
  - reflexivity.
  - intros _. vm_compute. split; congruence.
  - intros _. vm_compute. split; congruence.
Defined.

Lemma load_image_hermitian_witness :
  exists f, fshift (load_image (Chosen (Some [[0; 255]; [255; 0]]%Z))
                      (lab_init : lab Qc (Qc * Qc))).1 = Some f /\ herm_sym 2 2 f.
Proof. apply (load_image_hermitian _ _ 2 2); [lia|lia|rect_by_compute]. Defined.
End OddWitness.
