(* ===== verification/Pipeline.v ===== *)
(** * The recompute pipeline: worker thread, result queue and consumer

    [worker_loop] ([src/HW3/lab_2.py], lines 151-157) runs forever on a
    daemon thread: it blocks on [task_queue.get()], multiplies the
    snapshot spectrum by the snapshot mask, undoes the shift, inverts the
    transform, takes magnitudes and puts the result on [result_queue].
    [check_queue] (lines 159-171) drains [result_queue] on the Tk thread
    every 30 ms and keeps the last result.  The Tk handlers and the
    worker share only the two queues; the arrays are touched by the Tk
    thread alone, so a handler is atomic with respect to the worker and
    the system is the interleaving of three kinds of steps: a Tk handler,
    a worker step (take or publish), and a drain.

    The worker is a state machine [Waiting -> Running q -> Waiting]; a
    snapshot whose spectrum and mask differ in shape would make numpy
    raise in the worker thread and end it ([Crashed]).  Ghost histories
    record every request ever queued and every result ever published,
    so that the FIFO, exactly-once and latest-wins properties can be
    stated on reachable states. *)

From stdpp Require Import base list relations.
From Stdlib Require Import ZArith QArith Qcanon.
From S2P Require Import Prelude Scalars Shift Store Edits.
Local Open Scope nat_scope.

(** [a.shape == b.shape] *)
Definition same_shape {A B} (a : matrix A) (b : matrix B) : bool :=
  (length a =? length b) &&
  forallb (fun '(r1, r2) => length r1 =? length r2) (zip a b).

(** [a * b] elementwise on arrays of one shape. *)
Definition mat_zip {A B D} (f : A -> B -> D) (a : matrix A) (b : matrix B) : matrix D :=
  zip_with (zip_with f) a b.

Section Worker.
Context `{ScalarLaws R C} `{!Transform R C}.

(** One iteration of [worker_loop] after [task_queue.get()]: [None]
    when [fshift * mask] raises on a shape mismatch. *)
Definition compute_result (q : request R C) : option (matrix R) :=
  if same_shape (req_fshift q) (req_mask q)
  then Some (mat_map cabs (ifft2 (ifftshift (mat_zip rscale (req_fshift q) (req_mask q)))))
  else None.

(** [check_queue]: [get_nowait] until [Empty], keeping the last
    result in [result_cache]. *)
Definition check_queue (st : lab R C) : lab R C :=
  match last (result_queue st) with
  | Some r => set_cache r (set_results [] st)
  | None => st
  end.
End Worker.

Inductive wstate (R C : Type) :=
| Waiting
| Running (q : request R C)
| Crashed.
Arguments Waiting {_ _}.
Arguments Running {_ _} _.
Arguments Crashed {_ _}.

Definition running {R C} (w : wstate R C) : list (request R C) :=
  match w with Running q => [q] | _ => [] end.

(** The whole program: the application object, the worker, and the
    ghost histories of queued requests, published results and results
    the consumer has taken. *)
Record sys (R C : Type) := mkSys {
  app : lab R C;
  worker : wstate R C;
  sent : list (request R C);
  published : list (matrix R);
  drained : list (matrix R);
}.
Arguments mkSys {_ _}.
Arguments app {_ _}. Arguments worker {_ _}. Arguments sent {_ _}.
Arguments published {_ _}. Arguments drained {_ _}.

Section Steps.
Context `{ScalarLaws R C} `{!Transform R C}.

(** The Tk handlers that change the model state.  [update_display],
    [on_motion] and the status bar only draw.  Tk reports an exception
    raised in a callback and goes on, so the state a handler leaves is
    kept whatever its outcome. *)
Inductive ui_step : lab R C -> lab R C -> Prop :=
| ui_load file st :
    (** [cv2.imread] returns a non-empty rectangular array or [None] *)
    (forall pix, file = Chosen (Some pix) -> exists h w, 0 < h /\ 0 < w /\ rect h w pix) ->
    ui_step st (load_image file st).1
| ui_reset st : ui_step st (reset_image st).1
| ui_clear st : ui_step st (clear_all st).1
| ui_click ctl ev st : ui_step st (on_click ctl ev st).1.

Inductive sys_step : sys R C -> sys R C -> Prop :=
(** a Tk handler, which can only append to [task_queue] *)
| step_ui a a' w s p d new :
    ui_step a a' -> task_queue a' = task_queue a ++ new ->
    sys_step (mkSys a w s p d) (mkSys a' w (s ++ new) p d)
(** [task_queue.get()] *)
| step_take a s p d q rest :
    task_queue a = q :: rest ->
    sys_step (mkSys a Waiting s p d) (mkSys (set_tasks rest a) (Running q) s p d)
(** the computation and [result_queue.put(result)] *)
| step_publish a s p d q r :
    compute_result q = Some r ->
    sys_step (mkSys a (Running q) s p d)
      (mkSys (set_results (result_queue a ++ [r]) a) Waiting s (p ++ [r]) d)
(** numpy raises in the worker thread, which ends *)
| step_crash a s p d q :
    compute_result q = None ->
    sys_step (mkSys a (Running q) s p d) (mkSys a Crashed s p d)
(** [check_queue] on the Tk thread *)
| step_drain a w s p d :
    sys_step (mkSys a w s p d)
      (mkSys (check_queue a) w s p (d ++ result_queue a)).

Definition sys_init : sys R C := mkSys lab_init Waiting [] [] [].
End Steps.

(** ** What a Tk handler does to the queues and to the arrays *)

Section Handlers.
Context `{ScalarLaws R C} `{!Transform R C} `{!TransformLaws R C}.

(** [s] has the queues of [a0], with requests appended. *)
Definition queue_ext (a0 s : lab R C) : Prop :=
  (exists new, task_queue s = task_queue a0 ++ new) /\
  result_queue s = result_queue a0 /\ result_cache s = result_cache a0.

Lemma queue_ext_refl a0 : queue_ext a0 a0.
Proof. split; [exists []; by rewrite app_nil_r|done]. Qed.

Lemma trigger_recompute_queue_ext a0 : preserves (queue_ext a0) trigger_recompute.
Proof.
  intros s ([new Hn] & Hr & Hc).
  destruct (trigger_recompute_tasks s) as [new' Hn'].
  destruct (trigger_recompute_arrays s) as (_ & _ & _ & Hc' & Hr').
  unfold queue_ext. split_ands; [|congruence|congruence].
  exists (new ++ new'). by rewrite Hn', Hn, app_assoc.
Qed.

Lemma update_display_preserves (P : lab R C -> Prop) : preserves P update_display.
Proof. intros s Hs. by rewrite update_display_state. Qed.

Lemma apply_tool_queue_ext a0 ctl h w x y : preserves (queue_ext a0) (apply_tool ctl h w x y).
Proof.
  intros s ([new Hn] & Hr & Hc).
  destruct (apply_tool_fields ctl h w x y s) as (_ & Hq & Hr' & Hc' & _).
  unfold queue_ext. split_ands; [exists new; by rewrite Hq|congruence|congruence].
Qed.

#[local] Hint Resolve trigger_recompute_queue_ext update_display_preserves
  apply_tool_queue_ext : fl.

Lemma queue_ext_set_fshift a0 f s : queue_ext a0 s -> queue_ext a0 (set_fshift f s).
Proof. done. Qed.

Lemma queue_ext_set_mask a0 m s : queue_ext a0 s -> queue_ext a0 (set_mask m s).
Proof. done. Qed.

#[local] Hint Resolve queue_ext_set_fshift queue_ext_set_mask preserves_put
  preserves_get_bind' preserves_modify : fl.

Lemma load_image_queue_ext a0 file : preserves (queue_ext a0) (load_image file).
Proof.
  destruct file as [|[pix|]]; cbv beta iota zeta delta [load_image];
    [apply preserves_ret| |apply preserves_ret].
  apply preserves_bind; [|intros _; apply preserves_bind; eauto with fl].
  apply preserves_modify. intros s Hs. apply Hs.
Qed.

Lemma reset_image_queue_ext a0 : preserves (queue_ext a0) reset_image.
Proof.
  unfold reset_image. apply preserves_get_bind'. intros s _.
  destruct (img s); [|apply preserves_ret].
  apply preserves_bind; [eauto with fl|intros _].
  apply preserves_get_bind'. intros s' Hs'. destruct (mask s'); [|apply preserves_throw].
  apply preserves_bind; [eauto with fl|intros _]. apply preserves_bind; eauto with fl.
Qed.

Lemma clear_all_queue_ext a0 : preserves (queue_ext a0) clear_all.
Proof.
  unfold clear_all. apply preserves_get_bind'. intros s Hs.
  destruct (fshift s); [|apply preserves_ret]. destruct (mask s); [|apply preserves_throw].
  apply preserves_bind; [eauto with fl|intros _]. apply preserves_bind; eauto with fl.
Qed.

Lemma on_click_queue_ext a0 ctl ev : preserves (queue_ext a0) (on_click ctl ev).
Proof.
  unfold on_click. apply preserves_get_bind'. intros s _.
  destruct (fshift s); [|apply preserves_ret]. destruct (in_ax2 ev); [|apply preserves_ret].
  apply preserves_bind; [eauto with fl|intros _]. apply preserves_bind; eauto with fl.
Qed.

(** A Tk handler only appends to [task_queue] and leaves the result
    queue and the cache to the worker and to [check_queue]. *)
Lemma ui_step_queues (a a' : lab R C) : ui_step a a' -> queue_ext a a'.
Proof.
  destruct 1 as [file st _|st|st|ctl ev st];
    [apply load_image_queue_ext|apply reset_image_queue_ext|apply clear_all_queue_ext
    |apply on_click_queue_ext]; apply queue_ext_refl.
Qed.
End Handlers.

Section HandlerWf.
Context `{ScalarLaws R C} `{!Transform R C} `{!TransformLaws R C}.

#[local] Hint Resolve trigger_recompute_wf : fl.

Lemma update_display_trigger_wf (st : lab R C) :
  lab_wf st -> lab_wf ((update_display;; trigger_recompute) st).1.
Proof.
  intros Hwf. apply (preserves_bind lab_wf); [|intros _|done].
  - intros s Hs. by rewrite update_display_state.
  - intros s Hs. by apply trigger_recompute_wf.
Qed.

(** Every Tk handler keeps the store well formed. *)
Lemma ui_step_wf (a a' : lab R C) : lab_wf a -> ui_step a a' -> lab_wf a'.
Proof.
  intros Hwf Hs. destruct Hs as [file st Hpix|st|st|ctl ev st].
  - by apply load_image_wf.
  - destruct Hwf as [Ha Hq].
    destruct st as [[i|] [f|] [m|] rc tq rq]; simpl in Ha; try contradiction.
    2:{ by split. }
    rewrite (reset_image_spec _ i f m) by done. simpl.
    destruct Ha as (h & w & Hh & Hw & Hi & Hf & Hm).
    assert (Hreq : rect h w (transform_image i) /\ rect h w (fill_like r1 m)).
    { unfold transform_image. split; eauto with fl. }
    destruct Hreq. split; [exists h, w; by split_ands|].
    apply Forall_app; split; [done|]. constructor; [|constructor]. by exists h, w.
  - destruct Hwf as [Ha Hq].
    destruct st as [[i|] [f|] [m|] rc tq rq]; simpl in Ha; try contradiction.
    2:{ by split. }
    rewrite (clear_all_spec _ f m) by done. simpl.
    destruct Ha as (h & w & Hh & Hw & Hi & Hf & Hm).
    assert (rect h w (fill_like r1 m)) by eauto with fl.
    split; [exists h, w; by split_ands|].
    apply Forall_app; split; [done|]. constructor; [|constructor]. by exists h, w.
  - unfold on_click. rewrite (pyM_bind_ok _ _ st st st eq_refl).
    destruct (fshift st) as [f|] eqn:Hf; [|done].
    destruct (in_ax2 ev); simpl; [|done].
    pose proof (apply_tool_wf ctl (click_coord (xdata ev)) (click_coord (ydata ev)) st f Hwf Hf).
    unfold mbind at 1, pyM_bind.
    destruct (apply_tool _ _ _ _ _ st) as [st1 [[]|e]]; simpl in *; [|done].
    by apply update_display_trigger_wf.
Qed.

Lemma same_shape_rect {A B} h w (a : matrix A) (b : matrix B) :
  rect h w a -> rect h w b -> same_shape a b = true.
Proof.
  intros [Hla Hfa] [Hlb Hfb]. unfold same_shape. apply andb_true_iff. split.
  - apply Nat.eqb_eq. lia.
  - clear Hla Hlb. revert b Hfb. induction Hfa as [|ra a Hra Hfa IH];
      intros [|rb b] Hfb; simpl; [done|done|done|].
    inversion Hfb as [|? ? Hrb Hfb']; subst.
    apply andb_true_iff. split; [apply Nat.eqb_eq; lia|by apply IH].
Qed.
End HandlerWf.

(** ** The invariant of the running program *)

Section Invariant.
Context `{ScalarLaws R C} `{!Transform R C} `{!TransformLaws R C}.

(** A well-formed snapshot never makes the worker raise. *)
Lemma compute_result_wf (q : request R C) : req_wf q -> exists r, compute_result q = Some r.
Proof.
  intros (h & w & _ & _ & Hf & Hm). unfold compute_result.
  rewrite (same_shape_rect h w) by done. eauto.
Qed.

(** - the store is well formed and the running snapshot too;
    - the worker has not died;
    - every request ever queued is, in queue order, either published
      (as its computed result), or running, or still queued;
    - every published result is either taken by the consumer or still
      in [result_queue], in order;
    - [result_cache] is the last result the consumer took. *)
Definition sys_inv (S : sys R C) : Prop :=
  lab_wf (app S) /\
  Forall req_wf (running (worker S)) /\
  worker S <> Crashed /\
  map compute_result (sent S) =
    map Some (published S) ++ map compute_result (running (worker S) ++ task_queue (app S)) /\
  published S = drained S ++ result_queue (app S) /\
  result_cache (app S) = last (drained S).

Lemma sys_inv_init : sys_inv sys_init.
Proof. unfold sys_inv. simpl. split_ands; done. Qed.

Lemma lab_wf_set_tasks (a : lab R C) q :
  arrays_wf (img a) (fshift a) (mask a) -> Forall req_wf q -> lab_wf (set_tasks q a).
Proof. by split. Qed.

Lemma check_queue_fields (a : lab R C) :
  img (check_queue a) = img a /\ fshift (check_queue a) = fshift a /\
  mask (check_queue a) = mask a /\ task_queue (check_queue a) = task_queue a.
Proof. unfold check_queue. by case_match. Qed.

Lemma sys_inv_step S S' : sys_inv S -> sys_step S S' -> sys_inv S'.
Proof.
  intros (Hwf & Hrun & Hnc & Heq & Hpub & Hc) Hstep.
  destruct Hstep as [a a' w s p d new Hui Htq|a s p d q rest Htq|a s p d q r Hr|a s p d q Hr
                    |a w s p d]; simpl in *.
  - destruct (ui_step_queues a a' Hui) as (_ & Hrq & Hrc).
    unfold sys_inv; simpl; split_ands.
    + by apply (ui_step_wf a).
    + done.
    + done.
    + rewrite map_app, Heq, Htq, !map_app, <- !app_assoc. done.
    + by rewrite Hrq.
    + by rewrite Hrc.
  - destruct Hwf as [Ha Hq]. rewrite Htq in Hq. inversion Hq as [|? ? Hq1 Hrest]; subst.
    unfold sys_inv; simpl; split_ands.
    + by apply lab_wf_set_tasks.
    + by constructor.
    + done.
    + by rewrite Heq, Htq.
    + done.
    + done.
  - destruct Hwf as [Ha Hq].
    unfold sys_inv; simpl; split_ands.
    + by split.
    + constructor.
    + done.
    + by rewrite map_app, Heq, <- app_assoc, Hr.
    + by rewrite Hpub, app_assoc.
    + done.
  - inversion Hrun as [|? ? Hq _]; subst.
    destruct (compute_result_wf q Hq) as [r Hr']. congruence.
  - destruct (check_queue_fields a) as (Hi & Hf & Hm & Ht).
    destruct Hwf as [Ha Hq].
    unfold sys_inv; simpl; split_ands.
    + split; [by rewrite Hi, Hf, Hm|by rewrite Ht].
    + done.
    + done.
    + by rewrite Ht.
    + unfold check_queue. destruct (last (result_queue a)) eqn:El; simpl.
      * by rewrite app_nil_r.
      * apply last_None in El. by rewrite Hpub, El, !app_nil_r.
    + unfold check_queue. rewrite last_app. destruct (last (result_queue a)); simpl; done.
Qed.

Lemma rtc_sys_inv S S' : rtc sys_step S S' -> sys_inv S -> sys_inv S'.
Proof.
  induction 1 as [S|S S1 S2 Hs Hr IH]; intros Hinv; [done|].
  apply IH. by apply (sys_inv_step S).
Qed.

(** C1: Every reachable state satisfies the invariant. *)
Theorem reachable_inv S : rtc sys_step sys_init S -> sys_inv S.
Proof. intros Hr. apply (rtc_sys_inv sys_init); [done|apply sys_inv_init]. Qed.
End Invariant.

(** ** FIFO, exactly once, termination of the backlog, latest wins *)

Section Delivery.
Context `{ScalarLaws R C} `{!Transform R C} `{!TransformLaws R C}.

(** C4: The [i]-th result ever published is the result computed from the
    [i]-th snapshot ever queued: requests are served in FIFO order,
    none is skipped, none is served twice. *)
Theorem published_fifo S i r :
  rtc sys_step sys_init S -> published S !! i = Some r ->
  exists q, sent S !! i = Some q /\ compute_result q = Some r.
Proof.
  intros Hr Hi. destruct (rtc_sys_inv _ _ Hr sys_inv_init) as (_ & _ & _ & Heq & _).
  assert (Hl : map compute_result (sent S) !! i = Some (Some r)).
  { rewrite Heq, lookup_app_l; [by rewrite list_lookup_fmap, Hi|].
    rewrite length_map. by apply lookup_lt_Some in Hi. }
  rewrite list_lookup_fmap in Hl.
  destruct (sent S !! i) as [q|] eqn:Eq; simpl in Hl; [|done].
  injection Hl as Hl. eauto.
Qed.

Definition backlog (S : sys R C) : nat :=
  2 * length (task_queue (app S)) + length (running (worker S)).

Lemma worker_drains n S :
  sys_inv S -> backlog S <= n ->
  exists S', rtc sys_step S S' /\ sys_inv S' /\ worker S' = Waiting /\
             task_queue (app S') = [] /\ sent S' = sent S.
Proof.
  revert S. induction n as [|n IH]; intros [a w s p d] Hinv Hb;
    pose proof Hinv as (Hwf & Hrun & Hnc & Heq & Hpub & Hc); simpl in *.
  - unfold backlog in Hb. simpl in Hb.
    destruct w as [| |]; [|simpl in Hb; lia|congruence].
    destruct (task_queue a) eqn:Et; [|simpl in Hb; lia].
    exists (mkSys a Waiting s p d). split_ands; done.
  - destruct w as [|q|]; [| |congruence].
    + destruct (task_queue a) as [|q rest] eqn:Et.
      * exists (mkSys a Waiting s p d). split_ands; done.
      * assert (Hs : sys_step (mkSys a Waiting s p d) (mkSys (set_tasks rest a) (Running q) s p d))
          by by constructor.
        destruct (IH (mkSys (set_tasks rest a) (Running q) s p d)) as (S' & Hr' & HS');
          [by eapply sys_inv_step|unfold backlog in *; simpl in *; rewrite Et in Hb; simpl in Hb; lia|].
        exists S'. split; [by eapply rtc_l|done].
    + apply Forall_cons in Hrun as [Hq _].
      destruct (compute_result_wf q Hq) as [r Hr].
      assert (Hs : sys_step (mkSys a (Running q) s p d)
                     (mkSys (set_results (result_queue a ++ [r]) a) Waiting s (p ++ [r]) d))
        by by constructor.
      destruct (IH (mkSys (set_results (result_queue a ++ [r]) a) Waiting s (p ++ [r]) d))
        as (S' & Hr' & HS'); [by eapply sys_inv_step|unfold backlog in *; simpl in *; lia|].
      exists S'. split; [by eapply rtc_l|done].
Qed.

(** C3: The backlog always empties: from any reachable state the worker
    alone computes every queued snapshot, and then the number of
    published results is the number of snapshots ever queued. *)
Theorem backlog_terminates S :
  rtc sys_step sys_init S ->
  exists S', rtc sys_step S S' /\ worker S' = Waiting /\ task_queue (app S') = [] /\
             sent S' = sent S /\ length (published S') = length (sent S).
Proof.
  intros Hr. destruct (worker_drains (backlog S) S (rtc_sys_inv _ _ Hr sys_inv_init) (le_n _))
    as (S' & Hr' & (_ & _ & _ & Heq & _) & Hw & Ht & Hs).
  exists S'. split_ands; try done.
  rewrite Hw, Ht in Heq. simpl in Heq. rewrite app_nil_r in Heq.
  apply (f_equal length) in Heq. rewrite !length_map in Heq. by rewrite <- Hs.
Qed.

(** Once the worker is idle with nothing queued, [check_queue] leaves on
    display the result computed from the last snapshot ever queued. *)
Lemma quiescent_cache S q :
  sys_inv S -> worker S = Waiting -> task_queue (app S) = [] -> last (sent S) = Some q ->
  result_cache (check_queue (app S)) = compute_result q.
Proof.
  destruct S as [a w s p d]; simpl.
  intros (_ & _ & _ & Heq & Hpub & Hc) -> Ht Hl. simpl in *.
  rewrite Ht in Heq. simpl in Heq. rewrite app_nil_r in Heq.
  apply (f_equal last) in Heq. rewrite !last_map, Hl in Heq. simpl in Heq.
  unfold check_queue.
  destruct (last (result_queue a)) as [r|] eqn:Er; simpl.
  - rewrite Hpub, last_app, Er in Heq. simpl in Heq. congruence.
  - apply last_None in Er. rewrite Hpub, Er, app_nil_r in Heq.
    rewrite Hc. destruct (last d); simpl in Heq; congruence.
Qed.

(** C2: Latest wins: in every reachable state where the worker is idle
    and [task_queue] is empty, one [check_queue] puts on display the
    result computed from the last snapshot ever queued, whatever results
    were published or drained before. *)
Theorem latest_result_displayed S q :
  rtc sys_step sys_init S -> worker S = Waiting -> task_queue (app S) = [] ->
  last (sent S) = Some q ->
  result_cache (check_queue (app S)) = compute_result q.
Proof. intros Hr. apply quiescent_cache. exact (rtc_sys_inv _ _ Hr sys_inv_init). Qed.

(** The display eventually catches up: from any reachable state, the
    worker and one [check_queue] reach a state showing the result of
    the last snapshot queued. *)
Lemma latest_result_eventually S q :
  rtc sys_step sys_init S -> last (sent S) = Some q ->
  exists S', rtc sys_step S S' /\ result_cache (app S') = compute_result q.
Proof.
  intros Hr Hl. destruct (worker_drains (backlog S) S (rtc_sys_inv _ _ Hr sys_inv_init) (le_n _))
    as ([a w s p d] & Hr' & Hinv & Hw & Ht & Hs).
  simpl in *. subst w s.
  exists (mkSys (check_queue a) Waiting (sent S) p (d ++ result_queue a)).
  split; [eapply rtc_r; [done|constructor]|].
  exact (quiescent_cache (mkSys a Waiting (sent S) p d) q Hinv eq_refl Ht Hl).
Qed.
End Delivery.

(** ** A run of the program on a concrete image

    Load a 2 by 2 image, let the worker take and compute the snapshot,
    and let [check_queue] take the result; on Gaussian rationals with
    the computable transform of [Store.DcTransform]. *)
Module Demo.
Import GaussQ DcTransform.

Abbreviation L := (lab Qc (Qc * Qc)).
Abbreviation Sy := (sys Qc (Qc * Qc)).

Definition demo_pix : matrix Z := [[51; 102]; [153; 204]]%Z.
Definition demo_img : matrix Qc := mat_map of_byte demo_pix.
Definition demo_req : request Qc (Qc * Qc) :=
  mkRequest (transform_image demo_img) (fill_like r1 demo_img).
Definition demo_result : matrix Qc :=
  mat_map cabs (ifft2 (ifftshift (mat_zip rscale (req_fshift demo_req) (req_mask demo_req)))).

Definition demo_app1 : L := (load_image (Chosen (Some demo_pix)) (lab_init : L)).1.
Definition demo_app2 : L := set_tasks [] demo_app1.
Definition demo_app3 : L := set_results [demo_result] demo_app2.

Definition demo_S1 : Sy := mkSys demo_app1 Waiting [demo_req] [] [].
Definition demo_S2 : Sy := mkSys demo_app2 (Running demo_req) [demo_req] [] [].
Definition demo_S3 : Sy := mkSys demo_app3 Waiting [demo_req] [demo_result] [].
Definition demo_S4 : Sy :=
  mkSys (check_queue demo_app3) Waiting [demo_req] [demo_result] [demo_result].

Lemma demo_compute : compute_result demo_req = Some demo_result.
Proof. reflexivity. Qed.

Lemma demo_reach_S1 : rtc sys_step (sys_init : Sy) demo_S1.
Proof.
  apply rtc_once. apply (step_ui (lab_init : L) demo_app1 Waiting [] [] [] [demo_req]).
  - apply ui_load. intros pix [= <-]. exists 2, 2. split_ands; [lia|lia|].
    split; [done|repeat constructor].
  - reflexivity.
Qed.

Lemma demo_reach_S2 : rtc sys_step (sys_init : Sy) demo_S2.
Proof.
  eapply rtc_r; [apply demo_reach_S1|]. by apply step_take.
Qed.

Lemma demo_reach_S4 : rtc sys_step (sys_init : Sy) demo_S4.
Proof.
  eapply rtc_r; [eapply rtc_r; [apply demo_reach_S2|]|].
  - apply (step_publish demo_app2 [demo_req] [] [] demo_req demo_result demo_compute).
  - apply (step_drain demo_app3 Waiting [demo_req] [demo_result] []).
Qed.

Lemma reachable_inv_witness : sys_inv demo_S4.
Proof. apply (reachable_inv demo_S4). apply demo_reach_S4. Defined.


Lemma published_fifo_witness :
  exists q, sent demo_S4 !! 0 = Some q /\ compute_result q = Some demo_result.
Proof. apply (published_fifo demo_S4 0 demo_result); [apply demo_reach_S4|reflexivity]. Defined.

Lemma backlog_terminates_witness :
  exists S', rtc sys_step demo_S2 S' /\ worker S' = Waiting /\ task_queue (app S') = [] /\
             sent S' = sent demo_S2 /\ length (published S') = length (sent demo_S2).
Proof. apply (backlog_terminates demo_S2). apply demo_reach_S2. Defined.

Lemma latest_result_displayed_witness :
  result_cache (check_queue (app demo_S3)) = compute_result demo_req.
Proof.
  apply (latest_result_displayed demo_S3 demo_req); [|reflexivity..].
  eapply rtc_r; [apply demo_reach_S2|].
  apply (step_publish demo_app2 [demo_req] [] [] demo_req demo_result demo_compute).
Defined.
End Demo.
