(* ===== verification/Export.v ===== *)
(** * Saving the result of the frequency lab: [UltimateFrequencyLab.save_result]

    [save_result] ([src/HW3/lab_2.py], lines 236-241) writes the last
    rendered result, [(self.result_cache * 255).astype(np.uint8)], to
    the path the save dialog returns, and shows a message.  The result
    is [np.abs] of an inverse transform: it is not bounded by 1.

    [astype(np.uint8)] of a float is the C conversion: the value is
    truncated toward zero and kept modulo [2^8], as the conversion does
    on the platforms numpy runs on ([to_uint8_wrap]).  The numbers of
    the store are read as exact rationals through the class
    [RealValue]; float rounding of the product is not modelled.

    The theorem: the file holds bytes in [0, 255], the scaled value
    itself for results in [0, 1], and for results in [256/255, 2) the
    scaled value wrapped around: a bright pixel is saved dark. *)

From stdpp Require Import base list numbers strings gmap.
From Stdlib Require Import ZArith QArith Qround Qcanon Lia Lqa.
From S2P Require Import Prelude Scalars Store.
Local Open Scope Z_scope.

(** The value of a stored number. *)
Class RealValue (R : Type) := real_of : R -> Q.

(** [int()] of a float: truncation toward zero. *)
Definition Qtrunc (q : Q) : Z := Z.quot (Qnum q) (Zpos (Qden q)).

(** [uint8] of an integer: the low eight bits. *)
Definition to_uint8_wrap (z : Z) : Z := z mod 256.

Section ResultBytes.
Context {R C : Type} `{!RealValue R}.

(** [(x * 255).astype(np.uint8)], one cell. *)
Definition export_byte (x : R) : Z := to_uint8_wrap (Qtrunc (real_of x * 255)).

Definition export_bytes (r : matrix R) : matrix Z := mat_map export_byte r.

(** [save_result()], lines 236-241: nothing without a result, nothing
    when the dialog is cancelled ([path] empty); otherwise the image is
    written and the message [Result saved to {path}] shown. *)
Definition save_result (st : lab R C) (path : string) (disk : gmap string (matrix Z)) (shown : list string) :
    gmap string (matrix Z) * list string :=
  match result_cache st with
  | None => (disk, shown)
  | Some r =>
      if decide (path = ""%string) then (disk, shown)
      else (<[path := export_bytes r]> disk, shown ++ ["Result saved to " +:+ path])
  end.

End ResultBytes.

(** ** The bytes written *)

Lemma Qtrunc_floor q : (0 <= q)%Q -> Qtrunc q = Qfloor q.
Proof.
  destruct q as [n d]. unfold Qle. simpl. intros Hn. unfold Qtrunc. simpl.
  apply Z.quot_div_nonneg; lia.
Qed.

(** [Qfloor] of a value between two integers. *)
Lemma Qfloor_between q a b : (inject_Z a <= q)%Q -> (q < inject_Z b)%Q -> a <= Qfloor q < b.
Proof.
  intros Ha Hb. split.
  - rewrite <- (Qfloor_Z a). by apply Qfloor_resp_le.
  - apply Z.lt_nge. intros Hge. pose proof (Qfloor_le q) as Hf.
    rewrite Zle_Qle in Hge. lra.
Qed.

Section Bytes.
Context {R : Type} `{!RealValue R}.

Lemma export_byte_range x : 0 <= export_byte x < 256.
Proof. unfold export_byte, to_uint8_wrap. apply Z.mod_pos_bound. lia. Qed.

Lemma export_byte_in_range x :
  (0 <= real_of x <= 1)%Q -> export_byte x = Qfloor (real_of x * 255).
Proof.
  intros Hx. unfold export_byte, to_uint8_wrap. rewrite Qtrunc_floor by lra.
  apply Z.mod_small. apply (Qfloor_between _ 0 256); unfold inject_Z; lra.
Qed.

Lemma export_byte_wraps x :
  (256 # 255 <= real_of x < 2)%Q -> export_byte x = Qfloor (real_of x * 255) - 256.
Proof.
  intros Hx. unfold export_byte, to_uint8_wrap. rewrite Qtrunc_floor by lra.
  assert (Hb : 256 <= Qfloor (real_of x * 255) < 510).
  { apply Qfloor_between; unfold inject_Z, Qle, Qlt in *; simpl in *; lia || nra. }
  symmetry. apply Z.mod_unique with 1; lia.
Qed.

End Bytes.

Section SaveResult.
Context {R C : Type} `{!RealValue R}.

(** C39: [save_result] with a result and a chosen path writes the file
    and shows [Result saved to {path}]; each pixel of the file is a
    byte in [0, 255]: the scaled result [floor(255 x)] where the result
    [x] is in [0, 1], and that value less 256 where [x] is in
    [256/255, 2), since [astype(np.uint8)] keeps the low eight bits. *)
Theorem save_result_bytes (st : lab R C) path disk shown r :
  result_cache st = Some r -> path <> ""%string ->
  (save_result st path disk shown).1 !! path = Some (export_bytes r) /\
  (save_result st path disk shown).2 = shown ++ ["Result saved to " +:+ path] /\
  forall i j x, mat_get r i j = Some x ->
    exists b, mat_get (export_bytes r) i j = Some b /\ 0 <= b < 256 /\
      ((0 <= real_of x <= 1)%Q -> b = Qfloor (real_of x * 255)) /\
      ((256 # 255 <= real_of x < 2)%Q -> b = Qfloor (real_of x * 255) - 256).
Proof.
  intros Hr Hp. unfold save_result. rewrite Hr, decide_False by done. simpl.
  split; [by rewrite lookup_insert_eq|]. split; [done|].
  intros i j x Hx. exists (export_byte x). unfold export_bytes. rewrite mat_get_map, Hx.
  split_ands; [done|apply export_byte_range..|apply export_byte_in_range|apply export_byte_wraps].
Qed.

End SaveResult.

Module ExportWitness.

#[local] Instance qc_real : RealValue Qc := fun q => this q.

(** A result of 0.5 and one of 1.01, as [np.abs] may return. *)
Definition res : matrix Qc := [[Q2Qc (1 # 2); Q2Qc (101 # 100)]].
Definition st : lab Qc (Qc * Qc) := mkLab None None None (Some res) [] [].

Lemma save_result_bytes_witness :
  result_cache st = Some res /\ "out.png"%string <> ""%string /\
  (save_result st "out.png" ∅ []).2 = ["Result saved to out.png"%string] /\
  mat_get (export_bytes res) 0 1 = Some 1.
Proof.
  assert (Hr : result_cache st = Some res) by reflexivity.
  assert (Hp : "out.png"%string <> ""%string) by done.
  destruct (save_result_bytes st "out.png" ∅ [] res Hr Hp) as (_ & Hm & Hc).
  split_ands; [exact Hr|exact Hp|exact Hm|].
  destruct (Hc 0%nat 1%nat (Q2Qc (101 # 100)) eq_refl) as (b & Hb & _ & _ & Hw).
  rewrite Hb, Hw; [reflexivity|]. vm_compute. split; [intros Hc'; discriminate|reflexivity].
Defined.

(** The pixel of value 1.01 is saved as 1 (257 modulo 256), the one of
    value 0.5 as 127. *)
Example saved_pixels : export_bytes res = [[127; 1]].
Proof. vm_compute. reflexivity. Qed.

End ExportWitness.
