(* ===== verification/Filters.v ===== *)
(** * Spatial denoising filters of [ex2/common/filters.py]

    Images are Python lists of rows of integer pixels.  Every filter
    reads a square window around each pixel through [get_pixel_safe],
    which replicates the border, and raises when Python would: an empty
    image or row ([IndexError]), a division by zero, [0 ** -k].  The
    functions are pure, so they are modelled in the error monad
    [outcome]; the Python loops that append to [row] and [filtered]
    become [mapM] over [range].  [values.sort()] is modelled by stdpp's
    [merge_sort]: every sorting function yields the same list on
    integers. *)

From stdpp Require Import base list numbers sorting.
From Stdlib Require Import ZArith QArith Qround Lia.
From S2P Require Import Prelude.
Local Open Scope Z_scope.

(** [clamp_pixel] of [project/common/utils.py]: [0] below zero, [255]
    above, [int(value)] (truncation) in between. *)
Definition clamp_pixel (v : Q) : Z :=
  if negb (Qle_bool 0 v) then 0
  else if negb (Qle_bool v 255) then 255
  else py_int v.

(** The two border tests of [get_pixel_safe] on one axis of length [n]:
    [if v < 0: v = 0], then [if v >= n: v = n - 1]. *)
Definition clip (n v : Z) : Z :=
  let v := if v <? 0 then 0 else v in
  if v >=? n then n - 1 else v.

(** [get_pixel_safe(image, y, x)] *)
Definition get_pixel_safe (image : matrix Z) (y x : Z) : outcome Z :=
  let height := Z.of_nat (length image) in
  row0 ← py_lookup image 0;
  let width := Z.of_nat (length row0) in
  row ← py_lookup image (clip height y);
  py_lookup row (clip width x).

(** [for dy in range(-offset, offset + 1): for dx in range(-offset, offset + 1)] *)
Definition window_offsets (offset : Z) : list (Z * Z) :=
  list_prod (zrange (- offset) (offset + 1)) (zrange (- offset) (offset + 1)).

(** The [values] collected around [(y, x)], in the order of the loops. *)
Definition window_values (image : matrix Z) (offset y x : Z) : outcome (list Z) :=
  mapM (fun '(dy, dx) => get_pixel_safe image (y + dy) (x + dx)) (window_offsets offset).

(** [height = len(image)], [width = len(image[0])], and the two loops
    that build [filtered] row by row. *)
Definition map_pixels (image : matrix Z) (f : Z -> Z -> outcome Z) : outcome (matrix Z) :=
  let height := Z.of_nat (length image) in
  row0 ← py_lookup image 0;
  let width := Z.of_nat (length row0) in
  mapM (fun y => mapM (fun x => f y x) (zrange 0 width)) (zrange 0 height).

(** [values.sort()] *)
Definition sort_values (values : list Z) : list Z := merge_sort Z.le values.

(** [a // b] on integers. *)
Definition py_floordiv (a b : Z) : outcome Z :=
  if b =? 0 then Raise ZeroDivisionError else Ok (a / b).

(** [sum(values[i] for i in range(start, end))] through subscripts. *)
Definition sum_range (values : list Z) (start end_ : Z) : outcome Z :=
  vs ← mapM (py_lookup values) (zrange start end_);
  mret (foldl Z.add 0 vs).

(** The body of the pixel loop of [median_filter]. *)
Definition median_at (image : matrix Z) (offset y x : Z) : outcome Z :=
  values ← window_values image offset y x;
  let values := sort_values values in
  py_lookup values (Z.of_nat (length values) / 2).

Definition median_filter (image : matrix Z) (window : Z) : outcome (matrix Z) :=
  let offset := window / 2 in
  map_pixels image (median_at image offset).

(** The body of the pixel loop of [mean_filter]. *)
Definition mean_at (image : matrix Z) (offset y x : Z) : outcome Z :=
  values ← window_values image offset y x;
  py_floordiv (foldl Z.add 0 values) (Z.of_nat (length values)).

Definition mean_filter (image : matrix Z) (window : Z) : outcome (matrix Z) :=
  let offset := window / 2 in
  map_pixels image (mean_at image offset).

(** The body of the pixel loop of [trimmed_alpha_filter]. *)
Definition trimmed_at (image : matrix Z) (trim_amount offset y x : Z) : outcome Z :=
  values ← window_values image offset y x;
  let values := sort_values values in
  let n := Z.of_nat (length values) in
  let '(start, end_) :=
    if trim_amount >=? n - trim_amount then (0, n) else (trim_amount, n - trim_amount) in
  total ← sum_range values start end_;
  let count := Z.max 0 (end_ - start) in
  if count =? 0 then py_lookup values (n / 2) else py_floordiv total count.

Definition trimmed_alpha_filter (image : matrix Z) (window trim_amount : Z) : outcome (matrix Z) :=
  let offset := window / 2 in
  map_pixels image (trimmed_at image trim_amount offset).

(** [value ** e] for an integer pixel and an integer exponent, as a
    float: a negative power of [0] raises. *)
Definition py_pow (v e : Z) : outcome Q :=
  if e <? 0 then
    if v =? 0 then Raise ZeroDivisionError else Ok (/ inject_Z (v ^ (- e)))%Q
  else Ok (inject_Z (v ^ e)).

(** [Q] is an integer here: the exponent the experiments use is [1].
    The loop over the window accumulates [numerator] and
    [denominator] pixel by pixel, so the first failing power raises. *)
(** One iteration of the window loop of [contra_harmonic_filter]:
    [numerator += value ** (Q + 1)], [denominator += value ** Q]. *)
Definition contra_step (image : matrix Z) (q y x : Z) (acc : Q * Q) (o : Z * Z) : outcome (Q * Q) :=
  let '(num, den) := acc in
  let '(dy, dx) := o in
  value ← get_pixel_safe image (y + dy) (x + dx);
  n ← py_pow value (q + 1);
  d ← py_pow value q;
  mret (num + n, den + d)%Q.

(** The body of the pixel loop of [contra_harmonic_filter]. *)
Definition contra_at (image : matrix Z) (q offset y x : Z) : outcome Z :=
  '(numerator, denominator) ←
    fold_outcome (contra_step image q y x) (0%Q, 0%Q) (window_offsets offset);
  if Qeq_bool denominator 0 then get_pixel_safe image y x
  else mret (clamp_pixel (numerator / denominator)).

Definition contra_harmonic_filter (image : matrix Z) (window q : Z) : outcome (matrix Z) :=
  let offset := window / 2 in
  map_pixels image (contra_at image q offset).

(** ** Reading the window *)

Lemma clip_range n v : 0 < n -> 0 <= clip n v < n.
Proof.
  intros Hn. unfold clip. rewrite Z.geb_leb.
  destruct (Z.ltb_spec v 0); [destruct (Z.leb_spec n 0)|destruct (Z.leb_spec n v)]; lia.
Qed.

Lemma clip_id n v : 0 <= v < n -> clip n v = v.
Proof.
  intros Hv. unfold clip. rewrite Z.geb_leb.
  destruct (Z.ltb_spec v 0); [lia|]. destruct (Z.leb_spec n v); lia.
Qed.

(** On a non-empty rectangular image [get_pixel_safe] reads the pixel
    at the clipped position and never raises. *)
Lemma get_pixel_safe_ok h w image y x :
  rect h w image -> (0 < h)%nat -> (0 < w)%nat ->
  exists p, mat_get image (Z.to_nat (clip (Z.of_nat h) y)) (Z.to_nat (clip (Z.of_nat w) x)) = Some p /\
            get_pixel_safe image y x = Ok p.
Proof.
  intros [Hl Hf] Hh Hw.
  destruct image as [|row0 rest] eqn:Ei; [simpl in Hl; lia|]. rewrite <- Ei in *.
  assert (Hr0 : image !! 0%nat = Some row0) by (by rewrite Ei).
  assert (Hw0 : length row0 = w) by (rewrite Forall_lookup in Hf; eauto).
  pose proof (clip_range (Z.of_nat h) y ltac:(lia)).
  pose proof (clip_range (Z.of_nat w) x ltac:(lia)).
  destruct (py_lookup_in_range image (clip (Z.of_nat h) y)) as (row & Hrow & Ey); [lia|].
  assert (Hwr : length row = w) by (rewrite Forall_lookup in Hf; eauto).
  destruct (py_lookup_in_range row (clip (Z.of_nat w) x)) as (p & Hp & Ex); [lia|].
  exists p. split; [unfold mat_get; by rewrite Hrow|].
  unfold get_pixel_safe. rewrite (outcome_bind_Ok _ _ row0); [|by apply (py_lookup_nat _ 0)].
  rewrite Hl, Hw0, (outcome_bind_Ok _ _ row); done.
Qed.

Lemma length_window_offsets offset :
  length (window_offsets offset) = (Z.to_nat (2 * offset + 1) * Z.to_nat (2 * offset + 1))%nat.
Proof.
  unfold window_offsets. rewrite length_prod, !length_zrange.
  by replace (offset + 1 - - offset) with (2 * offset + 1) by lia.
Qed.

(** The window of a non-empty rectangular image is read without error:
    one clipped pixel per offset, in the order of the loops. *)
Lemma window_values_ok h w image offset y x :
  rect h w image -> (0 < h)%nat -> (0 < w)%nat ->
  exists vs, window_values image offset y x = Ok vs /\
    Forall2 (fun '(dy, dx) v =>
      mat_get image (Z.to_nat (clip (Z.of_nat h) (y + dy))) (Z.to_nat (clip (Z.of_nat w) (x + dx))) = Some v)
      (window_offsets offset) vs.
Proof.
  intros Hi Hh Hw. apply mapM_Ok_intro. intros [dy dx] _.
  destruct (get_pixel_safe_ok h w image (y + dy) (x + dx) Hi Hh Hw) as (p & Hp & E). eauto.
Qed.

(** The two loops over a non-empty rectangular image produce an image of
    the same shape, pixel [(r, c)] being what the body returns there. *)
Lemma map_pixels_ok h w image (f : Z -> Z -> outcome Z) (P : Z -> Z -> Z -> Prop) :
  rect h w image -> (0 < h)%nat ->
  (forall y x, 0 <= y < Z.of_nat h -> 0 <= x < Z.of_nat w -> exists v, f y x = Ok v /\ P y x v) ->
  exists out, map_pixels image f = Ok out /\ rect h w out /\
    forall r c v, mat_get out r c = Some v -> P (Z.of_nat r) (Z.of_nat c) v.
Proof.
  intros [Hl Hf] Hh Hpix.
  destruct image as [|row0 rest] eqn:Ei; [simpl in Hl; lia|]. rewrite <- Ei in *.
  assert (Hw0 : length row0 = w) by (subst; by inversion Hf).
  unfold map_pixels. rewrite (outcome_bind_Ok _ _ row0) by (apply (py_lookup_nat _ 0); by rewrite Ei).
  rewrite Hw0, Hl.
  destruct (mapM_Ok_intro (fun y => mapM (fun x => f y x) (zrange 0 (Z.of_nat w)))
     (fun y row => Forall2 (fun x v => P y x v) (zrange 0 (Z.of_nat w)) row) (zrange 0 (Z.of_nat h)))
     as (out & Hout & Hrel).
  { intros y Hy%elem_of_zrange. apply mapM_Ok_intro. intros x Hx%elem_of_zrange. by apply Hpix. }
  exists out. split_ands; [done| |].
  - split.
    + apply Forall2_length in Hrel. rewrite length_zrange in Hrel. lia.
    + apply Forall_lookup. intros i row Hi.
      destruct (Forall2_lookup_r _ _ _ _ _ Hrel Hi) as (y & _ & Hr).
      apply Forall2_length in Hr. rewrite length_zrange in Hr. lia.
  - intros r c v Hv. unfold mat_get in Hv. destruct (out !! r) as [row|] eqn:Er; [|done].
    simpl in Hv. destruct (Forall2_lookup_r _ _ _ _ _ Hrel Er) as (y & Hy & Hr).
    destruct (Forall2_lookup_r _ _ _ _ _ Hr Hv) as (x & Hx & Hp).
    unfold zrange in Hy, Hx. apply lookup_seqZ in Hy as [-> _], Hx as [-> _]. done.
Qed.

(** Two loop bodies that agree at every pixel give the same filter. *)
Lemma map_pixels_ext image (f g : Z -> Z -> outcome Z) :
  (forall y x, f y x = g y x) -> map_pixels image f = map_pixels image g.
Proof.
  intros E. unfold map_pixels. destruct (py_lookup image 0) as [row0|e]; [|done].
  cbn [mbind outcome_bind]. apply mapM_ext_outcome. intros y. by apply mapM_ext_outcome.
Qed.

(** Whatever its body, a pixel loop that returns keeps the shape of a
    non-empty rectangular image. *)
Lemma map_pixels_rect h w image (f : Z -> Z -> outcome Z) out :
  rect h w image -> (0 < h)%nat -> map_pixels image f = Ok out -> rect h w out.
Proof.
  intros Hi Hh. destruct image as [|row0 rest]; [destruct Hi; simpl in *; lia|].
  assert (Ew : length row0 = w) by (by apply (rect_lookup h w (row0 :: rest) 0)).
  assert (Eh : length (row0 :: rest) = h) by (by destruct Hi).
  unfold map_pixels. rewrite (py_lookup_nat _ 0 row0) by done. cbn [mbind outcome_bind].
  rewrite Ew, Eh, mapM_Ok. intros Hrel. split.
  - apply Forall2_length in Hrel. rewrite length_zrange in Hrel. lia.
  - apply Forall_lookup. intros i row Hi'. destruct (Forall2_lookup_r _ _ _ _ _ Hrel Hi') as (y & _ & Hr).
    apply mapM_Ok, Forall2_length in Hr. rewrite length_zrange in Hr. lia.
Qed.

(** The four filters keep the shape of the image when they return. *)
Lemma filters_rect h w image window trim q out :
  rect h w image -> (0 < h)%nat ->
  (median_filter image window = Ok out \/ mean_filter image window = Ok out \/
   trimmed_alpha_filter image window trim = Ok out \/ contra_harmonic_filter image window q = Ok out) ->
  rect h w out.
Proof. intros Hi Hh [H | [H | [H | H]]]; exact (map_pixels_rect h w image _ out Hi Hh H). Qed.

(** ** The median of a sorted window *)

Lemma sort_values_perm vs : sort_values vs ≡ₚ vs.
Proof. apply merge_sort_Permutation. Qed.

Lemma sort_values_sorted vs : StronglySorted Z.le (sort_values vs).
Proof. apply StronglySorted_merge_sort; [intros ???|intros ??]; lia. Qed.

Lemma length_sort_values vs : length (sort_values vs) = length vs.
Proof. apply Permutation_length, sort_values_perm. Qed.

(** In a sorted list, position [k] holds [c] when at most [k] elements
    are below [c] and more than [k] are at most [c]. *)
Lemma sorted_lookup_pivot (s : list Z) (c : Z) (k : nat) :
  StronglySorted Z.le s ->
  (length (filter (fun v => (v < c)%Z) s) <= k)%nat ->
  (k < length (filter (fun v => (v <= c)%Z) s))%nat ->
  s !! k = Some c.
Proof.
  intros Hs Hlt Hle.
  pose proof (length_filter (fun v => v <= c) s).
  destruct (lookup_lt_is_Some_2 s k) as [v Hv]; [lia|].
  pose proof (lookup_lt_Some _ _ _ Hv).
  rewrite <- (take_drop k s) in Hs, Hlt, Hle.
  rewrite (drop_S _ _ _ Hv) in Hs, Hlt, Hle.
  assert (Hk : length (take k s) = k) by (rewrite length_take; lia).
  rewrite filter_app, length_app in Hlt, Hle.
  destruct (Z.lt_trichotomy v c) as [Hvc|[<-|Hvc]]; [exfalso| |exfalso].
  - rewrite length_filter_Forall in Hlt.
    + rewrite filter_cons_True in Hlt by done. simpl in Hlt. lia.
    + apply Forall_forall. intros x Hx.
      pose proof (StronglySorted_app_1_elem_of _ _ _ x v Hs Hx ltac:(by left)). lia.
  - done.
  - rewrite (filter_Forall_not (fun v => v <= c) (v :: drop (S k) s)) in Hle.
    + pose proof (length_filter (fun v => v <= c) (take k s)). simpl in Hle. lia.
    + apply StronglySorted_app_1_r, StronglySorted_cons in Hs as [Hs _].
      constructor; [lia|]. eapply Forall_impl; [done|]. simpl. lia.
Qed.

(** A strict majority of [c] in a window makes [c] its median. *)
Lemma median_majority (vs : list Z) (c : Z) :
  (2 * length (filter (fun v => v <> c) vs) < length vs)%nat ->
  sort_values vs !! (length (sort_values vs) / 2)%nat = Some c.
Proof.
  intros Hmaj. pose proof (sort_values_perm vs) as Hp.
  apply sorted_lookup_pivot; [apply sort_values_sorted| |];
    rewrite length_sort_values, !(length_filter_perm _ _ _ Hp).
  - assert (length (filter (fun v : Z => (v < c)%Z) vs) <= length (filter (fun v : Z => v <> c) vs))%nat
      by (apply length_filter_impl; intros; lia).
    pose proof (Nat.div_mod_eq (length vs) 2). pose proof (Nat.mod_upper_bound (length vs) 2). lia.
  - assert (length (filter (fun v : Z => ~ v <> c) vs) <= length (filter (fun v : Z => (v <= c)%Z) vs))%nat
      by (apply length_filter_impl; intros; lia).
    pose proof (length_filter_compl (fun v => v <> c) vs).
    pose proof (Nat.div_mod_eq (length vs) 2). pose proof (Nat.mod_upper_bound (length vs) 2). lia.
Qed.

(** ** Impulse removal by the 3 by 3 median *)

Lemma window_offsets_1 : window_offsets 1 = list_prod [-1; 0; 1]%Z [-1; 0; 1]%Z.
Proof. reflexivity. Qed.

(** On an axis of length at least 2, the clipped rows [y-1] and [y+1]
    differ, so at most two of the three rows of a 3 by 3 window are a
    given row of the image. *)
Lemma clip_hits_le_2 n y r :
  2 <= n -> 0 <= y < n ->
  (length (filter (fun d => clip n (y + d) = r) [-1; 0; 1]%Z) <= 2)%nat.
Proof.
  intros Hn Hy.
  assert (clip n (y + -1) <> clip n (y + 1)).
  { unfold clip. rewrite !Z.geb_leb.
    destruct (Z.ltb_spec (y + -1) 0), (Z.ltb_spec (y + 1) 0); cbv zeta;
      repeat match goal with |- context [?a <=? ?b] => destruct (Z.leb_spec a b) end; lia. }
  rewrite !filter_cons, filter_nil.
  repeat case_decide; simpl; try lia; congruence.
Qed.

(** A pixel of the image appears at most 4 times in a 3 by 3 window. *)
Lemma window3_hits h w y x r c :
  2 <= h -> 2 <= w -> 0 <= y < h -> 0 <= x < w ->
  (length (filter (fun o : Z * Z => clip h (y + o.1) = r /\ clip w (x + o.2) = c)
     (window_offsets 1)) <= 4)%nat.
Proof.
  intros Hh Hw Hy Hx. rewrite window_offsets_1.
  pose proof (length_filter_prod (fun d => clip h (y + d) = r) (fun d => clip w (x + d) = c)
                [-1; 0; 1]%Z [-1; 0; 1]%Z) as E.
  cbv beta in E. rewrite E.
  pose proof (clip_hits_le_2 h y r Hh Hy). pose proof (clip_hits_le_2 w x c Hw Hx). nia.
Qed.

(** C11: The 3 by 3 median filter removes an isolated impulse: on an
    image of at least 2 by 2 pixels that is constant [c] except at one
    pixel, the filtered image is constant [c].  Border replication
    repeats a pixel at most four times in a window of nine. *)
Theorem median_filter_removes_impulse h w image (r0 c0 : nat) c :
  rect h w image -> (2 <= h)%nat -> (2 <= w)%nat ->
  (forall r col, (r < h)%nat -> (col < w)%nat -> (r, col) <> (r0, c0) ->
     mat_get image r col = Some c) ->
  median_filter image 3 = Ok (mat_fill h w c).
Proof.
  intros Hi Hh Hw Hc. unfold median_filter. change (3 / 2) with 1.
  destruct (map_pixels_ok h w image (median_at image 1) (fun _ _ v => v = c) Hi ltac:(lia))
    as (out & Hout & Hr & Hv).
  - intros y x Hy Hx. unfold median_at.
    destruct (window_values_ok h w image 1 y x Hi ltac:(lia) ltac:(lia)) as (vs & Hvs & Hrel).
    rewrite (outcome_bind_Ok _ _ vs Hvs).
    assert (Hlen : length vs = 9%nat) by (apply Forall2_length in Hrel; by rewrite <- Hrel).
    assert (Hmaj : (2 * length (filter (fun v => v <> c) vs) < length vs)%nat).
    { pose proof (window3_hits (Z.of_nat h) (Z.of_nat w) y x (Z.of_nat r0) (Z.of_nat c0)
                    ltac:(lia) ltac:(lia) Hy Hx) as H4.
      assert (length (filter (fun v => v <> c) vs) <=
              length (filter (fun o : Z * Z => clip (Z.of_nat h) (y + o.1) = Z.of_nat r0 /\
                                            clip (Z.of_nat w) (x + o.2) = Z.of_nat c0)
                        (window_offsets 1)))%nat; [|lia].
      apply (Forall2_filter_le _ _ _ _ _ Hrel). intros [dy dx] v Hget Hne. simpl.
      pose proof (clip_range (Z.of_nat h) (y + dy) ltac:(lia)).
      pose proof (clip_range (Z.of_nat w) (x + dx) ltac:(lia)).
      destruct (decide ((Z.to_nat (clip (Z.of_nat h) (y + dy)), Z.to_nat (clip (Z.of_nat w) (x + dx)))
                        = (r0, c0))) as [[= E1 E2]|Hpos]; [lia|].
      rewrite Hc in Hget; [congruence|lia|lia|done]. }
    pose proof (median_majority vs c Hmaj) as Hm. exists c. split; [|done].
    apply py_lookup_nat in Hm. by rewrite Nat2Z.inj_div in Hm.
  - rewrite Hout. f_equal. apply (mat_ext h w); [done|apply mat_fill_rect|].
    intros r col Hr' Hc'. rewrite mat_get_fill by done.
    destruct (rect_mat_get_Some h w out r col Hr Hr' Hc') as [v Ev]. rewrite Ev.
    by rewrite (Hv _ _ _ Ev).
Qed.

(** ** Errors and ranges of the whole filters *)

(** A loop body that only raises [e], and raises at some pixel, makes
    the filter raise [e]. *)
Lemma map_pixels_raise h w image (f : Z -> Z -> outcome Z) e :
  rect h w image -> (0 < h)%nat ->
  (forall y x, 0 <= y < Z.of_nat h -> 0 <= x < Z.of_nat w ->
     f y x = Raise e \/ exists v, f y x = Ok v) ->
  (exists y x, 0 <= y < Z.of_nat h /\ 0 <= x < Z.of_nat w /\ f y x = Raise e) ->
  map_pixels image f = Raise e.
Proof.
  intros [Hl Hf] Hh Hpix (y0 & x0 & Hy0 & Hx0 & E0).
  destruct image as [|row0 rest] eqn:Ei; [simpl in Hl; lia|]. rewrite <- Ei in *.
  assert (Hw0 : length row0 = w) by (subst; by inversion Hf).
  unfold map_pixels. rewrite (outcome_bind_Ok _ _ row0) by (apply (py_lookup_nat _ 0); by rewrite Ei).
  rewrite Hw0, Hl. apply mapM_Raise.
  - intros y Hy%elem_of_zrange. apply mapM_Ok_or_Raise. intros x Hx%elem_of_zrange. by apply Hpix.
  - exists y0. split; [by apply elem_of_zrange|]. apply mapM_Raise.
    + intros x Hx%elem_of_zrange. by apply Hpix.
    + exists x0. split; [by apply elem_of_zrange|done].
Qed.

Definition pixels_in (lo hi : Z) (image : matrix Z) : Prop :=
  Forall (Forall (fun v => lo <= v <= hi)) image.

Lemma pixels_in_mat_get lo hi image r c v :
  pixels_in lo hi image -> mat_get image r c = Some v -> lo <= v <= hi.
Proof.
  intros Hp Hv. unfold mat_get in Hv. destruct (image !! r) as [row|] eqn:Er; [|done].
  simpl in Hv. unfold pixels_in in Hp. rewrite Forall_lookup in Hp. specialize (Hp _ _ Er).
  rewrite Forall_lookup in Hp. eauto.
Qed.

Lemma pixels_in_intro lo hi image :
  (forall r c v, mat_get image r c = Some v -> lo <= v <= hi) -> pixels_in lo hi image.
Proof.
  intros Hv. apply Forall_lookup. intros r row Er. apply Forall_lookup. intros c v Ec.
  apply (Hv r c). unfold mat_get. by rewrite Er.
Qed.

(** The window of a pixel of an image with values in [[lo, hi]] has
    [(2 * offset + 1)^2] values, all in [[lo, hi]]. *)
Lemma window_values_in h w image offset y x lo hi :
  rect h w image -> (0 < h)%nat -> (0 < w)%nat -> pixels_in lo hi image ->
  exists vs, window_values image offset y x = Ok vs /\
    length vs = (Z.to_nat (2 * offset + 1) * Z.to_nat (2 * offset + 1))%nat /\
    Forall (fun v => lo <= v <= hi) vs.
Proof.
  intros Hi Hh Hw Hp. destruct (window_values_ok h w image offset y x Hi Hh Hw) as (vs & Hvs & Hrel).
  exists vs. split_ands; [done|by rewrite <- (Forall2_length _ _ _ Hrel), length_window_offsets|].
  apply Forall_lookup. intros i v Hv.
  destruct (Forall2_lookup_r _ _ _ _ _ Hrel Hv) as ([dy dx] & _ & Hget).
  by apply (pixels_in_mat_get lo hi image _ _ _ Hp Hget).
Qed.

Lemma window_offsets_neg offset : offset < 0 -> window_offsets offset = [].
Proof.
  intros Ho. unfold window_offsets.
  assert (E : zrange (- offset) (offset + 1) = []).
  { apply nil_length_inv. rewrite length_zrange. lia. }
  by rewrite E.
Qed.

Lemma window_values_length image offset y x vs :
  window_values image offset y x = Ok vs ->
  length vs = (Z.to_nat (2 * offset + 1) * Z.to_nat (2 * offset + 1))%nat.
Proof.
  intros E. apply mapM_Ok, Forall2_length in E. by rewrite <- E, length_window_offsets.
Qed.

(** Reading [values[i]] for every [i] in [range(len(values))] gives back
    [values]. *)
Lemma mapM_py_lookup_all (l : list Z) :
  mapM (py_lookup l) (zrange 0 (Z.of_nat (length l))) = Ok l.
Proof.
  apply mapM_Ok, Forall2_lookup. intros i. unfold zrange.
  destruct (l !! i) as [a|] eqn:Ea.
  - pose proof (lookup_lt_Some _ _ _ Ea).
    rewrite lookup_seqZ_lt by lia. constructor. rewrite Z.add_0_l. by apply py_lookup_nat.
  - apply lookup_ge_None in Ea. rewrite lookup_seqZ_ge by lia. constructor.
Qed.

Lemma sum_range_all (l : list Z) : sum_range l 0 (Z.of_nat (length l)) = Ok (foldl Z.add 0 l).
Proof. unfold sum_range. by rewrite mapM_py_lookup_all. Qed.

Lemma sum_range_one (l : list Z) (k : nat) a : l !! k = Some a -> sum_range l (Z.of_nat k) (Z.of_nat k + 1) = Ok a.
Proof.
  intros Ha. unfold sum_range.
  assert (E : zrange (Z.of_nat k) (Z.of_nat k + 1) = [Z.of_nat k]).
  { unfold zrange. replace (Z.of_nat k + 1 - Z.of_nat k) with 1 by lia. reflexivity. }
  rewrite E, mapM_cons_outcome, (py_lookup_nat _ _ _ Ha). done.
Qed.

(** The median of every window of an image with pixels in [[lo, hi]]
    exists and is in [[lo, hi]]. *)
Lemma median_at_in h w image window lo hi y x :
  rect h w image -> (0 < h)%nat -> (0 < w)%nat -> 0 <= window -> pixels_in lo hi image ->
  exists v, median_at image (window / 2) y x = Ok v /\ lo <= v <= hi.
Proof.
  intros Hi Hh Hw Hwin Hp. unfold median_at.
  destruct (window_values_in h w image (window / 2) y x lo hi Hi Hh Hw Hp) as (vs & Hvs & Hlen & Hin).
  rewrite (outcome_bind_Ok _ _ vs Hvs).
  assert (Hs : Forall (fun v => lo <= v <= hi) (sort_values vs)) by (by rewrite sort_values_perm).
  destruct (lookup_lt_is_Some_2 (sort_values vs) (length (sort_values vs) / 2)) as [v Ev].
  { rewrite length_sort_values, Hlen. apply Nat.Div0.div_lt_upper_bound.
    assert (1 <= Z.to_nat (2 * (window / 2) + 1))%nat by (pose proof (Z.div_pos window 2); lia). nia. }
  exists v. split.
  - apply py_lookup_nat in Ev. by rewrite Nat2Z.inj_div in Ev.
  - rewrite Forall_lookup in Hs. eauto.
Qed.

(** On a non-empty rectangular image with pixels in [[lo, hi]] and
    a window size [>= 0], the median filter returns an image of the
    same shape whose pixels are in [[lo, hi]] (each is a pixel of the
    window). *)
Theorem median_filter_range h w image window lo hi :
  rect h w image -> (0 < h)%nat -> (0 < w)%nat -> 0 <= window -> pixels_in lo hi image ->
  exists out, median_filter image window = Ok out /\ rect h w out /\ pixels_in lo hi out.
Proof.
  intros Hi Hh Hw Hwin Hp. unfold median_filter.
  destruct (map_pixels_ok h w image (median_at image (window / 2)) (fun _ _ v => lo <= v <= hi) Hi Hh)
    as (out & Hout & Hr & Hv).
  - intros y x _ _. by apply (median_at_in h w).
  - exists out. split_ands; [done|done|]. apply pixels_in_intro. eauto.
Qed.

(** A negative window size leaves no window: on a non-empty
    image the median filter raises [IndexError] ([values[0]] of an
    empty list) and the mean filter [ZeroDivisionError] ([total // 0]). *)
Theorem filters_negative_window h w image window :
  rect h w image -> (0 < h)%nat -> (0 < w)%nat -> window < 0 ->
  median_filter image window = Raise IndexError /\ mean_filter image window = Raise ZeroDivisionError.
Proof.
  intros Hi Hh Hw Hwin.
  assert (E : forall y x, window_values image (window / 2) y x = Ok []).
  { intros y x. unfold window_values. rewrite window_offsets_neg; [done|].
    pose proof (Z.div_lt_upper_bound window 2 0 ltac:(lia) ltac:(lia)). lia. }
  split; apply (map_pixels_raise h w image _ _ Hi Hh);
    try (intros y x _ _; unfold median_at, mean_at; rewrite E; by left);
    exists 0, 0; split_ands; try lia; unfold median_at, mean_at; by rewrite E.
Qed.

(** The trimmed-alpha filter with [trim_amount = 0] is the mean
    filter, on every image and every window size [>= 0]. *)
Theorem trimmed_alpha_zero_is_mean image window :
  0 <= window -> trimmed_alpha_filter image window 0 = mean_filter image window.
Proof.
  intros Hwin. apply map_pixels_ext. intros y x. unfold trimmed_at, mean_at.
  destruct (window_values image (window / 2) y x) as [vs|e] eqn:Evs; [|done].
  cbn [mbind outcome_bind].
  pose proof (window_values_length _ _ _ _ _ Evs) as Hlen.
  assert (Hn : (1 <= length vs)%nat).
  { rewrite Hlen. assert (1 <= Z.to_nat (2 * (window / 2) + 1))%nat
      by (pose proof (Z.div_pos window 2); lia). nia. }
  rewrite Z.sub_0_r, length_sort_values.
  destruct (Z.geb_spec 0 (Z.of_nat (length vs))); [lia|].
  rewrite <- length_sort_values, sum_range_all. cbn [mbind outcome_bind].
  rewrite length_sort_values, Z.sub_0_r, Z.max_r by lia.
  destruct (Z.eqb_spec (Z.of_nat (length vs)) 0); [lia|].
  by rewrite (foldl_Zadd_perm _ _ _ (sort_values_perm vs)).
Qed.

(** The trimmed-alpha filter that trims [n // 2] values from each
    end of a window of [n = (2 * (window // 2) + 1)^2] values keeps the
    middle one: it is the median filter. *)
Theorem trimmed_alpha_half_is_median image window :
  0 <= window ->
  trimmed_alpha_filter image window ((2 * (window / 2) + 1) ^ 2 / 2) = median_filter image window.
Proof.
  intros Hwin. apply map_pixels_ext. intros y x. unfold trimmed_at, median_at.
  destruct (window_values image (window / 2) y x) as [vs|e] eqn:Evs; [|done].
  cbn [mbind outcome_bind].
  pose proof (window_values_length _ _ _ _ _ Evs) as Hlen.
  set (k := 2 * (window / 2) + 1) in *.
  assert (Hk : 1 <= k) by (pose proof (Z.div_pos window 2); lia).
  assert (Hn : Z.of_nat (length (sort_values vs)) = k ^ 2) by (rewrite length_sort_values, Hlen; nia).
  rewrite Hn.
  assert (Hodd : k ^ 2 = 2 * (k ^ 2 / 2) + 1).
  { assert (E : k ^ 2 = (2 * (window / 2) * (window / 2 + 1)) * 2 + 1) by (subst k; ring).
    rewrite E, Z.div_add_l by lia. change (1 / 2) with 0. lia. }
  destruct (Z.geb_spec (k ^ 2 / 2) (k ^ 2 - k ^ 2 / 2)); [lia|].
  replace (k ^ 2 - k ^ 2 / 2) with (k ^ 2 / 2 + 1) by lia.
  destruct (lookup_lt_is_Some_2 (sort_values vs) (Z.to_nat (k ^ 2 / 2))) as [v Ev]; [lia|].
  rewrite <- (Z2Nat.id (k ^ 2 / 2)) by (apply Z.div_pos; lia).
  rewrite (sum_range_one _ _ _ Ev). cbn [mbind outcome_bind].
  replace (Z.max 0 (Z.of_nat (Z.to_nat (k ^ 2 / 2)) + 1 - Z.of_nat (Z.to_nat (k ^ 2 / 2)))) with 1 by lia.
  simpl. rewrite (py_lookup_nat _ _ _ Ev). unfold py_floordiv. simpl. by rewrite Z.div_1_r.
Qed.

(** A negative [trim_amount] (the GUI's entry accepts one) makes
    the trimmed-alpha filter read [values[len(values)]]: on a non-empty
    image it raises [IndexError]. *)
Theorem trimmed_alpha_negative_trim h w image window trim_amount :
  rect h w image -> (0 < h)%nat -> (0 < w)%nat -> 0 <= window -> trim_amount < 0 ->
  trimmed_alpha_filter image window trim_amount = Raise IndexError.
Proof.
  intros Hi Hh Hw Hwin Ht.
  assert (Hpix : forall y x, trimmed_at image trim_amount (window / 2) y x = Raise IndexError).
  { intros y x. unfold trimmed_at.
    destruct (window_values_ok h w image (window / 2) y x Hi Hh Hw) as (vs & Hvs & _).
    rewrite (outcome_bind_Ok _ _ vs Hvs).
    set (n := Z.of_nat (length (sort_values vs))).
    destruct (Z.geb_spec trim_amount (n - trim_amount)); [lia|].
    unfold sum_range. rewrite (mapM_Raise _ IndexError); [done| |].
    - intros i _. apply py_lookup_cases.
    - exists n. split; [apply elem_of_zrange; lia|]. apply py_lookup_too_big. lia. }
  apply (map_pixels_raise h w image _ _ Hi Hh).
  - intros y x _ _. by left.
  - exists 0, 0. split_ands; lia || done.
Qed.

Lemma py_pow_cases v e : py_pow v e = Raise ZeroDivisionError \/ exists r, py_pow v e = Ok r.
Proof. unfold py_pow. repeat case_match; eauto. Qed.

Lemma py_pow_zero_neg e : e < 0 -> py_pow 0 e = Raise ZeroDivisionError.
Proof. intros He. unfold py_pow. by destruct (Z.ltb_spec e 0); [|lia]. Qed.

Lemma rect_mat_get_lt h w (m : matrix Z) r c v :
  rect h w m -> mat_get m r c = Some v -> (r < h)%nat /\ (c < w)%nat.
Proof.
  intros [Hl Hf] Hv. unfold mat_get in Hv. destruct (m !! r) as [row|] eqn:Er; [|done].
  simpl in Hv. rewrite Forall_lookup in Hf. pose proof (Hf _ _ Er).
  apply lookup_lt_Some in Er, Hv. lia.
Qed.

(** One step of the contra-harmonic window loop raises nothing but
    [ZeroDivisionError] on a non-empty rectangular image. *)
Lemma contra_step_cases h w image q y x acc o :
  rect h w image -> (0 < h)%nat -> (0 < w)%nat ->
  contra_step image q y x acc o = Raise ZeroDivisionError \/
  exists b, contra_step image q y x acc o = Ok b.
Proof.
  intros Hi Hh Hw. destruct acc as [num den], o as [dy dx]. unfold contra_step.
  destruct (get_pixel_safe_ok h w image (y + dy) (x + dx) Hi Hh Hw) as (p & _ & Ep).
  rewrite (outcome_bind_Ok _ _ p Ep).
  destruct (py_pow_cases p (q + 1)) as [->|[n ->]]; [by left|]. cbn [mbind outcome_bind].
  destruct (py_pow_cases p q) as [->|[d ->]]; [by left|]. right. eauto.
Qed.

(** C12: With a negative exponent [Q] (the GUI accepts any float), a
    black pixel anywhere in a non-empty image makes the contra-harmonic
    filter raise [ZeroDivisionError] ([0 ** Q]): the filter meant for
    salt noise fails on images that also hold pepper. *)
Theorem contra_harmonic_negative_q_zero_pixel h w image window q (r0 c0 : nat) :
  rect h w image -> (0 < h)%nat -> (0 < w)%nat -> 0 <= window -> q < 0 ->
  mat_get image r0 c0 = Some 0 ->
  contra_harmonic_filter image window q = Raise ZeroDivisionError.
Proof.
  intros Hi Hh Hw Hwin Hq H0. unfold contra_harmonic_filter.
  assert (Hcases : forall y x, contra_at image q (window / 2) y x = Raise ZeroDivisionError \/
                               exists v, contra_at image q (window / 2) y x = Ok v).
  { intros y x. unfold contra_at.
    destruct (fold_outcome_Ok_or_Raise (contra_step image q y x) ZeroDivisionError (0%Q, 0%Q)
                (window_offsets (window / 2)))
      as [E|[[num den] E]]; [intros b a _; by apply (contra_step_cases h w)| |].
    - rewrite E. by left.
    - rewrite E. cbn [mbind outcome_bind]. right.
      destruct (Qeq_bool den 0); [|eauto].
      destruct (get_pixel_safe_ok h w image y x Hi Hh Hw) as (p & _ & ->). eauto. }
  apply (map_pixels_raise h w image _ _ Hi Hh); [intros; apply Hcases|].
  destruct (rect_mat_get_lt h w image r0 c0 0 Hi H0) as [Hr0 Hc0].
  exists (Z.of_nat r0), (Z.of_nat c0). split_ands; try lia.
  unfold contra_at. rewrite (fold_outcome_Raise (contra_step image q _ _) ZeroDivisionError); [done| |].
  - intros b a _. by apply (contra_step_cases h w).
  - exists (0, 0). split.
    + unfold window_offsets. rewrite list_elem_of_In. apply in_prod;
        rewrite <- list_elem_of_In, elem_of_zrange; pose proof (Z.div_pos window 2); lia.
    + intros [num den]. unfold contra_step.
      destruct (get_pixel_safe_ok h w image (Z.of_nat r0 + 0) (Z.of_nat c0 + 0) Hi Hh Hw) as (p & Hp & Ep).
      rewrite !Z.add_0_r, !clip_id, !Nat2Z.id in Hp by lia. rewrite H0 in Hp. injection Hp as <-.
      rewrite (outcome_bind_Ok _ _ 0 Ep). cbv beta.
      destruct (Z.ltb_spec (q + 1) 0).
      * rewrite (py_pow_zero_neg (q + 1)) by lia. reflexivity.
      * destruct (py_pow_cases 0 (q + 1)) as [->|[n ->]]; [done|].
        cbn [mbind outcome_bind]. rewrite py_pow_zero_neg by lia. reflexivity.
Qed.

(** ** The contra-harmonic filter of order 0 is the mean filter *)

Lemma inject_Z_add_eq a b : (inject_Z a + inject_Z b)%Q = inject_Z (a + b).
Proof. unfold Qplus, inject_Z. simpl. by rewrite !Z.mul_1_r. Qed.

Lemma contra_sums_0 (vs : list Z) a n :
  foldl (fun (acc : Q * Q) v => ((acc.1 + inject_Z (v ^ (0 + 1)))%Q, (acc.2 + inject_Z (v ^ 0))%Q))
    (inject_Z a, inject_Z n) vs =
  (inject_Z (foldl Z.add a vs), inject_Z (n + Z.of_nat (length vs))).
Proof.
  revert a n. induction vs as [|v vs IH]; intros a n; simpl.
  - by rewrite Z.add_0_r.
  - rewrite Z.pow_1_r, Z.pow_0_r, !inject_Z_add_eq, IH. do 2 f_equal. lia.
Qed.

(** [int(S / N)] clamped, for [0 <= S <= 255 N], is [S // N]. *)
Lemma clamp_pixel_div s n :
  0 < n -> 0 <= s <= 255 * n -> clamp_pixel (inject_Z s / inject_Z n) = s / n.
Proof.
  intros Hn Hs. destruct n as [|p|p]; [lia| |lia].
  assert (E : (inject_Z s / inject_Z (Z.pos p))%Q = Qmake s p).
  { unfold Qdiv, Qmult, Qinv, inject_Z. simpl. by rewrite Z.mul_1_r. }
  rewrite E. unfold clamp_pixel, Qle_bool, py_int. simpl. rewrite Z.mul_0_l, !Z.mul_1_r.
  destruct (Z.leb_spec 0 s); [|lia]. destruct (Z.leb_spec s (255 * Z.pos p)); [|lia].
  simpl. apply Z.quot_div_nonneg; lia.
Qed.

(** With [Q = 0] the contra-harmonic filter averages the window
    ([sum v^1 / sum v^0]) and truncates: on a non-empty 8-bit image it
    is the mean filter. *)
Theorem contra_harmonic_q0_is_mean h w image window :
  rect h w image -> (0 < h)%nat -> (0 < w)%nat -> 0 <= window -> pixels_in 0 255 image ->
  contra_harmonic_filter image window 0 = mean_filter image window.
Proof.
  intros Hi Hh Hw Hwin Hp. apply map_pixels_ext. intros y x. unfold contra_at, mean_at.
  destruct (window_values_in h w image (window / 2) y x 0 255 Hi Hh Hw Hp) as (vs & Hvs & Hlen & Hin).
  rewrite (outcome_bind_Ok _ _ vs Hvs).
  rewrite (fold_outcome_mapM (fun '(dy, dx) => get_pixel_safe image (y + dy) (x + dx))
      (fun (acc : Q * Q) v => n ← py_pow v (0 + 1); d ← py_pow v 0; mret (acc.1 + n, acc.2 + d)%Q)
      (contra_step image 0 y x) _ _ vs); cycle 1.
  { intros [num den] [dy dx]. reflexivity. }
  { exact Hvs. }
  rewrite (fold_outcome_Ok _ (fun (acc : Q * Q) v =>
      ((acc.1 + inject_Z (v ^ (0 + 1)))%Q, (acc.2 + inject_Z (v ^ 0))%Q))); [|reflexivity].
  change (0%Q, 0%Q) with (inject_Z 0, inject_Z 0). rewrite contra_sums_0.
  cbn [mbind outcome_bind].
  assert (Hn : (1 <= length vs)%nat).
  { rewrite Hlen. assert (1 <= Z.to_nat (2 * (window / 2) + 1))%nat
      by (pose proof (Z.div_pos window 2); lia). nia. }
  assert (Hsum : 0 <= foldl Z.add 0 vs <= 255 * Z.of_nat (length vs)).
  { clear -Hin. induction vs as [|v vs IH] using rev_ind; [simpl; lia|].
    rewrite foldl_app, length_app. apply Forall_app in Hin as [Hin [Hv _]%Forall_cons].
    simpl. specialize (IH Hin). lia. }
  replace (Qeq_bool (inject_Z (0 + Z.of_nat (length vs))) 0) with false.
  - unfold py_floordiv. destruct (Z.eqb_spec (Z.of_nat (length vs)) 0); [lia|].
    rewrite Z.add_0_l, clamp_pixel_div by lia. reflexivity.
  - symmetry. apply not_true_iff_false. intros E%Qeq_bool_eq.
    unfold Qeq, inject_Z in E. simpl in E. lia.
Qed.

(** [clamp_pixel] always lands in [[0, 255]]. *)
Lemma clamp_pixel_range v : 0 <= clamp_pixel v <= 255.
Proof.
  unfold clamp_pixel. destruct (Qle_bool 0 v) eqn:E0; simpl; [|lia].
  destruct (Qle_bool v 255) eqn:E1; simpl; [|lia].
  apply Qle_bool_iff in E0, E1. destruct v as [n d]. unfold Qle in E0, E1. simpl in *.
  unfold py_int. simpl. split.
  - apply Z.quot_pos; lia.
  - apply Z.quot_le_upper_bound; lia.
Qed.

(** [int(v)] of a non-negative float is its floor. *)
Lemma py_int_floor v : (0 <= v)%Q -> py_int v = Qfloor v.
Proof.
  destruct v as [n d]. unfold Qle, py_int, Qfloor. simpl. intros Hn.
  rewrite Z.quot_div_nonneg; lia.
Qed.

(** [clamp_pixel] depends only on the value of its argument. *)
Lemma clamp_pixel_comp u v : (u == v)%Q -> clamp_pixel u = clamp_pixel v.
Proof.
  intros E. unfold clamp_pixel.
  assert (E0 : Qle_bool 0 u = Qle_bool 0 v).
  { apply eq_true_iff_eq. rewrite !Qle_bool_iff. by rewrite E. }
  assert (E1 : Qle_bool u 255 = Qle_bool v 255).
  { apply eq_true_iff_eq. rewrite !Qle_bool_iff. by rewrite E. }
  rewrite E0, E1. destruct (Qle_bool 0 v) eqn:H0; simpl; [|done].
  destruct (Qle_bool v 255); simpl; [|done]. apply Qle_bool_iff in H0.
  rewrite !py_int_floor by (by rewrite ?E). by apply Qfloor_comp.
Qed.

(** An 8-bit integer is its own clamp. *)
Lemma clamp_pixel_int v : 0 <= v <= 255 -> clamp_pixel (inject_Z v) = v.
Proof.
  intros Hv. unfold clamp_pixel.
  replace (Qle_bool 0 (inject_Z v)) with true
    by (symmetry; apply Qle_bool_iff; change 0%Q with (inject_Z 0); rewrite <- Zle_Qle; lia).
  replace (Qle_bool (inject_Z v) 255) with true
    by (symmetry; apply Qle_bool_iff; change 255%Q with (inject_Z 255); rewrite <- Zle_Qle; lia).
  unfold py_int. simpl. apply Z.quot_1_r.
Qed.

(** ** Witnesses on small concrete images *)
Module FilterWitness.

(** A 3 x 3 image of 7s with one impulse of 200 in the middle. *)
Definition impulse3 : matrix Z := [[7; 7; 7]; [7; 200; 7]; [7; 7; 7]].

(** A 2 x 2 8-bit image with one black pixel. *)
Definition img2 : matrix Z := [[0; 255]; [10; 20]].

Lemma img2_rect : rect 2 2 img2.
Proof. rect_by_compute. Qed.

Lemma img2_pixels : pixels_in 0 255 img2.
Proof. repeat constructor; lia. Qed.

Lemma median_filter_removes_impulse_witness : median_filter impulse3 3 = Ok (mat_fill 3 3 7).
Proof.
  apply (median_filter_removes_impulse 3 3 impulse3 1 1 7); [rect_by_compute|lia|lia|].
  intros r col Hr Hc Hne.
  destruct r as [|[|[|r]]]; destruct col as [|[|[|col]]]; try lia; try reflexivity; congruence.
Defined.

Lemma median_filter_range_witness :
  exists out, median_filter img2 5 = Ok out /\ rect 2 2 out /\ pixels_in 0 255 out.
Proof. apply (median_filter_range 2 2 img2 5 0 255 img2_rect); [lia|lia|lia|exact img2_pixels]. Defined.

Lemma filters_negative_window_witness :
  median_filter img2 (-3) = Raise IndexError /\ mean_filter img2 (-3) = Raise ZeroDivisionError.
Proof. apply (filters_negative_window 2 2 img2 (-3) img2_rect); lia. Defined.

Lemma trimmed_alpha_zero_is_mean_witness : trimmed_alpha_filter img2 3 0 = mean_filter img2 3.
Proof. apply (trimmed_alpha_zero_is_mean img2 3). lia. Defined.

Lemma trimmed_alpha_half_is_median_witness : trimmed_alpha_filter img2 3 4 = median_filter img2 3.
Proof. apply (trimmed_alpha_half_is_median img2 3). lia. Defined.

Lemma trimmed_alpha_negative_trim_witness : trimmed_alpha_filter img2 3 (-1) = Raise IndexError.
Proof. apply (trimmed_alpha_negative_trim 2 2 img2 3 (-1) img2_rect); lia. Defined.

Lemma contra_harmonic_negative_q_zero_pixel_witness :
  contra_harmonic_filter img2 3 (-1) = Raise ZeroDivisionError.
Proof. apply (contra_harmonic_negative_q_zero_pixel 2 2 img2 3 (-1) 0 0 img2_rect); [lia|lia|lia|lia|reflexivity]. Defined.

Lemma contra_harmonic_q0_is_mean_witness : contra_harmonic_filter img2 3 0 = mean_filter img2 3.
Proof. apply (contra_harmonic_q0_is_mean 2 2 img2 3 img2_rect); [lia|lia|lia|exact img2_pixels]. Defined.

End FilterWitness.
