(* ===== verification/Metrics.v ===== *)
(** * Pixel-difference metrics of [HW2/common/metrics.py]

    [count_noisy_pixels f g] counts the pixels where [g] differs from
    the original [f]; [count_fixed_noisy_pixels f g k] the noisy pixels
    that [k] restores; [count_damaged_clean_pixels f g k] the clean
    pixels that [k] changes.  Each loops over the shape of [f]
    ([len(f)], [len(f[0])]) and subscripts the other images, raising
    [IndexError] when they are smaller; Python's [and] does not read
    [k[y][x]] when its left operand is false, and the model keeps that.
    The file also models the handlers of the counting GUIs
    ([HW2/task2], [HW2/task4], [ex2/task5]) that turn the counts into
    percentages. *)

From stdpp Require Import base list numbers.
From Stdlib Require Import ZArith QArith Lia.
From S2P Require Import Prelude.
Local Open Scope Z_scope.

(** [m[y][x]] *)
Definition py_get2 (m : matrix Z) (y x : Z) : outcome Z :=
  row ← py_lookup m y;
  py_lookup row x.

(** [for y in range(height): for x in range(width):] over the shape of [f]. *)
Definition pixel_loop (f : matrix Z) (body : Z -> Z * Z -> outcome Z) : outcome Z :=
  let height := Z.of_nat (length f) in
  row0 ← py_lookup f 0;
  let width := Z.of_nat (length row0) in
  fold_outcome body 0 (list_prod (zrange 0 height) (zrange 0 width)).

Definition count_noisy_pixels (f g : matrix Z) : outcome Z :=
  pixel_loop f (fun noisy '(y, x) =>
    gyx ← py_get2 g y x;
    fyx ← py_get2 f y x;
    mret (if bool_decide (gyx <> fyx) then noisy + 1 else noisy)).

Definition count_fixed_noisy_pixels (f g k : matrix Z) : outcome Z :=
  pixel_loop f (fun fixed '(y, x) =>
    gyx ← py_get2 g y x;
    fyx ← py_get2 f y x;
    if bool_decide (gyx <> fyx) then
      kyx ← py_get2 k y x;
      fyx' ← py_get2 f y x;
      mret (if bool_decide (kyx = fyx') then fixed + 1 else fixed)
    else mret fixed).

Definition count_damaged_clean_pixels (f g k : matrix Z) : outcome Z :=
  pixel_loop f (fun damaged '(y, x) =>
    gyx ← py_get2 g y x;
    fyx ← py_get2 f y x;
    if bool_decide (gyx = fyx) then
      kyx ← py_get2 k y x;
      fyx' ← py_get2 f y x;
      mret (if bool_decide (kyx <> fyx') then damaged + 1 else damaged)
    else mret damaged).

(** ** The counts on images of one shape *)

(** The pixel at [(y, x)], [0] outside. *)
Definition pixel (m : matrix Z) (y x : Z) : Z :=
  match mat_get m (Z.to_nat y) (Z.to_nat x) with Some v => v | None => 0 end.

(** The cells [(y, x)] of an [h] by [w] image, in loop order. *)
Definition cells (h w : nat) : list (Z * Z) :=
  list_prod (zrange 0 (Z.of_nat h)) (zrange 0 (Z.of_nat w)).

Definition noisy_cell (f g : matrix Z) (c : Z * Z) : Prop := pixel g c.1 c.2 <> pixel f c.1 c.2.
Definition fixed_cell (f g k : matrix Z) (c : Z * Z) : Prop :=
  noisy_cell f g c /\ pixel k c.1 c.2 = pixel f c.1 c.2.
Definition damaged_cell (f g k : matrix Z) (c : Z * Z) : Prop :=
  ~ noisy_cell f g c /\ pixel k c.1 c.2 <> pixel f c.1 c.2.

#[export] Instance noisy_cell_dec f g : forall c, Decision (noisy_cell f g c).
Proof. intros c. unfold noisy_cell. apply _. Defined.
#[export] Instance fixed_cell_dec f g k : forall c, Decision (fixed_cell f g k c).
Proof. intros c. unfold fixed_cell, noisy_cell. apply _. Defined.
#[export] Instance damaged_cell_dec f g k : forall c, Decision (damaged_cell f g k c).
Proof. intros c. unfold damaged_cell, noisy_cell. apply _. Defined.

Lemma py_get2_ok h w m y x :
  rect h w m -> 0 <= y < Z.of_nat h -> 0 <= x < Z.of_nat w -> py_get2 m y x = Ok (pixel m y x).
Proof.
  intros [Hl Hf] Hy Hx. unfold py_get2, pixel, mat_get.
  destruct (py_lookup_in_range m y) as (row & Hrow & ->); [lia|].
  cbn [mbind outcome_bind]. rewrite Hrow. simpl.
  assert (length row = w) by (rewrite Forall_lookup in Hf; eauto).
  destruct (py_lookup_in_range row x) as (v & Hv & ->); [lia|]. by rewrite Hv.
Qed.

Lemma elem_of_cells h w c : c ∈ cells h w -> 0 <= c.1 < Z.of_nat h /\ 0 <= c.2 < Z.of_nat w.
Proof.
  unfold cells. rewrite list_elem_of_In. destruct c as [y x]. intros [Hy Hx]%in_prod_iff.
  rewrite <- list_elem_of_In, elem_of_zrange in Hy, Hx. simpl. lia.
Qed.

Lemma pixel_loop_ok h w f (body : Z -> Z * Z -> outcome Z) :
  rect h w f -> (0 < h)%nat -> pixel_loop f body = fold_outcome body 0 (cells h w).
Proof.
  intros [Hl Hf] Hh. destruct f as [|row0 rest] eqn:Ef; [simpl in Hl; lia|]. rewrite <- Ef in *.
  assert (Hw0 : length row0 = w) by (subst; by inversion Hf).
  unfold pixel_loop. rewrite (outcome_bind_Ok _ _ row0) by (apply (py_lookup_nat _ 0); by rewrite Ef).
  by rewrite Hw0, Hl.
Qed.

Section SameShape.
Context (h w : nat) (f g k : matrix Z).
Hypotheses (Hf : rect h w f) (Hg : rect h w g) (Hk : rect h w k) (Hh : (0 < h)%nat).

Lemma count_noisy_spec :
  count_noisy_pixels f g = Ok (Z.of_nat (length (filter (noisy_cell f g) (cells h w)))).
Proof.
  unfold count_noisy_pixels. rewrite (pixel_loop_ok h w) by done.
  rewrite (fold_outcome_count _ (noisy_cell f g)); [done|].
  intros n [y x] Hc%elem_of_cells. simpl in Hc.
  rewrite (py_get2_ok h w g), (py_get2_ok h w f) by first [done|lia]. cbn [mbind outcome_bind].
  unfold noisy_cell. simpl. by case_bool_decide; case_decide.
Qed.

Lemma count_fixed_spec :
  count_fixed_noisy_pixels f g k = Ok (Z.of_nat (length (filter (fixed_cell f g k) (cells h w)))).
Proof.
  unfold count_fixed_noisy_pixels. rewrite (pixel_loop_ok h w) by done.
  rewrite (fold_outcome_count _ (fixed_cell f g k)); [done|].
  intros n [y x] Hc%elem_of_cells. simpl in Hc.
  rewrite (py_get2_ok h w g), (py_get2_ok h w f) by first [done|lia]. cbn [mbind outcome_bind].
  unfold fixed_cell, noisy_cell. simpl. case_bool_decide.
  - rewrite (py_get2_ok h w k) by first [done|lia]. cbn [mbind outcome_bind].
    by case_bool_decide; case_decide; naive_solver.
  - case_decide; naive_solver.
Qed.

Lemma count_damaged_spec :
  count_damaged_clean_pixels f g k = Ok (Z.of_nat (length (filter (damaged_cell f g k) (cells h w)))).
Proof.
  unfold count_damaged_clean_pixels. rewrite (pixel_loop_ok h w) by done.
  rewrite (fold_outcome_count _ (damaged_cell f g k)); [done|].
  intros n [y x] Hc%elem_of_cells. simpl in Hc.
  rewrite (py_get2_ok h w g), (py_get2_ok h w f) by first [done|lia]. cbn [mbind outcome_bind].
  unfold damaged_cell, noisy_cell. simpl. case_bool_decide.
  - rewrite (py_get2_ok h w k) by first [done|lia]. cbn [mbind outcome_bind].
    by case_bool_decide; case_decide; naive_solver.
  - case_decide; naive_solver.
Qed.
End SameShape.

(** ** The counting GUIs *)

(** What a counting handler shows: the "please load" box, or the count
    and its percentage in the info label. *)
Inductive report :=
| NeedImages
| Count (n : Z) (percent : Q).

(** [a / b] on numbers, as a float. *)
Definition py_truediv (a b : Z) : outcome Q :=
  if b =? 0 then Raise ZeroDivisionError else Ok (inject_Z a / inject_Z b)%Q.

(** [CountNoisyGUI.count_noisy] of [HW2/task2_count_noisy_pixels/gui.py]. *)
Definition gui_count_noisy (original noisy : option (matrix Z)) : outcome report :=
  match original, noisy with
  | Some o, Some g =>
      noisy_count ← count_noisy_pixels o g;
      row0 ← py_lookup o 0;
      let total := Z.of_nat (length o) * Z.of_nat (length row0) in
      q ← py_truediv noisy_count total;
      mret (Count noisy_count (q * 100)%Q)
  | _, _ => mret NeedImages
  end.

(** [CountFixedGUI.count_fixed] of [HW2/task4_count_fixed_pixels/gui.py]. *)
Definition gui_count_fixed (original noisy denoised : option (matrix Z)) : outcome report :=
  match original, noisy, denoised with
  | Some o, Some g, Some k =>
      fixed ← count_fixed_noisy_pixels o g k;
      noisy_total ← count_noisy_pixels o g;
      if 0 <? noisy_total then
        q ← py_truediv fixed noisy_total; mret (Count fixed (q * 100)%Q)
      else mret (Count fixed 0%Q)
  | _, _, _ => mret NeedImages
  end.

(** [count_damaged] of [ex2/task5_count_damaged_clean_pixels/gui.py]. *)
Definition gui_count_damaged (original noisy denoised : option (matrix Z)) : outcome report :=
  match original, noisy, denoised with
  | Some o, Some g, Some k =>
      damaged ← count_damaged_clean_pixels o g k;
      row0 ← py_lookup o 0;
      noisy_count ← count_noisy_pixels o g;
      let clean := Z.of_nat (length o) * Z.of_nat (length row0) - noisy_count in
      if 0 <? clean then
        q ← py_truediv damaged clean; mret (Count damaged (q * 100)%Q)
      else mret (Count damaged 0%Q)
  | _, _, _ => mret NeedImages
  end.

Lemma length_cells h w : length (cells h w) = (h * w)%nat.
Proof. unfold cells. rewrite length_prod, !length_zrange. lia. Qed.

Section Claims.
Context (h w : nat) (f g : matrix Z).
Hypotheses (Hf : rect h w f) (Hg : rect h w g) (Hh : (0 < h)%nat).

(** The three counts and their bounds. *)
Lemma count_bounds k :
  rect h w k ->
  exists n fx dm, count_noisy_pixels f g = Ok n /\ count_fixed_noisy_pixels f g k = Ok fx /\
    count_damaged_clean_pixels f g k = Ok dm /\
    0 <= fx <= n /\ 0 <= dm <= Z.of_nat h * Z.of_nat w - n /\ n <= Z.of_nat h * Z.of_nat w.
Proof.
  intros Hk. rewrite (count_noisy_spec h w), (count_fixed_spec h w), (count_damaged_spec h w) by done.
  do 3 eexists. split_ands; try reflexivity; try lia.
  - apply Nat2Z.inj_le, length_filter_impl. by intros c [Hc _].
  - pose proof (length_filter_compl (noisy_cell f g) (cells h w)).
    pose proof (length_filter_impl (damaged_cell f g k) (fun c => ~ noisy_cell f g c) (cells h w)
                  ltac:(by intros c [Hc _])).
    rewrite length_cells in *. lia.
  - pose proof (length_filter (noisy_cell f g) (cells h w)). rewrite length_cells in *. lia.
Qed.

(** C13: On three images of one shape the counts partition the pixels:
    the fixed pixels are among the noisy ones, the damaged pixels among
    the clean ones ([h * w - noisy]). *)
Theorem metrics_partition k :
  rect h w k ->
  exists n fx dm, count_noisy_pixels f g = Ok n /\ count_fixed_noisy_pixels f g k = Ok fx /\
    count_damaged_clean_pixels f g k = Ok dm /\
    0 <= fx <= n /\ 0 <= dm <= Z.of_nat h * Z.of_nat w - n.
Proof.
  intros Hk. destruct (count_bounds k Hk) as (n & fx & dm & ? & ? & ? & ? & ? & _). eauto 10.
Qed.

(** A filter that restores the original fixes every noisy pixel
    and damages none; a filter that returns the noisy image fixes none
    and damages none. *)
Theorem metrics_extremes :
  count_fixed_noisy_pixels f g f = count_noisy_pixels f g /\
  count_damaged_clean_pixels f g f = Ok 0 /\
  count_fixed_noisy_pixels f g g = Ok 0 /\
  count_damaged_clean_pixels f g g = Ok 0.
Proof.
  rewrite (count_noisy_spec h w), !(count_fixed_spec h w), !(count_damaged_spec h w) by done.
  split_ands.
  - do 3 f_equal. apply list_filter_iff. unfold fixed_cell. naive_solver.
  - rewrite filter_Forall_not; [done|]. apply Forall_forall. unfold damaged_cell. naive_solver.
  - rewrite filter_Forall_not; [done|]. apply Forall_forall. unfold fixed_cell, noisy_cell. naive_solver.
  - rewrite filter_Forall_not; [done|]. apply Forall_forall. unfold damaged_cell, noisy_cell. naive_solver.
Qed.
End Claims.

Lemma py_get2_cases m y x : py_get2 m y x = Raise IndexError \/ exists v, py_get2 m y x = Ok v.
Proof.
  unfold py_get2. destruct (py_lookup_cases m y) as [->|[row ->]]; [by left|].
  apply py_lookup_cases.
Qed.

(** The counts loop over the shape of the original: a noisy image
    with fewer rows than the original (say a cropped one) makes
    [count_noisy_pixels] raise [IndexError] instead of being rejected
    up front. *)
Theorem count_noisy_smaller_image h h' w f g :
  rect h w f -> rect h' w g -> (h' < h)%nat -> (0 < w)%nat ->
  count_noisy_pixels f g = Raise IndexError.
Proof.
  intros Hf Hg Hlt Hw. unfold count_noisy_pixels. rewrite (pixel_loop_ok h w) by (done || lia).
  apply fold_outcome_Raise.
  - intros n [y x] Hc%elem_of_cells. simpl in Hc.
    destruct (py_get2_cases g y x) as [->|[v ->]]; [by left|]. cbn [mbind outcome_bind].
    rewrite (py_get2_ok h w f) by (done || lia). right. eauto.
  - exists (Z.of_nat h', 0). split.
    + unfold cells. rewrite list_elem_of_In. apply in_prod; rewrite <- list_elem_of_In, elem_of_zrange; lia.
    + intros n. cbv beta iota. unfold py_get2. destruct Hg as [Hl _].
      rewrite (py_lookup_too_big g) by lia. reflexivity.
Qed.

(** A ratio of counts [a <= b] shown as a percentage. *)
Lemma truediv_percent a b :
  0 <= a <= b -> 0 < b -> exists q, py_truediv a b = Ok q /\ (0 <= q * 100 <= 100)%Q.
Proof.
  intros Hab Hb. unfold py_truediv. destruct (Z.eqb_spec b 0); [lia|].
  eexists. split; [reflexivity|].
  assert (Hb' : (0 < inject_Z b)%Q) by (change 0%Q with (inject_Z 0); rewrite <- Zlt_Qlt; lia).
  assert (H0 : (0 <= inject_Z a / inject_Z b)%Q).
  { apply Qle_shift_div_l; [done|]. rewrite Qmult_0_l.
    change 0%Q with (inject_Z 0). rewrite <- Zle_Qle. lia. }
  assert (H1 : (inject_Z a / inject_Z b <= 1)%Q).
  { apply Qle_shift_div_r; [done|]. rewrite Qmult_1_l. rewrite <- Zle_Qle. lia. }
  split.
  - apply Qmult_le_0_compat; [done|discriminate].
  - rewrite <- (Qmult_1_l 100) at 2. apply Qmult_le_compat_r; [done|discriminate].
Qed.

(** On loaded images of one shape the fixed and damaged GUIs show
    a percentage between 0 and 100, and the noisy-count GUI too. *)
Theorem gui_percent_bounds h w f g k :
  rect h w f -> rect h w g -> rect h w k -> (0 < h)%nat -> (0 < w)%nat ->
  (exists n p, gui_count_noisy (Some f) (Some g) = Ok (Count n p) /\ 0 <= p <= 100)%Q /\
  (exists n p, gui_count_fixed (Some f) (Some g) (Some k) = Ok (Count n p) /\ 0 <= p <= 100)%Q /\
  (exists n p, gui_count_damaged (Some f) (Some g) (Some k) = Ok (Count n p) /\ 0 <= p <= 100)%Q.
Proof.
  intros Hf Hg Hk Hh Hw.
  destruct (count_bounds h w f g Hf Hg Hh k Hk) as (n & fx & dm & En & Efx & Edm & Hfx & Hdm & Hn).
  destruct f as [|row0 rest] eqn:Ef; [destruct Hf as [Hl _]; simpl in Hl; lia|]. rewrite <- Ef in *.
  assert (E0 : py_lookup f 0 = Ok row0) by (apply (py_lookup_nat _ 0); by rewrite Ef).
  assert (Hw0 : length row0 = w) by (destruct Hf as [_ Hr]; subst; by inversion Hr).
  assert (Hl : length f = h) by apply Hf.
  split_ands.
  - unfold gui_count_noisy. rewrite En. cbn [mbind outcome_bind]. rewrite E0.
    cbn [mbind outcome_bind]. rewrite Hw0, Hl.
    destruct (truediv_percent n (Z.of_nat h * Z.of_nat w)) as (q & -> & Hq); [lia|lia|].
    eauto.
  - unfold gui_count_fixed. rewrite Efx. cbn [mbind outcome_bind]. rewrite En. cbn [mbind outcome_bind].
    destruct (Z.ltb_spec 0 n).
    + destruct (truediv_percent fx n) as (q & -> & Hq); [lia|lia|]. eauto.
    + exists fx, 0%Q. split; [done|]. split; discriminate.
  - unfold gui_count_damaged. rewrite Edm. cbn [mbind outcome_bind]. rewrite E0.
    cbn [mbind outcome_bind]. rewrite En. cbn [mbind outcome_bind]. rewrite Hw0, Hl.
    destruct (Z.ltb_spec 0 (Z.of_nat h * Z.of_nat w - n)).
    + destruct (truediv_percent dm (Z.of_nat h * Z.of_nat w - n)) as (q & -> & Hq); [lia|lia|]. eauto.
    + exists dm, 0%Q. split; [done|]. split; discriminate.
Qed.

(** ** Witnesses on 2 x 2 images *)
Module MetricsWitness.

Definition orig : matrix Z := [[10; 20]; [30; 40]].
Definition noisy : matrix Z := [[0; 20]; [255; 40]].
Definition denoised : matrix Z := [[10; 20]; [255; 41]].
Definition small : matrix Z := [[10; 20]].

Ltac discharge := first [rect_by_compute | lia | reflexivity].

Lemma metrics_partition_witness :
  exists n fx dm, count_noisy_pixels orig noisy = Ok n /\ count_fixed_noisy_pixels orig noisy denoised = Ok fx /\
    count_damaged_clean_pixels orig noisy denoised = Ok dm /\
    0 <= fx <= n /\ 0 <= dm <= Z.of_nat 2 * Z.of_nat 2 - n.
Proof. eapply (metrics_partition 2 2 orig noisy); discharge. Defined.

Lemma metrics_extremes_witness :
  count_fixed_noisy_pixels orig noisy orig = count_noisy_pixels orig noisy /\
  count_damaged_clean_pixels orig noisy orig = Ok 0 /\
  count_fixed_noisy_pixels orig noisy noisy = Ok 0 /\
  count_damaged_clean_pixels orig noisy noisy = Ok 0.
Proof. eapply (metrics_extremes 2 2 orig noisy); discharge. Defined.

Lemma count_noisy_smaller_image_witness : count_noisy_pixels orig small = Raise IndexError.
Proof. apply (count_noisy_smaller_image 2 1 2 orig small); discharge. Defined.

Lemma gui_percent_bounds_witness :
  (exists n p, gui_count_noisy (Some orig) (Some noisy) = Ok (Count n p) /\ 0 <= p <= 100)%Q /\
  (exists n p, gui_count_fixed (Some orig) (Some noisy) (Some denoised) = Ok (Count n p) /\ 0 <= p <= 100)%Q /\
  (exists n p, gui_count_damaged (Some orig) (Some noisy) (Some denoised) = Ok (Count n p) /\ 0 <= p <= 100)%Q.
Proof. apply (gui_percent_bounds 2 2 orig noisy denoised); discharge. Defined.

End MetricsWitness.
