(* ===== verification/Noise.v ===== *)
(** * Noise generators of [ex2/common/noise.py]

    Each generator deep-copies the image ([copy_image] of
    [project/common/utils.py]), then visits the pixels row by row and
    draws from Python's global generator: [random.random()] for salt and
    pepper, [random.gauss] and [random.uniform] for additive noise.  The
    generator is an explicit state threaded through the loop (the
    [pyM] monad of the prelude); its state type and its two primitive
    draws are the class [RandomSource], with the one law the theorems
    use: [random()] lies in [[0, 1)].  [random.uniform(a, b)] is
    [a + (b - a) * random()], as CPython defines it. *)

From stdpp Require Import base list numbers.
From Stdlib Require Import ZArith QArith Lia Lqa.
From S2P Require Import Prelude Filters Metrics.
Local Open Scope Z_scope.

Class RandomSource (S : Type) := {
  (** [random.random()] *)
  rnd : S -> Q * S;
  (** [random.gauss(mu, sigma)] *)
  gauss_draw : Q -> Q -> S -> Q * S;
}.

Class RandomLaws (S : Type) `{!RandomSource S} := {
  rnd_range s : (0 <= (rnd s).1 < 1)%Q;
}.

(** [copy_image(image)]: a fresh list of fresh rows with the same
    values; the generators write only to the copy. *)
Definition copy_image (image : matrix Z) : matrix Z := map (fun row => map (fun v => v) row) image.

(** [m[y][x] = v] on a Python list of lists. *)
Definition py_set2 (m : matrix Z) (y x v : Z) : outcome (matrix Z) :=
  match np_index (length m) y with
  | Some i =>
      match m !! i with
      | Some row =>
          match np_index (length row) x with
          | Some j => Ok (<[i := <[j := v]> row]> m)
          | None => Raise IndexError
          end
      | None => Raise IndexError
      end
  | None => Raise IndexError
  end.

Section Generators.
Context {St : Type} `{!RandomSource St}.

Definition random : pyM St Q := fun s => let '(r, s') := rnd s in (s', Ok r).

Definition gauss (mu sigma : Q) : pyM St Q := fun s => let '(r, s') := gauss_draw mu sigma s in (s', Ok r).

Definition uniform (a b : Q) : pyM St Q := r ← random; mret (a + (b - a) * r)%Q.

(** A pure step that may raise, inside the generator's loop. *)
Definition lift_outcome {A} (o : outcome A) : pyM St A :=
  match o with Ok a => mret a | Raise e => throw e end.

(** [noisy = copy_image(image)], [height = len(noisy)],
    [width = len(noisy[0])], then the two loops with [body] updating
    the copy at [(y, x)]. *)
Definition noise_loop (image : matrix Z) (body : matrix Z -> Z -> Z -> pyM St (matrix Z)) :
    pyM St (matrix Z) :=
  let noisy := copy_image image in
  let height := Z.of_nat (length noisy) in
  row0 ← lift_outcome (py_lookup noisy 0);
  let width := Z.of_nat (length row0) in
  fold_pyM (fun m '(y, x) => body m y x) noisy (list_prod (zrange 0 height) (zrange 0 width)).

(** The loop bodies: one draw, then maybe one write to the copy. *)
Definition salt_and_pepper_body (noise_level : Q) (noisy : matrix Z) (y x : Z) : pyM St (matrix Z) :=
  r ← random;
  if Qlt_le_dec r noise_level then lift_outcome (py_set2 noisy y x 0)
  else if Qlt_le_dec (1 - noise_level) r then lift_outcome (py_set2 noisy y x 255)
  else mret noisy.

Definition add_salt_and_pepper_noise (image : matrix Z) (noise_level : Q) : pyM St (matrix Z) :=
  noise_loop image (salt_and_pepper_body noise_level).

Definition salt_body (noise_level : Q) (noisy : matrix Z) (y x : Z) : pyM St (matrix Z) :=
  r ← random;
  if Qlt_le_dec r noise_level then lift_outcome (py_set2 noisy y x 255) else mret noisy.

Definition add_salt_noise (image : matrix Z) (noise_level : Q) : pyM St (matrix Z) :=
  noise_loop image (salt_body noise_level).

Definition pepper_body (noise_level : Q) (noisy : matrix Z) (y x : Z) : pyM St (matrix Z) :=
  r ← random;
  if Qlt_le_dec r noise_level then lift_outcome (py_set2 noisy y x 0) else mret noisy.

Definition add_pepper_noise (image : matrix Z) (noise_level : Q) : pyM St (matrix Z) :=
  noise_loop image (pepper_body noise_level).

(** [noisy[y][x] = clamp_pixel(noisy[y][x] + noise)] *)
Definition additive_body (draw : pyM St Q) (noisy : matrix Z) (y x : Z) : pyM St (matrix Z) :=
  noise ← draw;
  v ← lift_outcome (py_get2 noisy y x);
  lift_outcome (py_set2 noisy y x (clamp_pixel (inject_Z v + noise))).

Definition add_gaussian_noise (image : matrix Z) (mean std_dev : Q) : pyM St (matrix Z) :=
  noise_loop image (additive_body (gauss mean std_dev)).

Definition add_uniform_noise (image : matrix Z) (min_value max_value : Q) : pyM St (matrix Z) :=
  noise_loop image (additive_body (uniform min_value max_value)).
End Generators.

(** ** Writing a pixel *)

Lemma py_set2_ok h w m y x v :
  rect h w m -> 0 <= y < Z.of_nat h -> 0 <= x < Z.of_nat w ->
  exists m', py_set2 m y x v = Ok m' /\ rect h w m' /\
    forall r c, mat_get m' r c =
      if decide ((r, c) = (Z.to_nat y, Z.to_nat x)) then Some v else mat_get m r c.
Proof.
  intros [Hl Hf] Hy Hx. unfold py_set2. rewrite np_index_in_range by lia.
  destruct (lookup_lt_is_Some_2 m (Z.to_nat y)) as [row Hrow]; [lia|]. rewrite Hrow.
  assert (Hw : length row = w) by (rewrite Forall_lookup in Hf; eauto).
  rewrite np_index_in_range by lia. eexists. split_ands; [reflexivity| |].
  - split; [by rewrite length_insert|].
    apply Forall_lookup. intros i r Hi. apply list_lookup_insert_Some in Hi as [(<- & <- & _)|(_ & Hi)].
    + by rewrite length_insert.
    + rewrite Forall_lookup in Hf. eauto.
  - intros r c. unfold mat_get. destruct (decide (r = Z.to_nat y)) as [->|Hr].
    + rewrite list_lookup_insert_eq by lia. simpl.
      destruct (decide (c = Z.to_nat x)) as [->|Hc].
      * rewrite list_lookup_insert_eq by lia. by rewrite decide_True.
      * rewrite list_lookup_insert_ne by congruence. rewrite decide_False by congruence.
        by rewrite Hrow.
    + rewrite list_lookup_insert_ne by congruence. by rewrite decide_False by congruence.
Qed.

Lemma copy_image_id image : copy_image image = image.
Proof.
  unfold copy_image. rewrite <- (map_id image) at 2. apply map_ext. intros row. apply map_id.
Qed.

Section Loop.
Context {St : Type} `{!RandomSource St}.

Lemma lift_outcome_Ok {A} (a : A) s : lift_outcome (St := St) (Ok a) s = (s, Ok a).
Proof. done. Qed.

(** The loop of a generator keeps an invariant of the copy that every
    pixel update keeps, and does not raise on a non-empty rectangular
    image. *)
Lemma noise_loop_inv h w image (body : matrix Z -> Z -> Z -> pyM St (matrix Z)) (I : matrix Z -> Prop) s :
  rect h w image -> (0 < h)%nat -> I image ->
  (forall m y x s, 0 <= y < Z.of_nat h -> 0 <= x < Z.of_nat w -> I m ->
     exists m' s', body m y x s = (s', Ok m') /\ I m') ->
  exists m s', noise_loop image body s = (s', Ok m) /\ I m.
Proof.
  intros [Hl Hf] Hh HI Hb. unfold noise_loop. rewrite copy_image_id.
  destruct image as [|row0 rest] eqn:Ei; [simpl in Hl; lia|]. rewrite <- Ei in *.
  assert (Hw0 : length row0 = w) by (subst; by inversion Hf).
  assert (E0 : py_lookup image 0 = Ok row0) by (apply (py_lookup_nat _ 0); by rewrite Ei).
  rewrite E0. rewrite (pyM_bind_ok _ _ s s row0) by done. rewrite Hw0, Hl.
  apply fold_pyM_inv; [done|]. intros m [y x] s' Hc Hm.
  rewrite list_elem_of_In in Hc. apply in_prod_iff in Hc as [Hy Hx].
  rewrite <- !list_elem_of_In, !elem_of_zrange in *. by apply Hb.
Qed.
End Loop.

Lemma random_step `{!RandomSource St} s : random s = ((rnd s).2, Ok (rnd s).1).
Proof. unfold random. by destruct (rnd s). Qed.

Lemma gauss_step `{!RandomSource St} mu sigma s :
  gauss mu sigma s = ((gauss_draw mu sigma s).2, Ok (gauss_draw mu sigma s).1).
Proof. unfold gauss. by destruct (gauss_draw mu sigma s). Qed.

(** ** What the generators produce *)

Section Claims.
Context {St : Type} `{!RandomSource St}.

(** The invariant of salt and pepper: the same shape, and every pixel
    is black, white or the original. *)
Definition sp_inv (h w : nat) (image m : matrix Z) : Prop :=
  rect h w m /\ forall r c v, mat_get m r c = Some v -> v = 0 \/ v = 255 \/ mat_get image r c = Some v.

Lemma sp_inv_set h w image m y x v :
  sp_inv h w image m -> v = 0 \/ v = 255 -> 0 <= y < Z.of_nat h -> 0 <= x < Z.of_nat w ->
  exists m', py_set2 m y x v = Ok m' /\ sp_inv h w image m'.
Proof.
  intros [Hm Hv] Hv0 Hy Hx. destruct (py_set2_ok h w m y x v Hm Hy Hx) as (m' & E & Hm' & Hget).
  exists m'. split; [done|split; [done|]]. intros r c v' Ev. rewrite Hget in Ev.
  case_decide; [injection Ev as <-; naive_solver|eauto].
Qed.

(** One step of a salt or pepper body keeps [sp_inv]. *)
Ltac sp_step :=
  match goal with
  | |- context [py_set2 ?m ?y ?x 0] =>
      let m' := fresh "m'" in
      destruct (sp_inv_set _ _ _ m y x 0 ltac:(eassumption) ltac:(by left) ltac:(eassumption) ltac:(eassumption))
        as (m' & -> & ?); eauto
  | |- context [py_set2 ?m ?y ?x 255] =>
      let m' := fresh "m'" in
      destruct (sp_inv_set _ _ _ m y x 255 ltac:(eassumption) ltac:(by right) ltac:(eassumption) ltac:(eassumption))
        as (m' & -> & ?); eauto
  | |- _ => eauto
  end.

(** Salt and pepper, salt, and pepper noise only write [0] or [255]. *)
Lemma sp_family_inv h w image (level : Q) (s : St) :
  rect h w image -> (0 < h)%nat ->
  (exists m s', add_salt_and_pepper_noise image level s = (s', Ok m) /\ sp_inv h w image m) /\
  (exists m s', add_salt_noise image level s = (s', Ok m) /\ sp_inv h w image m) /\
  (exists m s', add_pepper_noise image level s = (s', Ok m) /\ sp_inv h w image m).
Proof.
  intros Hi Hh. assert (H0 : sp_inv h w image image) by (split; [done|eauto]).
  split_ands; (eapply noise_loop_inv; [done|done|exact H0|]); intros m y x s0 Hy Hx Hm;
    unfold salt_and_pepper_body, salt_body, pepper_body;
    rewrite (pyM_bind_ok _ _ s0 (rnd s0).2 (rnd s0).1) by apply random_step;
    repeat destruct (Qlt_le_dec _ _); sp_step.
Qed.

Lemma sp_inv_8bit h w image m : pixels_in 0 255 image -> sp_inv h w image m -> pixels_in 0 255 m.
Proof.
  intros Hp [_ Hv]. apply pixels_in_intro. intros r c v Ev.
  destruct (Hv r c v Ev) as [-> | [-> | Ei]]; [lia|lia|]. by apply (pixels_in_mat_get 0 255 image r c).
Qed.

(** Additive noise with any total draw clamps every pixel. *)
Lemma additive_loop_range h w image (draw : pyM St Q) s :
  rect h w image -> (0 < h)%nat -> pixels_in 0 255 image ->
  (forall s0, exists s1 r, draw s0 = (s1, Ok r)) ->
  exists m s', noise_loop image (additive_body draw) s = (s', Ok m) /\ rect h w m /\ pixels_in 0 255 m.
Proof.
  intros Hi Hh Hp Hd.
  destruct (noise_loop_inv h w image (additive_body draw) (fun m => rect h w m /\ pixels_in 0 255 m) s Hi Hh)
    as (m & s' & E & Hm); [done| |eauto].
  intros m y x s0 Hy Hx [Hm Hpm]. unfold additive_body.
  destruct (Hd s0) as (s1 & r & Er). rewrite (pyM_bind_ok _ _ s0 s1 r Er).
  rewrite (py_get2_ok h w m y x Hm Hy Hx).
  rewrite (pyM_bind_ok _ _ s1 s1 (pixel m y x)) by done.
  destruct (py_set2_ok h w m y x (clamp_pixel (inject_Z (pixel m y x) + r)) Hm Hy Hx)
    as (m' & -> & Hm' & Hget).
  exists m', s1. split_ands; [done|done|]. apply pixels_in_intro. intros rr cc v Ev.
  rewrite Hget in Ev. case_decide.
  - injection Ev as <-. apply clamp_pixel_range.
  - by apply (pixels_in_mat_get 0 255 m rr cc).
Qed.

Lemma gauss_total mean sd s0 : exists s1 r, gauss mean sd s0 = (s1, Ok r).
Proof. rewrite gauss_step. eauto. Qed.

Lemma uniform_total a b s0 : exists s1 r, uniform a b s0 = (s1, Ok r).
Proof. unfold uniform. rewrite (pyM_bind_ok _ _ s0 (rnd s0).2 (rnd s0).1) by apply random_step. eauto. Qed.

(** On a non-empty rectangular image, [add_salt_and_pepper_noise]
    returns an image of the same shape whose every pixel is [0], [255]
    or the original pixel, whatever the generator draws. *)
Theorem salt_and_pepper_values h w image level s :
  rect h w image -> (0 < h)%nat -> (0 < w)%nat ->
  exists m s', add_salt_and_pepper_noise image level s = (s', Ok m) /\ rect h w m /\
    forall r c v, mat_get m r c = Some v -> v = 0 \/ v = 255 \/ mat_get image r c = Some v.
Proof.
  intros Hi Hh Hw. destruct (sp_family_inv h w image level s Hi Hh) as [(m & s' & E & Hm & Hv) _].
  eauto.
Qed.
(** A loop whose body leaves the copy as it is returns the image. *)
Lemma noise_loop_keep h w image (body : matrix Z -> Z -> Z -> pyM St (matrix Z)) s :
  rect h w image -> (0 < h)%nat ->
  (forall y x s0, 0 <= y < Z.of_nat h -> 0 <= x < Z.of_nat w -> exists s1, body image y x s0 = (s1, Ok image)) ->
  exists s', noise_loop image body s = (s', Ok image).
Proof.
  intros Hi Hh Hb. destruct (noise_loop_inv h w image body (fun m => m = image) s Hi Hh)
    as (m & s' & E & ->); [done| |eauto].
  intros m y x s0 Hy Hx ->. destruct (Hb y x s0 Hy Hx) as [s1 E]. eauto.
Qed.

(** At a level [<= 0] the bodies of salt and pepper, salt, and pepper
    never write, when [random()] lies in [[0, 1)]. *)
Lemma level0_bodies `{!RandomLaws St} level m y x s0 :
  (level <= 0)%Q ->
  (exists s1, salt_and_pepper_body level m y x s0 = (s1, Ok m)) /\
  (exists s1, salt_body level m y x s0 = (s1, Ok m)) /\
  (exists s1, pepper_body level m y x s0 = (s1, Ok m)).
Proof.
  intros Hl. destruct (rnd_range s0) as [Hr0 Hr1].
  split_ands; unfold salt_and_pepper_body, salt_body, pepper_body;
    rewrite (pyM_bind_ok _ _ s0 (rnd s0).2 (rnd s0).1) by apply random_step;
    repeat destruct (Qlt_le_dec _ _); try lra; eexists; reflexivity.
Qed.

(** With a generator whose [random()] lies in [[0, 1)], a noise
    level [<= 0] changes nothing: salt and pepper, salt and pepper alone
    return the image as it was. *)
Theorem noise_zero_level_identity `{!RandomLaws St} h w image level s :
  rect h w image -> (0 < h)%nat -> (level <= 0)%Q ->
  (exists s', add_salt_and_pepper_noise image level s = (s', Ok image)) /\
  (exists s', add_salt_noise image level s = (s', Ok image)) /\
  (exists s', add_pepper_noise image level s = (s', Ok image)).
Proof.
  intros Hi Hh Hl.
  split_ands; apply (noise_loop_keep h w); try done; intros y x s0 _ _; apply level0_bodies, Hl.
Qed.

(** Writing back the value a pixel has changes nothing. *)
Lemma py_set2_same h w m y x :
  rect h w m -> 0 <= y < Z.of_nat h -> 0 <= x < Z.of_nat w -> py_set2 m y x (pixel m y x) = Ok m.
Proof.
  intros Hm Hy Hx. destruct (py_set2_ok h w m y x (pixel m y x) Hm Hy Hx) as (m' & -> & Hm' & Hget).
  f_equal. apply (mat_ext h w); [done|done|]. intros r c Hr Hc. rewrite Hget. case_decide as E; [|done].
  injection E as -> ->. unfold pixel.
  by destruct (rect_mat_get_Some h w m (Z.to_nat y) (Z.to_nat x) Hm Hr Hc) as [v ->].
Qed.

(** Uniform noise on [[-0, 0]] leaves an 8-bit image as it is. *)
Lemma uniform_zero_keep h w image a b s :
  rect h w image -> (0 < h)%nat -> pixels_in 0 255 image -> (a == 0)%Q -> (b == 0)%Q ->
  exists s', add_uniform_noise image a b s = (s', Ok image).
Proof.
  intros Hi Hh Hp Ha Hb. apply (noise_loop_keep h w); [done|done|]. intros y x s0 Hy Hx.
  unfold additive_body, uniform.
  rewrite (pyM_bind_ok _ _ s0 (rnd s0).2 (a + (b - a) * (rnd s0).1)%Q).
  - rewrite (py_get2_ok h w image y x Hi Hy Hx).
    rewrite (pyM_bind_ok _ _ (rnd s0).2 (rnd s0).2 (pixel image y x)) by done.
    assert (Hv : 0 <= pixel image y x <= 255).
    { unfold pixel. destruct (rect_mat_get_Some h w image (Z.to_nat y) (Z.to_nat x) Hi) as [v Hv]; [lia|lia|].
      rewrite Hv. by apply (pixels_in_mat_get 0 255 image (Z.to_nat y) (Z.to_nat x)). }
    rewrite (clamp_pixel_comp _ (inject_Z (pixel image y x))) by (rewrite Ha, Hb; ring).
    rewrite clamp_pixel_int, (py_set2_same h w) by done. eauto.
  - by rewrite (pyM_bind_ok _ _ s0 (rnd s0).2 (rnd s0).1) by apply random_step.
Qed.

(** C14: Gaussian and uniform noise clamp every pixel: from an 8-bit
    image they return an image of the same shape with pixels in
    [[0, 255]], whatever the draws. *)
Theorem additive_noise_range h w image s :
  rect h w image -> (0 < h)%nat -> (0 < w)%nat -> pixels_in 0 255 image ->
  (forall mean sd, exists m s', add_gaussian_noise image mean sd s = (s', Ok m) /\
                                rect h w m /\ pixels_in 0 255 m) /\
  (forall a b, exists m s', add_uniform_noise image a b s = (s', Ok m) /\
                            rect h w m /\ pixels_in 0 255 m).
Proof.
  intros Hi Hh Hw Hp. split.
  - intros mean sd. apply additive_loop_range; [done..|apply gauss_total].
  - intros a b. apply additive_loop_range; [done..|apply uniform_total].
Qed.
End Claims.

(** ** Witnesses with a small deterministic generator *)
Module NoiseWitness.

(** A counter generator: [random()] returns [(n mod 10) / 10] and
    [gauss(mu, sigma)] returns [mu + sigma * ((n mod 7) - 3) / 2]. *)
#[export] Instance counter_source : RandomSource nat := {
  rnd n := ((Z.of_nat (n mod 10) # 10)%Q, S n);
  gauss_draw mu sigma n := ((mu + sigma * ((Z.of_nat (n mod 7) - 3) # 2))%Q, S n);
}.

#[export] Instance counter_laws : RandomLaws nat.
Proof.
  constructor. intros n. simpl. pose proof (Nat.mod_upper_bound n 10 ltac:(lia)).
  unfold Qle, Qlt; simpl; lia.
Qed.

Definition img : matrix Z := [[0; 128]; [200; 255]].

Lemma img_rect : rect 2 2 img.
Proof. rect_by_compute. Qed.

Lemma salt_and_pepper_values_witness :
  exists m s', add_salt_and_pepper_noise img (1 # 2) 0%nat = (s', Ok m) /\ rect 2 2 m /\
    forall r c v, mat_get m r c = Some v -> v = 0 \/ v = 255 \/ mat_get img r c = Some v.
Proof. apply (salt_and_pepper_values 2 2 img (1 # 2) 0%nat img_rect); lia. Defined.

Lemma noise_zero_level_identity_witness :
  (exists s', add_salt_and_pepper_noise img 0 3%nat = (s', Ok img)) /\
  (exists s', add_salt_noise img 0 3%nat = (s', Ok img)) /\
  (exists s', add_pepper_noise img 0 3%nat = (s', Ok img)).
Proof. apply (noise_zero_level_identity 2 2 img 0 3%nat img_rect); [lia|unfold Qle; simpl; lia]. Defined.

Lemma additive_noise_range_witness :
  (forall mean sd, exists m s', add_gaussian_noise img mean sd 5%nat = (s', Ok m) /\
                                rect 2 2 m /\ pixels_in 0 255 m) /\
  (forall a b, exists m s', add_uniform_noise img a b 5%nat = (s', Ok m) /\
                            rect 2 2 m /\ pixels_in 0 255 m).
Proof. apply (additive_noise_range 2 2 img 5%nat img_rect); [lia|lia|repeat constructor; lia]. Defined.

End NoiseWitness.
