(* ===== verification/Frequency.v ===== *)
(** * Periodic noise in the centred spectrum ([HW3/hw3_frequency.py], [HW3/hw3_simple.py])

    [add_periodic_noise] and the first part of [hw3_simple.main] add a
    real amplitude to the centred spectrum at the points
    [(cy + sr*dr, cx + sc*dc)], for each offset [(dr, dc)] and both
    signs [sr, sc], skipping the points outside the array.  This file
    models that loop ([insert_peaks]) over the scalars of [Scalars.v]
    and proves that it keeps the spectrum Hermitian in every shape, so
    the noisy image it leads to is real, and that the two scripts, which
    run their sign loops in opposite orders, add the same spectrum.
    The amplitude [mean(abs(fshift)) * strength] is a parameter: the
    theorems hold for every real amplitude. *)

From stdpp Require Import base list numbers.
From Stdlib Require Import ZArith QArith Qcanon Lia.
From S2P Require Import Prelude Scalars Shift Store Symmetry.
Local Open Scope Z_scope.

(** ** The loop over offsets and signs *)

(** [for dr, dc in offsets: for sr in signs: for sc in signs:
    r = cy + sr * dr; c = cx + sc * dc], the points in loop order. *)
Definition peak_targets (signs : list Z) (cy cx : Z) (offsets : list (Z * Z)) : list (Z * Z) :=
  offsets ≫= fun '(dr, dc) => signs ≫= fun sr => map (fun sc => (cy + sr * dr, cx + sc * dc)) signs.

(** [offsets = list(offsets) if offsets else [(18, 36), (42, 12), (28, 64)]]:
    [None] and the empty list both select the default. *)
Definition default_offsets : list (Z * Z) := [(18, 36); (42, 12); (28, 64)].

Definition effective_offsets (offsets : option (list (Z * Z))) : list (Z * Z) :=
  match offsets with
  | Some ((_ :: _) as l) => l
  | _ => default_offsets
  end.

(** The offsets hard-coded in [hw3_simple.main]. *)
Definition simple_offsets : list (Z * Z) := [(20, 45); (35, 15); (10, 60)].

Section Peaks.
Context `{ScalarLaws R C}.

(** [if 0 <= r < fshift.shape[0] and 0 <= c < fshift.shape[1]:
    fshift[r, c] += base_amp] *)
Definition peak_step (h w : nat) (amp : C) (f : matrix C) (t : Z * Z) : matrix C :=
  if decide (0 <= t.1 < Z.of_nat h /\ 0 <= t.2 < Z.of_nat w)
  then mat_alter (fun a => a +c amp) (Z.to_nat t.1) (Z.to_nat t.2) f
  else f.

(** [cy, cx = np.array(fshift.shape) // 2] and the loop, with the
    given order of signs. *)
Definition insert_peaks (signs : list Z) (base_amp : R) (offsets : list (Z * Z))
    (fshift : matrix C) : matrix C :=
  let h := rows fshift in
  let w := cols fshift in
  foldl (peak_step h w (of_real base_amp)) fshift
    (peak_targets signs (Z.of_nat h / 2) (Z.of_nat w / 2) offsets).

(** [add_periodic_noise], lines 43-58: signs [(1, -1)]. *)
Definition add_periodic_peaks (offsets : option (list (Z * Z))) (base_amp : R)
    (fshift : matrix C) : matrix C :=
  insert_peaks [1; -1] base_amp (effective_offsets offsets) fshift.

(** [hw3_simple.main], lines 41-50: signs [(-1, 1)] and its own offsets. *)
Definition simple_peaks (strength : R) (fshift : matrix C) : matrix C :=
  insert_peaks [-1; 1] strength simple_offsets fshift.

(** [n] copies of [a] added to zero. *)
Definition amp_times (n : nat) (a : C) : C := Nat.iter n (cadd a) c0.

End Peaks.

(** ** How often the loop hits a cell *)

(** The number of signs [s] with [cy + s * d = r]: the hits of one
    offset along one axis. *)
Definition hits_axis (signs : list Z) (cy d r : Z) : nat :=
  length (filter (fun s => cy + s * d = r) signs).

(** The number of targets equal to [(r, c)]. *)
Definition hits (signs : list Z) (cy cx : Z) (offsets : list (Z * Z)) (r c : Z) : nat :=
  length (filter (fun t => t = (r, c)) (peak_targets signs cy cx offsets)).

Lemma hits_map_pair (x r c : Z) (fy : Z -> Z) (ys : list Z) :
  length (filter (fun t => t = (r, c)) (map (fun y => (x, fy y)) ys)) =
  if decide (x = r) then length (filter (fun y => fy y = c) ys) else 0%nat.
Proof.
  induction ys as [|y ys IH]; simpl; [by case_decide|].
  rewrite !filter_cons. repeat case_decide; simplify_eq; simpl; rewrite ?IH; try case_decide; naive_solver.
Qed.

Lemma hits_product (xs ys : list Z) (fx fy : Z -> Z) (r c : Z) :
  length (filter (fun t => t = (r, c)) (xs ≫= fun x => map (fun y => (fx x, fy y)) ys)) =
  (length (filter (fun x => fx x = r) xs) * length (filter (fun y => fy y = c) ys))%nat.
Proof.
  induction xs as [|x xs IH]; [done|].
  rewrite bind_cons, list.filter_app, length_app, IH, hits_map_pair, filter_cons.
  case_decide; simpl; lia.
Qed.

Lemma hits_nil signs cy cx r c : hits signs cy cx [] r c = 0%nat.
Proof. done. Qed.

Lemma hits_cons signs cy cx dr dc offsets r c :
  hits signs cy cx ((dr, dc) :: offsets) r c =
  (hits_axis signs cy dr r * hits_axis signs cx dc c + hits signs cy cx offsets r c)%nat.
Proof.
  unfold hits, peak_targets. rewrite bind_cons, list.filter_app, length_app.
  f_equal. apply (hits_product signs signs (fun sr => cy + sr * dr) (fun sc => cx + sc * dc)).
Qed.

(** Both sign orders hit a cell as often as its mirror [2*cy - r]. *)
Lemma hits_axis_mirror (signs : list Z) cy d r :
  signs = [1; -1] \/ signs = [-1; 1] ->
  hits_axis signs cy d (2 * cy - r) = hits_axis signs cy d r.
Proof.
  intros [-> | ->]; unfold hits_axis; rewrite !filter_cons, !filter_nil;
    repeat case_decide; simpl; lia.
Qed.

Lemma hits_axis_swap cy d r : hits_axis [-1; 1] cy d r = hits_axis [1; -1] cy d r.
Proof. unfold hits_axis. rewrite !filter_cons, !filter_nil. repeat case_decide; simpl; lia. Qed.

(** The Hermitian partner of a position is its mirror about the
    centre, or the position itself (row 0 of an even axis). *)
Lemma hpartner_mirror n p :
  (p < n)%nat ->
  Z.of_nat (hpartner n p) = 2 * (Z.of_nat n / 2) - Z.of_nat p \/ hpartner n p = p.
Proof.
  intros Hp. replace (Z.of_nat n / 2) with (Z.of_nat (n / 2)) by (rewrite Nat2Z.inj_div; reflexivity).
  destruct (Nat.Even_or_Odd n) as [[k ->]|[k ->]].
  - rewrite hpartner_even by first [lia | apply Nat.even_spec; by exists k].
    replace (2 * k / 2)%nat with k by (rewrite Nat.mul_comm, Nat.div_mul; lia).
    destruct p as [|p].
    + right. rewrite Nat.sub_0_r. apply Nat.Div0.mod_same.
    + left. rewrite Nat.mod_small by lia. lia.
  - rewrite hpartner_odd by first [lia | apply Nat.odd_spec; by exists k]. left. unfold reflect.
    replace ((2 * k + 1) / 2)%nat with k by (rewrite Nat.add_comm, Nat.mul_comm, Nat.div_add by lia; done).
    lia.
Qed.

Section PeakLemmas.
Context `{ScalarLaws R C}.

Lemma rect_mat_get_None h w (m : matrix C) r c :
  rect h w m -> (h <= r \/ w <= c)%nat -> mat_get m r c = None.
Proof.
  intros [Hl Hf] Hrc. unfold mat_get. destruct (m !! r) as [row|] eqn:Er; simpl; [|done].
  apply lookup_ge_None_2. assert (r < h)%nat by (subst; eapply lookup_lt_Some; eauto).
  rewrite Forall_lookup in Hf. rewrite (Hf _ _ Er). lia.
Qed.

Lemma adds_ext (f' f : matrix C) d d' :
  (forall r c, d r c = d' r c) -> adds f' f d -> adds f' f d'.
Proof. intros E Ha r c. by rewrite Ha, E. Qed.

Lemma adds_refl (f : matrix C) : adds f f (fun _ _ => c0).
Proof. intros r c. destruct (mat_get f r c); simpl; [by rewrite cadd_0_r|done]. Qed.

Lemma peak_step_rect h w amp (f : matrix C) t : rect h w f -> rect h w (peak_step h w amp f t).
Proof. unfold peak_step. case_decide; [apply mat_alter_rect|done]. Qed.

Lemma foldl_peak_rect h w amp (f : matrix C) ts : rect h w f -> rect h w (foldl (peak_step h w amp) f ts).
Proof. revert f. induction ts; simpl; [done|]. intros f Hf. apply IHts, peak_step_rect, Hf. Qed.

(** One step adds [amp] at the cell of its target, if any. *)
Lemma adds_peak_step h w amp (f : matrix C) t :
  rect h w f ->
  adds (peak_step h w amp f t) f
    (fun r c => if decide (t = (Z.of_nat r, Z.of_nat c)) then amp else c0).
Proof.
  intros Hf. destruct t as [tr tc]. unfold peak_step; simpl. case_decide as Hin.
  - eapply adds_ext; [|apply adds_mat_alter]. intros r c. unfold point.
    apply decide_ext. split; intros E; injection E as E1 E2; subst.
    + by rewrite !Z2Nat.id by lia.
    + by rewrite !Nat2Z.id.
  - intros r c. case_decide as E; [|apply adds_refl]. injection E as -> ->.
    rewrite rect_mat_get_None with (h := h) (w := w); [done|done|lia].
Qed.

Lemma amp_times_S n a : amp_times (S n) a = a +c amp_times n a.
Proof. done. Qed.

(** The whole loop adds [amp] once per target on the cell. *)
Lemma adds_peaks h w amp (f : matrix C) ts :
  rect h w f ->
  adds (foldl (peak_step h w amp) f ts) f
    (fun r c => amp_times (length (filter (fun t => t = (Z.of_nat r, Z.of_nat c)) ts)) amp).
Proof.
  revert f. induction ts as [|t ts IH]; intros f Hf; simpl.
  - apply adds_refl.
  - eapply adds_ext; [|eapply adds_trans; [apply (adds_peak_step h w amp f t Hf)|apply IH, peak_step_rect, Hf]].
    intros r c. simpl. rewrite filter_cons. case_decide; simpl; [done|apply cadd_0_l].
Qed.

Lemma amp_times_real n a : cconj (amp_times n (of_real a)) = amp_times n (of_real a).
Proof.
  induction n as [|n IH]; simpl; [apply cconj_0|]. by rewrite cconj_add, cconj_of_real, IH.
Qed.

End PeakLemmas.

Lemma hits_axis_hpartner signs n d p :
  signs = [1; -1] \/ signs = [-1; 1] -> (p < n)%nat ->
  hits_axis signs (Z.of_nat n / 2) d (Z.of_nat (hpartner n p)) = hits_axis signs (Z.of_nat n / 2) d (Z.of_nat p).
Proof.
  intros Hs Hp. destruct (hpartner_mirror n p Hp) as [-> | ->]; [|done]. by apply hits_axis_mirror.
Qed.

Lemma hits_hpartner signs h w offsets r c :
  signs = [1; -1] \/ signs = [-1; 1] -> (r < h)%nat -> (c < w)%nat ->
  hits signs (Z.of_nat h / 2) (Z.of_nat w / 2) offsets (Z.of_nat (hpartner h r)) (Z.of_nat (hpartner w c)) =
  hits signs (Z.of_nat h / 2) (Z.of_nat w / 2) offsets (Z.of_nat r) (Z.of_nat c).
Proof.
  intros Hs Hr Hc. induction offsets as [|[dr dc] offsets IH]; [done|].
  by rewrite !hits_cons, IH, !hits_axis_hpartner.
Qed.

Lemma hits_swap cy cx offsets r c : hits [-1; 1] cy cx offsets r c = hits [1; -1] cy cx offsets r c.
Proof.
  induction offsets as [|[dr dc] offsets IH]; [done|]. by rewrite !hits_cons, IH, !hits_axis_swap.
Qed.

(** ** The points of the loop, counted from its text *)

(** [r = cy + sr * d] for [sr] in [(1, -1)]: how many of [cy + d] and
    [cy - d] are [p]. *)
Definition axis_hits (centre d p : Z) : nat :=
  ((if decide (p = centre + d)%Z then 1 else 0) + (if decide (p = centre - d)%Z then 1 else 0))%nat.

(** For each offset [(dr, dc)], the pairs of signs that land on
    [(r, c)]: the row and the column are chosen independently. *)
Definition offset_hits (cy cx : Z) (offsets : list (Z * Z)) (r c : Z) : nat :=
  sum_list_with (fun '(dr, dc) => axis_hits cy dr r * axis_hits cx dc c)%nat offsets.

Lemma hits_offset_hits cy cx offsets r c : hits [1; -1] cy cx offsets r c = offset_hits cy cx offsets r c.
Proof.
  induction offsets as [|[dr dc] offsets IH]; [done|].
  rewrite hits_cons, IH. unfold offset_hits. simpl. f_equal. f_equal; unfold hits_axis, axis_hits;
    rewrite !filter_cons, !filter_nil; repeat case_decide; simpl; lia.
Qed.

Section PeakClaims.
Context `{ScalarLaws R C}.

Lemma insert_peaks_adds signs a offsets h w (f : matrix C) :
  rect h w f -> (0 < h)%nat ->
  adds (insert_peaks signs a offsets f) f
    (fun r c => amp_times (hits signs (Z.of_nat h / 2) (Z.of_nat w / 2) offsets (Z.of_nat r) (Z.of_nat c))
                  (of_real a)).
Proof.
  intros Hf Hh. destruct (rect_rows_cols h w f Hf Hh) as [Er Ec].
  unfold insert_peaks. rewrite Er, Ec. by apply adds_peaks.
Qed.

Lemma insert_peaks_rect signs a offsets h w (f : matrix C) :
  rect h w f -> (0 < h)%nat -> rect h w (insert_peaks signs a offsets f).
Proof.
  intros Hf Hh. destruct (rect_rows_cols h w f Hf Hh) as [Er Ec].
  unfold insert_peaks. rewrite Er, Ec. by apply foldl_peak_rect.
Qed.

Lemma insert_peaks_hermitian signs a offsets h w (f : matrix C) :
  signs = [1; -1] \/ signs = [-1; 1] -> rect h w f -> herm_sym h w f ->
  herm_sym h w (insert_peaks signs a offsets f).
Proof.
  intros Hs Hf Hsym. destruct h as [|h]; [intros r c Hr; lia|].
  apply (sym_adds _ _ _ _ f _ _ Hsym (insert_peaks_adds signs a offsets (S h) w f Hf ltac:(lia))).
  intros r c Hr Hc. by rewrite amp_times_real, hits_hpartner.
Qed.

(** C15: The loop of [add_periodic_noise] adds [base_amp] to the cell
    [(r, c)] of the centred spectrum once for each offset [(dr, dc)]
    and each choice of [r = h // 2 ± dr] and [c = w // 2 ± dc] that
    lands on it (the default offsets when none are given), and changes
    nothing else; points outside the array are skipped. *)
Theorem add_periodic_peaks_spec offsets a h w (f : matrix C) r c :
  rect h w f -> (0 < h)%nat ->
  mat_get (add_periodic_peaks offsets a f) r c =
  (fun v => v +c amp_times (offset_hits (Z.of_nat h / 2) (Z.of_nat w / 2) (effective_offsets offsets)
                               (Z.of_nat r) (Z.of_nat c)) (of_real a)) <$> mat_get f r c.
Proof. intros Hf Hh. rewrite <- hits_offset_hits. by apply insert_peaks_adds. Qed.

(** C16: Adding the periodic peaks keeps a Hermitian centred spectrum
    Hermitian, in every shape, for every list of offsets and every real
    amplitude: the noisy image [ifft2(ifftshift(fshift))] is real. *)
Theorem add_periodic_peaks_hermitian offsets a h w (f : matrix C) :
  rect h w f -> herm_sym h w f -> herm_sym h w (add_periodic_peaks offsets a f).
Proof. intros Hf Hsym. apply insert_peaks_hermitian; auto. Qed.

(** [hw3_simple] runs its sign loops in the other order; with the
    same offsets and amplitude it adds the same spectrum as
    [add_periodic_noise]. *)
Theorem simple_peaks_equiv a h w (f : matrix C) :
  rect h w f -> (0 < h)%nat ->
  simple_peaks a f = add_periodic_peaks (Some simple_offsets) a f.
Proof.
  intros Hf Hh. apply (mat_ext h w); try by apply insert_peaks_rect.
  intros r c _ _. unfold simple_peaks, add_periodic_peaks; simpl.
  rewrite (insert_peaks_adds [-1; 1] a _ h w f Hf Hh), (insert_peaks_adds [1; -1] a _ h w f Hf Hh).
  by rewrite hits_swap.
Qed.

End PeakClaims.

(** ** Witnesses over the Gaussian rationals *)
Module FrequencyWitness.
Import GaussQ.

Definition zero4 : matrix (Qc * Qc) := mat_fill 4 4 c0.

(** The offset [(1, 0)] lands twice on each of [(1, 2)] and [(3, 2)]
    of a 4 by 4 spectrum, and [(2, 1)] once on [(0, 1)]. *)
Lemma add_periodic_peaks_spec_witness :
  rect 4 4 zero4 /\ (0 < 4)%nat /\
  mat_get (add_periodic_peaks (Some [(1, 0); (2, 1)]) 1%Qc zero4) 3 2 =
  (fun v => v +c amp_times (offset_hits (Z.of_nat 4 / 2) (Z.of_nat 4 / 2) (effective_offsets (Some [(1, 0); (2, 1)])) 3 2)
                           (of_real 1%Qc)) <$> mat_get zero4 3 2.
Proof.
  split_ands; [apply mat_fill_rect|lia|].
  apply (add_periodic_peaks_spec (Some [(1, 0); (2, 1)]) 1%Qc 4 4 zero4 3 2); [apply mat_fill_rect|lia].
Defined.

Example offset_hits_values :
  offset_hits 2 2 [(1, 0); (2, 1)] 3 2 = 2%nat /\ offset_hits 2 2 [(1, 0); (2, 1)] 0 1 = 1%nat /\
  offset_hits 2 2 [(1, 0); (2, 1)] 2 2 = 0%nat.
Proof. vm_compute. split_ands; reflexivity. Qed.

Lemma add_periodic_peaks_hermitian_witness :
  herm_sym 4 4 (add_periodic_peaks (Some [(1, 1); (2, 0)]) 1%Qc zero4).
Proof.
  apply (add_periodic_peaks_hermitian (Some [(1, 1); (2, 0)]) 1%Qc 4 4 zero4);
    [apply mat_fill_rect|apply herm_sym_fill_zero; lia].
Defined.

Lemma simple_peaks_equiv_witness :
  simple_peaks 1%Qc zero4 = add_periodic_peaks (Some simple_offsets) 1%Qc zero4.
Proof. apply (simple_peaks_equiv 1%Qc 4 4 zero4); [apply mat_fill_rect|lia]. Defined.

End FrequencyWitness.
