(* ===== verification/Normalize.v ===== *)
(** * Stretching an array to 8 bits

    [normalize_to_uint8] of [HW3/hw3_frequency.py] and [scale_to_uint8]
    of [HW3/hw3_simple.py] both map the range [[min, max]] of a float
    array linearly onto [[0, 255]] and convert to [uint8]; they differ
    in their guard for a flat array ([max - min < 1e-6] against
    [max - min <= 0]) and in a final [clip].  The arrays are modelled
    on rationals (float rounding is not modelled; [1e-6] is the
    rational [1/10^6]); [astype(np.uint8)] truncates, which is [Qfloor]
    on the non-negative values both functions convert. *)

From stdpp Require Import base list numbers.
From Stdlib Require Import ZArith QArith Qfield Qminmax Qround Lia Lqa.
From S2P Require Import Prelude Filters.
Local Open Scope Q_scope.

(** [arr.min()] and [arr.max()]: numpy reduces over every element and
    raises [ValueError] on an empty array. *)
Definition arr_min (img : matrix Q) : outcome Q :=
  match concat img with [] => Raise ValueError | x :: xs => Ok (foldl Qmin x xs) end.

Definition arr_max (img : matrix Q) : outcome Q :=
  match concat img with [] => Raise ValueError | x :: xs => Ok (foldl Qmax x xs) end.

(** [np.zeros_like(img, dtype=np.uint8)] *)
Definition zeros_like (img : matrix Q) : matrix Z := mat_map (fun _ => 0%Z) img.

(** [astype(np.uint8)] of a value in [[0, 255]]. *)
Definition to_uint8 (v : Q) : Z := Qfloor v.

(** [normalize_to_uint8(img)], [hw3_frequency.py] lines 31-38. *)
Definition normalize_to_uint8 (img : matrix Q) : outcome (matrix Z) :=
  min_val ← arr_min img;
  max_val ← arr_max img;
  if Qlt_le_dec (max_val - min_val) (1 # 1000000) then mret (zeros_like img)
  else mret (mat_map (fun v => to_uint8 (Qmax 0 (Qmin 255 ((v - min_val) / (max_val - min_val) * 255)))) img).

(** [scale_to_uint8(arr)], [hw3_simple.py] lines 13-20. *)
Definition scale_to_uint8 (arr : matrix Q) : outcome (matrix Z) :=
  mn ← arr_min arr;
  let flat := mat_map (fun v => v - mn) arr in
  maxval ← arr_max flat;
  if Qle_bool maxval 0 then mret (zeros_like arr)
  else mret (mat_map (fun v => to_uint8 (v / maxval * 255)) flat).

(** ** Reductions *)

Lemma Qmax_choice a b : Qmax a b = a \/ Qmax a b = b.
Proof. unfold Qmax, GenericMinMax.gmax. destruct (a ?= b); auto. Qed.

Lemma Qmin_choice a b : Qmin a b = a \/ Qmin a b = b.
Proof. unfold Qmin, GenericMinMax.gmin. destruct (a ?= b); auto. Qed.

(** A fold of [Qmax] returns an element that bounds all others. *)
Lemma foldl_Qmax_spec x xs :
  foldl Qmax x xs ∈ x :: xs /\ Forall (fun v => v <= foldl Qmax x xs) (x :: xs).
Proof.
  revert x. induction xs as [|y xs IH]; intros x; simpl.
  - split; [by left|]. repeat constructor. apply Qle_refl.
  - destruct (IH (Qmax x y)) as [Hin Hall]. inversion Hall as [|? ? Hm Hall']; subst.
    split.
    + apply elem_of_cons in Hin as [-> | Hin]; [|by right; right].
      destruct (Qmax_choice x y) as [-> | ->]; [by left|by right; left].
    + constructor; [|constructor; [|done]].
      * eapply Qle_trans; [apply Q.le_max_l|done].
      * eapply Qle_trans; [apply Q.le_max_r|done].
Qed.

Lemma foldl_Qmin_spec x xs :
  foldl Qmin x xs ∈ x :: xs /\ Forall (fun v => foldl Qmin x xs <= v) (x :: xs).
Proof.
  revert x. induction xs as [|y xs IH]; intros x; simpl.
  - split; [by left|]. repeat constructor. apply Qle_refl.
  - destruct (IH (Qmin x y)) as [Hin Hall]. inversion Hall as [|? ? Hm Hall']; subst.
    split.
    + apply elem_of_cons in Hin as [-> | Hin]; [|by right; right].
      destruct (Qmin_choice x y) as [-> | ->]; [by left|by right; left].
    + constructor; [|constructor; [|done]].
      * eapply Qle_trans; [done|apply Q.le_min_l].
      * eapply Qle_trans; [done|apply Q.le_min_r].
Qed.

Lemma arr_max_spec img M :
  arr_max img = Ok M -> M ∈ concat img /\ Forall (fun v => v <= M) (concat img).
Proof.
  unfold arr_max. destruct (concat img) as [|x xs]; [done|]. intros [= <-]. apply foldl_Qmax_spec.
Qed.

Lemma arr_min_spec img m :
  arr_min img = Ok m -> m ∈ concat img /\ Forall (fun v => m <= v) (concat img).
Proof.
  unfold arr_min. destruct (concat img) as [|x xs]; [done|]. intros [= <-]. apply foldl_Qmin_spec.
Qed.

Lemma arr_min_max_ok img :
  concat img <> [] -> exists m M, arr_min img = Ok m /\ arr_max img = Ok M.
Proof. unfold arr_min, arr_max. destruct (concat img); [done|eauto]. Qed.

Lemma arr_min_max_empty img :
  concat img = [] -> arr_min img = Raise ValueError /\ arr_max img = Raise ValueError.
Proof. unfold arr_min, arr_max. by intros ->. Qed.

Lemma concat_mat_map {A B} (f : A -> B) (m : matrix A) : concat (mat_map f m) = map f (concat m).
Proof. unfold mat_map. induction m as [|r m IH]; simpl; [done|]. by rewrite IH, map_app. Qed.

Lemma elem_of_concat_mat_get (m : matrix Q) r c v : mat_get m r c = Some v -> v ∈ concat m.
Proof.
  unfold mat_get. destruct (m !! r) as [row|] eqn:Er; simpl; [|done]. intros Ec.
  apply list_elem_of_lookup_2 in Er, Ec. apply list_elem_of_In, in_concat. exists row. split; by apply list_elem_of_In.
Qed.

(** The maximum of the shifted array is the range of the array. *)
Lemma arr_max_shift img mn mx M :
  arr_max img = Ok mx -> arr_max (mat_map (fun v => v - mn) img) = Ok M -> M == mx - mn.
Proof.
  intros Hmx HM. apply arr_max_spec in Hmx as [Hin Hall], HM as [HinM HallM].
  rewrite concat_mat_map in HinM, HallM. apply list_elem_of_fmap in HinM as (v & -> & Hv).
  rewrite Forall_forall in Hall, HallM.
  pose proof (Hall v (proj1 (list_elem_of_In _ _) Hv)).
  pose proof (HallM (mx - mn) (proj1 (list_elem_of_In _ _) (list_elem_of_fmap_2 _ _ _ Hin))). lra.
Qed.

Lemma concat_bounds img mn mx v :
  arr_min img = Ok mn -> arr_max img = Ok mx -> v ∈ concat img -> mn <= v <= mx.
Proof.
  intros Hmn%arr_min_spec Hmx%arr_max_spec Hv. destruct Hmn as [_ Hmn], Hmx as [_ Hmx].
  rewrite Forall_forall in Hmn, Hmx. apply list_elem_of_In in Hv. auto.
Qed.

Lemma mat_get_of_concat (m : matrix Q) v : v ∈ concat m -> exists r c, mat_get m r c = Some v.
Proof.
  intros Hv. apply list_elem_of_In, in_concat in Hv as (row & Hrow & Hv).
  apply list_elem_of_In, list_elem_of_lookup_1 in Hrow as [r Er], Hv as [c Ec].
  exists r, c. unfold mat_get. by rewrite Er.
Qed.

Lemma rect_concat_ne h w (m : matrix Q) : rect h w m -> (0 < h)%nat -> (0 < w)%nat -> concat m <> [].
Proof.
  intros [Hl Hf] Hh Hw. destruct m as [|row m]; simpl in *; [lia|].
  inversion Hf; subst. destruct row; simpl in *; [lia|done].
Qed.

Lemma mat_map_compose {A B D} (f : B -> D) (g : A -> B) (m : matrix A) :
  mat_map f (mat_map g m) = mat_map (fun v => f (g v)) m.
Proof. unfold mat_map. rewrite map_map. apply map_ext. intros row. apply map_map. Qed.

Lemma mat_map_ext_concat {A B} (f g : A -> B) (m : matrix A) :
  (forall v, v ∈ concat m -> f v = g v) -> mat_map f m = mat_map g m.
Proof.
  intros E. unfold mat_map. apply map_ext_in. intros row Hrow. apply map_ext_in. intros v Hv.
  apply E, list_elem_of_In, in_concat. eauto.
Qed.

(** The linear stretch of a value of the range [[mn, mx]]. *)
Lemma stretch_range v mn mx :
  mn <= v <= mx -> 0 < mx - mn -> 0 <= (v - mn) / (mx - mn) * 255 <= 255.
Proof.
  intros Hv Hd. assert (0 <= (v - mn) / (mx - mn) <= 1); [|lra].
  split; [apply Qle_shift_div_l; lra|apply Qle_shift_div_r; lra].
Qed.

Lemma to_uint8_range v : 0 <= v <= 255 -> (0 <= to_uint8 v <= 255)%Z.
Proof.
  intros [H0 H1]. unfold to_uint8. split.
  - change 0%Z with (Qfloor 0). by apply Qfloor_resp_le.
  - change 255%Z with (Qfloor 255). by apply Qfloor_resp_le.
Qed.

Lemma clip255_id v : 0 <= v <= 255 -> Qmax 0 (Qmin 255 v) == v.
Proof. intros Hv. rewrite Q.min_r by lra. apply Q.max_r. lra. Qed.

Lemma clip255_range v : 0 <= Qmax 0 (Qmin 255 v) <= 255.
Proof.
  split; [apply Q.le_max_l|]. apply Q.max_lub; [lra|apply Q.le_min_l].
Qed.

Lemma zeros_like_range h w img : rect h w img -> rect h w (zeros_like img) /\ pixels_in 0 255 (zeros_like img).
Proof.
  intros Hi. split; [by apply mat_map_rect|]. apply pixels_in_intro. intros r c v.
  unfold zeros_like. rewrite mat_get_map. destruct (mat_get img r c); simpl; [intros [= <-]; lia|done].
Qed.

Lemma mat_map_pixels_in h w (img : matrix Q) (f : Q -> Z) :
  rect h w img -> (forall v, v ∈ concat img -> (0 <= f v <= 255)%Z) ->
  rect h w (mat_map f img) /\ pixels_in 0 255 (mat_map f img).
Proof.
  intros Hi Hf. split; [by apply mat_map_rect|]. apply pixels_in_intro. intros r c v.
  rewrite mat_get_map. destruct (mat_get img r c) as [u|] eqn:E; simpl; [|done].
  intros [= <-]. by apply Hf, (elem_of_concat_mat_get img r c).
Qed.

Lemma Qle_bool_false_lt a : Qle_bool a 0 = false -> 0 < a.
Proof. intros E. apply Qnot_le_lt. rewrite <- Qle_bool_iff. congruence. Qed.

(** The maximum of [arr - arr.min()] on a non-empty array. *)
Lemma arr_max_flat img mn mx :
  arr_min img = Ok mn -> arr_max img = Ok mx ->
  exists M, arr_max (mat_map (fun v => v - mn) img) = Ok M /\ M == mx - mn.
Proof.
  intros Hmn Hmx. destruct (arr_min_max_ok (mat_map (fun v => v - mn) img)) as (_ & M & _ & HM).
  - rewrite concat_mat_map. apply arr_max_spec in Hmx as [Hin _]. intros E.
    apply fmap_nil_inv in E. rewrite E in Hin. by apply not_elem_of_nil in Hin.
  - exists M. split; [done|]. by apply (arr_max_shift img).
Qed.

(** On a non-empty [h] by [w] array both [normalize_to_uint8] and
    [scale_to_uint8] return an [h] by [w] array of values in [[0, 255]]:
    the first clips, the second needs no clip because its stretch
    already lands in the range. *)
Theorem normalize_scale_range h w img :
  rect h w img -> (0 < h)%nat -> (0 < w)%nat ->
  (exists out, normalize_to_uint8 img = Ok out /\ rect h w out /\ pixels_in 0 255 out) /\
  (exists out, scale_to_uint8 img = Ok out /\ rect h w out /\ pixels_in 0 255 out).
Proof.
  intros Hi Hh Hw. destruct (arr_min_max_ok img (rect_concat_ne h w img Hi Hh Hw)) as (mn & mx & Hmn & Hmx).
  split.
  - unfold normalize_to_uint8. rewrite Hmn, Hmx. cbn [mbind outcome_bind].
    destruct (Qlt_le_dec _ _); eexists; (split; [reflexivity|]); [by apply zeros_like_range|].
    apply mat_map_pixels_in; [done|]. intros v _. apply to_uint8_range, clip255_range.
  - destruct (arr_max_flat img mn mx Hmn Hmx) as (M & HM & EM).
    unfold scale_to_uint8. rewrite Hmn. cbn [mbind outcome_bind]. rewrite HM. cbn [mbind outcome_bind].
    destruct (Qle_bool M 0) eqn:EM0; eexists; (split; [reflexivity|]); [by apply zeros_like_range|].
    rewrite mat_map_compose. apply mat_map_pixels_in; [done|]. intros v Hv.
    apply to_uint8_range. rewrite EM. apply stretch_range; [by apply (concat_bounds img)|].
    rewrite <- EM. by apply Qle_bool_false_lt.
Qed.

Lemma to_uint8_stretch_min v mn mx : v == mn -> 0 < mx - mn -> to_uint8 ((v - mn) / (mx - mn) * 255) = 0%Z.
Proof.
  intros Hv Hd. unfold to_uint8. change 0%Z with (Qfloor 0). apply Qfloor_comp.
  rewrite Hv. field. lra.
Qed.

Lemma to_uint8_stretch_max v mn mx : v == mx -> 0 < mx - mn -> to_uint8 ((v - mn) / (mx - mn) * 255) = 255%Z.
Proof.
  intros Hv Hd. unfold to_uint8. transitivity (Qfloor 255); [apply Qfloor_comp|reflexivity].
  rewrite Hv. field. lra.
Qed.

(** When the range of the array is at least [1e-6],
    [normalize_to_uint8] maps every value [v] to
    [floor((v - min) / (max - min) * 255)]: the minimum to [0] and the
    maximum to [255]. *)
Theorem normalize_to_uint8_stretch img mn mx :
  arr_min img = Ok mn -> arr_max img = Ok mx -> 1 # 1000000 <= mx - mn ->
  exists out, normalize_to_uint8 img = Ok out /\
    forall r c v, mat_get img r c = Some v ->
      mat_get out r c = Some (to_uint8 ((v - mn) / (mx - mn) * 255)) /\
      (v == mn -> mat_get out r c = Some 0%Z) /\ (v == mx -> mat_get out r c = Some 255%Z).
Proof.
  intros Hmn Hmx Hd. unfold normalize_to_uint8. rewrite Hmn, Hmx. cbn [mbind outcome_bind].
  destruct (Qlt_le_dec _ _) as [Hlt|_]; [lra|]. eexists; split; [reflexivity|].
  intros r c v Hv. rewrite mat_get_map, Hv. simpl.
  pose proof (concat_bounds img mn mx v Hmn Hmx (elem_of_concat_mat_get img r c v Hv)) as Hb.
  assert (E : to_uint8 (Qmax 0 (Qmin 255 ((v - mn) / (mx - mn) * 255))) = to_uint8 ((v - mn) / (mx - mn) * 255)).
  { apply Qfloor_comp, clip255_id, stretch_range; [done|lra]. }
  rewrite E. split_ands; [done|intros Hm|intros HM].
  - by rewrite to_uint8_stretch_min by lra.
  - by rewrite to_uint8_stretch_max by lra.
Qed.

(** C17: [scale_to_uint8] of [hw3_simple.py] and [normalize_to_uint8]
    of [hw3_frequency.py] return the same array exactly when the range
    of the array is [0] or at least [1e-6]: on a range in [(0, 1e-6)]
    the first stretches the array to [[0, 255]] and the second returns
    zeros. *)
Theorem scale_normalize_agree h w img mn mx :
  rect h w img -> (0 < h)%nat -> (0 < w)%nat -> arr_min img = Ok mn -> arr_max img = Ok mx ->
  scale_to_uint8 img = normalize_to_uint8 img <-> (mx - mn == 0 \/ 1 # 1000000 <= mx - mn).
Proof.
  intros Hi Hh Hw Hmn Hmx. destruct (arr_max_flat img mn mx Hmn Hmx) as (M & HM & EM).
  pose proof (arr_max_spec img mx Hmx) as [Hin _].
  pose proof (concat_bounds img mn mx mx Hmn Hmx Hin) as Hle.
  unfold scale_to_uint8, normalize_to_uint8. rewrite Hmn, Hmx. cbn [mbind outcome_bind].
  rewrite HM. cbn [mbind outcome_bind].
  destruct (Qle_bool M 0) eqn:EM0; [apply Qle_bool_iff in EM0|apply Qle_bool_false_lt in EM0];
    destruct (Qlt_le_dec (mx - mn) (1 # 1000000)) as [Hlt|Hge].
  - split; [intros _; left; lra|done].
  - lra.
  - split; [|intros [? | ?]; lra]. intros E. injection E as E.
    destruct (mat_get_of_concat img mx Hin) as (r & c & Hrc).
    apply (f_equal (fun m => mat_get m r c)) in E.
    unfold zeros_like in E. rewrite mat_map_compose, !mat_get_map, Hrc in E.
    change (Some (to_uint8 ((mx - mn) / M * 255)) = Some 0%Z) in E.
    assert (E255 : to_uint8 ((mx - mn) / M * 255) = 255%Z).
    { transitivity (to_uint8 ((mx - mn) / (mx - mn) * 255)).
      - unfold to_uint8. apply Qfloor_comp. by rewrite EM.
      - apply to_uint8_stretch_max; lra. }
    rewrite E255 in E. discriminate.
  - split; [intros _; by right|intros _]. f_equal. rewrite mat_map_compose.
    apply mat_map_ext_concat. intros v Hv. pose proof (concat_bounds img mn mx v Hmn Hmx Hv).
    unfold to_uint8. apply Qfloor_comp. rewrite clip255_id by (apply stretch_range; lra). by rewrite EM.
Qed.

(** ** Witnesses *)
Module NormalizeWitness.

Definition img : matrix Q := [[0; 1]; [2; 4]].

(** A 1 x 2 array whose range [1e-7] is below the threshold. *)
Definition flat : matrix Q := [[0; 1 # 10000000]].

Lemma norm_img_rect : rect 2 2 img.
Proof. rect_by_compute. Qed.

Lemma normalize_scale_range_witness :
  (exists out, normalize_to_uint8 img = Ok out /\ rect 2 2 out /\ pixels_in 0 255 out) /\
  (exists out, scale_to_uint8 img = Ok out /\ rect 2 2 out /\ pixels_in 0 255 out).
Proof. apply (normalize_scale_range 2 2 img norm_img_rect); lia. Defined.

Lemma normalize_to_uint8_stretch_witness :
  exists out, normalize_to_uint8 img = Ok out /\
    forall r c v, mat_get img r c = Some v ->
      mat_get out r c = Some (to_uint8 ((v - 0) / (4 - 0) * 255)) /\
      (v == 0 -> mat_get out r c = Some 0%Z) /\ (v == 4 -> mat_get out r c = Some 255%Z).
Proof.
  apply (normalize_to_uint8_stretch img 0 4); [reflexivity|reflexivity|].
  unfold Qle; simpl; lia.
Defined.

Lemma scale_normalize_agree_witness :
  scale_to_uint8 img = normalize_to_uint8 img <-> (4 - 0 == 0 \/ 1 # 1000000 <= 4 - 0).
Proof. apply (scale_normalize_agree 2 2 img 0 4 norm_img_rect); [lia|lia|reflexivity|reflexivity]. Defined.

(** On [flat] the two functions disagree: [scale_to_uint8] stretches
    it to [[0, 255]], [normalize_to_uint8] returns zeros. *)
Lemma scale_normalize_differ_flat :
  scale_to_uint8 flat = Ok [[0%Z; 255%Z]] /\ normalize_to_uint8 flat = Ok [[0%Z; 0%Z]].
Proof. split; vm_compute; reflexivity. Qed.

End NormalizeWitness.
