(* ===== verification/Offsets.v ===== *)
(** * Parsing the periodic offsets of [HW3/hw3_frequency.py]

    [parse_offsets(text)] reads offsets typed as ["18,36; 42,12"]: it
    splits the text on [";"], each chunk on [","], and keeps the chunks
    made of exactly two integers, skipping the others (the [ValueError]
    of [int()] is caught).  This file models the Python string
    operations it uses on ASCII strings, as lists of [ascii]:
    [str.strip()] (the ASCII whitespace of [str.isspace]: codes 9-13
    and 28-32), [str.split(sep)] with a one-character separator, and
    [int(s)] in base 10 (surrounding whitespace, an optional sign,
    digits with single underscores between them).  It proves that
    [parse_offsets] reads back every list of offsets printed in the
    format of its default text, and that the GUI and the command line
    fall back to the default offsets exactly when nothing parses. *)

From stdpp Require Import base list numbers.
From Stdlib Require Import ZArith Ascii String Lia.
From S2P Require Import Prelude Frequency.
Local Open Scope Z_scope.

(** ** Python string operations *)

(** [c.isspace()] on ASCII characters. *)
Definition is_space (c : ascii) : bool :=
  let n := nat_of_ascii c in ((9 <=? n) && (n <=? 13) || (28 <=? n) && (n <=? 32))%nat.

Fixpoint lstrip (s : list ascii) : list ascii :=
  match s with
  | [] => []
  | c :: s' => if is_space c then lstrip s' else s
  end.

(** [s.strip()] *)
Definition strip (s : list ascii) : list ascii := reverse (lstrip (reverse (lstrip s))).

(** [s.split(sep)] for a one-character separator: every separator cuts,
    and the empty string gives [[""]]. *)
Fixpoint split_on (sep : ascii) (s : list ascii) : list (list ascii) :=
  match s with
  | [] => [[]]
  | c :: s' =>
      if ascii_dec c sep then [] :: split_on sep s'
      else match split_on sep s' with
           | [] => [[c]]
           | w :: ws => (c :: w) :: ws
           end
  end.

(** The value of an ASCII decimal digit. *)
Definition digit_val (c : ascii) : option Z :=
  let n := nat_of_ascii c in
  if (48 <=? n)%nat && (n <=? 57)%nat then Some (Z.of_nat (n - 48)) else None.

(** The digits of [int()]: at least one digit, an underscore only
    between two digits; [acc] is the value read so far. *)
Fixpoint py_digits (s : list ascii) (acc : Z) : option Z :=
  match s with
  | [] => None
  | c :: s' =>
      match digit_val c with
      | None => None
      | Some d =>
          match s' with
          | [] => Some (acc * 10 + d)
          | c' :: s'' =>
              if ascii_dec c' "_" then py_digits s'' (acc * 10 + d)
              else py_digits s' (acc * 10 + d)
          end
      end
  end.

(** [int(s)]: whitespace around, an optional sign, the digits; any
    other string raises [ValueError]. *)
Definition int_of_str (s : list ascii) : outcome Z :=
  let t := strip s in
  let r := match t with
           | c :: ds =>
               if ascii_dec c "-" then option_map Z.opp (py_digits ds 0)
               else if ascii_dec c "+" then py_digits ds 0
               else py_digits t 0
           | [] => None
           end in
  match r with Some v => Ok v | None => Raise ValueError end.

(** ** [parse_offsets] *)

(** One chunk, lines 119-125: [parts = chunk.strip().split(",")];
    two parts, both integers, or the chunk is skipped. *)
Definition parse_chunk (chunk : list ascii) : option (Z * Z) :=
  match split_on ","%char (strip chunk) with
  | [a; b] =>
      match int_of_str a with
      | Ok x => match int_of_str b with Ok y => Some (x, y) | Raise _ => None end
      | Raise _ => None
      end
  | _ => None
  end.

(** [parse_offsets(text)], lines 113-126. *)
Definition parse_offsets (text : list ascii) : list (Z * Z) :=
  match strip text with
  | [] => []
  | _ => omap parse_chunk (split_on ";"%char text)
  end.

(** [offsets = parse_offsets(...)]; [offsets = offsets if offsets else None]
    (GUI lines 211-213, command line lines 261-262), then the default
    of [add_periodic_noise]: the offsets the run uses. *)
Definition run_offsets (text : list ascii) : list (Z * Z) :=
  effective_offsets (match parse_offsets text with [] => None | l => Some l end).

(** ** Printing offsets in the format of the default text *)

(** The digit [d < 10] as a character. *)
Definition digit_char (d : N) : ascii := ascii_of_nat (48 + N.to_nat d).

(** The decimal digits of [n], most significant first; the fuel
    [S n] is more than the number of digits. *)
Fixpoint show_fuel (fuel : nat) (n : N) : list ascii :=
  match fuel with
  | O => []
  | S f => if (n <? 10)%N then [digit_char n] else show_fuel f (n / 10) ++ [digit_char (n mod 10)]
  end.

Definition show_N (n : N) : list ascii := show_fuel (S (N.to_nat n)) n.

(** [str(z)] *)
Definition show_Z (z : Z) : list ascii :=
  if z <? 0 then "-"%char :: show_N (Z.abs_N z) else show_N (Z.to_N z).

Definition show_offset (o : Z * Z) : list ascii := show_Z o.1 ++ ","%char :: show_Z o.2.

(** ["; ".join(f"{r},{c}" for r, c in offsets)], the format of the
    default text ["18,36; 42,12; 28,64"]. *)
Fixpoint format_offsets (l : list (Z * Z)) : list ascii :=
  match l with
  | [] => []
  | [o] => show_offset o
  | o :: l' => show_offset o ++ ";"%char :: " "%char :: format_offsets l'
  end.

(** ** Digits *)

Definition is_digit (c : ascii) : Prop := digit_val c <> None.

(** The value read by [int()] from a string of digits. *)
Definition horner (acc : Z) (ds : list ascii) : Z :=
  foldl (fun a c => a * 10 + default 0 (digit_val c)) acc ds.

Lemma digit_val_char (d : N) : (d < 10)%N -> digit_val (digit_char d) = Some (Z.of_N d).
Proof.
  intros Hd. unfold digit_char. rewrite <- (N2Nat.id d) at 2. rewrite nat_N_Z.
  assert (Hk : (N.to_nat d < 10)%nat) by lia. generalize (N.to_nat d) Hk. clear.
  intros k Hk. do 10 (destruct k as [|k]; [reflexivity|]). lia.
Qed.

Lemma horner_snoc acc ds c : horner acc (ds ++ [c]) = horner acc ds * 10 + default 0 (digit_val c).
Proof. unfold horner. by rewrite foldl_app. Qed.

Lemma py_digits_horner ds acc :
  Forall is_digit ds -> ds <> [] -> py_digits ds acc = Some (horner acc ds).
Proof.
  revert acc. induction ds as [|c ds IH]; intros acc Hds Hne; [done|].
  inversion Hds as [|? ? Hc Hds']; subst. simpl.
  destruct (digit_val c) as [d|] eqn:Ed; [|done]. simpl.
  destruct ds as [|c' ds'].
  - done.
  - inversion Hds' as [|? ? Hc' _]; subst. destruct (ascii_dec c' "_") as [->|_]; [done|].
    by apply IH.
Qed.

Lemma show_fuel_spec f n :
  (N.to_nat n < f)%nat ->
  Forall is_digit (show_fuel f n) /\ show_fuel f n <> [] /\ horner 0 (show_fuel f n) = Z.of_N n.
Proof.
  revert n. induction f as [|f IH]; intros n Hn; [lia|]. simpl.
  destruct (N.ltb_spec n 10) as [Hlt|Hge].
  - pose proof (digit_val_char n Hlt) as Hc. split_ands; [|done|].
    + constructor; [|done]. unfold is_digit. by rewrite Hc.
    + unfold horner. cbn [foldl]. rewrite Hc. simpl. lia.
  - assert (Hdiv : (N.to_nat (n / 10) < f)%nat).
    { rewrite N2Nat.inj_div. change (N.to_nat 10) with 10%nat. pose proof (Nat.div_lt (N.to_nat n) 10 ltac:(lia) ltac:(lia)). lia. }
    destruct (IH _ Hdiv) as (Hd & Hne & Hh).
    assert (Hm : (n mod 10 < 10)%N) by (apply N.mod_lt; lia).
    split_ands.
    + apply Forall_app. split; [done|]. constructor; [|done]. unfold is_digit. by rewrite digit_val_char.
    + by destruct (show_fuel f (n / 10)).
    + rewrite horner_snoc, Hh, digit_val_char by done. simpl.
      pose proof (N.div_mod n 10 ltac:(lia)). lia.
Qed.

Lemma show_N_spec n :
  Forall is_digit (show_N n) /\ show_N n <> [] /\ horner 0 (show_N n) = Z.of_N n.
Proof. apply show_fuel_spec. lia. Qed.

(** ** Strip and split on printed text *)

Lemma Forall_weaken {A} (P Q : A -> Prop) (l : list A) :
  Forall P l -> (forall x, P x -> Q x) -> Forall Q l.
Proof. intros Hl HPQ. induction Hl; constructor; auto. Qed.

Definition not_space (c : ascii) : Prop := is_space c = false.

Lemma digit_not_space c : is_digit c -> not_space c.
Proof.
  unfold is_digit, not_space, digit_val, is_space. intros Hd.
  destruct ((48 <=? nat_of_ascii c)%nat && (nat_of_ascii c <=? 57)%nat) eqn:E; [|done].
  apply andb_true_iff in E as [E1 E2]. apply Nat.leb_le in E1, E2.
  repeat (apply orb_false_iff; split); apply andb_false_iff;
    first [left; apply Nat.leb_gt; lia | right; apply Nat.leb_gt; lia].
Qed.

Lemma digit_neq c x : is_digit c -> digit_val x = None -> c <> x.
Proof. intros Hc Hx ->. done. Qed.

Lemma lstrip_id s : (match s with [] => True | c :: _ => not_space c end) -> lstrip s = s.
Proof. destruct s as [|c s]; simpl; [done|]. intros Hc. by rewrite Hc. Qed.

Lemma lstrip_nil s : lstrip s = [] -> Forall (fun c => is_space c = true) s.
Proof.
  induction s as [|c s IH]; simpl; [done|]. destruct (is_space c) eqn:E; [|done].
  intros Hs. constructor; auto.
Qed.

(** [strip] leaves a string whose ends are not spaces unchanged. *)
Lemma strip_id c s : not_space c -> Forall not_space s -> strip (c :: s) = c :: s.
Proof.
  intros Hc Hs. unfold strip. rewrite (lstrip_id (c :: s)) by done.
  assert (Hall : Forall not_space (reverse (c :: s))) by (apply Forall_reverse; by constructor).
  rewrite lstrip_id; [apply reverse_involutive|].
  destruct (reverse (c :: s)) as [|c' s']; [done|]. by inversion Hall.
Qed.

Lemma strip_space c s : is_space c = true -> strip (c :: s) = strip s.
Proof. intros Hc. unfold strip. simpl. by rewrite Hc. Qed.

Lemma split_on_none sep s : Forall (fun c => c <> sep) s -> split_on sep s = [s].
Proof.
  induction s as [|c s IH]; intros Hs; [done|]. inversion Hs; subst. simpl.
  destruct (ascii_dec c sep); [done|]. by rewrite IH.
Qed.

Lemma split_on_app sep x y :
  Forall (fun c => c <> sep) x -> split_on sep (x ++ sep :: y) = x :: split_on sep y.
Proof.
  induction x as [|c x IH]; intros Hx; simpl.
  - by destruct (ascii_dec sep sep).
  - inversion Hx; subst. destruct (ascii_dec c sep); [done|]. by rewrite IH.
Qed.

Lemma split_on_cons sep c s :
  c <> sep -> split_on sep (c :: s) = match split_on sep s with [] => [[c]] | w :: ws => (c :: w) :: ws end.
Proof. intros Hc. simpl. by destruct (ascii_dec c sep). Qed.

(** ** Reading printed numbers back *)

Lemma show_Z_chars z :
  Forall (fun c => is_digit c \/ c = "-"%char) (show_Z z) /\ show_Z z <> [].
Proof.
  destruct (show_N_spec (Z.abs_N z)) as (Hd1 & Hn1 & _).
  destruct (show_N_spec (Z.to_N z)) as (Hd2 & Hn2 & _).
  unfold show_Z. destruct (z <? 0).
  - split; [|done]. constructor; [by right|]. apply (Forall_weaken _ _ _ Hd1). auto.
  - split; [|done]. apply (Forall_weaken _ _ _ Hd2). auto.
Qed.

(** The characters of a printed number are not spaces, commas or
    semicolons. *)
Lemma show_Z_plain z :
  Forall (fun c => not_space c /\ c <> ","%char /\ c <> ";"%char) (show_Z z).
Proof.
  eapply Forall_weaken; [apply show_Z_chars|]. intros c [Hc | ->].
  - split_ands; [by apply digit_not_space|by apply digit_neq..].
  - split_ands; [reflexivity|discriminate..].
Qed.

Lemma int_of_str_digits ds : Forall is_digit ds -> ds <> [] -> int_of_str ds = Ok (horner 0 ds).
Proof.
  intros Hd Hne. destruct ds as [|d ds]; [done|]. inversion Hd as [|? ? Hd0 Hds]; subst.
  unfold int_of_str. rewrite strip_id.
  - cbv zeta. destruct (ascii_dec d "-") as [->|_]; [done|].
    destruct (ascii_dec d "+") as [->|_]; [done|]. by rewrite py_digits_horner.
  - by apply digit_not_space.
  - eapply Forall_weaken; [done|]. apply digit_not_space.
Qed.

(** [int(str(z)) == z] *)
Lemma int_of_str_show z : int_of_str (show_Z z) = Ok z.
Proof.
  destruct (show_N_spec (Z.abs_N z)) as (Hd1 & Hn1 & Hh1).
  destruct (show_N_spec (Z.to_N z)) as (Hd2 & Hn2 & Hh2).
  unfold show_Z. destruct (Z.ltb_spec z 0) as [Hlt|Hge].
  - unfold int_of_str. rewrite strip_id; [|reflexivity|].
    + cbv zeta. destruct (ascii_dec "-" "-") as [_|]; [|done].
      rewrite py_digits_horner, Hh1 by done. simpl. f_equal. lia.
    + eapply Forall_weaken; [done|]. apply digit_not_space.
  - rewrite int_of_str_digits, Hh2 by done. f_equal. lia.
Qed.

Lemma Forall_plain_not_space s :
  Forall (fun c => not_space c /\ c <> ","%char /\ c <> ";"%char) s -> Forall not_space s.
Proof. intros H. eapply Forall_weaken; [done|]. naive_solver. Qed.

Lemma Forall_plain_neq s x :
  x = ","%char \/ x = ";"%char ->
  Forall (fun c => not_space c /\ c <> ","%char /\ c <> ";"%char) s -> Forall (fun c => c <> x) s.
Proof. intros Hx H. eapply Forall_weaken; [done|]. naive_solver. Qed.

Lemma strip_plain s : s <> [] -> Forall not_space s -> strip s = s.
Proof. destruct s as [|c s]; [done|]. intros _ Hs. inversion Hs; subst. by apply strip_id. Qed.

Lemma strip_nonempty c s : not_space c -> strip (c :: s) <> [].
Proof.
  intros Hc. unfold strip. rewrite (lstrip_id (c :: s)) by done.
  destruct (lstrip (reverse (c :: s))) as [|c' s'] eqn:E.
  - apply lstrip_nil in E. rewrite reverse_cons in E. apply Forall_app in E as [_ E].
    inversion E; subst. unfold not_space in Hc. congruence.
  - intros Hr. apply (f_equal (@List.length ascii)) in Hr. rewrite length_reverse in Hr. simpl in Hr. lia.
Qed.

Lemma show_offset_plain o :
  show_offset o <> [] /\ Forall not_space (show_offset o) /\ Forall (fun c => c <> ";"%char) (show_offset o).
Proof.
  destruct (show_Z_chars o.1) as [_ Hne]. pose proof (show_Z_plain o.1). pose proof (show_Z_plain o.2).
  unfold show_offset. split_ands.
  - by destruct (show_Z o.1).
  - apply Forall_app. split; [by apply Forall_plain_not_space|]. constructor; [done|].
    by apply Forall_plain_not_space.
  - apply Forall_app. split; [by apply Forall_plain_neq; [right|]|]. constructor; [done|].
    by apply Forall_plain_neq; [right|].
Qed.

Lemma parse_chunk_show o : parse_chunk (show_offset o) = Some o.
Proof.
  destruct (show_offset_plain o) as (Hne & Hsp & _). unfold parse_chunk. rewrite strip_plain by done.
  unfold show_offset. rewrite split_on_app by (apply Forall_plain_neq; [by left|apply show_Z_plain]).
  rewrite split_on_none by (apply Forall_plain_neq; [by left|apply show_Z_plain]).
  rewrite !int_of_str_show. by destruct o.
Qed.

Lemma parse_chunk_space o : parse_chunk (" "%char :: show_offset o) = Some o.
Proof. unfold parse_chunk. rewrite strip_space by reflexivity. apply parse_chunk_show. Qed.

Lemma split_format o l :
  split_on ";"%char (format_offsets (o :: l)) = show_offset o :: map (fun o' => " "%char :: show_offset o') l.
Proof.
  revert o. induction l as [|o' l IH]; intros o.
  - apply split_on_none, show_offset_plain.
  - change (format_offsets (o :: o' :: l)) with (show_offset o ++ ";"%char :: " "%char :: format_offsets (o' :: l)).
    rewrite split_on_app by apply show_offset_plain.
    rewrite split_on_cons by discriminate. by rewrite IH.
Qed.

Lemma omap_cons_Some {A B} (f : A -> option B) x l y : f x = Some y -> omap f (x :: l) = y :: omap f l.
Proof. intros E. simpl. by rewrite E. Qed.

Lemma omap_parse_spaced l : omap parse_chunk (map (fun o => " "%char :: show_offset o) l) = l.
Proof.
  induction l as [|o l IH]; [done|]. rewrite map_cons, (omap_cons_Some _ _ _ o); [by rewrite IH|].
  apply parse_chunk_space.
Qed.

Lemma strip_format_nonempty o l : strip (format_offsets (o :: l)) <> [].
Proof.
  destruct (show_offset_plain o) as (Hne & Hsp & _).
  assert (E : exists c s, format_offsets (o :: l) = c :: s /\ not_space c).
  { destruct (show_offset o) as [|c s] eqn:Es; [done|]. inversion Hsp; subst.
    destruct l; simpl; rewrite Es; eauto. }
  destruct E as (c & s & -> & Hc). by apply strip_nonempty.
Qed.

(** C18: [parse_offsets] reads back every list of offsets printed as
    ["r,c; r,c; ..."] (the format of its default text), negative
    offsets included. *)
Theorem parse_offsets_format l : parse_offsets (format_offsets l) = l.
Proof.
  destruct l as [|o l]; [done|]. unfold parse_offsets.
  destruct (strip (format_offsets (o :: l))) eqn:E; [by apply strip_format_nonempty in E|].
  rewrite split_format, (omap_cons_Some _ _ _ o) by apply parse_chunk_show.
  by rewrite omap_parse_spaced.
Qed.

Lemma parse_offsets_blank text : Forall (fun c => is_space c = true) text -> parse_offsets text = [].
Proof.
  intros Hs. unfold parse_offsets. assert (E : lstrip text = []).
  { induction Hs as [|c s Hc _ IH]; simpl; [done|]. by rewrite Hc. }
  unfold strip. by rewrite E.
Qed.

(** The run uses the offsets typed in the text when at least one
    chunk parses, and the three default offsets of [add_periodic_noise]
    when the text is blank. *)
Theorem run_offsets_cases l text :
  l <> [] -> Forall (fun c => is_space c = true) text ->
  run_offsets (format_offsets l) = l /\ run_offsets text = default_offsets.
Proof.
  intros Hl Hs. unfold run_offsets. rewrite parse_offsets_format, parse_offsets_blank by done.
  split; [|done]. destruct l; done.
Qed.

(** ** Witnesses *)
Module OffsetsWitness.

(** The default text of the GUI entry is read as the default offsets. *)
Lemma parse_default_text :
  parse_offsets (list_ascii_of_string "18,36; 42,12; 28,64") = default_offsets.
Proof. vm_compute. reflexivity. Qed.

(** Malformed chunks are skipped. *)
Lemma parse_skips_malformed :
  parse_offsets (list_ascii_of_string "18,36;; bad; 4,5,6; 7, 8 ;") = [(18, 36); (7, 8)].
Proof. vm_compute. reflexivity. Qed.

Lemma run_offsets_cases_witness :
  run_offsets (format_offsets [(-5, 12)]) = [(-5, 12)] /\
  run_offsets [" "%char; "009"%char] = default_offsets.
Proof.
  apply (run_offsets_cases [(-5, 12)] [" "%char; "009"%char]); [discriminate|].
  repeat constructor.
Defined.

End OffsetsWitness.
