(* ===== verification/Hw3App.v ===== *)
(** * The HW3 application of [HW3/hw3_frequency.py]: its window and its command line

    [run_pipeline] reads two grayscale images, adds periodic noise to
    the first and ripples to the second, and saves four images for
    each part.  [HW3App] is a Tk window of entries, two file pickers,
    a folder picker and a [Run and Save] button whose handler [run]
    checks the paths, parses the offsets and the three numbers, runs
    the pipeline, and reports ["Done. Saved to ..."] or ["Error: ..."]:
    it catches every exception.  [main] runs the same pipeline from the
    command line, picking the first two images of the script's folder
    when no paths are given ([find_default_images]).

    The disk ([file_system]) holds the readable images by path, the folders,
    and the names each folder lists; a program over it is an [ioM]
    step that may fail with an [app_error] (the Python exception, with
    the message of a [FileNotFoundError]).  [Path(s)] is [py_path]:
    the empty string is ["."], the working folder, which always exists.
    The spectral parts, [add_periodic_noise] and [add_ripple_waves]
    (FFT, logarithm, sine), are the interface [Spectral]: the peak loop
    of the first is [Frequency.add_periodic_peaks], the rest is not
    computed here.

    The theorems: [run] never lets an exception out, and reports
    success exactly when the pipeline returns; a run whose image
    paths do not name readable images writes nothing; the window and
    the command line write the same files for the same inputs; and
    [find_default_images] picks the two least image names of the
    folder, failing exactly when there are fewer than two. *)

From stdpp Require Import base list numbers strings gmap sorting.
From Stdlib Require Import ZArith QArith Ascii Lia.
From S2P Require Import Prelude Normalize Offsets.
Local Open Scope Z_scope.

(** ** Exceptions, the disk and its monad *)

(** The exceptions [run] can report, as [str(exc)] reads them. *)
Inductive app_error :=
| FileNotFound (msg : string)     (** [FileNotFoundError(msg)] *)
| FileExists (path : string)      (** [mkdir] on a path that is a file *)
| TclError                        (** [DoubleVar.get()] of a text that is no number *)
| Raised (e : exn).               (** an exception of the numeric code *)

Record file_system := mkFileSystem {
  disk_files : gmap string (matrix Z);
  disk_dirs : gset string;
  (** the names [iterdir()] lists in a folder, in its order *)
  disk_entries : gmap string (list string);
}.

(** A step on the disk that returns an [A] or raises. *)
Definition ioM (A : Type) : Type := file_system -> file_system * (app_error + A).

#[export] Instance ioM_ret : MRet ioM := fun A a d => (d, inr a).
#[export] Instance ioM_bind : MBind ioM := fun A B f c d =>
  match c d with
  | (d', inr a) => f a d'
  | (d', inl e) => (d', inl e)
  end.

Definition io_fail {A} (e : app_error) : ioM A := fun d => (d, inl e).

(** An [outcome] of the library code inside a step. *)
Definition io_lift {A} (o : outcome A) : ioM A :=
  fun d => (d, match o with Ok a => inr a | Raise e => inl (Raised e) end).

(** [str(Path(s))] for the paths the program builds: [Path("")] is the
    current folder ["."]. *)
Definition py_path (s : string) : string := if decide (s = ""%string) then "." else s.

(** [Path(d) / name] *)
Definition path_div (dir name : string) : string :=
  if decide (dir = "."%string) then name else (dir +:+ "/" +:+ name)%string.

(** [Path(p).exists()]: the working folder, a folder, or a file. *)
Definition path_exists (d : file_system) (p : string) : bool :=
  bool_decide (p = "."%string \/ p ∈ disk_dirs d \/ is_Some (disk_files d !! p)).

(** ** The library functions of the file *)

(** [read_grayscale(path)], lines 13-18: [cv2.imread] returns [None]
    on anything that is not a readable image. *)
Definition read_grayscale (path : string) : ioM (matrix Q) := fun d =>
  match disk_files d !! path with
  | Some img => (d, inr (mat_map inject_Z img))
  | None => (d, inl (FileNotFound ("Could not read image: " +:+ path)))
  end.

(** [output_dir.mkdir(parents=True, exist_ok=True)]: the folder is
    recorded; the folders above it are not, as nothing reads them. *)
Definition mkdir (dir : string) : ioM unit := fun d =>
  if decide (is_Some (disk_files d !! dir)) then (d, inl (FileExists dir))
  else (mkFileSystem (disk_files d) ({[dir]} ∪ disk_dirs d) (disk_entries d), inr tt).

(** [cv2.imwrite(path, img)] of an 8-bit array. *)
Definition imwrite (path : string) (img : matrix Z) : ioM unit := fun d =>
  (mkFileSystem (<[path := img]> (disk_files d)) (disk_dirs d) (disk_entries d), inr tt).

(** [save_results(output_dir, prefix, original, before, after, final)],
    lines 92-98. *)
Definition save_results (output_dir prefix : string) (original : matrix Q) (before after final : matrix Z) :
    ioM unit :=
  mkdir output_dir;;
  orig8 ← io_lift (normalize_to_uint8 original);
  imwrite (path_div output_dir (prefix +:+ "_original.png")) orig8;;
  imwrite (path_div output_dir (prefix +:+ "_spectrum_before.png")) before;;
  imwrite (path_div output_dir (prefix +:+ "_spectrum_after.png")) after;;
  imwrite (path_div output_dir (prefix +:+ "_result.png")) final.

(** The two spectral parts, [(result, spectrum_before, spectrum_after)]. *)
Class Spectral := {
  add_periodic_noise : matrix Q -> option (list (Z * Z)) -> Q -> outcome (matrix Z * matrix Z * matrix Z);
  add_ripple_waves : matrix Q -> Q -> Q -> outcome (matrix Z * matrix Z * matrix Z);
}.

Section App.
Context `{!Spectral}.

(** [run_pipeline(...)], lines 129-139: both images are read before
    anything is written. *)
Definition run_pipeline (image1_path image2_path output_dir : string) (periodic_strength : Q)
    (periodic_offsets : option (list (Z * Z))) (ripple_strength ripple_wavelength : Q) : ioM string :=
  img1 ← read_grayscale image1_path;
  img2 ← read_grayscale image2_path;
  '(noisy_img, spectrum1_before, spectrum1_after) ←
    io_lift (add_periodic_noise img1 periodic_offsets periodic_strength);
  save_results output_dir "part1_periodic" img1 spectrum1_before spectrum1_after noisy_img;;
  '(ripple_img, spectrum2_before, spectrum2_after) ←
    io_lift (add_ripple_waves img2 ripple_strength ripple_wavelength);
  save_results output_dir "part2_ripple" img2 spectrum2_before spectrum2_after ripple_img;;
  mret output_dir.

(** [offsets = parse_offsets(text)]; [offsets = offsets if offsets else
    None] (window lines 211-213, command line lines 261-262). *)
Definition offsets_or_none (text : list ascii) : option (list (Z * Z)) :=
  match parse_offsets text with [] => None | l => Some l end.

(** ** [find_default_images], lines 101-110 *)

(** [str.rfind(".")] *)
Definition rfind_dot (l : list ascii) : option nat :=
  (fun '(j, _) => length l - 1 - j)%nat <$> list_find (fun c => c = "."%char) (reverse l).

(** [PurePath.suffix]: from the last dot, when it is neither the first
    nor the last character of the name. *)
Definition py_suffix (name : string) : list ascii :=
  let l := String.list_ascii_of_string name in
  match rfind_dot l with
  | Some i => if decide (0 < i < length l - 1)%nat then drop i l else []
  | None => []
  end.

Definition image_exts : list string := [".png"; ".jpg"; ".jpeg"; ".bmp"; ".tif"; ".tiff"].

(** [p.suffix.lower() in exts] *)
Definition is_image_name (name : string) : bool :=
  bool_decide (String.string_of_list_ascii (ascii_lower <$> py_suffix name) ∈ image_exts).

Definition no_images_msg (search_dir : string) : string :=
  "Please provide two grayscale images (png/jpg/bmp/tif) in the folder " +:+ search_dir
  +:+ " or pass --image1/--image2.".

(** [sorted(...)] of the paths of one folder orders them by name;
    [iterdir] of a folder with no listing lists nothing. *)
Definition find_default_images (search_dir : string) : ioM (string * string) := fun d =>
  let names := default [] (disk_entries d !! search_dir) in
  match merge_sort String.le (filter (fun n => is_image_name n = true) names) with
  | c0 :: c1 :: _ => (d, inr (path_div search_dir c0, path_div search_dir c1))
  | _ => (d, inl (FileNotFound (no_images_msg search_dir)))
  end.

(** ** The window, [HW3App], lines 142-228 *)

(** The status line: its first text, ["Done. Saved to {output_dir}"],
    or ["Error: {exc}"]. *)
Inductive status :=
| StatusPick
| StatusDone (output_dir : string)
| StatusError (e : app_error).

(** The message boxes shown: [showinfo("Finished", ...)] and
    [showerror("Error", str(exc))]. *)
Inductive message :=
| Finished (output_dir : string)
| ErrorBox (e : app_error).

(** The Tk variables of the window, with the disk.  A [DoubleVar] holds
    [None] when its entry holds a text that is no number: its [get()]
    raises [TclError]. *)
Record hw3_app := mkHw3App {
  hw_disk : file_system;
  image1_var : string;
  image2_var : string;
  output_var : string;
  offsets_var : list ascii;
  periodic_strength_var : option Q;
  ripple_strength_var : option Q;
  ripple_wavelength_var : option Q;
  status_var : status;
  hw_shown : list message;
}.

(** [float(var.get())] *)
Definition double_get (v : option Q) : ioM Q :=
  match v with Some q => mret q | None => io_fail TclError end.

Definition exists_both (p1 p2 : string) : ioM bool := fun d =>
  (d, inr (path_exists d p1 && path_exists d p2)).

Section Window.
(** [Path(__file__).resolve().parent], an absolute folder. *)
Variable script_dir : string.

Definition HW3_RESULTS_DIR : string := path_div script_dir "HW3_results".

(** [HW3App.__init__], lines 145-159. *)
Definition hw3_init (d : file_system) : hw3_app :=
  mkHw3App d "" "" HW3_RESULTS_DIR (String.list_ascii_of_string "18,36; 42,12; 28,64")
    (Some 6%Q) (Some (45 # 100)) (Some 12%Q) StatusPick [].

(** The body of the [try] of [run], lines 204-223: the path check, the
    offsets, the three numbers in argument order, the pipeline. *)
Definition run_body (st : hw3_app) : ioM string :=
  let img1_path := py_path (image1_var st) in
  let img2_path := py_path (image2_var st) in
  let output_dir := if decide (output_var st = ""%string) then HW3_RESULTS_DIR else output_var st in
  ok ← exists_both img1_path img2_path;
  if negb ok then io_fail (FileNotFound "Please pick two valid image files.") else
  let offsets := offsets_or_none (offsets_var st) in
  periodic_strength ← double_get (periodic_strength_var st);
  ripple_strength ← double_get (ripple_strength_var st);
  ripple_wavelength ← double_get (ripple_wavelength_var st);
  run_pipeline img1_path img2_path output_dir periodic_strength offsets ripple_strength ripple_wavelength;;
  mret output_dir.

(** [HW3App.run], lines 202-228: what the body wrote stays written,
    whether it returned or raised. *)
Definition run (st : hw3_app) : hw3_app :=
  match run_body st (hw_disk st) with
  | (d', inr out) =>
      mkHw3App d' (image1_var st) (image2_var st) (output_var st) (offsets_var st)
        (periodic_strength_var st) (ripple_strength_var st) (ripple_wavelength_var st)
        (StatusDone out) (hw_shown st ++ [Finished out])
  | (d', inl e) =>
      mkHw3App d' (image1_var st) (image2_var st) (output_var st) (offsets_var st)
        (periodic_strength_var st) (ripple_strength_var st) (ripple_wavelength_var st)
        (StatusError e) (hw_shown st ++ [ErrorBox e])
  end.

(** What the user does in the window: the dialogs' answers ([""] when
    cancelled), the texts typed into the entries, the button. *)
Inductive hw3_event :=
| BrowseImage1 (path : string)
| BrowseImage2 (path : string)
| SelectFolder (path : string)
| TypeImage1 (text : string)
| TypeImage2 (text : string)
| TypeOutput (text : string)
| TypeOffsets (text : list ascii)
| TypePeriodicStrength (v : option Q)
| TypeRippleStrength (v : option Q)
| TypeRippleWavelength (v : option Q)
| RunAndSave.

Definition set_image1 (v : string) (st : hw3_app) : hw3_app :=
  mkHw3App (hw_disk st) v (image2_var st) (output_var st) (offsets_var st) (periodic_strength_var st)
    (ripple_strength_var st) (ripple_wavelength_var st) (status_var st) (hw_shown st).
Definition set_image2 (v : string) (st : hw3_app) : hw3_app :=
  mkHw3App (hw_disk st) (image1_var st) v (output_var st) (offsets_var st) (periodic_strength_var st)
    (ripple_strength_var st) (ripple_wavelength_var st) (status_var st) (hw_shown st).
Definition set_output (v : string) (st : hw3_app) : hw3_app :=
  mkHw3App (hw_disk st) (image1_var st) (image2_var st) v (offsets_var st) (periodic_strength_var st)
    (ripple_strength_var st) (ripple_wavelength_var st) (status_var st) (hw_shown st).
Definition set_numbers (o : list ascii) (p r w : option Q) (st : hw3_app) : hw3_app :=
  mkHw3App (hw_disk st) (image1_var st) (image2_var st) (output_var st) o p r w (status_var st) (hw_shown st).

(** [_pick_file(var)] and [_pick_folder()], lines 192-200: [if path:
    var.set(path)]. *)
Definition pick (set : string -> hw3_app -> hw3_app) (path : string) (st : hw3_app) : hw3_app :=
  if decide (path = ""%string) then st else set path st.

(** The buttons and entries built by [_build_rows], lines 161-190. *)
Definition hw3_handle (ev : hw3_event) (st : hw3_app) : hw3_app :=
  match ev with
  | BrowseImage1 p => pick set_image1 p st
  | BrowseImage2 p => pick set_image2 p st
  | SelectFolder p => pick set_output p st
  | TypeImage1 t => set_image1 t st
  | TypeImage2 t => set_image2 t st
  | TypeOutput t => set_output t st
  | TypeOffsets t => set_numbers t (periodic_strength_var st) (ripple_strength_var st) (ripple_wavelength_var st) st
  | TypePeriodicStrength v => set_numbers (offsets_var st) v (ripple_strength_var st) (ripple_wavelength_var st) st
  | TypeRippleStrength v => set_numbers (offsets_var st) (periodic_strength_var st) v (ripple_wavelength_var st) st
  | TypeRippleWavelength v => set_numbers (offsets_var st) (periodic_strength_var st) (ripple_strength_var st) v st
  | RunAndSave => run st
  end.

(** [launch_gui()], lines 231-234: the window from its first state
    through the events until it is closed. *)
Definition launch_gui (evs : list hw3_event) (d : file_system) : hw3_app :=
  foldl (fun st ev => hw3_handle ev st) (hw3_init d) evs.

(** The parsed command line, lines 238-247: [type=Path] arguments are
    [None] when absent; a [Path] is always true. *)
Record cli_args := mkCliArgs {
  arg_cli : bool;
  arg_image1 : option string;
  arg_image2 : option string;
  arg_output : option string;
  arg_periodic_strength : Q;
  arg_periodic_offsets : list ascii;
  arg_ripple_strength : Q;
  arg_ripple_wavelength : Q;
}.

Inductive main_result :=
| GuiClosed (st : hw3_app)      (** [launch_gui(); return] *)
| Printed (out_dir : string).   (** ["Done. Results saved to {out_dir}"] *)

(** [main()], lines 237-274. *)
Definition main (args : cli_args) (evs : list hw3_event) : ioM main_result :=
  if negb (arg_cli args) then
    fun d => let st := launch_gui evs d in (hw_disk st, inr (GuiClosed st))
  else
    let output_dir := match arg_output args with Some o => py_path o | None => HW3_RESULTS_DIR end in
    '(image1_path, image2_path) ←
      match arg_image1 args, arg_image2 args with
      | Some i1, Some i2 => mret (py_path i1, py_path i2)
      | _, _ => find_default_images script_dir
      end;
    let offsets := offsets_or_none (arg_periodic_offsets args) in
    out_dir ← run_pipeline image1_path image2_path output_dir (arg_periodic_strength args) offsets
                (arg_ripple_strength args) (arg_ripple_wavelength args);
    mret (Printed out_dir).

End Window.
End App.

(** ** The steps of the pipeline *)

Section Proofs.
Context `{!Spectral}.
Variable script_dir : string.

Ltac io_simpl := unfold mbind, mret, ioM_bind, ioM_ret, io_fail; simpl.

(** Reading changes nothing; it fails exactly on a path that is no image. *)
Lemma read_grayscale_run p d :
  read_grayscale p d = (d, match disk_files d !! p with
                           | Some img => inr (mat_map inject_Z img)
                           | None => inl (FileNotFound ("Could not read image: " +:+ p)) end).
Proof. unfold read_grayscale. by destruct (disk_files d !! p). Qed.

(** Both images are read before anything is written: when one of them
    cannot be read, [run_pipeline] raises on the first such path and
    leaves the disk as it was. *)
Lemma run_pipeline_unreadable i1 i2 out ps offs rs rw d :
  disk_files d !! i1 = None \/ disk_files d !! i2 = None ->
  exists p, disk_files d !! p = None /\ (p = i1 \/ p = i2) /\
    run_pipeline i1 i2 out ps offs rs rw d = (d, inl (FileNotFound ("Could not read image: " +:+ p))).
Proof.
  intros Hu. unfold run_pipeline. io_simpl. rewrite !read_grayscale_run.
  destruct (disk_files d !! i1) as [m1|] eqn:E1.
  - destruct Hu as [Hu|Hu]; [congruence|]. rewrite Hu. eauto.
  - eauto.
Qed.

(** [run_pipeline] returns the folder it was given. *)
Lemma run_pipeline_out i1 i2 out ps offs rs rw d d' o :
  run_pipeline i1 i2 out ps offs rs rw d = (d', inr o) -> o = out.
Proof. unfold run_pipeline. io_simpl. intros Hr. repeat (case_match; simplify_eq/=); done. Qed.

(** A path that does not exist names no image. *)
Lemma path_exists_false d p : path_exists d p = false -> disk_files d !! p = None.
Proof.
  unfold path_exists. intros Hf. apply bool_decide_eq_false in Hf.
  destruct (disk_files d !! p) eqn:E; [|done]. exfalso. eauto.
Qed.

Lemma py_path_nonempty s : s <> ""%string -> py_path s = s.
Proof. unfold py_path. by case_decide. Qed.

(** The results folder of the window: its entry, or [HW3_RESULTS_DIR]
    when empty. *)
Definition window_output (st : hw3_app) : string :=
  if decide (output_var st = ""%string) then HW3_RESULTS_DIR script_dir else output_var st.

(** The body of [run] after the path check and the numbers. *)
Lemma run_body_unfold st d :
  run_body script_dir st d =
    if negb (path_exists d (py_path (image1_var st)) && path_exists d (py_path (image2_var st)))
    then (d, inl (FileNotFound "Please pick two valid image files."))
    else match periodic_strength_var st, ripple_strength_var st, ripple_wavelength_var st with
         | Some p, Some r, Some w =>
             match run_pipeline (py_path (image1_var st)) (py_path (image2_var st)) (window_output st) p
                     (offsets_or_none (offsets_var st)) r w d with
             | (d', inr _) => (d', inr (window_output st))
             | (d', inl e) => (d', inl e)
             end
         | _, _, _ => (d, inl TclError)
         end.
Proof.
  unfold run_body, window_output, exists_both. io_simpl.
  destruct (negb _); [done|].
  destruct (periodic_strength_var st), (ripple_strength_var st), (ripple_wavelength_var st); simpl; try done.
  all: by destruct (run_pipeline _ _ _ _ _ _ _ d) as [? []].
Qed.

(** [run] on a missing or unreadable image, whatever the other entries
    hold. *)
Lemma run_body_unreadable st d :
  disk_files d !! py_path (image1_var st) = None \/ disk_files d !! py_path (image2_var st) = None ->
  exists e, run_body script_dir st d = (d, inl e) /\
    (e = FileNotFound "Please pick two valid image files." \/ e = TclError \/
     exists p, (p = py_path (image1_var st) \/ p = py_path (image2_var st)) /\
               disk_files d !! p = None /\ e = FileNotFound ("Could not read image: " +:+ p)).
Proof.
  intros Hu. rewrite run_body_unfold. destruct (negb _); [eauto|].
  destruct (periodic_strength_var st), (ripple_strength_var st), (ripple_wavelength_var st); eauto.
  destruct (run_pipeline_unreadable _ _ (window_output st) q (offsets_or_none (offsets_var st)) q0 q1 d Hu)
    as (p & Hp & Hpi & ->).
  eauto 10.
Qed.

(** C27: [HW3App.run] never lets an exception out, and when an image
    entry names no readable image it writes nothing: the disk is left
    as it was, the status line reads [Error: ...] with the path check's
    message, the [TclError] of a number entry, or [Could not read
    image] of the missing path, and that error is the message shown. *)
Theorem run_missing_image_writes_nothing st :
  disk_files (hw_disk st) !! py_path (image1_var st) = None \/
  disk_files (hw_disk st) !! py_path (image2_var st) = None ->
  hw_disk (run script_dir st) = hw_disk st /\
  exists e, status_var (run script_dir st) = StatusError e /\ hw_shown (run script_dir st) = hw_shown st ++ [ErrorBox e] /\
    (e = FileNotFound "Please pick two valid image files." \/ e = TclError \/
     exists p, (p = py_path (image1_var st) \/ p = py_path (image2_var st)) /\
               disk_files (hw_disk st) !! p = None /\ e = FileNotFound ("Could not read image: " +:+ p)).
Proof.
  intros Hu. destruct (run_body_unreadable st (hw_disk st) Hu) as (e & Hr & He).
  unfold run. rewrite Hr. simpl. eauto.
Qed.

(** C28: [main --cli] with the window's entries as its arguments writes
    exactly what the window's [Run and Save] writes, and prints its
    folder exactly when the window reports it done.  The one difference
    of an empty output folder is that the window falls back to
    [HW3_RESULTS_DIR] where [--output ""] is the working folder, so the
    arguments name no folder there. *)
Theorem window_and_command_line_agree st args evs :
  arg_cli args = true ->
  arg_image1 args = Some (image1_var st) -> arg_image2 args = Some (image2_var st) ->
  arg_output args = (if decide (output_var st = ""%string) then None else Some (output_var st)) ->
  arg_periodic_offsets args = offsets_var st ->
  periodic_strength_var st = Some (arg_periodic_strength args) ->
  ripple_strength_var st = Some (arg_ripple_strength args) ->
  ripple_wavelength_var st = Some (arg_ripple_wavelength args) ->
  hw_disk (run script_dir st) = (main script_dir args evs (hw_disk st)).1 /\
  (forall out, status_var (run script_dir st) = StatusDone out <->
               (main script_dir args evs (hw_disk st)).2 = inr (Printed out)).
Proof.
  intros Hc H1 H2 Ho Hoff Hp Hr Hw.
  assert (Hout : match arg_output args with Some o => py_path o | None => HW3_RESULTS_DIR script_dir end
                 = window_output st).
  { unfold window_output. rewrite Ho. case_decide; [done|]. by apply py_path_nonempty. }
  unfold run, main. rewrite run_body_unfold, Hc, H1, H2, Hp, Hr, Hw. simpl. io_simpl.
  rewrite Hout, Hoff.
  destruct (path_exists _ _ && path_exists _ _) eqn:Ex; simpl.
  - destruct (run_pipeline _ _ _ _ _ _ _ _) as [d' [e|o]] eqn:Er; simpl; (split; [done|]); intros out;
      [split; congruence|]. apply run_pipeline_out in Er as ->. split; congruence.
  - destruct (run_pipeline_unreadable (py_path (image1_var st)) (py_path (image2_var st)) (window_output st)
      (arg_periodic_strength args) (offsets_or_none (offsets_var st)) (arg_ripple_strength args)
      (arg_ripple_wavelength args) (hw_disk st)) as (p & _ & _ & ->).
    { apply andb_false_iff in Ex as [E|E]; apply path_exists_false in E; auto. }
    simpl. split; [done|]. intros out; split; congruence.
Qed.

(** The image names of a folder, in the order [iterdir] lists them. *)
Definition folder_images (dir : string) (d : file_system) : list string :=
  filter (fun n => is_image_name n = true) (default [] (disk_entries d !! dir)).

(** C29: [find_default_images(search_dir)] reads the disk and changes
    nothing; it raises [FileNotFoundError] with its message exactly when
    the folder holds fewer than two image names, and otherwise returns
    the paths of the two least of them by name: the image names are
    the two and the rest, and neither is above any of the rest. *)
Theorem find_default_images_spec dir d :
  (find_default_images dir d).1 = d /\
  match (find_default_images dir d).2 with
  | inl e => e = FileNotFound (no_images_msg dir) /\ (length (folder_images dir d) < 2)%nat
  | inr (p1, p2) => exists x y rest, p1 = path_div dir x /\ p2 = path_div dir y /\
      folder_images dir d ≡ₚ x :: y :: rest /\ (x ≤ y)%string /\ Forall (fun z => (y ≤ z)%string) rest
  end.
Proof.
  unfold find_default_images. fold (folder_images dir d).
  pose proof (merge_sort_Permutation String.le (folder_images dir d)) as Hp.
  pose proof (StronglySorted_merge_sort String.le (folder_images dir d)) as Hs.
  destruct (merge_sort String.le (folder_images dir d)) as [|x [|y rest]]; simpl.
  - apply Permutation_length in Hp. simpl in Hp. split; [done|]. split; [done|lia].
  - apply Permutation_length in Hp. simpl in Hp. split; [done|]. split; [done|lia].
  - split; [done|]. apply StronglySorted_inv in Hs as [Hs Hx]. apply StronglySorted_inv in Hs as [_ Hy].
    exists x, y, rest. split; [done|]. split; [done|]. split; [by symmetry|].
    split; [by inversion Hx|done].
Qed.

(** ** The window's loop *)

(** The status line repeats the last message box shown. *)
Definition status_agrees (st : hw3_app) : Prop :=
  match status_var st with
  | StatusPick => hw_shown st = []
  | StatusDone o => last (hw_shown st) = Some (Finished o)
  | StatusError e => last (hw_shown st) = Some (ErrorBox e)
  end.

Definition is_run (ev : hw3_event) : bool := if ev is RunAndSave then true else false.

(** One event: only [Run and Save] shows a message, and it sets the
    status line to it. *)
Lemma hw3_handle_agrees ev st :
  status_agrees st ->
  status_agrees (hw3_handle script_dir ev st) /\
  length (hw_shown (hw3_handle script_dir ev st)) = (length (hw_shown st) + if is_run ev then 1 else 0)%nat.
Proof.
  intros Ha. destruct ev; simpl; unfold pick; try case_decide; simpl; try (split; [done|lia]).
  unfold run. destruct (run_body script_dir st (hw_disk st)) as [d' [e|o]];
    unfold status_agrees; simpl; rewrite last_snoc, length_app; simpl; split; [done|lia|done|lia].
Qed.

(** C30: Through any events in the window from its first state, every
    press of [Run and Save] shows exactly one message box and no other
    event shows one, and the status line always repeats the last box
    shown: [Done. Saved to] its folder after [Finished], [Error:] its
    exception after [Error], the first text before any run. *)
Theorem launch_gui_status evs d :
  status_agrees (launch_gui script_dir evs d) /\
  length (hw_shown (launch_gui script_dir evs d)) = length (filter (fun ev => is_run ev = true) evs).
Proof.
  unfold launch_gui.
  enough (Hg : forall st, status_agrees st ->
    status_agrees (foldl (fun st ev => hw3_handle script_dir ev st) st evs) /\
    length (hw_shown (foldl (fun st ev => hw3_handle script_dir ev st) st evs)) =
      (length (hw_shown st) + length (filter (fun ev => is_run ev = true) evs))%nat)
    by (destruct (Hg (hw3_init script_dir d)) as [? ->]; [done|done]).
  induction evs as [|ev evs IH]; intros st Ha; simpl; [split; [done|lia]|].
  destruct (hw3_handle_agrees ev st Ha) as [Ha' Hl]. destruct (IH _ Ha') as [? ->].
  rewrite Hl. split; [done|]. rewrite filter_cons. destruct (is_run ev); simpl; lia.
Qed.

End Proofs.

Module Hw3Witness.

(** Spectral parts with fixed results, enough to follow the files. *)
#[local] Instance flat_spectra : Spectral := {|
  add_periodic_noise := fun _ _ _ => Ok ([[128]], [[0]], [[255]]);
  add_ripple_waves := fun _ _ _ => Ok ([[64]], [[0]], [[255]]);
|}.

Definition img : matrix Z := [[0; 255]; [255; 0]].

(** The script's folder ["/hw3"] lists two images, a text file and a
    hidden file [".png"], whose suffix is empty. *)
Definition disk0 : file_system :=
  mkFileSystem (<["/hw3/a.png" := img]> (<["/hw3/b.png" := img]> ∅)) {["/hw3"]}
    (<["/hw3" := ["b.png"; "notes.txt"; ".png"; "a.png"]]> ∅).

Definition window (i1 i2 out : string) : hw3_app :=
  set_output out (set_image2 i2 (set_image1 i1 (hw3_init "/hw3" disk0))).

Definition args : cli_args :=
  mkCliArgs true (Some "/hw3/a.png") (Some "/hw3/b.png") (Some "/out") 6 (String.list_ascii_of_string "18,36; 42,12; 28,64")
    (45 # 100) 12.

Lemma run_missing_image_writes_nothing_witness :
  disk_files (hw_disk (window "/hw3/a.png" "/hw3/c.png" "/out")) !! "/hw3/c.png" = None /\
  hw_disk (run "/hw3" (window "/hw3/a.png" "/hw3/c.png" "/out")) = disk0.
Proof.
  split; [vm_compute; reflexivity|].
  apply (run_missing_image_writes_nothing "/hw3" (window "/hw3/a.png" "/hw3/c.png" "/out")).
  right. vm_compute. reflexivity.
Defined.

Lemma window_and_command_line_agree_witness :
  hw_disk (run "/hw3" (window "/hw3/a.png" "/hw3/b.png" "/out")) =
  (main "/hw3" args [] (hw_disk (window "/hw3/a.png" "/hw3/b.png" "/out"))).1.
Proof.
  apply (window_and_command_line_agree "/hw3" (window "/hw3/a.png" "/hw3/b.png" "/out") args []);
    vm_compute; reflexivity.
Defined.

(** The run writes both parts into the folder and reports it; the
    original is saved stretched to 0-255, here as it was. *)
Example run_saves_both_parts :
  let st := run "/hw3" (window "/hw3/a.png" "/hw3/b.png" "/out") in
  status_var st = StatusDone "/out" /\ hw_shown st = [Finished "/out"] /\
  disk_files (hw_disk st) !! "/out/part1_periodic_original.png" = Some img /\
  disk_files (hw_disk st) !! "/out/part1_periodic_result.png" = Some [[128]] /\
  disk_files (hw_disk st) !! "/out/part2_ripple_spectrum_before.png" = Some [[0]] /\
  disk_files (hw_disk st) !! "/out/part2_ripple_result.png" = Some [[64]] /\
  "/out" ∈ disk_dirs (hw_disk st).
Proof. vm_compute. repeat split; set_solver. Qed.

(** The defaults of the folder: [".png"] has no suffix and is skipped. *)
Example default_images_of_folder :
  find_default_images "/hw3" disk0 = (disk0, inr ("/hw3/a.png", "/hw3/b.png")).
Proof. vm_compute. reflexivity. Qed.

(** An empty image entry is [Path("")], the working folder, which
    exists: the path check lets it through and the read fails. *)
Example empty_entry_passes_path_check :
  status_var (run "/hw3" (window "" "/hw3/b.png" "/out")) =
    StatusError (FileNotFound "Could not read image: .").
Proof. vm_compute. reflexivity. Qed.

(** [--output ""] is [Path("")]: the results go to the working folder,
    where the window's empty entry uses [HW3_RESULTS_DIR]. *)
Example cli_empty_output_is_working_folder :
  let a := mkCliArgs true (Some "/hw3/a.png") (Some "/hw3/b.png") (Some "") 6 [] (45 # 100) 12 in
  (main "/hw3" a [] disk0).2 = inr (Printed ".") /\
  is_Some (disk_files (main "/hw3" a [] disk0).1 !! "part1_periodic_result.png") /\
  status_var (run "/hw3" (window "/hw3/a.png" "/hw3/b.png" "")) = StatusDone "/hw3/HW3_results".
Proof. vm_compute. repeat split; eauto. Qed.

(** A folder whose name ends in [.png] is taken for an image: the
    command line picks it and fails to read it. *)
Example folder_named_png_is_picked :
  let d := mkFileSystem (<["/hw3/b.png" := img]> ∅) {["/hw3"; "/hw3/sub.png"]} (<["/hw3" := ["sub.png"; "b.png"]]> ∅) in
  let a := mkCliArgs true None None None 6 [] (45 # 100) 12 in
  (main "/hw3" a [] d).2 = inl (FileNotFound "Could not read image: /hw3/sub.png").
Proof. vm_compute. reflexivity. Qed.

End Hw3Witness.
