(* ===== verification/Hw3Simple.v ===== *)
(** * The script [HW3/hw3_simple.py]

    [main] does the work of [hw3_frequency.run_pipeline] without a
    window: it creates [HW3_results] next to the script, takes the
    first two images of the script's folder, adds the periodic peaks of
    its own offsets to the spectrum of the first ([Frequency.simple_peaks])
    and a radial ripple to the spectrum of the second, and saves four
    images per part, each through [scale_to_uint8] ([Normalize]).  Unlike
    [run_pipeline], it saves the first part before it loads the second
    image.

    The disk, its monad [ioM] and [imwrite] are those of [Hw3App].  The
    numeric steps that [Frequency] does not compute are the interface
    [SimpleSpectral]: the shifted transform, the log magnitude, the
    strength [np.mean(np.abs(...)) * 6.0], the transform back, and the
    ripple mask; [SimpleSpectralLaws] says that they keep the shape.

    The theorem: when the second image cannot be read, [main] raises
    [FileNotFoundError] after writing the four images of the first part,
    and nothing else. *)

From stdpp Require Import base list numbers strings gmap sets sorting.
From Stdlib Require Import ZArith QArith Qcanon Lia.
From S2P Require Import Prelude Scalars Frequency Normalize Hw3App.
Local Open Scope Z_scope.

Class SimpleSpectral (R C : Type) := {
  (** [np.fft.fftshift(np.fft.fft2(image))], lines 36-37 and 63-64 *)
  shifted_fft : matrix Q -> matrix C;
  (** [np.log1p(np.abs(fshift))] *)
  log_magnitude : matrix C -> matrix Q;
  (** [np.mean(np.abs(fft1_shift)) * 6.0], line 43 *)
  peak_strength : matrix C -> R;
  (** [np.real(np.fft.ifft2(np.fft.ifftshift(fshift)))] *)
  real_back : matrix C -> matrix Q;
  (** [fft2_shift *= ripple_mask], lines 68-74 *)
  apply_ripple : matrix C -> matrix C;
}.

Class SimpleSpectralLaws (R C : Type) `{!SimpleSpectral R C} := {
  shifted_fft_rect h w m : rect h w m -> rect h w (shifted_fft m);
  log_magnitude_rect h w f : rect h w f -> rect h w (log_magnitude f);
  real_back_rect h w f : rect h w f -> rect h w (real_back f);
  apply_ripple_rect h w f : rect h w f -> rect h w (apply_ripple f);
}.

(** [load_gray(path)], lines 5-10. *)
Definition load_gray (path : string) : ioM (matrix Q) := fun d =>
  match disk_files d !! path with
  | Some img => (d, inr (mat_map inject_Z img))
  | None => (d, inl (FileNotFound ("Image not found: " +:+ path)))
  end.

(** Lines 29-32: the first two image names of the folder, sorted. *)
Definition simple_images (base : string) : ioM (string * string) := fun d =>
  let names := default [] (disk_entries d !! base) in
  match merge_sort String.le (filter (fun n => is_image_name n = true) names) with
  | c0 :: c1 :: _ => (d, inr (path_div base c0, path_div base c1))
  | _ => (d, inl (FileNotFound "Place at least two images next to this script."))
  end.

(** [cv2.imwrite(str(output_dir / name), scale_to_uint8(arr))] *)
Definition simple_save (output_dir name : string) (arr : matrix Q) : ioM unit :=
  img8 ← io_lift (scale_to_uint8 arr);
  imwrite (path_div output_dir name) img8.

Section Main.
Context `{ScalarLaws R C} `{!SimpleSpectral R C}.

(** Part 1, lines 35-59: the spectrum of the first image with the
    peaks of [simple_peaks], and its four images. *)
Definition simple_part1 (output_dir : string) (image1 : matrix Q) : ioM unit :=
  let fft1_shift := shifted_fft image1 in
  let spectrum_before1 := log_magnitude fft1_shift in
  let fft1_peaks := simple_peaks (peak_strength fft1_shift) fft1_shift in
  let spectrum_after1 := log_magnitude fft1_peaks in
  let img1_back := real_back fft1_peaks in
  simple_save output_dir "part1_original.png" image1;;
  simple_save output_dir "part1_before.png" spectrum_before1;;
  simple_save output_dir "part1_after.png" spectrum_after1;;
  simple_save output_dir "part1_result.png" img1_back.

(** Part 2, lines 62-83: the ripple. *)
Definition simple_part2 (output_dir : string) (image2 : matrix Q) : ioM unit :=
  let fft2_shift := shifted_fft image2 in
  let spectrum_before2 := log_magnitude fft2_shift in
  let fft2_ripple := apply_ripple fft2_shift in
  let spectrum_after2 := log_magnitude fft2_ripple in
  let img2_back := real_back fft2_ripple in
  simple_save output_dir "part2_original.png" image2;;
  simple_save output_dir "part2_before.png" spectrum_before2;;
  simple_save output_dir "part2_after.png" spectrum_after2;;
  simple_save output_dir "part2_result.png" img2_back.

(** [main()], lines 23-85, [base] the script's folder; it returns the
    folder it reports. *)
Definition simple_main (base : string) : ioM string :=
  let output_dir := path_div base "HW3_results" in
  mkdir output_dir;;
  '(p1, p2) ← simple_images base;
  image1 ← load_gray p1;
  simple_part1 output_dir image1;;
  image2 ← load_gray p2;
  simple_part2 output_dir image2;;
  mret output_dir.

End Main.

(** The four files of part 1. *)
Definition part1_paths (base : string) : list string :=
  path_div (path_div base "HW3_results") <$>
    ["part1_original.png"; "part1_before.png"; "part1_after.png"; "part1_result.png"]%string.

(** ** Part 1 is written before the second image is read *)

(** [d'] is [d] with files added or replaced at the paths [ps] only. *)
Definition writes (d d' : file_system) (ps : list string) : Prop :=
  disk_dirs d' = disk_dirs d /\ disk_entries d' = disk_entries d /\
  forall q, is_Some (disk_files d' !! q) <-> is_Some (disk_files d !! q) \/ q ∈ ps.

Lemma writes_trans d1 d2 d3 ps1 ps2 : writes d1 d2 ps1 -> writes d2 d3 ps2 -> writes d1 d3 (ps1 ++ ps2).
Proof.
  intros (D1 & E1 & F1) (D2 & E2 & F2). split; [congruence|split; [congruence|]].
  intros q. rewrite F2, F1, elem_of_app. tauto.
Qed.

Lemma simple_save_writes dir name arr h w d :
  rect h w arr -> (0 < h)%nat -> (0 < w)%nat ->
  exists d', simple_save dir name arr d = (d', inr tt) /\ writes d d' [path_div dir name].
Proof.
  intros Ha Hh Hw. destruct (normalize_scale_range h w arr Ha Hh Hw) as [_ (img & E & _)].
  eexists. unfold simple_save, io_lift. rewrite E. split; [reflexivity|].
  split; [done|split; [done|]]. intros q. simpl. rewrite lookup_insert_is_Some', list_elem_of_singleton. naive_solver.
Qed.

Section Part1.
Context `{ScalarLaws R C} `{!SimpleSpectral R C} `{!SimpleSpectralLaws R C}.

Lemma simple_peaks_rect h w s (f : matrix C) : rect h w f -> (0 < h)%nat -> rect h w (simple_peaks s f).
Proof.
  intros Hf Hh. unfold simple_peaks, insert_peaks.
  destruct (rect_rows_cols h w f Hf Hh) as [-> ->]. by apply foldl_peak_rect.
Qed.

(** Part 1 of a non-empty rectangular image writes its four files. *)
Lemma simple_part1_writes dir image1 h w d :
  rect h w image1 -> (0 < h)%nat -> (0 < w)%nat ->
  exists d', simple_part1 dir image1 d = (d', inr tt) /\
    writes d d' (path_div dir <$> ["part1_original.png"; "part1_before.png"; "part1_after.png"; "part1_result.png"]%string).
Proof.
  intros Hi Hh Hw. pose proof (shifted_fft_rect h w image1 Hi) as Hf.
  pose proof (simple_peaks_rect h w (peak_strength (shifted_fft image1)) _ Hf Hh) as Hp.
  unfold simple_part1. unfold mbind, ioM_bind.
  destruct (simple_save_writes dir "part1_original.png" image1 h w d Hi Hh Hw) as (d1 & E1 & W1). rewrite E1.
  destruct (simple_save_writes dir "part1_before.png" _ h w d1 (log_magnitude_rect h w _ Hf) Hh Hw) as (d2 & E2 & W2). rewrite E2.
  destruct (simple_save_writes dir "part1_after.png" _ h w d2 (log_magnitude_rect h w _ Hp) Hh Hw) as (d3 & E3 & W3). rewrite E3.
  destruct (simple_save_writes dir "part1_result.png" _ h w d3 (real_back_rect h w _ Hp) Hh Hw) as (d4 & E4 & W4). rewrite E4.
  exists d4. split; [done|].
  apply (writes_trans d d1 d4 [_] [_; _; _]); [done|].
  apply (writes_trans d1 d2 d4 [_] [_; _]); [done|].
  by apply (writes_trans d2 d3 d4 [_] [_]).
Qed.

End Part1.

Lemma ioM_bind_inr {A B} (c : ioM A) (f : A -> ioM B) d d' a : c d = (d', inr a) -> (c ≫= f) d = f a d'.
Proof. intros E. unfold mbind, ioM_bind. by rewrite E. Qed.

Lemma ioM_bind_inl {A B} (c : ioM A) (f : A -> ioM B) d d' e : c d = (d', inl e) -> (c ≫= f) d = (d', inl e).
Proof. intros E. unfold mbind, ioM_bind. by rewrite E. Qed.

(** The image choice reads only the folder listings. *)
Lemma simple_images_entries base d d0 :
  disk_entries d0 = disk_entries d -> simple_images base d0 = (d0, (simple_images base d).2).
Proof. intros E. unfold simple_images. rewrite E. by repeat case_match. Qed.

Section MainProofs.
Context `{ScalarLaws R C} `{!SimpleSpectral R C} `{!SimpleSpectralLaws R C}.

(** C40: When the second image of the folder cannot be read,
    [hw3_simple.main] raises [FileNotFoundError("Image not found: ...")]
    only after it has created [HW3_results] and written the four images
    of part 1: the disk then holds exactly the files it held and those
    four.  ([hw3_frequency.run_pipeline] reads both images first and
    writes nothing in this case.) *)
Theorem simple_main_second_image_missing base d p1 p2 m1 h w :
  disk_files d !! path_div base "HW3_results" = None ->
  simple_images base d = (d, inr (p1, p2)) ->
  disk_files d !! p1 = Some m1 -> rect h w m1 -> (0 < h)%nat -> (0 < w)%nat ->
  disk_files d !! p2 = None -> p2 ∉ part1_paths base ->
  exists d', simple_main (R := R) (C := C) base d = (d', inl (FileNotFound ("Image not found: " +:+ p2))) /\
    path_div base "HW3_results" ∈ disk_dirs d' /\
    forall q, is_Some (disk_files d' !! q) <-> is_Some (disk_files d !! q) \/ q ∈ part1_paths base.
Proof.
  intros Hout Himg Hp1 Hm Hh Hw Hp2 Hp2'.
  set (out := path_div base "HW3_results") in *.
  set (d0 := mkFileSystem (disk_files d) ({[out]} ∪ disk_dirs d) (disk_entries d)).
  assert (Emk : mkdir out d = (d0, inr tt)) by (unfold mkdir; rewrite decide_False; [done|by rewrite Hout; intros []]).
  assert (Eimg : simple_images base d0 = (d0, inr (p1, p2))) by (rewrite (simple_images_entries base d d0); [by rewrite Himg|done]).
  assert (El1 : load_gray p1 d0 = (d0, inr (mat_map inject_Z m1))) by (unfold load_gray; simpl; by rewrite Hp1).
  destruct (simple_part1_writes out (mat_map inject_Z m1) h w d0 (mat_map_rect _ _ _ _ Hm) Hh Hw) as (d4 & E4 & W4).
  destruct W4 as (D4 & N4 & F4).
  assert (El2 : load_gray p2 d4 = (d4, inl (FileNotFound ("Image not found: " +:+ p2)))).
  { unfold load_gray. destruct (disk_files d4 !! p2) eqn:E; [|done]. exfalso.
    assert (Hs : is_Some (disk_files d4 !! p2)) by eauto.
    apply F4 in Hs as [Hs|Hs]; [simpl in Hs; rewrite Hp2 in Hs; by destruct Hs|exact (Hp2' Hs)]. }
  exists d4. unfold simple_main.
  rewrite (ioM_bind_inr _ _ _ _ _ Emk), (ioM_bind_inr _ _ _ _ _ Eimg). lazy beta iota.
  rewrite (ioM_bind_inr _ _ _ _ _ El1), (ioM_bind_inr _ _ _ _ _ E4), (ioM_bind_inl _ _ _ _ _ El2).
  split; [done|]. split; [rewrite D4; simpl; set_solver|]. intros q. rewrite F4. done.
Qed.

End MainProofs.

Module SimpleWitness.
Import GaussQ.

(** Spectral steps that keep the values, enough to follow the files. *)
#[local] Instance plain_spectral : SimpleSpectral Qc (Qc * Qc) := {|
  shifted_fft := mat_map (fun q => (Q2Qc q, 0%Qc));
  log_magnitude := mat_map (fun c => this c.1);
  peak_strength := fun _ => 1%Qc;
  real_back := mat_map (fun c => this c.1);
  apply_ripple := fun f => f;
|}.

#[local] Instance plain_spectral_laws : SimpleSpectralLaws Qc (Qc * Qc).
Proof. split; intros; simpl; try done; by apply mat_map_rect. Qed.

Definition img : matrix Z := [[0; 255]; [255; 0]].

(** The folder lists [b.png], which is no readable image. *)
Definition disk0 : file_system :=
  mkFileSystem {["/hw3/a.png" := img]} {["/hw3"]} {["/hw3" := ["b.png"; "a.png"]]}.

Lemma simple_main_second_image_missing_witness :
  disk_files disk0 !! "/hw3/HW3_results" = None /\
  simple_images "/hw3" disk0 = (disk0, inr ("/hw3/a.png", "/hw3/b.png")) /\
  disk_files disk0 !! "/hw3/a.png" = Some img /\ rect 2 2 img /\
  disk_files disk0 !! "/hw3/b.png" = None /\ "/hw3/b.png"%string ∉ part1_paths "/hw3" /\
  exists d', simple_main (R := Qc) (C := Qc * Qc) "/hw3" disk0 = (d', inl (FileNotFound "Image not found: /hw3/b.png")) /\
    "/hw3/HW3_results"%string ∈ disk_dirs d' /\
    forall q, is_Some (disk_files d' !! q) <-> is_Some (disk_files disk0 !! q) \/ q ∈ part1_paths "/hw3".
Proof.
  assert (H1 : disk_files disk0 !! "/hw3/HW3_results" = None) by reflexivity.
  assert (H2 : simple_images "/hw3" disk0 = (disk0, inr ("/hw3/a.png", "/hw3/b.png"))) by (vm_compute; reflexivity).
  assert (H3 : disk_files disk0 !! "/hw3/a.png" = Some img) by reflexivity.
  assert (H4 : rect 2 2 img) by rect_by_compute.
  assert (H5 : disk_files disk0 !! "/hw3/b.png" = None) by reflexivity.
  assert (H6 : "/hw3/b.png"%string ∉ part1_paths "/hw3") by (apply (bool_decide_unpack _); vm_compute; reflexivity).
  split_ands; try assumption.
  exact (simple_main_second_image_missing "/hw3" disk0 _ _ img 2 2 H1 H2 H3 H4 ltac:(lia) ltac:(lia) H5 H6).
Defined.

(** The run itself: the four files of part 1 are on disk. *)
Example part1_left_behind :
  let d' := (simple_main (R := Qc) (C := Qc * Qc) "/hw3" disk0).1 in
  Forall (fun p => is_Some (disk_files d' !! p)) (part1_paths "/hw3").
Proof. vm_compute. repeat constructor; eexists; reflexivity. Qed.

End SimpleWitness.
