(* ===== verification/ImageIO.v ===== *)
(** * Grayscale image files of [project/common/image_io.py]

    [load_grayscale_image(path)] opens a file with PIL, converts it to
    mode ["L"] and copies its pixels row by row into a list of lists;
    [save_grayscale_image(pixels, path)] refuses an empty list, builds
    an ["L"] image of the shape of the first row, writes every pixel
    clamped to [[0, 255]] with [putpixel] and saves it.

    The file system is a finite map from paths to ["L"] images
    ([files], a [gmap]); an image file is what it reads back as, its
    array of 8-bit rows.  [Image.save] looks the lowercased extension
    up in PIL's registry ([PilRegistry], a parameter: the plugins
    decide it) and runs the format's writer, given by what its file
    reads back as; the laws [PilRegistryLaws] say that a writer keeps
    the shape and 8 bits and that PNG keeps the pixels.  The conversion
    of colour files to ["L"] on loading, and the partial file a failing
    writer leaves over an existing path, are not modelled.
    The theorems: what is saved as PNG is read back clamped, other
    files are untouched, and the error paths ([ValueError] on an empty
    list, an unknown extension or width 0, [KeyError] on a format
    without writer, [IndexError] on a short row, [OSError] on a missing
    file). *)

From stdpp Require Import base list numbers strings gmap.
From Stdlib Require Import ZArith Ascii Lia.
From S2P Require Import Prelude Filters Metrics.
Local Open Scope Z_scope.

(** The files of the disk: a path names an ["L"] image, its rows. *)
Notation files := (gmap string (matrix Z)).

(** [for y in range(height): for x in range(width): f(y, x)] building a
    list of rows. *)
Definition grid (h w : nat) (f : Z -> Z -> Z) : matrix Z :=
  map (fun y => map (fun x => f y x) (zrange 0 (Z.of_nat w))) (zrange 0 (Z.of_nat h)).

(** [load_grayscale_image(path)]: [Image.open] raises [OSError] on a
    missing file; the loops copy [pixels[x, y]] for the image's own
    width and height. *)
Definition load_grayscale_image (fs : files) (path : string) : outcome (matrix Z) :=
  match fs !! path with
  | Some image => Ok (grid (rows image) (cols image) (pixel image))
  | None => Raise OSError
  end.

(** [max(0, min(255, value))] *)
Definition clamp255 (v : Z) : Z := Z.max 0 (Z.min 255 v).

(** ** [Image.save(path)] *)

(** [os.path.splitext] on the reversed path.  [has_name_char r]: the
    last component, read backwards from [r], has a character other
    than ["."]. *)
Fixpoint has_name_char (r : list ascii) : bool :=
  match r with
  | [] => false
  | c :: r' => if decide (c = "/"%char) then false else if decide (c = "."%char) then has_name_char r' else true
  end.

(** The extension of a reversed path: from its last ["."] to the end,
    when that dot is in the last component and not only dots precede it
    there ([genericpath._splitext]); [None] when there is none. *)
Fixpoint ext_rev (r : list ascii) : option (list ascii) :=
  match r with
  | [] => None
  | c :: r' =>
      if decide (c = "/"%char) then None
      else if decide (c = "."%char) then (if has_name_char r' then Some [c] else None)
      else (fun e => e ++ [c]) <$> ext_rev r'
  end.

(** [os.path.splitext(filename)[1].lower()], the key [Image.save]
    looks up in [EXTENSION]. *)
Definition py_ext (path : string) : string :=
  String.string_of_list_ascii (map ascii_lower (default [] (ext_rev (rev (String.list_ascii_of_string path))))).

(** What [Image.save] finds for an extension: nothing ([ValueError]
    ["unknown file extension"]), a format without a save handler
    ([KeyError] on [SAVE]), or the format's writer, given by what the
    file it writes from an image reads back as after
    [Image.open(path).convert("L")] ([OSError] when the plugin cannot
    write mode ["L"]). *)
Inductive pil_writer :=
| UnknownExtension
| NoSaveHandler
| Writer (codec : matrix Z -> outcome (matrix Z)).

(** PIL's registry of formats, by lowercased extension.  It is a
    parameter: the installed plugins decide it. *)
Class PilRegistry := pil_lookup : string -> pil_writer.

(** What the writers of PIL's plugins do with an ["L"] image: a file
    they write reads back with the image's shape and 8-bit pixels, and
    PNG keeps the pixels. *)
Class PilRegistryLaws `{PilRegistry} := {
  pil_codec_shape ext codec h w m m' :
    pil_lookup ext = Writer codec -> rect h w m -> pixels_in 0 255 m -> codec m = Ok m' ->
    rect h w m' /\ pixels_in 0 255 m';
  pil_png_lossless : pil_lookup ".png" = Writer Ok;
}.

Section Save.
Context `{!PilRegistry}.

(** [image.save(path)] of the ["L"] image [image] of width [width]:
    the format is found from the extension before the file is opened;
    the plugin's writer checks the mode, then its encoder refuses an
    image of width 0 ([ValueError], ["tile cannot extend outside
    image"]). *)
Definition pil_save (image : matrix Z) (width : nat) (path : string) (fs : files) : outcome files :=
  match pil_lookup (py_ext path) with
  | UnknownExtension => Raise ValueError
  | NoSaveHandler => Raise KeyError
  | Writer codec =>
      stored ← codec image;
      if decide (width = 0%nat) then Raise ValueError else Ok (<[path := stored]> fs)
  end.

(** [save_grayscale_image(pixels, path)]: [ValueError] on an empty
    list; [width = len(pixels[0])]; [pixels[y][x]] raises [IndexError]
    on a row shorter than the first, before anything is saved; longer
    rows are cut to the width; then [image.save(path)]. *)
Definition save_grayscale_image (pixels : matrix Z) (path : string) (fs : files) : outcome files :=
  match pixels with
  | [] => Raise ValueError
  | row0 :: _ =>
      image ← mapM (fun y => mapM (fun x => v ← py_get2 pixels y x; Ok (clamp255 v))
                                  (zrange 0 (Z.of_nat (length row0))))
                   (zrange 0 (Z.of_nat (length pixels)));
      pil_save image (length row0) path fs
  end.

End Save.

(** ** The copy loops *)

Lemma mapM_Ok_map {A B} (f : A -> outcome B) (k : A -> B) l :
  (forall a, a ∈ l -> f a = Ok (k a)) -> mapM f l = Ok (map k l).
Proof.
  induction l as [|a l IH]; intros Hf; [done|].
  rewrite mapM_cons_outcome, Hf, IH by (by left || (intros; apply Hf; by right)). done.
Qed.

Lemma lookup_zrange0 n i : (i < n)%nat -> zrange 0 (Z.of_nat n) !! i = Some (Z.of_nat i).
Proof. intros Hi. unfold zrange. by rewrite lookup_seqZ_lt by lia. Qed.

Lemma grid_rect h w f : rect h w (grid h w f).
Proof.
  unfold grid. split.
  - by rewrite length_map, length_zrange, Z.sub_0_r, Nat2Z.id.
  - apply Forall_forall. intros row Hrow. apply list_elem_of_fmap in Hrow as (y & -> & _).
    by rewrite length_map, length_zrange, Z.sub_0_r, Nat2Z.id.
Qed.

Lemma mat_get_grid h w f r c :
  (r < h)%nat -> (c < w)%nat -> mat_get (grid h w f) r c = Some (f (Z.of_nat r) (Z.of_nat c)).
Proof.
  intros Hr Hc. unfold mat_get, grid. rewrite list_lookup_fmap, lookup_zrange0 by done. simpl.
  by rewrite list_lookup_fmap, lookup_zrange0.
Qed.

Lemma pixel_mat_get m r c v : mat_get m r c = Some v -> pixel m (Z.of_nat r) (Z.of_nat c) = v.
Proof. unfold pixel. rewrite !Nat2Z.id. by intros ->. Qed.

(** The loops of [load_grayscale_image] copy an image exactly. *)
Lemma grid_pixels h w m : rect h w m -> grid h w (pixel m) = m.
Proof.
  intros Hm. apply (mat_ext h w); [apply grid_rect|done|]. intros r c Hr Hc.
  rewrite mat_get_grid by done. destruct (rect_mat_get_Some h w m r c Hm Hr Hc) as [v Hv].
  by rewrite Hv, (pixel_mat_get m r c v Hv).
Qed.

Lemma grid_map h w (g : Z -> Z) m : rect h w m -> grid h w (fun y x => g (pixel m y x)) = mat_map g m.
Proof.
  intros Hm. transitivity (mat_map g (grid h w (pixel m))); [|by rewrite grid_pixels]. unfold grid, mat_map.
  rewrite map_map. apply map_ext. intros y. by rewrite map_map.
Qed.

(** ** Saving and loading *)

Lemma clamp255_id v : 0 <= v <= 255 -> clamp255 v = v.
Proof. unfold clamp255. lia. Qed.

Lemma mat_map_clamp255_8bit p : Forall (Forall (fun v => 0 <= v <= 255)) p -> mat_map clamp255 p = p.
Proof.
  intros Hp. unfold mat_map. rewrite <- (map_id p) at 2. apply map_ext_in. intros row Hrow%list_elem_of_In.
  rewrite Forall_forall in Hp. pose proof (Hp row Hrow) as Hr. rewrite <- (map_id row) at 2.
  apply map_ext_in. intros v Hv%list_elem_of_In. rewrite Forall_forall in Hr. by apply clamp255_id, Hr.
Qed.

Lemma mat_map_clamp255_range p : pixels_in 0 255 (mat_map clamp255 p).
Proof.
  apply Forall_forall. intros row Hrow. apply list_elem_of_fmap in Hrow as (r & -> & _).
  apply Forall_forall. intros v Hv. apply list_elem_of_fmap in Hv as (u & -> & _). unfold clamp255. lia.
Qed.

(** A file just written reads back as what was stored. *)
Lemma load_insert h w m path fs :
  rect h w m -> (0 < h)%nat -> load_grayscale_image (<[path := m]> fs) path = Ok m.
Proof.
  intros Hm Hh. unfold load_grayscale_image. rewrite lookup_insert_eq.
  destruct (rect_rows_cols h w _ Hm Hh) as [-> ->]. by rewrite grid_pixels.
Qed.

Lemma list_ascii_of_string_app (p q : string) :
  String.list_ascii_of_string (p +:+ q) = String.list_ascii_of_string p ++ String.list_ascii_of_string q.
Proof. induction p as [|c p IH]; [done|]. simpl. by rewrite IH. Qed.

(** A name ending in [c.png] for a character [c] other than ["/"] and
    ["."]: its extension is [.png], whatever precedes it. *)
Definition png_name (s : string) : Prop :=
  exists c r, rev (String.list_ascii_of_string s) = ["g"; "n"; "p"; "."; c]%char ++ r /\ c <> "/"%char /\ c <> "."%char.

Lemma png_name_app p s : png_name s -> png_name (p +:+ s).
Proof.
  intros (c & r & Hs & Hc). exists c, (r ++ rev (String.list_ascii_of_string p)). split; [|done].
  by rewrite list_ascii_of_string_app, rev_app_distr, Hs, <- app_assoc.
Qed.

Lemma py_ext_png s : png_name s -> py_ext s = ".png".
Proof.
  intros (c & r & Hs & Hc1 & Hc2). unfold py_ext. rewrite Hs. cbn [app ext_rev].
  destruct (decide ("."%char = "."%char)); [|done]. cbn [has_name_char].
  rewrite !decide_False by done. reflexivity.
Qed.

Ltac png_name_tac :=
  first [eexists _, _; split_ands; [reflexivity|discriminate|discriminate] | apply png_name_app; png_name_tac].

Section SaveProofs.
Context `{!PilRegistry}.

(** The loops of [save_grayscale_image] on an [h] by [w] list of rows:
    the image saved is the list clamped to 8 bits. *)
Lemma save_grayscale_image_pil h w p path fs :
  rect h w p -> (0 < h)%nat ->
  save_grayscale_image p path fs = pil_save (mat_map clamp255 p) w path fs.
Proof.
  intros Hp Hh. destruct p as [|row0 rest]; [destruct Hp; simpl in *; lia|].
  assert (Ew : length row0 = w) by (by apply (rect_lookup h w (row0 :: rest) 0)).
  assert (Eh : length (row0 :: rest) = h) by (by destruct Hp).
  unfold save_grayscale_image. rewrite Ew, Eh. set (p := row0 :: rest) in *.
  rewrite (mapM_Ok_map _ (fun y => map (fun x => clamp255 (pixel p y x)) (zrange 0 (Z.of_nat w)))).
  - cbn [mbind outcome_bind]. change (map _ (zrange 0 (Z.of_nat h))) with (grid h w (fun y x => clamp255 (pixel p y x))).
    by rewrite grid_map.
  - intros y Hy%elem_of_zrange. apply mapM_Ok_map. intros x Hx%elem_of_zrange.
    by rewrite (py_get2_ok h w) by (done || lia).
Qed.

(** What a successful save did: the format's writer kept [m], which
    the file now holds. *)
Lemma save_grayscale_image_Ok h w p path fs fs' :
  rect h w p -> (0 < h)%nat -> save_grayscale_image p path fs = Ok fs' ->
  exists codec m, pil_lookup (py_ext path) = Writer codec /\ codec (mat_map clamp255 p) = Ok m /\
    (0 < w)%nat /\ fs' = <[path := m]> fs.
Proof.
  intros Hp Hh. rewrite (save_grayscale_image_pil h w) by done. unfold pil_save.
  destruct (pil_lookup (py_ext path)) as [| |codec]; try done.
  destruct (codec (mat_map clamp255 p)) as [m|e] eqn:Ec; [|done]. cbn [mbind outcome_bind].
  case_decide; [done|]. intros [= <-]. exists codec, m. split_ands; done || lia.
Qed.

(** C23: Saving a non-empty [h] by [w] list of rows, [w > 0], to a path
    whose format PIL writes without loss (PNG) and loading it back
    gives the image with every pixel clamped to [[0, 255]], the image
    itself when it is 8-bit; every other file is left as it was. *)
Theorem save_load_roundtrip h w p path fs :
  rect h w p -> (0 < h)%nat -> (0 < w)%nat -> pil_lookup (py_ext path) = Writer Ok ->
  exists fs', save_grayscale_image p path fs = Ok fs' /\
    load_grayscale_image fs' path = Ok (mat_map clamp255 p) /\
    (Forall (Forall (fun v => 0 <= v <= 255)) p -> load_grayscale_image fs' path = Ok p) /\
    (forall q, q <> path -> fs' !! q = fs !! q).
Proof.
  intros Hp Hh Hw Hpng. exists (<[path := mat_map clamp255 p]> fs).
  assert (Hload : load_grayscale_image (<[path := mat_map clamp255 p]> fs) path = Ok (mat_map clamp255 p))
    by (apply (load_insert h w); [apply mat_map_rect|]; done).
  split_ands.
  - rewrite (save_grayscale_image_pil h w) by done. unfold pil_save. rewrite Hpng. cbn.
    by rewrite decide_False by lia.
  - done.
  - intros H8. by rewrite Hload, mat_map_clamp255_8bit.
  - intros q Hq. by rewrite lookup_insert_ne.
Qed.

(** C24: The error paths of [image_io]: an empty list raises [ValueError];
    a row shorter than the first raises [IndexError] in the copy loop,
    before the extension is looked at; then [Image.save] raises
    [ValueError] on an unknown extension, [KeyError] on a format
    without a writer, the writer's own exception when it cannot write
    the image, and [ValueError] on an image of width 0; otherwise the
    file reads back as what the format keeps of the clamped image (a
    lossy format does not give the pixels back).  Loading a path that
    is not a file raises [OSError]. *)
Theorem image_io_errors h w p path fs :
  rect h w p -> (0 < h)%nat ->
  save_grayscale_image [] path fs = Raise ValueError /\
  (forall (row0 row : list Z) rest y, (row0 :: rest) !! y = Some row -> (length row < length row0)%nat ->
     save_grayscale_image (row0 :: rest) path fs = Raise IndexError) /\
  (pil_lookup (py_ext path) = UnknownExtension -> save_grayscale_image p path fs = Raise ValueError) /\
  (pil_lookup (py_ext path) = NoSaveHandler -> save_grayscale_image p path fs = Raise KeyError) /\
  (forall codec e, pil_lookup (py_ext path) = Writer codec -> codec (mat_map clamp255 p) = Raise e ->
     save_grayscale_image p path fs = Raise e) /\
  (forall codec m, pil_lookup (py_ext path) = Writer codec -> codec (mat_map clamp255 p) = Ok m ->
     (w = 0%nat -> save_grayscale_image p path fs = Raise ValueError) /\
     ((0 < w)%nat -> exists fs', save_grayscale_image p path fs = Ok fs' /\ fs' !! path = Some m)) /\
  (fs !! path = None -> load_grayscale_image fs path = Raise OSError).
Proof.
  intros Hp Hh. rewrite !(save_grayscale_image_pil h w p) by done. unfold pil_save.
  split_ands; [done| | | | | |by unfold load_grayscale_image; intros ->];
    [|intros E; by rewrite E..|intros codec e E Ec; by rewrite E, Ec
     |intros codec m E Ec; rewrite E, Ec; cbn; split; [intros ->; done|intros Hw]].
  - intros row0 row rest y Hy Hlen. unfold save_grayscale_image.
    set (q := row0 :: rest) in *.
    assert (Hrow : forall y', mapM (fun x => v ← py_get2 q y' x; Ok (clamp255 v)) (zrange 0 (Z.of_nat (length row0))) = Raise IndexError \/
                   exists vs, mapM (fun x => v ← py_get2 q y' x; Ok (clamp255 v)) (zrange 0 (Z.of_nat (length row0))) = Ok vs).
    { intros y'. apply mapM_Ok_or_Raise. intros x _. destruct (py_get2_cases q y' x) as [-> | [v ->]]; eauto. }
    rewrite (mapM_Raise _ IndexError); [done|intros y' _; apply Hrow|].
    exists (Z.of_nat y). split.
    + apply elem_of_zrange. pose proof (lookup_lt_Some _ _ _ Hy). lia.
    + apply (mapM_Raise _ IndexError).
      * intros x _. destruct (py_get2_cases q (Z.of_nat y) x) as [-> | [v ->]]; eauto.
      * exists (Z.of_nat (length row)). split; [apply elem_of_zrange; lia|].
        unfold py_get2. rewrite (py_lookup_nat q y row Hy). cbn [mbind outcome_bind].
        by rewrite py_lookup_too_big by lia.
  - rewrite decide_False by lia. eexists. split; [done|]. by rewrite lookup_insert_eq.
Qed.

End SaveProofs.

Module ImageIOWitness.

(** A registry with the PNG writer only, as a stand-in for the
    plugins: the theorems hold for every registry. *)
#[export] Instance png_only : PilRegistry := fun ext => if decide (ext = ".png"%string) then Writer Ok else UnknownExtension.

#[export] Instance png_only_laws : PilRegistryLaws.
Proof.
  split; [|reflexivity]. intros ext codec h w m m' E Hm Hp Hc. unfold pil_lookup, png_only in E.
  case_decide; [|done]. injection E as <-. injection Hc as <-. done.
Qed.

Definition p : matrix Z := [[0; 300]; [-5; 7]].

Lemma save_load_roundtrip_witness :
  rect 2 2 p /\ (0 < 2)%nat /\ pil_lookup (py_ext "out/x.png") = Writer Ok /\
  exists fs', save_grayscale_image p "out/x.png" ∅ = Ok fs' /\
    load_grayscale_image fs' "out/x.png" = Ok (mat_map clamp255 p) /\
    (Forall (Forall (fun v => 0 <= v <= 255)) p -> load_grayscale_image fs' "out/x.png" = Ok p) /\
    (forall q, q <> "out/x.png" -> fs' !! q = (∅ : files) !! q).
Proof.
  assert (H : rect 2 2 p) by (split; [reflexivity|repeat constructor]).
  assert (Hx : pil_lookup (py_ext "out/x.png") = Writer Ok) by reflexivity.
  split_ands; [exact H|lia|exact Hx|]. apply (save_load_roundtrip 2 2 p "out/x.png" ∅); [exact H|lia|lia|exact Hx].
Defined.

Definition no_columns : matrix Z := [[]; []].

Lemma image_io_errors_witness :
  rect 2 0 no_columns /\ (0 < 2)%nat /\
  save_grayscale_image no_columns "x.png" ∅ = Raise ValueError /\
  save_grayscale_image p "x.tif" ∅ = Raise ValueError /\
  save_grayscale_image ([1; 2] :: [[3]]) "x.tif" ∅ = Raise IndexError.
Proof.
  assert (H : rect 2 0 no_columns) by (split; [reflexivity|repeat constructor]).
  assert (Hp : rect 2 2 p) by (split; [reflexivity|repeat constructor]).
  destruct (image_io_errors 2 0 no_columns "x.png" ∅ H ltac:(lia)) as (_ & _ & _ & _ & _ & Hw & _).
  destruct (image_io_errors 2 2 p "x.tif" ∅ Hp ltac:(lia)) as (_ & Hs & Hu & _).
  split_ands; [exact H|lia|by apply (Hw Ok no_columns)|by apply Hu|].
  apply (Hs [1; 2] [3] [[3]] 1%nat); reflexivity || (simpl; lia).
Defined.

(** [os.path.splitext] keeps the last extension of the last component,
    ignores the leading dots of a name, and [lower()] folds the case. *)
Example py_ext_cases :
  py_ext "a/b.tar.GZ" = ".gz" /\ py_ext ".bashrc" = "" /\ py_ext "dir.d/file" = "" /\
  py_ext "..png" = "" /\ py_ext "x/.a.PNG" = ".png".
Proof. vm_compute. split_ands; reflexivity. Qed.

End ImageIOWitness.
