(* ===== verification/GuiCommon.v ===== *)
(** * What the Tk front ends share

    Every GUI of the repository holds lists of rows loaded with
    [image_io], draws them with its own [show_image] and wraps library
    calls that may raise.  This file has the pieces their models share:
    [lift] runs a function that may raise inside a handler, [show_image]
    is the reads the drawing makes (the add-noise GUI's copy, lines
    121-130; the others are the same code), [img_ok] is a non-empty
    8-bit image and [files_ok] a disk of such images, with the lemmas
    that loading and saving keep them. *)

From stdpp Require Import base list numbers strings gmap.
From Stdlib Require Import ZArith Lia.
From S2P Require Import Prelude Filters Metrics ImageIO.
Local Open Scope Z_scope.

(** An [outcome] as a [pyM] step that leaves the state alone. *)
Definition lift {S A} (o : outcome A) : pyM S A :=
  match o with Ok a => mret a | Raise e => throw e end.

(** [show_image(pixels, ...)]: [len(pixels[0])] and [int(pixels[y][x])]
    for every pixel of the shape of the first row; the drawing itself
    does not change the state. *)
Definition show_image (pixels : matrix Z) : outcome unit :=
  row0 ← py_lookup pixels 0;
  _ ← mapM (fun y => mapM (fun x => py_get2 pixels y x) (zrange 0 (Z.of_nat (length row0))))
           (zrange 0 (Z.of_nat (length pixels)));
  mret tt.

(** A non-empty rectangular 8-bit image, as [load_grayscale_image]
    returns and as the generators keep. *)
Definition img_ok (m : matrix Z) : Prop :=
  exists h w, rect h w m /\ (0 < h)%nat /\ (0 < w)%nat /\ pixels_in 0 255 m.

Definition files_ok (fs : files) : Prop := map_Forall (fun _ m => img_ok m) fs.

Lemma show_image_ok h w m : rect h w m -> (0 < h)%nat -> show_image m = Ok tt.
Proof.
  intros Hm Hh. destruct m as [|row0 rest]; [destruct Hm; simpl in *; lia|].
  assert (Ew : length row0 = w) by (by apply (rect_lookup h w (row0 :: rest) 0)).
  assert (Eh : length (row0 :: rest) = h) by (by destruct Hm).
  unfold show_image. rewrite (py_lookup_nat _ 0 row0) by done. cbn [mbind outcome_bind].
  rewrite Ew, Eh, (mapM_Ok_map _ (fun y => map (fun x => pixel (row0 :: rest) y x) (zrange 0 (Z.of_nat w)))); [done|].
  intros y Hy%elem_of_zrange. apply mapM_Ok_map. intros x Hx%elem_of_zrange.
  apply (py_get2_ok h w); [done|lia|lia].
Qed.

Lemma load_ok fs path m : files_ok fs -> load_grayscale_image fs path = Ok m -> img_ok m.
Proof.
  unfold load_grayscale_image. destruct (fs !! path) as [img|] eqn:E; [|done]. intros Hfs [= <-].
  destruct (Hfs path img E) as (h & w & Hi & Hh & Hw & Hp).
  destruct (rect_rows_cols h w img Hi Hh) as [-> ->]. rewrite grid_pixels by done. by exists h, w.
Qed.

(** Whatever the format, a file written from a well-formed image reads
    back as a well-formed image of its shape. *)
Lemma save_ok `{PilRegistryLaws} fs path g fs' :
  files_ok fs -> img_ok g -> save_grayscale_image g path fs = Ok fs' -> files_ok fs'.
Proof.
  intros Hfs (h & w & Hg & Hh & Hw & Hp) Hs.
  destruct (save_grayscale_image_Ok h w g path fs fs' Hg Hh Hs) as (codec & m & E & Ec & _ & ->).
  destruct (pil_codec_shape _ codec h w _ m E (mat_map_rect clamp255 h w g Hg) (mat_map_clamp255_range g) Ec) as [Hm Hpm].
  apply map_Forall_insert_2; [|done]. by exists h, w.
Qed.

(** Loading a file of a well-formed disk gives back its image. *)
Lemma load_file_ok fs path m : files_ok fs -> fs !! path = Some m ->
  load_grayscale_image fs path = Ok m /\ img_ok m.
Proof.
  intros Hfs E. pose proof (Hfs path m E) as Hm. destruct Hm as (h & w & Hi & Hh & Hw & Hp).
  unfold load_grayscale_image. rewrite E. destruct (rect_rows_cols h w m Hi Hh) as [-> ->].
  rewrite grid_pixels by done. split; [done|]. by exists h, w.
Qed.
