(* ===== verification/NoiseGui.v ===== *)
(** * The add-noise GUI of [ex2/task1_add_noise/gui.py]

    [AddNoiseGUI] keeps the loaded image, the noisy image, and the
    text of its info label.  Its handlers load an image, apply one of
    five generators at the level of the slider and count the changed
    pixels, and save the noisy image.  The state here is the record
    [noise_app]: the disk ([files]), the state of Python's generator,
    the two images, the info label as its count and percentage, and the
    message boxes shown.  A handler is a [pyM] program; Tk reports an
    exception raised by a handler and goes on with the state the
    handler left, which is what [na_run] does.  Drawing ([show_image])
    is modelled by the reads it makes, which may raise.

    The theorems: a reachability invariant (the label always shows the
    count of the images held), the level-0 behaviour of each button, and
    saving then loading the noisy image. *)

From stdpp Require Import base list numbers strings gmap.
From Stdlib Require Import ZArith QArith Qminmax Lia Lqa.
From S2P Require Import Prelude Filters Metrics Noise ImageIO GuiCommon.
Local Open Scope Z_scope.


Record noise_app (St : Type) := mkNoiseApp {
  na_files : files;
  na_rng : St;
  na_original : option (matrix Z);
  na_noisy : option (matrix Z);
  (** ["Noisy pixels: {n} ({p:.2f}%)"] *)
  na_info : Z * Q;
  (** the message boxes shown, oldest first *)
  na_shown : list string;
}.
Arguments mkNoiseApp {St}.
Arguments na_files {St}.
Arguments na_rng {St}.
Arguments na_original {St}.
Arguments na_noisy {St}.
Arguments na_info {St}.
Arguments na_shown {St}.

Section Handlers.
Context {St : Type} `{!RandomSource St} `{!PilRegistry}.

Definition set_original (o : option (matrix Z)) (s : noise_app St) : noise_app St :=
  mkNoiseApp (na_files s) (na_rng s) o (na_noisy s) (na_info s) (na_shown s).
Definition set_noisy (o : option (matrix Z)) (s : noise_app St) : noise_app St :=
  mkNoiseApp (na_files s) (na_rng s) (na_original s) o (na_info s) (na_shown s).
Definition set_info (i : Z * Q) (s : noise_app St) : noise_app St :=
  mkNoiseApp (na_files s) (na_rng s) (na_original s) (na_noisy s) i (na_shown s).
Definition set_files (fs : files) (s : noise_app St) : noise_app St :=
  mkNoiseApp fs (na_rng s) (na_original s) (na_noisy s) (na_info s) (na_shown s).

(** [messagebox.showinfo(title, text)] *)
Definition show_message (text : string) : pyM (noise_app St) unit :=
  modify (fun s => mkNoiseApp (na_files s) (na_rng s) (na_original s) (na_noisy s) (na_info s)
                              (na_shown s ++ [text])).

(** Run a generator on the state of Python's [random] module; its draws
    stay made when it raises. *)
Definition with_random {A} (c : pyM St A) : pyM (noise_app St) A :=
  fun s => let '(r, o) := c (na_rng s) in
           (mkNoiseApp (na_files s) r (na_original s) (na_noisy s) (na_info s) (na_shown s), o).

(** [load_image], lines 70-78; [path] is what the file dialog
    returned, [""] when cancelled. *)
Definition na_load_image (path : string) : pyM (noise_app St) unit :=
  if decide (path = ""%string) then mret tt else
  s ← get;
  img ← lift (load_grayscale_image (na_files s) path);
  modify (set_original (Some img));;
  modify (set_noisy None);;
  lift (show_image img);;
  modify (set_info (0, 0%Q)).

(** [save_noisy], lines 80-89. *)
Definition na_save_noisy (path : string) : pyM (noise_app St) unit :=
  s ← get;
  match na_noisy s with
  | None => show_message "No noisy image to save."
  | Some g =>
      if decide (path = ""%string) then mret tt else
      fs ← lift (save_grayscale_image g path (na_files s));
      modify (set_files fs);;
      show_message ("Saved noisy image to " +:+ path)
  end.

(** [apply_noise(noise_fn)], lines 91-102, at the slider's [level]. *)
Definition na_apply_noise (noise_fn : matrix Z -> Q -> pyM St (matrix Z)) (level : Q) :
    pyM (noise_app St) unit :=
  s ← get;
  match na_original s with
  | None => show_message "Please load an image first."
  | Some f =>
      g ← with_random (noise_fn f level);
      modify (set_noisy (Some g));;
      lift (show_image g);;
      noisy_count ← lift (count_noisy_pixels f g);
      row0 ← lift (py_lookup f 0);
      q ← lift (py_truediv noisy_count (Z.of_nat (length f) * Z.of_nat (length row0)));
      modify (set_info (noisy_count, (q * 100)%Q))
  end.

(** The five buttons, lines 104-119. *)
Definition na_apply_salt_and_pepper : Q -> pyM (noise_app St) unit :=
  na_apply_noise (fun img lvl => add_salt_and_pepper_noise img lvl).
Definition na_apply_salt : Q -> pyM (noise_app St) unit :=
  na_apply_noise (fun img lvl => add_salt_noise img lvl).
Definition na_apply_pepper : Q -> pyM (noise_app St) unit :=
  na_apply_noise (fun img lvl => add_pepper_noise img lvl).
(** [max(1, lvl * 100)] as the standard deviation *)
Definition na_apply_gaussian : Q -> pyM (noise_app St) unit :=
  na_apply_noise (fun img lvl => add_gaussian_noise img 0 (Qmax 1 (lvl * 100))).
Definition na_apply_uniform : Q -> pyM (noise_app St) unit :=
  na_apply_noise (fun img lvl => add_uniform_noise img (- lvl * 255) (lvl * 255)).

End Handlers.

(** The events of the window: a button with the dialog's answer or the
    slider's value. *)
Inductive noise_event :=
| LoadImage (path : string)
| SaveNoisy (path : string)
| SaltPepper (level : Q)
| Salt (level : Q)
| Pepper (level : Q)
| Gaussian (level : Q)
| Uniform (level : Q).

Definition na_handle {St} `{!RandomSource St} `{!PilRegistry} (ev : noise_event) : pyM (noise_app St) unit :=
  match ev with
  | LoadImage p => na_load_image p
  | SaveNoisy p => na_save_noisy p
  | SaltPepper l => na_apply_salt_and_pepper l
  | Salt l => na_apply_salt l
  | Pepper l => na_apply_pepper l
  | Gaussian l => na_apply_gaussian l
  | Uniform l => na_apply_uniform l
  end.

(** [root.mainloop()]: each event runs its handler; an exception is
    reported and the state it left is kept. *)
Fixpoint na_run {St} `{!RandomSource St} `{!PilRegistry} (evs : list noise_event) (s : noise_app St) : noise_app St :=
  match evs with
  | [] => s
  | ev :: evs' => na_run evs' (na_handle ev s).1
  end.

(** ** Well-formed images and the invariant of the window *)


(** The label shows the count and the percentage of the images held:
    zero when there is no noisy image. *)
Definition info_matches (f g : matrix Z) (info : Z * Q) : Prop :=
  exists h w n, rect h w f /\ rect h w g /\ count_noisy_pixels f g = Ok n /\
    info = (n, (inject_Z n / inject_Z (Z.of_nat h * Z.of_nat w) * 100)%Q).

Definition na_inv {St} (s : noise_app St) : Prop :=
  files_ok (na_files s) /\
  (forall f, na_original s = Some f -> img_ok f) /\
  match na_noisy s with
  | None => na_info s = (0, 0%Q)
  | Some g => img_ok g /\ exists f, na_original s = Some f /\ info_matches f g (na_info s)
  end.




Section Preservation.
Context {St : Type} `{!RandomSource St} `{PilRegistryLaws}.

(** A generator that, on a well-formed 8-bit image, returns an 8-bit
    image of the same shape whatever it draws. *)
Definition gen_ok (noise_fn : matrix Z -> Q -> pyM St (matrix Z)) : Prop :=
  forall h w f level r, rect h w f -> (0 < h)%nat -> (0 < w)%nat -> pixels_in 0 255 f ->
  exists g r', noise_fn f level r = (r', Ok g) /\ rect h w g /\ pixels_in 0 255 g.

Lemma gen_ok_buttons :
  gen_ok (fun img lvl => add_salt_and_pepper_noise img lvl) /\
  gen_ok (fun img lvl => add_salt_noise img lvl) /\
  gen_ok (fun img lvl => add_pepper_noise img lvl) /\
  gen_ok (fun img lvl => add_gaussian_noise img 0 (Qmax 1 (lvl * 100))) /\
  gen_ok (fun img lvl => add_uniform_noise img (- lvl * 255) (lvl * 255)).
Proof.
  split_ands; intros h w f level r Hf Hh Hw Hp;
    destruct (sp_family_inv h w f level r Hf Hh) as (H1 & H2 & H3).
  - destruct H1 as (g & r' & E & Hg). exists g, r'. split_ands; [done|apply Hg|by eapply sp_inv_8bit].
  - destruct H2 as (g & r' & E & Hg). exists g, r'. split_ands; [done|apply Hg|by eapply sp_inv_8bit].
  - destruct H3 as (g & r' & E & Hg). exists g, r'. split_ands; [done|apply Hg|by eapply sp_inv_8bit].
  - apply additive_loop_range; [done..|apply gauss_total].
  - apply additive_loop_range; [done..|apply uniform_total].
Qed.

Lemma show_message_inv (s : noise_app St) text : na_inv s -> na_inv (show_message text s).1.
Proof. done. Qed.

Lemma py_truediv_ok a b : b <> 0 -> py_truediv a b = Ok (inject_Z a / inject_Z b)%Q.
Proof. intros Hb. unfold py_truediv. by destruct (Z.eqb_spec b 0). Qed.

(** What [apply_noise] does with a loaded image: the generator runs on
    the state of [random], the noisy image and the label are set. *)
Lemma na_apply_noise_loaded noise_fn level (s : noise_app St) f h w g r' :
  na_original s = Some f -> rect h w f -> (0 < h)%nat -> (0 < w)%nat ->
  noise_fn f level (na_rng s) = (r', Ok g) -> rect h w g ->
  exists n, count_noisy_pixels f g = Ok n /\
    na_apply_noise noise_fn level s =
    (mkNoiseApp (na_files s) r' (Some f) (Some g)
       (n, (inject_Z n / inject_Z (Z.of_nat h * Z.of_nat w) * 100)%Q) (na_shown s), Ok tt).
Proof.
  intros Ho Hf Hh Hw Hgen Hg. rewrite (count_noisy_spec h w f g) by done. eexists; split; [done|].
  destruct f as [|row0 rest]; [destruct Hf; simpl in *; lia|].
  assert (Ew : length row0 = w) by (by apply (rect_lookup h w (row0 :: rest) 0)).
  assert (Eh : S (length rest) = h) by (by destruct Hf).
  unfold na_apply_noise, get, with_random. unfold mbind at 1. unfold pyM_bind at 1. rewrite Ho.
  unfold mbind, pyM_bind. rewrite Hgen. cbn.
  rewrite (show_image_ok h w g Hg Hh), (count_noisy_spec h w (row0 :: rest) g) by done. cbn.
  rewrite (py_lookup_nat (row0 :: rest) 0 row0 eq_refl : py_lookup (row0 :: rest) 0 = Ok row0). cbn.
  rewrite Ew, Eh, py_truediv_ok by lia. cbn. rewrite Ho. reflexivity.
Qed.

Lemma na_apply_noise_inv noise_fn level (s : noise_app St) :
  gen_ok noise_fn -> na_inv s -> na_inv (na_apply_noise noise_fn level s).1.
Proof.
  intros Hgen (Hfs & Horig & Hn). destruct (na_original s) as [f|] eqn:Ho.
  - destruct (Horig f eq_refl) as (h & w & Hf & Hh & Hw & Hp).
    destruct (Hgen h w f level (na_rng s) Hf Hh Hw Hp) as (g & r' & E & Hg & Hpg).
    destruct (na_apply_noise_loaded noise_fn level s f h w g r' Ho Hf Hh Hw E Hg) as (n & Hc & ->).
    split; [done|]. split; [intros ? [= <-]; by exists h, w|]. simpl. split; [by exists h, w|].
    exists f. split; [done|]. exists h, w, n. done.
  - unfold na_apply_noise, get, mbind, pyM_bind. rewrite Ho. apply show_message_inv. split; [done|]. split; by rewrite Ho.
Qed.

Lemma na_load_image_inv path (s : noise_app St) : na_inv s -> na_inv (na_load_image path s).1.
Proof.
  intros (Hfs & Horig & Hn). unfold na_load_image. case_decide; [by split_ands|].
  unfold get, mbind, pyM_bind. destruct (load_grayscale_image (na_files s) path) as [img|e] eqn:El;
    cbn; [|by split_ands].
  pose proof (load_ok _ _ _ Hfs El) as (h & w & Hi & Hh & Hw & Hp).
  rewrite (show_image_ok h w img Hi Hh). cbn. split; [done|]. split; [|done].
  intros f [= <-]. by exists h, w.
Qed.

Lemma na_save_noisy_inv path (s : noise_app St) : na_inv s -> na_inv (na_save_noisy path s).1.
Proof.
  intros Hinv. pose proof Hinv as (Hfs & Horig & Hn). unfold na_save_noisy, get, mbind, pyM_bind.
  destruct (na_noisy s) as [g|] eqn:Eg; [|by apply show_message_inv].
  destruct Hn as [Hg Hm]. case_decide; [exact Hinv|].
  destruct (save_grayscale_image g path (na_files s)) as [fs'|e] eqn:Es; cbn; [|exact Hinv].
  split; [by eapply save_ok|]. split; [done|]. cbn. rewrite Eg. by split.
Qed.

Lemma na_handle_inv ev (s : noise_app St) : na_inv s -> na_inv (na_handle ev s).1.
Proof.
  destruct gen_ok_buttons as (G1 & G2 & G3 & G4 & G5).
  destruct ev; simpl;
    unfold na_apply_salt_and_pepper, na_apply_salt, na_apply_pepper, na_apply_gaussian, na_apply_uniform;
    first [apply na_load_image_inv | apply na_save_noisy_inv | apply na_apply_noise_inv; assumption].
Qed.
End Preservation.

Lemma count_noisy_same h w f : rect h w f -> (0 < h)%nat -> count_noisy_pixels f f = Ok 0.
Proof.
  intros Hf Hh. rewrite (count_noisy_spec h w f f) by done. f_equal.
  rewrite filter_Forall_not; [done|]. apply Forall_forall. unfold noisy_cell. naive_solver.
Qed.

(** C22: In every state the window reaches from a well-formed one, by any
    sequence of button presses (exceptions included), the files on disk
    and the loaded image are non-empty 8-bit images, and the info label
    shows the number and percentage of pixels where the noisy image
    differs from the loaded one, or zero when there is no noisy image. *)
Theorem na_run_inv {St} `{!RandomSource St} `{PilRegistryLaws} evs (s : noise_app St) :
  na_inv s -> na_inv (na_run evs s).
Proof.
  revert s. induction evs as [|ev evs IH]; intros s Hs; [done|]. apply IH, na_handle_inv, Hs.
Qed.

(** With [random()] in [[0, 1)], the salt and pepper, salt, pepper
    and uniform buttons at level [0] make the noisy image equal to the
    loaded one and show a count of [0] at [0%]. *)
Theorem na_level0_buttons {St} `{!RandomSource St, !RandomLaws St} `{!PilRegistry} (s : noise_app St) f ev :
  na_inv s -> na_original s = Some f ->
  ev = SaltPepper 0 \/ ev = Salt 0 \/ ev = Pepper 0 \/ ev = Uniform 0 ->
  na_noisy (na_handle ev s).1 = Some f /\ (na_info (na_handle ev s).1).1 = 0 /\
  ((na_info (na_handle ev s).1).2 == 0)%Q.
Proof.
  intros (_ & Horig & _) Ho Hev. destruct (Horig f Ho) as (h & w & Hf & Hh & Hw & Hp).
  assert (Hkeep : exists r', (match ev with
    | SaltPepper l => add_salt_and_pepper_noise f l | Salt l => add_salt_noise f l
    | Pepper l => add_pepper_noise f l | Uniform l => add_uniform_noise f (- l * 255) (l * 255)
    | _ => fun r => (r, Ok f) end) (na_rng s) = (r', Ok f)).
  { destruct Hev as [-> | [-> | [-> | ->]]].
    4: apply (uniform_zero_keep h w); [done..|unfold Qeq; reflexivity|unfold Qeq; reflexivity].
    all: apply (noise_loop_keep h w); [done|done|]; intros y x s0 _ _;
      destruct (level0_bodies 0 f y x s0 ltac:(lra)) as (A & B & C); first [exact A | exact B | exact C]. }
  destruct Hkeep as [r' Hr'].
  destruct Hev as [-> | [-> | [-> | ->]]]; simpl;
    unfold na_apply_salt_and_pepper, na_apply_salt, na_apply_pepper, na_apply_uniform;
    lazymatch goal with |- context [na_apply_noise ?fn 0%Q s] =>
      destruct (na_apply_noise_loaded fn 0%Q s f h w f r' Ho Hf Hh Hw ltac:(exact Hr') Hf) as (n & Hn & ->) end;
    rewrite (count_noisy_same h w f Hf Hh) in Hn; injection Hn as <-; simpl; split_ands; try done;
    unfold Qdiv; ring.
Qed.

(** Saving the noisy image and loading the same path back makes it
    the loaded image: the window then holds it with no noisy image and
    a zero count. *)
Theorem na_save_then_load {St} `{!RandomSource St} `{!PilRegistry} (s : noise_app St) g path :
  na_inv s -> na_noisy s = Some g -> path <> ""%string -> pil_lookup (py_ext path) = Writer Ok ->
  na_original (na_run [SaveNoisy path; LoadImage path] s) = Some g /\
  na_noisy (na_run [SaveNoisy path; LoadImage path] s) = None /\
  na_info (na_run [SaveNoisy path; LoadImage path] s) = (0, 0%Q).
Proof.
  intros (Hfs & Horig & Hn) Hg Hp Hpng. rewrite Hg in Hn. destruct Hn as [(h & w & Hgr & Hh & Hw & H8) _].
  simpl. unfold na_save_noisy, get, mbind, pyM_bind. rewrite Hg. case_decide; [done|].
  rewrite (save_grayscale_image_pil h w g path (na_files s) Hgr Hh), mat_map_clamp255_8bit by done.
  unfold pil_save. rewrite Hpng. cbn. rewrite decide_False by lia. cbn. unfold na_load_image. case_decide; [done|].
  unfold get, mbind, pyM_bind. cbn. unfold load_grayscale_image. rewrite lookup_insert_eq. cbn.
  destruct (rect_rows_cols h w g Hgr Hh) as [-> ->]. rewrite grid_pixels by done.
  cbn. by rewrite (show_image_ok h w g Hgr Hh).
Qed.

(** ** Witnesses with the counter generator of [Noise] *)
Module NoiseGuiWitness.
Import NoiseWitness ImageIOWitness.

Definition img : matrix Z := [[0; 128]; [200; 255]].
Definition files0 : files := <["a.png"%string := img]> ∅.
Definition start : noise_app nat := mkNoiseApp files0 0%nat None None (0, 0%Q) [].
Definition loaded : noise_app nat := mkNoiseApp files0 0%nat (Some img) None (0, 0%Q) [].

Lemma img_is_ok : img_ok img.
Proof. exists 2%nat, 2%nat. split; [rect_by_compute|]. split_ands; [lia|lia|repeat constructor; lia]. Qed.

Lemma files0_ok : files_ok files0.
Proof. apply map_Forall_insert_2; [apply img_is_ok|apply map_Forall_empty]. Qed.

Lemma start_inv : na_inv start.
Proof. unfold na_inv. split_ands; [apply files0_ok|done|done]. Qed.

Lemma loaded_inv : na_inv loaded.
Proof. unfold na_inv. split_ands; [apply files0_ok|intros f [= <-]; apply img_is_ok|done]. Qed.

Lemma na_run_inv_witness :
  na_inv (na_run [LoadImage "a.png"; SaltPepper (1 # 2); SaveNoisy "b.png"; Gaussian 0] start).
Proof. apply na_run_inv. exact start_inv. Defined.

Lemma na_level0_buttons_witness :
  na_noisy (na_handle (Uniform 0) loaded).1 = Some img /\ (na_info (na_handle (Uniform 0) loaded).1).1 = 0 /\
  ((na_info (na_handle (Uniform 0) loaded).1).2 == 0)%Q.
Proof. apply (na_level0_buttons loaded img (Uniform 0) loaded_inv eq_refl). by right; right; right. Defined.

Definition sp_state : noise_app nat := (na_handle (SaltPepper (1 # 2)) loaded).1.

Lemma na_save_then_load_witness :
  na_original (na_run [SaveNoisy "b.png"; LoadImage "b.png"] sp_state) = Some [[0; 0]; [0; 0]] /\
  na_noisy (na_run [SaveNoisy "b.png"; LoadImage "b.png"] sp_state) = None /\
  na_info (na_run [SaveNoisy "b.png"; LoadImage "b.png"] sp_state) = (0, 0%Q).
Proof.
  apply (na_save_then_load sp_state [[0; 0]; [0; 0]] "b.png").
  - apply (na_handle_inv (SaltPepper (1 # 2))), loaded_inv.
  - vm_compute. reflexivity.
  - discriminate.
  - reflexivity.
Defined.

(** The Gaussian button at level [0] still draws with standard
    deviation [max(1, 0) = 1]: here it changes two of the four pixels. *)
Lemma gaussian_level0_changes :
  na_info (na_handle (Gaussian 0) loaded).1 = (2, 200 # 4).
Proof. vm_compute. reflexivity. Qed.

End NoiseGuiWitness.
