(* ===== verification/CountingGui.v ===== *)
(** * The three counting GUIs

    [HW2/task2_count_noisy_pixels/gui.py] ([CountNoisyGUI]),
    [HW2/task4_count_fixed_pixels/gui.py] ([FixedPixelsGUI]) and
    [ex2/task5_count_damaged_clean_pixels/gui.py] ([DamagedPixelsGUI])
    load two or three images and show one count of [metrics] with its
    percentage.  Their windows share one state, the record [count_app]
    (disk, the images loaded, the two numbers of the label, the message
    boxes shown); the loaders are one handler [ca_load] per slot; the
    count buttons run the handlers of [Metrics] ([gui_count_noisy],
    [gui_count_fixed], [gui_count_damaged]) and write the label.  Each
    window is its event type and its loop ([tk_run]).

    The theorems: whatever images are loaded, even of different
    shapes, a count that returns lies within its reference count (a
    fixed pixel is a noisy one, a damaged pixel a clean one), so every
    window only ever shows a percentage in [[0, 100]]; and on images of
    one shape each count button refines its contract, the sizes of the
    sets of [Metrics] ([count_spec]). *)

From stdpp Require Import base list numbers strings gmap.
From Stdlib Require Import ZArith QArith Lia Lqa.
From S2P Require Import Prelude Metrics ImageIO GuiCommon.
Local Open Scope Z_scope.

(** ** The windows *)

Record count_app := mkCountApp {
  ca_files : files;
  ca_original : option (matrix Z);
  ca_noisy : option (matrix Z);
  (** [None] in [CountNoisyGUI], which has no third image *)
  ca_denoised : option (matrix Z);
  (** the count and the percentage of [info_label] *)
  ca_info : Z * Q;
  (** the message boxes shown, oldest first *)
  ca_shown : list string;
}.

Definition ca_set_original (o : option (matrix Z)) (s : count_app) : count_app :=
  mkCountApp (ca_files s) o (ca_noisy s) (ca_denoised s) (ca_info s) (ca_shown s).
Definition ca_set_noisy (o : option (matrix Z)) (s : count_app) : count_app :=
  mkCountApp (ca_files s) (ca_original s) o (ca_denoised s) (ca_info s) (ca_shown s).
Definition ca_set_denoised (o : option (matrix Z)) (s : count_app) : count_app :=
  mkCountApp (ca_files s) (ca_original s) (ca_noisy s) o (ca_info s) (ca_shown s).
Definition ca_set_info (i : Z * Q) (s : count_app) : count_app :=
  mkCountApp (ca_files s) (ca_original s) (ca_noisy s) (ca_denoised s) i (ca_shown s).

(** [messagebox.showinfo("Info", text)] *)
Definition ca_show_message (text : string) : pyM count_app unit :=
  modify (fun s => mkCountApp (ca_files s) (ca_original s) (ca_noisy s) (ca_denoised s)
                              (ca_info s) (ca_shown s ++ [text])).

(** [load_original], [load_noisy] and [load_denoised]: the same four
    lines on another attribute ([set]); [path] is the dialog's answer,
    [""] when cancelled. *)
Definition ca_load (set : option (matrix Z) -> count_app -> count_app) (path : string) : pyM count_app unit :=
  if decide (path = ""%string) then mret tt else
  s ← get;
  img ← lift (load_grayscale_image (ca_files s) path);
  modify (set (Some img));;
  lift (show_image img).

(** A count button: the handler of [Metrics] on the images held, then
    the message box of a missing image or the label. *)
Definition ca_count (count : count_app -> outcome report) (need : string) : pyM count_app unit :=
  s ← get;
  r ← lift (count s);
  match r with
  | NeedImages => ca_show_message need
  | Count n p => modify (ca_set_info (n, p))
  end.

(** [CountNoisyGUI.count_noisy], lines 59-66. *)
Definition ca_count_noisy : pyM count_app unit :=
  ca_count (fun s => gui_count_noisy (ca_original s) (ca_noisy s)) "Please load both images first.".

(** [FixedPixelsGUI.count_fixed], lines 72-81. *)
Definition ca_count_fixed : pyM count_app unit :=
  ca_count (fun s => gui_count_fixed (ca_original s) (ca_noisy s) (ca_denoised s)) "Please load all three images.".

(** [DamagedPixelsGUI.count_damaged], lines 72-83. *)
Definition ca_count_damaged : pyM count_app unit :=
  ca_count (fun s => gui_count_damaged (ca_original s) (ca_noisy s) (ca_denoised s)) "Please load all three images.".

(** The buttons of [CountNoisyGUI]. *)
Inductive pair_event :=
| PLoadOriginal (path : string)
| PLoadNoisy (path : string)
| PCount.

(** The buttons of [FixedPixelsGUI] and [DamagedPixelsGUI]. *)
Inductive triple_event :=
| TLoadOriginal (path : string)
| TLoadNoisy (path : string)
| TLoadDenoised (path : string)
| TCount.

Definition noisy_gui_handle (ev : pair_event) : pyM count_app unit :=
  match ev with
  | PLoadOriginal p => ca_load ca_set_original p
  | PLoadNoisy p => ca_load ca_set_noisy p
  | PCount => ca_count_noisy
  end.

(** The two three-image windows differ only in their count. *)
Definition triple_gui_handle (count : pyM count_app unit) (ev : triple_event) : pyM count_app unit :=
  match ev with
  | TLoadOriginal p => ca_load ca_set_original p
  | TLoadNoisy p => ca_load ca_set_noisy p
  | TLoadDenoised p => ca_load ca_set_denoised p
  | TCount => count
  end.

Definition fixed_gui_handle : triple_event -> pyM count_app unit := triple_gui_handle ca_count_fixed.
Definition damaged_gui_handle : triple_event -> pyM count_app unit := triple_gui_handle ca_count_damaged.

(** [root.mainloop()]: each event runs its handler; an exception is
    reported by Tk and the state it left is kept. *)
Fixpoint tk_run {S E} (handle : E -> pyM S unit) (evs : list E) (s : S) : S :=
  match evs with
  | [] => s
  | ev :: evs' => tk_run handle evs' (handle ev s).1
  end.

(** The label shows a count [>= 0] and a percentage in [[0, 100]]. *)
Definition label_ok (s : count_app) : Prop :=
  0 <= (ca_info s).1 /\ (0 <= (ca_info s).2 <= 100)%Q.

(** ** The contract of the count buttons *)

(** The labels for an [h] by [w] original [f], noisy [g] and denoised
    [k]: the sizes of the sets of [Metrics] and their share of the
    image, of the noisy cells, or of the clean cells. *)
Definition noisy_label (h w : nat) (f g : matrix Z) : Z * Q :=
  let n := Z.of_nat (length (filter (noisy_cell f g) (cells h w))) in
  (n, (inject_Z n / inject_Z (Z.of_nat h * Z.of_nat w) * 100)%Q).

Definition fixed_label (h w : nat) (f g k : matrix Z) : Z * Q :=
  let n := Z.of_nat (length (filter (noisy_cell f g) (cells h w))) in
  let fx := Z.of_nat (length (filter (fixed_cell f g k) (cells h w))) in
  (fx, if 0 <? n then (inject_Z fx / inject_Z n * 100)%Q else 0%Q).

Definition damaged_label (h w : nat) (f g k : matrix Z) : Z * Q :=
  let clean := Z.of_nat h * Z.of_nat w - Z.of_nat (length (filter (noisy_cell f g) (cells h w))) in
  let dm := Z.of_nat (length (filter (damaged_cell f g k) (cells h w))) in
  (dm, if 0 <? clean then (inject_Z dm / inject_Z clean * 100)%Q else 0%Q).

(** A count button as its contract: the message box when an image is
    missing ([None]), the label otherwise. *)
Definition count_spec (label : option (Z * Q)) (need : string) (s : count_app) : count_app * outcome unit :=
  match label with
  | None => ((ca_show_message need s).1, Ok tt)
  | Some l => (ca_set_info l s, Ok tt)
  end.

(** The window as [__init__] leaves it: nothing loaded, the label at
    ["0 (0.00%)"]. *)
Definition ca_init (fs : files) : count_app := mkCountApp fs None None None (0, 0%Q) [].

(** ** Counts over any images *)

(** What one cell adds to each count, [Raise] when a read fails. *)
Definition cell_noisy (f g : matrix Z) (c : Z * Z) : outcome Z :=
  gyx ← py_get2 g c.1 c.2; fyx ← py_get2 f c.1 c.2;
  Ok (if bool_decide (gyx <> fyx) then 1 else 0).

Definition cell_fixed (f g k : matrix Z) (c : Z * Z) : outcome Z :=
  gyx ← py_get2 g c.1 c.2; fyx ← py_get2 f c.1 c.2;
  if bool_decide (gyx <> fyx) then
    kyx ← py_get2 k c.1 c.2; Ok (if bool_decide (kyx = fyx) then 1 else 0)
  else Ok 0.

Definition cell_damaged (f g k : matrix Z) (c : Z * Z) : outcome Z :=
  gyx ← py_get2 g c.1 c.2; fyx ← py_get2 f c.1 c.2;
  if bool_decide (gyx = fyx) then
    kyx ← py_get2 k c.1 c.2; Ok (if bool_decide (kyx <> fyx) then 1 else 0)
  else Ok 0.

(** [sum] of a list of numbers. *)
Definition zsum (l : list Z) : Z := foldr Z.add 0 l.

Lemma fold_outcome_sum {A} (body : Z -> A -> outcome Z) (o : A -> outcome Z) acc l r :
  (forall n a, body n a = (x ← o a; Ok (n + x))) ->
  fold_outcome body acc l = Ok r -> exists ds, mapM o l = Ok ds /\ r = acc + zsum ds.
Proof.
  intros Hb. revert acc. induction l as [|a l IH]; intros acc E; simpl in E.
  - injection E as <-. exists []. split; [done|simpl; lia].
  - rewrite Hb in E. destruct (o a) as [x|e] eqn:Eo; [|done]. cbn in E.
    destruct (IH _ E) as (ds & Eds & ->). exists (x :: ds).
    rewrite mapM_cons_outcome, Eo, Eds. split; [done|simpl; lia].
Qed.

(** The three loops of [metrics] as sums of their cells. *)
Lemma count_sums f g k :
  (forall n, count_noisy_pixels f g = Ok n ->
     exists row0 ds, py_lookup f 0 = Ok row0 /\
       mapM (cell_noisy f g) (list_prod (zrange 0 (Z.of_nat (length f))) (zrange 0 (Z.of_nat (length row0)))) = Ok ds /\
       n = zsum ds) /\
  (forall n, count_fixed_noisy_pixels f g k = Ok n ->
     exists row0 ds, py_lookup f 0 = Ok row0 /\
       mapM (cell_fixed f g k) (list_prod (zrange 0 (Z.of_nat (length f))) (zrange 0 (Z.of_nat (length row0)))) = Ok ds /\
       n = zsum ds) /\
  (forall n, count_damaged_clean_pixels f g k = Ok n ->
     exists row0 ds, py_lookup f 0 = Ok row0 /\
       mapM (cell_damaged f g k) (list_prod (zrange 0 (Z.of_nat (length f))) (zrange 0 (Z.of_nat (length row0)))) = Ok ds /\
       n = zsum ds).
Proof.
  unfold count_noisy_pixels, count_fixed_noisy_pixels, count_damaged_clean_pixels, pixel_loop.
  split_ands; intros n E; destruct (py_lookup f 0) as [row0|e]; try done; cbn [mbind outcome_bind] in E;
    eapply fold_outcome_sum in E as (ds & Eds & ->); eauto; intros m [y x];
    unfold cell_noisy, cell_fixed, cell_damaged; simpl;
    destruct (py_get2 g y x), (py_get2 f y x); try done; cbn; repeat case_bool_decide; try done;
    destruct (py_get2 k y x); cbn; repeat case_bool_decide; f_equal; lia.
Qed.

(** Two loops over the same cells whose values satisfy
    [α x1 + β x2 <= γ] at every cell satisfy it in sum. *)
Lemma mapM_zsum_lin {A} (o1 o2 : A -> outcome Z) (α β γ : Z) l d1 d2 :
  mapM o1 l = Ok d1 -> mapM o2 l = Ok d2 ->
  (forall a x1 x2, o1 a = Ok x1 -> o2 a = Ok x2 -> α * x1 + β * x2 <= γ) ->
  α * zsum d1 + β * zsum d2 <= γ * Z.of_nat (length l).
Proof.
  rewrite !mapM_Ok. intros H1 H2 Hc. revert d1 d2 H1 H2.
  induction l as [|a l IH]; intros d1 d2 H1 H2; inversion H1; inversion H2; subst; simpl; [lia|].
  pose proof (Hc a _ _ ltac:(eassumption) ltac:(eassumption)). specialize (IH _ _ ltac:(eassumption) ltac:(eassumption)).
  lia.
Qed.

Lemma cell_bounds f g k c :
  (forall x, cell_noisy f g c = Ok x -> x = 0 \/ x = 1) /\
  (forall x1 x2, cell_fixed f g k c = Ok x1 -> cell_noisy f g c = Ok x2 -> 0 <= x1 <= x2) /\
  (forall x1 x2, cell_damaged f g k c = Ok x1 -> cell_noisy f g c = Ok x2 -> 0 <= x1 /\ x1 + x2 <= 1).
Proof.
  unfold cell_noisy, cell_fixed, cell_damaged.
  destruct (py_get2 g c.1 c.2), (py_get2 f c.1 c.2); cbn; try done;
    split_ands; intros; repeat case_bool_decide; simplify_eq; try lia;
    destruct (py_get2 k c.1 c.2); cbn in *; repeat case_bool_decide; simplify_eq; lia.
Qed.

Lemma length_cells_row0 (f : matrix Z) (row0 : list Z) :
  Z.of_nat (length (list_prod (zrange 0 (Z.of_nat (length f))) (zrange 0 (Z.of_nat (length row0))))) =
  Z.of_nat (length f) * Z.of_nat (length row0).
Proof. rewrite length_prod, !length_zrange. lia. Qed.

(** Whatever the images, a count that returns is within its reference:
    at most the number of cells of [f] for the noisy pixels, at most the
    noisy pixels for the fixed ones, at most the clean pixels for the
    damaged ones. *)
Lemma counts_within f g k n fx dm :
  count_noisy_pixels f g = Ok n ->
  0 <= n <= Z.of_nat (length f) * Z.of_nat (cols f) /\
  (count_fixed_noisy_pixels f g k = Ok fx -> 0 <= fx <= n) /\
  (count_damaged_clean_pixels f g k = Ok dm -> 0 <= dm <= Z.of_nat (length f) * Z.of_nat (cols f) - n).
Proof.
  intros En. destruct (count_sums f g k) as (Sn & Sf & Sd).
  destruct (Sn n En) as (row0 & dn & E0 & Edn & ->).
  assert (Ec : cols f = length row0).
  { destruct f; [done|]. unfold py_lookup in E0. simpl in E0. by injection E0 as ->. }
  rewrite Ec, <- length_cells_row0.
  pose proof (mapM_zsum_lin _ _ 1 0 1 _ _ _ Edn Edn ltac:(intros c x1 x2 Ha _; destruct (proj1 (cell_bounds f g k c) x1 Ha); lia)).
  pose proof (mapM_zsum_lin _ _ (-1) 0 0 _ _ _ Edn Edn ltac:(intros c x1 x2 Ha _; destruct (proj1 (cell_bounds f g k c) x1 Ha); lia)).
  split_ands; [lia|lia| |].
  - intros Efx. destruct (Sf fx Efx) as (row0' & df & E0' & Edf & ->). rewrite E0 in E0'. injection E0' as <-.
    pose proof (mapM_zsum_lin _ _ 1 (-1) 0 _ _ _ Edf Edn ltac:(intros c x1 x2 Ha Hb; pose proof (proj1 (proj2 (cell_bounds f g k c)) x1 x2 Ha Hb); lia)).
    pose proof (mapM_zsum_lin _ _ (-1) 0 0 _ _ _ Edf Edn ltac:(intros c x1 x2 Ha Hb; pose proof (proj1 (proj2 (cell_bounds f g k c)) x1 x2 Ha Hb); lia)).
    lia.
  - intros Edm. destruct (Sd dm Edm) as (row0' & dd & E0' & Edd & ->). rewrite E0 in E0'. injection E0' as <-.
    pose proof (mapM_zsum_lin _ _ 1 1 1 _ _ _ Edd Edn ltac:(intros c x1 x2 Ha Hb; pose proof (proj2 (proj2 (cell_bounds f g k c)) x1 x2 Ha Hb); lia)).
    pose proof (mapM_zsum_lin _ _ (-1) 0 0 _ _ _ Edd Edn ltac:(intros c x1 x2 Ha Hb; pose proof (proj2 (proj2 (cell_bounds f g k c)) x1 x2 Ha Hb); lia)).
    lia.
Qed.

Lemma truediv_Ok_percent a b q : 0 <= a <= b -> py_truediv a b = Ok q -> (0 <= q * 100 <= 100)%Q.
Proof.
  intros Hab E. assert (b <> 0) by (intros ->; done).
  destruct (truediv_percent a b) as (q' & E' & Hq); [lia|lia|]. rewrite E in E'. by injection E' as ->.
Qed.

Lemma cols_py_lookup (f : matrix Z) row0 : py_lookup f 0 = Ok row0 -> cols f = length row0.
Proof. destruct f; [done|]. unfold py_lookup. simpl. by intros [= ->]. Qed.

Definition report_ok (r : report) : Prop :=
  match r with NeedImages => True | Count n p => 0 <= n /\ (0 <= p <= 100)%Q end.

(** The three count handlers, whatever images are held. *)
Lemma gui_counts_bounded o g k r :
  (gui_count_noisy o g = Ok r -> report_ok r) /\
  (gui_count_fixed o g k = Ok r -> report_ok r) /\
  (gui_count_damaged o g k = Ok r -> report_ok r).
Proof.
  unfold gui_count_noisy, gui_count_fixed, gui_count_damaged.
  destruct o as [f|]; [|destruct g, k; split_ands; by intros [= <-]].
  destruct g as [g|]; [|destruct k; split_ands; by intros [= <-]].
  split_ands.
  - cbn. destruct (count_noisy_pixels f g) as [n|] eqn:En; cbn; [|done].
    destruct (py_lookup f 0) as [row0|] eqn:E0; cbn; [|done].
    destruct (py_truediv n _) as [q|] eqn:Eq; cbn; [|done]. intros [= <-].
    destruct (counts_within f g [] n 0 0 En) as [Hn _]. rewrite (cols_py_lookup f row0 E0) in Hn.
    split; [lia|]. by apply (truediv_Ok_percent n (Z.of_nat (length f) * Z.of_nat (length row0))).
  - destruct k as [k|]; [|by intros [= <-]]. cbn.
    destruct (count_fixed_noisy_pixels f g k) as [fx|] eqn:Efx; cbn; [|done].
    destruct (count_noisy_pixels f g) as [n|] eqn:En; cbn; [|done].
    destruct (counts_within f g k n fx 0 En) as (Hn & Hfx & _). specialize (Hfx Efx).
    destruct (Z.ltb_spec 0 n).
    + destruct (py_truediv fx n) as [q|] eqn:Eq; cbn; [|done]. intros [= <-].
      split; [lia|]. by apply (truediv_Ok_percent fx n).
    + intros [= <-]. split; [lia|lra].
  - destruct k as [k|]; [|by intros [= <-]]. cbn.
    destruct (count_damaged_clean_pixels f g k) as [dm|] eqn:Edm; cbn; [|done].
    destruct (py_lookup f 0) as [row0|] eqn:E0; cbn; [|done].
    destruct (count_noisy_pixels f g) as [n|] eqn:En; cbn; [|done].
    destruct (counts_within f g k n 0 dm En) as (Hn & _ & Hdm). specialize (Hdm Edm).
    rewrite (cols_py_lookup f row0 E0) in Hdm.
    destruct (Z.ltb_spec 0 (Z.of_nat (length f) * Z.of_nat (length row0) - n)).
    + destruct (py_truediv dm _) as [q|] eqn:Eq; cbn; [|done]. intros [= <-].
      split; [lia|]. by apply (truediv_Ok_percent dm (Z.of_nat (length f) * Z.of_nat (length row0) - n)).
    + intros [= <-]. split; [lia|lra].
Qed.

(** ** Every window keeps its label within bounds *)

Lemma tk_run_inv {S E} (handle : E -> pyM S unit) (P : S -> Prop) evs s :
  (forall ev s, P s -> P (handle ev s).1) -> P s -> P (tk_run handle evs s).
Proof. intros Hh. revert s. induction evs as [|ev evs IH]; intros s Hs; [done|]. apply IH, Hh, Hs. Qed.

Lemma ca_load_label set path s :
  (forall o s, ca_info (set o s) = ca_info s) -> label_ok s -> label_ok (ca_load set path s).1.
Proof.
  intros Hset Hs. unfold ca_load. case_decide; [done|]. unfold get, mbind, pyM_bind.
  destruct (load_grayscale_image (ca_files s) path) as [img|]; cbn; [|done].
  unfold label_ok. destruct (show_image img); cbn; by rewrite Hset.
Qed.

Lemma ca_count_label count need s :
  (forall r, count s = Ok r -> report_ok r) -> label_ok s -> label_ok (ca_count count need s).1.
Proof.
  intros Hc Hs. unfold ca_count, get, mbind, pyM_bind.
  destruct (count s) as [[|n p]|e] eqn:E; cbn; [done| |done]. exact (Hc _ eq_refl).
Qed.

Lemma windows_step_label s :
  label_ok s ->
  (forall ev, label_ok (noisy_gui_handle ev s).1) /\
  (forall ev, label_ok (fixed_gui_handle ev s).1) /\
  (forall ev, label_ok (damaged_gui_handle ev s).1).
Proof.
  intros Hs. split_ands; intros []; simpl;
    try (apply ca_load_label; [done|exact Hs]); apply ca_count_label; try exact Hs;
    intros r Er; destruct (gui_counts_bounded (ca_original s) (ca_noisy s) (ca_denoised s) r) as (A & B & C);
    first [exact (A Er) | exact (B Er) | exact (C Er)].
Qed.

(** C31: Whatever the user loads, images of any shapes included, each of
    the three counting windows only ever shows a count [>= 0] and a
    percentage in [[0, 100]]: a count that returns is within its
    reference, and a count that raises leaves the label as it was. *)
Theorem count_windows_bounded s (pevs : list pair_event) (tevs : list triple_event) :
  label_ok s ->
  label_ok (tk_run noisy_gui_handle pevs s) /\ label_ok (tk_run fixed_gui_handle tevs s) /\
  label_ok (tk_run damaged_gui_handle tevs s).
Proof.
  intros Hs. split_ands; apply tk_run_inv; try exact Hs; intros ev s' Hs'; by apply windows_step_label.
Qed.

(** ** The count buttons against their contract *)

Lemma py_truediv_ne a b : b <> 0 -> py_truediv a b = Ok (inject_Z a / inject_Z b)%Q.
Proof. intros Hb. unfold py_truediv. by destruct (Z.eqb_spec b 0). Qed.

Lemma ca_count_run count need s r :
  count s = Ok r ->
  ca_count count need s = match r with NeedImages => ca_show_message need s | Count n p => (ca_set_info (n, p) s, Ok tt) end.
Proof. intros E. unfold ca_count, get, mbind, pyM_bind. rewrite E. by destruct r. Qed.

(** C32: On images of one non-empty shape, each count button does what
    [count_spec] says: the message box when an image is missing,
    otherwise a label with the number of noisy, fixed or damaged cells
    and its share of the image, of the noisy cells or of the clean cells
    (0% when there are none). *)
Theorem count_buttons_refine h w s :
  (forall m, ca_original s = Some m \/ ca_noisy s = Some m \/ ca_denoised s = Some m -> rect h w m) ->
  (0 < h)%nat -> (0 < w)%nat ->
  ca_count_noisy s =
    count_spec (match ca_original s, ca_noisy s with
                | Some f, Some g => Some (noisy_label h w f g) | _, _ => None end)
               "Please load both images first." s /\
  ca_count_fixed s =
    count_spec (match ca_original s, ca_noisy s, ca_denoised s with
                | Some f, Some g, Some k => Some (fixed_label h w f g k) | _, _, _ => None end)
               "Please load all three images." s /\
  ca_count_damaged s =
    count_spec (match ca_original s, ca_noisy s, ca_denoised s with
                | Some f, Some g, Some k => Some (damaged_label h w f g k) | _, _, _ => None end)
               "Please load all three images." s.
Proof.
  intros Hr Hh Hw. unfold ca_count_noisy, ca_count_fixed, ca_count_damaged.
  destruct (ca_original s) as [f|] eqn:Ef; [|split_ands; by rewrite (ca_count_run _ _ _ NeedImages) by (cbn; by rewrite Ef)].
  destruct (ca_noisy s) as [g|] eqn:Eg; [|split_ands; by rewrite (ca_count_run _ _ _ NeedImages) by (cbn; by rewrite Ef, Eg)].
  assert (Hf : rect h w f) by auto. assert (Hg : rect h w g) by auto.
  destruct (rect_rows_cols h w f Hf Hh) as [Rf Cf].
  assert (E0 : py_lookup f 0 = Ok (match f with [] => [] | r :: _ => r end)).
  { destruct f; [simpl in Rf; lia|]. by apply (py_lookup_nat _ 0). }
  assert (Hlen : length (match f with [] => [] | r :: _ => r end) = w) by (rewrite <- Cf; by destruct f).
  split.
  - rewrite (ca_count_run _ _ _ (Count (Z.of_nat (length (filter (noisy_cell f g) (cells h w))))
      (inject_Z (Z.of_nat (length (filter (noisy_cell f g) (cells h w)))) / inject_Z (Z.of_nat h * Z.of_nat w) * 100)%Q)).
    + done.
    + cbn. rewrite Ef, Eg. cbn. rewrite (count_noisy_spec h w f g), E0 by done. cbn.
      rewrite Hlen. unfold rows in Rf. rewrite Rf, py_truediv_ne by lia. done.
  - destruct (ca_denoised s) as [k|] eqn:Ek; [|split; by rewrite (ca_count_run _ _ _ NeedImages) by (cbn; by rewrite Ef, Eg, Ek)].
    assert (Hk : rect h w k) by auto.
    split.
    + rewrite (ca_count_run _ _ _ (Count (fixed_label h w f g k).1 (fixed_label h w f g k).2));
        [by destruct (fixed_label h w f g k)|]. cbn. rewrite Ef, Eg, Ek. cbn.
      rewrite (count_fixed_spec h w f g k), (count_noisy_spec h w f g) by done. cbn.
      destruct (Z.ltb_spec 0 (Z.of_nat (length (filter (noisy_cell f g) (cells h w))))); [|done].
      rewrite py_truediv_ne by lia. done.
    + rewrite (ca_count_run _ _ _ (Count (damaged_label h w f g k).1 (damaged_label h w f g k).2));
        [by destruct (damaged_label h w f g k)|]. cbn. rewrite Ef, Eg, Ek. cbn.
      rewrite (count_damaged_spec h w f g k), E0, (count_noisy_spec h w f g) by done. cbn.
      rewrite Hlen. unfold rows in Rf. rewrite Rf.
      destruct (Z.ltb_spec 0 (Z.of_nat h * Z.of_nat w - Z.of_nat (length (filter (noisy_cell f g) (cells h w))))); [|done].
      rewrite py_truediv_ne by lia. done.
Qed.

Module CountingWitness.

Definition orig : matrix Z := [[10; 20]; [30; 40]].
Definition noisy : matrix Z := [[0; 20]; [255; 40]].
Definition denoised : matrix Z := [[10; 20]; [255; 41]].
Definition small : matrix Z := [[10]].
Definition disk : files :=
  <["o.png"%string := orig]> (<["n.png"%string := noisy]> (<["d.png"%string := denoised]> (<["s.png"%string := small]> ∅))).
Definition held : count_app := mkCountApp disk (Some orig) (Some noisy) (Some denoised) (0, 0%Q) [].

Lemma init_label_ok : label_ok (ca_init disk).
Proof. unfold label_ok. simpl. split; [lia|split; discriminate]. Qed.

(** Mismatched shapes: the noisy image is smaller than the original. *)
Lemma count_windows_bounded_witness :
  label_ok (ca_init disk) /\
  label_ok (tk_run noisy_gui_handle [PLoadOriginal "o.png"; PLoadNoisy "s.png"; PCount; PLoadNoisy "n.png"; PCount]
              (ca_init disk)) /\
  label_ok (tk_run fixed_gui_handle [TLoadOriginal "o.png"; TLoadNoisy "n.png"; TLoadDenoised "d.png"; TCount]
              (ca_init disk)) /\
  label_ok (tk_run damaged_gui_handle [TLoadOriginal "o.png"; TLoadNoisy "n.png"; TLoadDenoised "d.png"; TCount]
              (ca_init disk)).
Proof.
  split; [exact init_label_ok|]. exact (count_windows_bounded (ca_init disk) _ _ init_label_ok).
Defined.

Lemma count_buttons_refine_witness :
  (forall m, ca_original held = Some m \/ ca_noisy held = Some m \/ ca_denoised held = Some m -> rect 2 2 m) /\
  ca_count_noisy held = count_spec (Some (noisy_label 2 2 orig noisy)) "Please load both images first." held /\
  ca_count_fixed held = count_spec (Some (fixed_label 2 2 orig noisy denoised)) "Please load all three images." held /\
  ca_count_damaged held = count_spec (Some (damaged_label 2 2 orig noisy denoised)) "Please load all three images." held.
Proof.
  assert (H : forall m, ca_original held = Some m \/ ca_noisy held = Some m \/ ca_denoised held = Some m -> rect 2 2 m)
    by (intros m [[= <-] | [[= <-] | [= <-]]]; rect_by_compute).
  split; [exact H|]. exact (count_buttons_refine 2 2 held H ltac:(lia) ltac:(lia)).
Defined.

(** The labels the contract gives here: two noisy pixels of four (50%),
    one of them fixed (50%), one damaged clean pixel of two (50%). *)
Lemma labels_here :
  (noisy_label 2 2 orig noisy).1 = 2 /\ ((noisy_label 2 2 orig noisy).2 == 50)%Q /\
  (fixed_label 2 2 orig noisy denoised).1 = 1 /\ ((fixed_label 2 2 orig noisy denoised).2 == 50)%Q /\
  (damaged_label 2 2 orig noisy denoised).1 = 1 /\ ((damaged_label 2 2 orig noisy denoised).2 == 50)%Q.
Proof. vm_compute. split_ands; reflexivity. Qed.

End CountingWitness.
