(* ===== verification/DenoiseGui.v ===== *)
(** * The denoise GUI of [project/task3_denoise/gui.py]

    [DenoiseGUI] holds the original, the noisy and the filtered image
    and a label ["Fixed noisy: {fixed}, Damaged clean: {damaged}"].
    Two buttons load the original and the noisy image; [Apply Filter]
    runs the filter chosen in the menu on the noisy image with the
    window of the scale, the trim typed in one entry ([int()], [1] when
    it is not an integer) and the [Q] typed in another ([float()], [1.0]
    when it is not a number), draws the result and recounts the label.

    The state is the record [denoise_app]; the handlers are [pyM]
    programs, and [dn_run] is Tk's loop, which reports an exception and
    keeps the state the handler left.  The [Q] entry is given as what
    [float()] returned, restricted to integral values as in
    [Filters.contra_harmonic_filter]; [Raise ValueError] is an entry
    that is not a number.

    The theorems: [Apply Filter] refines its contract [denoise_spec]
    (the chosen filter applied to the noisy image, and a label that
    gives the sizes of the sets of fixed and damaged cells); a negative
    trim raises and leaves the window as it was; loading two images
    and applying the median filter always reaches a label with the
    metrics of the images loaded; and loading a new image leaves the
    label describing the old one. *)

From stdpp Require Import base list numbers strings gmap.
From Stdlib Require Import ZArith Ascii Lia.
From S2P Require Import Prelude Filters Metrics ImageIO GuiCommon Offsets.
Local Open Scope Z_scope.

Record denoise_app := mkDenoiseApp {
  dn_files : files;
  dn_original : option (matrix Z);
  dn_noisy : option (matrix Z);
  dn_filtered : option (matrix Z);
  (** the two numbers of [info_label] *)
  dn_info : Z * Z;
  (** the message boxes shown, oldest first *)
  dn_shown : list string;
}.

Definition dn_set_original (o : option (matrix Z)) (s : denoise_app) : denoise_app :=
  mkDenoiseApp (dn_files s) o (dn_noisy s) (dn_filtered s) (dn_info s) (dn_shown s).
Definition dn_set_noisy (o : option (matrix Z)) (s : denoise_app) : denoise_app :=
  mkDenoiseApp (dn_files s) (dn_original s) o (dn_filtered s) (dn_info s) (dn_shown s).
Definition dn_set_filtered (o : option (matrix Z)) (s : denoise_app) : denoise_app :=
  mkDenoiseApp (dn_files s) (dn_original s) (dn_noisy s) o (dn_info s) (dn_shown s).
Definition dn_set_info (i : Z * Z) (s : denoise_app) : denoise_app :=
  mkDenoiseApp (dn_files s) (dn_original s) (dn_noisy s) (dn_filtered s) i (dn_shown s).

(** [messagebox.showinfo("Info", text)] *)
Definition dn_show_message (text : string) : pyM denoise_app unit :=
  modify (fun s => mkDenoiseApp (dn_files s) (dn_original s) (dn_noisy s) (dn_filtered s)
                                (dn_info s) (dn_shown s ++ [text])).

(** [try: v = read() except ValueError: v = default] *)
Definition except_ValueError {S A} (o : outcome A) (default : A) : pyM S A :=
  match o with
  | Ok a => mret a
  | Raise ValueError => mret default
  | Raise e => throw e
  end.

(** [load_original], lines 77-82; [path] is the dialog's answer, [""]
    when cancelled. *)
Definition dn_load_original (path : string) : pyM denoise_app unit :=
  if decide (path = ""%string) then mret tt else
  s ← get;
  img ← lift (load_grayscale_image (dn_files s) path);
  modify (dn_set_original (Some img));;
  lift (show_image img).

(** [load_noisy], lines 84-89. *)
Definition dn_load_noisy (path : string) : pyM denoise_app unit :=
  if decide (path = ""%string) then mret tt else
  s ← get;
  img ← lift (load_grayscale_image (dn_files s) path);
  modify (dn_set_noisy (Some img));;
  lift (show_image img).

(** [update_metrics], lines 121-127: [fixed] is counted first. *)
Definition dn_update_metrics : pyM denoise_app unit :=
  s ← get;
  match dn_original s, dn_noisy s, dn_filtered s with
  | Some f, Some g, Some k =>
      fixed ← lift (count_fixed_noisy_pixels f g k);
      damaged ← lift (count_damaged_clean_pixels f g k);
      modify (dn_set_info (fixed, damaged))
  | _, _, _ => modify (dn_set_info (0, 0))
  end.

(** [float(self.q_entry.get())]: the number typed, [ValueError] when
    the entry is not one. *)
Definition float_entry (q : option Z) : outcome Z :=
  match q with Some v => Ok v | None => Raise ValueError end.

(** The [if]/[elif] chain of [apply_filter], lines 98-116: the filtered
    image of the chosen filter, or [None] after the message of an
    unknown name ([return]). *)
Definition run_filter (g : matrix Z) (window : Z) (filter_name : string)
    (trim_text : list ascii) (q_read : option Z) : pyM denoise_app (option (matrix Z)) :=
  if decide (filter_name = "Median"%string) then
    k ← lift (median_filter g window); mret (Some k)
  else if decide (filter_name = "Mean"%string) then
    k ← lift (mean_filter g window); mret (Some k)
  else if decide (filter_name = "Trimmed-Alpha"%string) then
    trim_amount ← except_ValueError (int_of_str trim_text) 1;
    k ← lift (trimmed_alpha_filter g window trim_amount); mret (Some k)
  else if decide (filter_name = "Contra-Harmonic"%string) then
    q_value ← except_ValueError (float_entry q_read) 1;
    k ← lift (contra_harmonic_filter g window q_value); mret (Some k)
  else
    dn_show_message "Unknown filter selected.";; mret None.

(** [apply_filter], lines 91-119, with [window = int(scale.get())]. *)
Definition dn_apply_filter (window : Z) (filter_name : string)
    (trim_text : list ascii) (q_read : option Z) : pyM denoise_app unit :=
  s ← get;
  match dn_noisy s with
  | None => dn_show_message "Please load a noisy image first."
  | Some g =>
      r ← run_filter g window filter_name trim_text q_read;
      match r with
      | None => mret tt
      | Some k =>
          modify (dn_set_filtered (Some k));;
          lift (show_image k);;
          dn_update_metrics
      end
  end.

(** The events of the window. *)
Inductive denoise_event :=
| LoadOriginal (path : string)
| LoadNoisy (path : string)
| ApplyFilter (window : Z) (filter_name : string) (trim_text : list ascii) (q_read : option Z).

Definition dn_handle (ev : denoise_event) : pyM denoise_app unit :=
  match ev with
  | LoadOriginal p => dn_load_original p
  | LoadNoisy p => dn_load_noisy p
  | ApplyFilter w n t q => dn_apply_filter w n t q
  end.

(** [root.mainloop()] *)
Fixpoint dn_run (evs : list denoise_event) (s : denoise_app) : denoise_app :=
  match evs with
  | [] => s
  | ev :: evs' => dn_run evs' (dn_handle ev s).1
  end.

(** ** The contract of [Apply Filter] *)

(** The parameter the menu's filter reads: the trim, [1] when the
    entry is not an integer; [Q], [1] when it is not a number. *)
Definition trim_of_text (t : list ascii) : Z :=
  match int_of_str t with Ok n => n | Raise _ => 1 end.
Definition q_of_read (q : option Z) : Z := default 1 q.

(** The filter the menu names, as a function of the noisy image. *)
Definition chosen_filter (filter_name : string) (window trim q : Z) : option (matrix Z -> outcome (matrix Z)) :=
  if decide (filter_name = "Median"%string) then Some (fun g => median_filter g window)
  else if decide (filter_name = "Mean"%string) then Some (fun g => mean_filter g window)
  else if decide (filter_name = "Trimmed-Alpha"%string) then Some (fun g => trimmed_alpha_filter g window trim)
  else if decide (filter_name = "Contra-Harmonic"%string) then Some (fun g => contra_harmonic_filter g window q)
  else None.

(** The label the contract promises for an [h] by [w] original [f],
    noisy [g] and filtered [k]: the number of fixed and of damaged
    cells. *)
Definition metrics_label (h w : nat) (f g k : matrix Z) : Z * Z :=
  (Z.of_nat (length (filter (fixed_cell f g k) (cells h w))),
   Z.of_nat (length (filter (damaged_cell f g k) (cells h w)))).

(** The contract: with no noisy image, or an unknown filter name, a
    message; a filter that raises leaves the window as it was;
    otherwise the filtered image is stored and the label gives the
    metrics of the three images, zero without an original. *)
Definition denoise_spec (h w : nat) (window : Z) (filter_name : string) (trim_text : list ascii)
    (q_read : option Z) (s : denoise_app) : denoise_app * outcome unit :=
  match dn_noisy s with
  | None => ((dn_show_message "Please load a noisy image first." s).1, Ok tt)
  | Some g =>
      match chosen_filter filter_name window (trim_of_text trim_text) (q_of_read q_read) with
      | None => ((dn_show_message "Unknown filter selected." s).1, Ok tt)
      | Some filt =>
          match filt g with
          | Raise e => (s, Raise e)
          | Ok k =>
              (dn_set_info (match dn_original s with Some f => metrics_label h w f g k | None => (0, 0) end)
                        (dn_set_filtered (Some k) s), Ok tt)
          end
      end
  end.

(** ** The handlers against the contract *)

Lemma int_of_str_raise t e : int_of_str t = Raise e -> e = ValueError.
Proof. unfold int_of_str. by case_match; intros [= <-]. Qed.

Lemma except_trim {S} t (s : S) : except_ValueError (int_of_str t) 1 s = (s, Ok (trim_of_text t)).
Proof.
  unfold trim_of_text. destruct (int_of_str t) as [n|e] eqn:E; [done|].
  by rewrite (int_of_str_raise t e E).
Qed.

Lemma except_q {S} q (s : S) : except_ValueError (float_entry q) 1 s = (s, Ok (q_of_read q)).
Proof. by destruct q. Qed.

Lemma lift_run {S A} (o : outcome A) (s : S) : lift o s = (s, o).
Proof. by destruct o. Qed.

(** The [if]/[elif] chain runs the filter the menu names. *)
Lemma run_filter_chosen g window name t q s :
  run_filter g window name t q s =
  match chosen_filter name window (trim_of_text t) (q_of_read q) with
  | None => ((dn_show_message "Unknown filter selected." s).1, Ok None)
  | Some filt => (s, match filt g with Ok k => Ok (Some k) | Raise e => Raise e end)
  end.
Proof.
  unfold run_filter, chosen_filter.
  repeat case_decide; try done;
    unfold mbind, pyM_bind; rewrite ?except_trim, ?except_q, lift_run; by case_match.
Qed.

Lemma chosen_filter_rect h w name window trim q filt g k :
  chosen_filter name window trim q = Some filt -> rect h w g -> (0 < h)%nat -> filt g = Ok k -> rect h w k.
Proof.
  unfold chosen_filter. intros Hc Hg Hh Hk.
  repeat case_decide; simplify_eq; eapply (filters_rect h w g window trim q); eauto 6.
Qed.

(** [update_metrics] on images of one shape fills the label with the
    contract's metrics. *)
Lemma dn_update_metrics_spec h w s g k :
  dn_noisy s = Some g -> dn_filtered s = Some k -> rect h w g -> rect h w k -> (0 < h)%nat ->
  (forall f, dn_original s = Some f -> rect h w f) ->
  dn_update_metrics s =
  (dn_set_info (match dn_original s with Some f => metrics_label h w f g k | None => (0, 0) end) s, Ok tt).
Proof.
  intros Hn Hf Hg Hk Hh Ho. unfold dn_update_metrics, get, mbind, pyM_bind. rewrite Hn, Hf.
  destruct (dn_original s) as [f|] eqn:Ef; [|done].
  rewrite !lift_run, (count_fixed_spec h w f g k), (count_damaged_spec h w f g k) by auto. done.
Qed.

(** The two load buttons on a file of a well-formed disk. *)
Lemma dn_load_ok path s m : path <> ""%string -> files_ok (dn_files s) -> dn_files s !! path = Some m ->
  dn_load_original path s = (dn_set_original (Some m) s, Ok tt) /\
  dn_load_noisy path s = (dn_set_noisy (Some m) s, Ok tt).
Proof.
  intros Hp Hfs E. destruct (load_file_ok _ _ _ Hfs E) as [El (h & w & Hm & Hh & _)].
  unfold dn_load_original, dn_load_noisy. case_decide; [done|].
  unfold get, mbind, pyM_bind. rewrite !lift_run, El. cbn. by rewrite !lift_run, (show_image_ok h w m Hm Hh).
Qed.

(** [Apply Filter] with a filter that returns, on images of one shape. *)
Lemma dn_apply_filter_ok h w window name t q s g filt k :
  dn_noisy s = Some g -> rect h w g -> (0 < h)%nat -> (forall f, dn_original s = Some f -> rect h w f) ->
  chosen_filter name window (trim_of_text t) (q_of_read q) = Some filt -> filt g = Ok k ->
  dn_apply_filter window name t q s =
  (dn_set_info (match dn_original s with Some f => metrics_label h w f g k | None => (0, 0) end)
            (dn_set_filtered (Some k) s), Ok tt).
Proof.
  intros Eg Hg Hh Ho Ec Ek. pose proof (chosen_filter_rect h w _ _ _ _ _ _ _ Ec Hg Hh Ek) as Hk.
  unfold dn_apply_filter, get. unfold mbind at 1, pyM_bind at 1. rewrite Eg.
  unfold mbind at 1, pyM_bind at 1. rewrite run_filter_chosen, Ec, Ek.
  unfold mbind, pyM_bind, modify. rewrite lift_run, (show_image_ok h w k Hk Hh).
  by rewrite (dn_update_metrics_spec h w _ g k).
Qed.

(** C19: [Apply Filter] refines its contract: when the images held have
    one non-empty shape, the handler does what [denoise_spec] says, on
    every branch (no noisy image, unknown filter name, a filter that
    raises, a filter that returns). *)
Theorem dn_apply_filter_refines h w window name t q s :
  (forall g, dn_noisy s = Some g -> rect h w g /\ (0 < h)%nat) ->
  (forall f, dn_original s = Some f -> rect h w f) ->
  dn_apply_filter window name t q s = denoise_spec h w window name t q s.
Proof.
  intros Hn Ho. unfold denoise_spec. destruct (dn_noisy s) as [g|] eqn:Eg.
  2: { unfold dn_apply_filter, get, mbind, pyM_bind. by rewrite Eg. }
  destruct (Hn g eq_refl) as [Hg Hh].
  destruct (chosen_filter _ _ _ _) as [filt|] eqn:Ec; [destruct (filt g) as [k|e] eqn:Ek|].
  - by apply (dn_apply_filter_ok h w _ _ _ _ _ g filt).
  - unfold dn_apply_filter, get, mbind, pyM_bind. rewrite Eg, run_filter_chosen, Ec. by rewrite Ek.
  - unfold dn_apply_filter, get, mbind, pyM_bind. by rewrite Eg, run_filter_chosen, Ec.
Qed.

(** C21: A negative trim typed in the entry makes [Apply Filter] with the
    trimmed-alpha filter raise [IndexError] on any non-empty noisy
    image, leaving the filtered image and the label as they were. *)
Theorem dn_negative_trim_error h w window t trim g q s :
  dn_noisy s = Some g -> rect h w g -> (0 < h)%nat -> (0 < w)%nat -> 0 <= window ->
  int_of_str t = Ok trim -> trim < 0 ->
  dn_apply_filter window "Trimmed-Alpha" t q s = (s, Raise IndexError).
Proof.
  intros Eg Hg Hh Hw Hwin Et Ht. unfold dn_apply_filter, get, mbind at 1, pyM_bind at 1. rewrite Eg.
  unfold mbind at 1, pyM_bind at 1. rewrite run_filter_chosen. unfold chosen_filter, trim_of_text.
  rewrite Et. repeat case_decide; try done.
  by rewrite (trimmed_alpha_negative_trim h w g window trim).
Qed.

(** C20: From any window on a well-formed disk, loading an original and a
    noisy image of the same shape and applying the median filter with a
    window size [>= 0] reaches a state that holds the three images and
    whose label shows the number of fixed and of damaged pixels. *)
Theorem dn_load_apply_reaches_metrics s p1 p2 f g window t q :
  files_ok (dn_files s) -> dn_files s !! p1 = Some f -> dn_files s !! p2 = Some g ->
  p1 <> ""%string -> p2 <> ""%string -> rows f = rows g -> cols f = cols g -> 0 <= window ->
  exists k, median_filter g window = Ok k /\
    dn_original (dn_run [LoadOriginal p1; LoadNoisy p2; ApplyFilter window "Median" t q] s) = Some f /\
    dn_noisy (dn_run [LoadOriginal p1; LoadNoisy p2; ApplyFilter window "Median" t q] s) = Some g /\
    dn_filtered (dn_run [LoadOriginal p1; LoadNoisy p2; ApplyFilter window "Median" t q] s) = Some k /\
    dn_info (dn_run [LoadOriginal p1; LoadNoisy p2; ApplyFilter window "Median" t q] s) =
      metrics_label (rows g) (cols g) f g k.
Proof.
  intros Hfs E1 E2 Hp1 Hp2 Hr Hc Hwin.
  destruct (Hfs p2 g E2) as (h & w & Hg & Hh & Hw & Hpg).
  destruct (Hfs p1 f E1) as (h' & w' & Hf & Hh' & _).
  destruct (rect_rows_cols h w g Hg Hh) as [Rg Cg]. destruct (rect_rows_cols h' w' f Hf Hh') as [Rf Cf].
  assert (h' = h /\ w' = w) as [-> ->] by lia.
  destruct (map_pixels_ok h w g (median_at g (window / 2)) (fun _ _ _ => True) Hg Hh) as (k & Ek & _ & _).
  { intros y x _ _. destruct (median_at_in h w g window 0 255 y x) as (v & Hv & _); eauto. }
  exists k. fold (median_filter g window) in Ek. split; [done|].
  simpl. rewrite (proj1 (dn_load_ok p1 s f Hp1 Hfs E1)). simpl.
  rewrite (proj2 (dn_load_ok p2 (dn_set_original (Some f) s) g Hp2 Hfs E2)). simpl.
  assert (Hs : dn_noisy (dn_set_noisy (Some g) (dn_set_original (Some f) s)) = Some g) by done.
  rewrite (dn_apply_filter_ok h w window "Median" t q _ g (fun g => median_filter g window) k Hs Hg Hh);
    [|by intros ? [= <-]|reflexivity|done].
  rewrite Rg, Cg. by split_ands.
Qed.

Module DenoiseWitness.

Definition orig : matrix Z := [[20; 20]; [20; 20]].
Definition noisy : matrix Z := [[255; 20]; [20; 20]].
Definition disk : files := <["o.png"%string := orig]> (<["n.png"%string := noisy]> ∅).
Definition start : denoise_app := mkDenoiseApp disk None None None (0, 0) [].
Definition loaded : denoise_app := mkDenoiseApp disk (Some orig) (Some noisy) None (0, 0) [].
Definition minus_one : list ascii := ["-"%char; "1"%char].

Lemma disk_ok : files_ok disk.
Proof.
  unfold disk. repeat apply map_Forall_insert_2; try apply map_Forall_empty;
    exists 2%nat, 2%nat; split_ands; try lia; try rect_by_compute;
    apply pixels_in_intro; intros r c v Hv; repeat (destruct r as [|r]; try done);
    repeat (destruct c as [|c]; try done); simpl in Hv; injection Hv as <-; lia.
Qed.

Lemma dn_apply_filter_refines_witness :
  (forall g, dn_noisy loaded = Some g -> rect 2 2 g /\ (0 < 2)%nat) /\
  (forall f, dn_original loaded = Some f -> rect 2 2 f) /\
  dn_apply_filter 3 "Mean" [] None loaded = denoise_spec 2 2 3 "Mean" [] None loaded.
Proof.
  assert (H1 : forall g, dn_noisy loaded = Some g -> rect 2 2 g /\ (0 < 2)%nat)
    by (intros g [= <-]; split; [rect_by_compute|lia]).
  assert (H2 : forall f, dn_original loaded = Some f -> rect 2 2 f) by (intros f [= <-]; rect_by_compute).
  split_ands; [exact H1|exact H2|]. exact (dn_apply_filter_refines 2 2 3 "Mean" [] None loaded H1 H2).
Defined.

Lemma dn_negative_trim_error_witness :
  dn_noisy loaded = Some noisy /\ rect 2 2 noisy /\ int_of_str minus_one = Ok (-1) /\
  dn_apply_filter 3 "Trimmed-Alpha" minus_one None loaded = (loaded, Raise IndexError).
Proof.
  assert (Hr : rect 2 2 noisy) by rect_by_compute.
  split_ands; [reflexivity|exact Hr|reflexivity|].
  apply (dn_negative_trim_error 2 2 3 minus_one (-1) noisy None loaded); (reflexivity || exact Hr || lia).
Defined.

Lemma dn_load_apply_reaches_metrics_witness :
  exists k, median_filter noisy 3 = Ok k /\
    dn_original (dn_run [LoadOriginal "o.png"; LoadNoisy "n.png"; ApplyFilter 3 "Median" [] None] start) = Some orig /\
    dn_noisy (dn_run [LoadOriginal "o.png"; LoadNoisy "n.png"; ApplyFilter 3 "Median" [] None] start) = Some noisy /\
    dn_filtered (dn_run [LoadOriginal "o.png"; LoadNoisy "n.png"; ApplyFilter 3 "Median" [] None] start) = Some k /\
    dn_info (dn_run [LoadOriginal "o.png"; LoadNoisy "n.png"; ApplyFilter 3 "Median" [] None] start) =
      metrics_label (rows noisy) (cols noisy) orig noisy k.
Proof.
  apply (dn_load_apply_reaches_metrics start "o.png" "n.png" orig noisy 3 [] None disk_ok);
    reflexivity || discriminate || lia.
Defined.

(** After the metrics are shown, loading another original keeps the
    label of the old one: here it still shows one fixed pixel and no
    damaged one, while for the images now held no pixel is fixed and
    one is damaged. *)
Lemma stale_label_after_load :
  let s := dn_run [LoadOriginal "o.png"; LoadNoisy "n.png"; ApplyFilter 3 "Median" [] None;
                   LoadOriginal "n.png"] start in
  dn_info s = (1, 0) /\ dn_original s = Some noisy /\
  exists k, dn_filtered s = Some k /\ metrics_label 2 2 noisy noisy k = (0, 1).
Proof. vm_compute. split_ands; [reflexivity|reflexivity|]. eexists. split; [reflexivity|]. vm_compute. reflexivity. Qed.

End DenoiseWitness.
