(* ===== verification/Experiments.v ===== *)
(** * The experiment scripts of [project/experiments/multiple_filters.py]
    and [ex2/experiments/multiple_noise_levels.py]

    Both scripts load one clean image, add noise, filter the noisy
    image, count the noisy, fixed and damaged pixels, save the images
    and write the counts to a CSV table.  [multiple_filters] runs the
    four filters (window 3) on five kinds of noise, one table per kind;
    [multiple_noise_levels] runs the median filter on salt and pepper
    noise at four levels, one table in all.

    The state of a run is the record [experiment]: the disk of images
    ([files]), the state of Python's generator, and the CSV files
    written, a map from path to rows.  A table grows row by row, as
    [csv.writer] writes into the file opened by [with open(...)]; a
    [save_grayscale_image] that raises ends the script with the rows
    written so far, which is what [pyM] keeps.  [os.path.join(d, n)] is
    [d ++ "/" ++ n]; the typed image path is given already stripped;
    [ensure_results_dir] and the [print] calls do not change the model's
    state.

    The theorems: the four filters at window 3 never raise on a
    non-empty rectangular image; both scripts run to the end on any
    well-formed disk holding the typed path, and every table they
    write is a header followed by rows whose counts satisfy the bounds
    of the metrics (fixed at most noisy, damaged at most clean). *)

From stdpp Require Import base list numbers strings gmap.
From Stdlib Require Import ZArith QArith Lia.
From S2P Require Import Prelude Filters Metrics Noise ImageIO GuiCommon.
Local Open Scope Z_scope.

(** ** The scripts *)

(** A cell of a CSV row as [csv.writer] receives it. *)
Inductive csv_cell :=
| CStr (s : string)
| CInt (n : Z)
| CFloat (q : Q).

Notation csv := (list (list csv_cell)).

Record experiment (St : Type) := mkExperiment {
  ex_files : files;
  ex_rng : St;
  (** the CSV files written, path to rows *)
  ex_tables : gmap string csv;
}.
Arguments mkExperiment {St}.
Arguments ex_files {St}.
Arguments ex_rng {St}.
Arguments ex_tables {St}.

(** [os.path.join(results_dir, name)] *)
Definition path_join (dir name : string) : string := dir +:+ "/" +:+ name.

Section Scripts.
Context {St : Type} `{!RandomSource St} `{!PilRegistry}.

(** A generator call on the state of [random]. *)
Definition ex_random {A} (c : pyM St A) : pyM (experiment St) A :=
  fun s => let '(r, o) := c (ex_rng s) in (mkExperiment (ex_files s) r (ex_tables s), o).

(** [with open(path, "w") as csvfile: writer.writerow(header)]: the file
    is truncated and gets its first row. *)
Definition open_table (path : string) (header : list csv_cell) : pyM (experiment St) unit :=
  modify (fun s => mkExperiment (ex_files s) (ex_rng s) (<[path := [header]]> (ex_tables s))).

(** [writer.writerow(row)] *)
Definition write_row (path : string) (row : list csv_cell) : pyM (experiment St) unit :=
  modify (fun s => mkExperiment (ex_files s) (ex_rng s)
                     (<[path := default [] (ex_tables s !! path) ++ [row]]> (ex_tables s))).

(** [image_io.save_grayscale_image(pixels, path)] on the disk. *)
Definition ex_save (pixels : matrix Z) (path : string) : pyM (experiment St) unit :=
  s ← get;
  fs ← lift (save_grayscale_image pixels path (ex_files s));
  put (mkExperiment fs (ex_rng s) (ex_tables s)).

(** [image_io.load_grayscale_image(path)] *)
Definition ex_load (path : string) : pyM (experiment St) (matrix Z) :=
  s ← get; lift (load_grayscale_image (ex_files s) path).

(** [apply_filters(original, noisy)] of [multiple_filters.py], lines
    20-46: the four filters first, then one row of counts per filter. *)
Definition apply_filters (original noisy : matrix Z) : outcome (list (string * Z * Z * Z * matrix Z)) :=
  median_result ← median_filter noisy 3;
  mean_result ← mean_filter noisy 3;
  trimmed_result ← trimmed_alpha_filter noisy 3 1;
  contra_result ← contra_harmonic_filter noisy 3 1;
  let rows := [("median_3", median_result); ("mean_3", mean_result);
               ("trimmed_alpha_3_trim1", trimmed_result); ("contra_harmonic_Q1", contra_result)]%string in
  mapM (fun '(name, filtered) =>
          noisy_pixels ← count_noisy_pixels original noisy;
          fixed ← count_fixed_noisy_pixels original noisy filtered;
          damaged ← count_damaged_clean_pixels original noisy filtered;
          Ok (name, noisy_pixels, fixed, damaged, filtered)) rows.

(** The [noise_types] of [main], lines 54-60. *)
Definition noise_types : list (string * (matrix Z -> pyM St (matrix Z))) :=
  [("salt_and_pepper", fun img => add_salt_and_pepper_noise img (5 # 100));
   ("salt", fun img => add_salt_noise img (5 # 100));
   ("pepper", fun img => add_pepper_noise img (5 # 100));
   ("gaussian", fun img => add_gaussian_noise img 0 10);
   ("uniform", fun img => add_uniform_noise img (-10) 10)]%string.

Definition filters_header : list csv_cell :=
  [CStr "filter"; CStr "noisy_pixels"; CStr "fixed_pixels"; CStr "damaged_clean_pixels"].

(** One iteration of the loop of [main], lines 62-78: one table, and
    the noisy and filtered images saved at each of its rows. *)
Definition filters_step (original : matrix Z) (results_dir : string)
    (nt : string * (matrix Z -> pyM St (matrix Z))) : pyM (experiment St) unit :=
  let '(noise_name, noise_fn) := nt in
  noisy ← ex_random (noise_fn original);
  filtered_results ← lift (apply_filters original noisy);
  let table_path := path_join results_dir ("filters_" +:+ noise_name +:+ ".csv") in
  open_table table_path filters_header;;
  for_ filtered_results (fun '(name, noisy_pixels, fixed, damaged, filtered) =>
    write_row table_path [CStr name; CInt noisy_pixels; CInt fixed; CInt damaged];;
    ex_save noisy (path_join results_dir (noise_name +:+ "_noisy.png"));;
    ex_save filtered (path_join results_dir (noise_name +:+ "_" +:+ name +:+ ".png"))).

(** [main()] of [multiple_filters.py], lines 49-78, for the path typed. *)
Definition multiple_filters_main (image_path results_dir : string) : pyM (experiment St) unit :=
  original ← ex_load image_path;
  for_ noise_types (filters_step original results_dir).

(** [noise_levels] of [multiple_noise_levels.py] with
    [str(level).replace(".", "_")] of each. *)
Definition noise_levels : list (Q * string) :=
  [(1 # 100, "0_01"); (3 # 100, "0_03"); (5 # 100, "0_05"); (1 # 10, "0_1")]%string.

Definition levels_header : list csv_cell :=
  [CStr "noise_level"; CStr "noisy_pixels"; CStr "fixed_pixels"; CStr "damaged_clean_pixels"].

(** One iteration of the loop of [main], lines 32-47: the images are
    saved before the row is written. *)
Definition level_step (original : matrix Z) (results_dir table_path : string) (lv : Q * string) :
    pyM (experiment St) unit :=
  let '(level, label) := lv in
  noisy ← ex_random (add_salt_and_pepper_noise original level);
  filtered ← lift (median_filter noisy 3);
  noisy_pixels ← lift (count_noisy_pixels original noisy);
  fixed_pixels ← lift (count_fixed_noisy_pixels original noisy filtered);
  damaged_clean ← lift (count_damaged_clean_pixels original noisy filtered);
  ex_save noisy (path_join results_dir ("noisy_level_" +:+ label +:+ ".png"));;
  ex_save filtered (path_join results_dir ("filtered_level_" +:+ label +:+ ".png"));;
  write_row table_path [CFloat level; CInt noisy_pixels; CInt fixed_pixels; CInt damaged_clean].

(** [main()] of [multiple_noise_levels.py], lines 20-49. *)
Definition noise_levels_main (image_path results_dir : string) : pyM (experiment St) unit :=
  original ← ex_load image_path;
  let table_path := path_join results_dir "noise_levels.csv" in
  open_table table_path levels_header;;
  for_ noise_levels (level_step original results_dir table_path).

End Scripts.

(** ** The four filters of the experiments never raise *)

Section Window3.
Context (h w : nat) (image : matrix Z).
Hypotheses (Hi : rect h w image) (Hh : (0 < h)%nat) (Hw : (0 < w)%nat).

Lemma window3_values y x : exists vs, window_values image 1 y x = Ok vs /\ length vs = 9%nat.
Proof.
  destruct (window_values_ok h w image 1 y x Hi Hh Hw) as (vs & Hvs & Hrel).
  exists vs. split; [done|]. apply Forall2_length in Hrel. by rewrite <- Hrel, length_window_offsets.
Qed.

Lemma sum_range_in (l : list Z) a b :
  0 <= a -> b <= Z.of_nat (length l) -> exists t, sum_range l a b = Ok t.
Proof.
  intros Ha Hb. unfold sum_range.
  destruct (mapM_Ok_intro (py_lookup l) (fun _ _ => True) (zrange a b)) as (vs & -> & _); [|by eexists].
  intros i Hi'%elem_of_zrange. destruct (py_lookup_in_range l i) as (v & _ & E); [lia|]. eauto.
Qed.

Lemma mean3_total : exists out, mean_filter image 3 = Ok out.
Proof.
  destruct (map_pixels_ok h w image (mean_at image 1) (fun _ _ _ => True) Hi Hh) as (out & E & _); [|by exists out].
  intros y x _ _. destruct (window3_values y x) as (vs & Hvs & Hl).
  unfold mean_at. rewrite Hvs. cbn [mbind outcome_bind]. rewrite Hl. unfold py_floordiv. simpl. eauto.
Qed.

Lemma trimmed3_total : exists out, trimmed_alpha_filter image 3 1 = Ok out.
Proof.
  destruct (map_pixels_ok h w image (trimmed_at image 1 1) (fun _ _ _ => True) Hi Hh) as (out & E & _); [|by exists out].
  intros y x _ _. destruct (window3_values y x) as (vs & Hvs & Hl).
  unfold trimmed_at. rewrite Hvs. cbn [mbind outcome_bind]. rewrite length_sort_values, Hl. simpl.
  change (Z.of_nat 9 - 1) with 8. destruct (sum_range_in (sort_values vs) 1 8) as (t & ->); [lia|rewrite length_sort_values, Hl; simpl; lia|].
  simpl. unfold py_floordiv. simpl. eauto.
Qed.

Lemma contra3_total : exists out, contra_harmonic_filter image 3 1 = Ok out.
Proof.
  destruct (map_pixels_ok h w image (contra_at image 1 1) (fun _ _ _ => True) Hi Hh) as (out & E & _); [|by exists out].
  intros y x _ _. unfold contra_at.
  assert (Hstep : forall acc o, exists acc', contra_step image 1 y x acc o = Ok acc').
  { intros [num den] [dy dx]. unfold contra_step.
    destruct (get_pixel_safe_ok h w image (y + dy) (x + dx) Hi Hh Hw) as (p & _ & ->). cbn. eauto. }
  assert (Hfold : forall l acc, exists r, fold_outcome (contra_step image 1 y x) acc l = Ok r).
  { induction l as [|o l IH]; intros acc; [by eexists|]. destruct (Hstep acc o) as (acc' & E').
    simpl. rewrite E'. apply IH. }
  destruct (Hfold (window_offsets 1) (0%Q, 0%Q)) as ([num den] & ->). cbn.
  destruct (Qeq_bool den 0); [|eauto].
  destruct (get_pixel_safe_ok h w image y x Hi Hh Hw) as (p & _ & ->). eauto.
Qed.

Lemma median3_total : exists out, median_filter image 3 = Ok out.
Proof.
  destruct (map_pixels_ok h w image (median_at image 1) (fun _ _ _ => True) Hi Hh) as (out & E & _); [|by exists out].
  intros y x _ _. unfold median_at. destruct (window3_values y x) as (vs & Hvs & Hl). rewrite Hvs. cbn.
  destruct (py_lookup_in_range (sort_values vs) (Z.of_nat (length (sort_values vs)) / 2)) as (v & _ & ->);
    [rewrite length_sort_values, Hl; change (Z.of_nat 9) with 9; Z.div_mod_to_equations; lia|]. eauto.
Qed.
End Window3.

(** ** Running the scripts *)

(** The bounds of one row of counts of an [h] by [w] image. *)
Definition counts_ok (h w : nat) (n fx dm : Z) : Prop :=
  0 <= fx <= n /\ 0 <= dm <= Z.of_nat h * Z.of_nat w - n.

Lemma apply_filters_ok h w f g :
  rect h w f -> rect h w g -> (0 < h)%nat -> (0 < w)%nat ->
  exists res, apply_filters f g = Ok res /\
    map (fun r => r.1.1.1.1) res = ["median_3"; "mean_3"; "trimmed_alpha_3_trim1"; "contra_harmonic_Q1"]%string /\
    Forall (fun r => rect h w r.2 /\ counts_ok h w r.1.1.1.2 r.1.1.2 r.1.2) res.
Proof.
  intros Hf Hg Hh Hw.
  destruct (median3_total h w g Hg Hh Hw) as (k1 & E1), (mean3_total h w g Hg Hh Hw) as (k2 & E2),
    (trimmed3_total h w g Hg Hh Hw) as (k3 & E3), (contra3_total h w g Hg Hh Hw) as (k4 & E4).
  assert (Hk : forall k, median_filter g 3 = Ok k \/ mean_filter g 3 = Ok k \/
                         trimmed_alpha_filter g 3 1 = Ok k \/ contra_harmonic_filter g 3 1 = Ok k ->
    rect h w k /\ exists n fx dm, count_noisy_pixels f g = Ok n /\ count_fixed_noisy_pixels f g k = Ok fx /\
      count_damaged_clean_pixels f g k = Ok dm /\ counts_ok h w n fx dm).
  { intros k Ek. pose proof (filters_rect h w g 3 1 1 k Hg Hh Ek) as Hkr. split; [done|].
    destruct (count_bounds h w f g Hf Hg Hh k Hkr) as (n & fx & dm & ? & ? & ? & ? & ? & _).
    exists n, fx, dm. done. }
  destruct (Hk k1 (or_introl E1)) as (R1 & n & a1 & b1 & En & A1 & B1 & C1).
  destruct (Hk k2 (or_intror (or_introl E2))) as (R2 & n2 & a2 & b2 & En2 & A2 & B2 & C2).
  destruct (Hk k3 (or_intror (or_intror (or_introl E3)))) as (R3 & n3 & a3 & b3 & En3 & A3 & B3 & C3).
  destruct (Hk k4 (or_intror (or_intror (or_intror E4)))) as (R4 & n4 & a4 & b4 & En4 & A4 & B4 & C4).
  rewrite En in En2, En3, En4. injection En2 as <-. injection En3 as <-. injection En4 as <-.
  unfold apply_filters. rewrite E1, E2, E3, E4. cbn [mbind outcome_bind].
  rewrite !mapM_cons_outcome. cbn [mbind outcome_bind].
  rewrite En, A1, B1, A2, B2, A3, B3, A4, B4. cbn.
  eexists. split_ands; [reflexivity|reflexivity|].
  repeat (constructor; [split; assumption|]). constructor.
Qed.

(** Saving any non-empty rectangular image keeps the disk well formed:
    what is written is clamped to 8 bits. *)
Lemma save_clamped_ok `{PilRegistryLaws} h w p path fs :
  files_ok fs -> rect h w p -> (0 < h)%nat -> (0 < w)%nat -> png_name path ->
  save_grayscale_image p path fs = Ok (<[path := mat_map clamp255 p]> fs) /\
  files_ok (<[path := mat_map clamp255 p]> fs).
Proof.
  intros Hfs Hp Hh Hw Hpath. split.
  - rewrite (save_grayscale_image_pil h w) by done. unfold pil_save.
    rewrite py_ext_png, pil_png_lossless by done. cbn. by rewrite decide_False by lia.
  - apply map_Forall_insert_2; [|done]. exists h, w.
    split_ands; [by apply mat_map_rect|done|done|apply mat_map_clamp255_range].
Qed.

(** The images the scripts write are PNG files. *)
Lemma noise_levels_png lv : lv ∈ noise_levels -> png_name (lv.2 +:+ ".png").
Proof.
  unfold noise_levels. intros Hlv.
  repeat (apply elem_of_cons in Hlv as [-> | Hlv]; [png_name_tac|]). by apply elem_of_nil in Hlv.
Qed.

Lemma filter_names_png name :
  name ∈ ["median_3"; "mean_3"; "trimmed_alpha_3_trim1"; "contra_harmonic_Q1"]%string -> png_name (name +:+ ".png").
Proof.
  intros Hn. repeat (apply elem_of_cons in Hn as [-> | Hn]; [png_name_tac|]). by apply elem_of_nil in Hn.
Qed.

Section Runs.
Context {St : Type} `{!RandomSource St} `{PilRegistryLaws}.

Lemma ex_save_ok h w p path (s : experiment St) :
  files_ok (ex_files s) -> rect h w p -> (0 < h)%nat -> (0 < w)%nat -> png_name path ->
  exists s', ex_save p path s = (s', Ok tt) /\ files_ok (ex_files s') /\
    ex_tables s' = ex_tables s /\ ex_rng s' = ex_rng s.
Proof.
  intros Hfs Hp Hh Hw Hpath. destruct (save_clamped_ok h w p path (ex_files s) Hfs Hp Hh Hw Hpath) as [E Hok].
  unfold ex_save, get, mbind, pyM_bind. rewrite E. cbn. by eexists.
Qed.

(** A loop whose every iteration keeps [I] and appends one row related
    to its element by [R] to the table at [p]: the table ends with one
    row per element, in order, and nothing else changes in the map. *)
Lemma for_appends {A} (l : list A) (body : A -> pyM (experiment St) unit) (p : string)
    (R : A -> list csv_cell -> Prop) (I : experiment St -> Prop) s t0 :
  (forall a s t, a ∈ l -> I s -> ex_tables s !! p = Some t ->
     exists s' row, body a s = (s', Ok tt) /\ I s' /\ ex_tables s' = <[p := t ++ [row]]> (ex_tables s) /\ R a row) ->
  I s -> ex_tables s !! p = Some t0 ->
  exists s' rows, for_ l body s = (s', Ok tt) /\ I s' /\
    ex_tables s' = <[p := t0 ++ rows]> (ex_tables s) /\ Forall2 R l rows.
Proof.
  intros Hb. revert s t0. induction l as [|a l IH]; intros s t0 Hs Ht.
  - exists s, []. rewrite app_nil_r, insert_id by done. by split_ands.
  - destruct (Hb a s t0 ltac:(by left) Hs Ht) as (s1 & row & E1 & Hs1 & T1 & Ra).
    destruct (IH ltac:(intros; apply Hb; [by right|..]; done) s1 (t0 ++ [row]) Hs1)
      as (s' & rows & E' & Hs' & T' & Rs); [by rewrite T1, lookup_insert_eq|].
    exists s', (row :: rows). simpl. rewrite (pyM_bind_ok _ _ s s1 tt E1).
    split_ands; [done|done| |by constructor].
    rewrite T', T1, insert_insert_eq, <- app_assoc. done.
Qed.
End Runs.

Section Steps.
Context {St : Type} `{!RandomSource St} `{PilRegistryLaws}.

(** The names of [apply_filters]'s rows, in order. *)
Definition filter_names : list string :=
  ["median_3"; "mean_3"; "trimmed_alpha_3_trim1"; "contra_harmonic_Q1"]%string.

(** A row [name, noisy, fixed, damaged] of counts within the bounds. *)
Definition count_row (h w : nat) (first : csv_cell) (row : list csv_cell) : Prop :=
  exists n fx dm, row = [first; CInt n; CInt fx; CInt dm] /\ counts_ok h w n fx dm.

Lemma noise_types_ok h w f nt r :
  rect h w f -> (0 < h)%nat -> (0 < w)%nat -> pixels_in 0 255 f -> nt ∈ noise_types (St := St) ->
  exists g r', nt.2 f r = (r', Ok g) /\ rect h w g.
Proof.
  intros Hf Hh Hw Hp Hnt. unfold noise_types in Hnt.
  destruct (sp_family_inv h w f (5 # 100) r Hf Hh) as ((g1 & r1 & E1 & [R1 _]) & (g2 & r2 & E2 & [R2 _]) & (g3 & r3 & E3 & [R3 _])).
  do 3 (apply elem_of_cons in Hnt as [-> | Hnt]; [by eexists _, _|]).
  apply elem_of_cons in Hnt as [-> | Hnt]; [|apply elem_of_cons in Hnt as [-> | Hnt%elem_of_nil]; [|done]].
  - destruct (additive_loop_range h w f (gauss 0 10) r Hf Hh Hp (gauss_total 0 10)) as (g & r' & E & R & _).
    by exists g, r'.
  - destruct (additive_loop_range h w f (uniform (-10) 10) r Hf Hh Hp (uniform_total (-10) 10)) as (g & r' & E & R & _).
    by exists g, r'.
Qed.
(** [csv.writer] rows of one table of [multiple_filters]: the header,
    then the counts of the four filters, in order. *)
Definition filters_table_ok (h w : nat) (t : csv) : Prop :=
  exists rows, t = filters_header :: rows /\ Forall2 (fun name => count_row h w (CStr name)) filter_names rows.

Lemma filters_step_ok h w f dir nt (s : experiment St) :
  rect h w f -> (0 < h)%nat -> (0 < w)%nat -> pixels_in 0 255 f -> nt ∈ noise_types -> files_ok (ex_files s) ->
  exists s' t, filters_step f dir nt s = (s', Ok tt) /\ files_ok (ex_files s') /\
    ex_tables s' = <[path_join dir ("filters_" +:+ nt.1 +:+ ".csv") := t]> (ex_tables s) /\
    filters_table_ok h w t.
Proof.
  intros Hf Hh Hw Hp Hnt Hfs. destruct (noise_types_ok h w f nt (ex_rng s) Hf Hh Hw Hp Hnt) as (g & r' & Eg & Hg).
  destruct (apply_filters_ok h w f g Hf Hg Hh Hw) as (res & Eres & Hnames & Hres).
  destruct nt as [noise_name noise_fn]. simpl in *.
  set (tp := path_join dir ("filters_" +:+ noise_name +:+ ".csv")).
  set (s2 := mkExperiment (ex_files s) r' (<[tp := [filters_header]]> (ex_tables s))).
  destruct (for_appends res (fun '(name, noisy_pixels, fixed, damaged, filtered) =>
      write_row tp [CStr name; CInt noisy_pixels; CInt fixed; CInt damaged];;
      ex_save g (path_join dir (noise_name +:+ "_noisy.png"));;
      ex_save filtered (path_join dir (noise_name +:+ "_" +:+ name +:+ ".png"))) tp
      (fun r row => count_row h w (CStr r.1.1.1.1) row) (fun s => files_ok (ex_files s)) s2 [filters_header])
    as (s' & rows & E' & Hs' & T' & Rrows).
  - intros [[[[name n] fx] dm] k] s0 t Ha Hs0 Ht. rewrite Forall_forall in Hres.
    destruct (Hres _ Ha) as [Hk Hc]. simpl in Hk, Hc.
    set (s1 := mkExperiment (ex_files s0) (ex_rng s0)
                 (<[tp := default [] (ex_tables s0 !! tp) ++ [[CStr name; CInt n; CInt fx; CInt dm]]]> (ex_tables s0))).
    destruct (ex_save_ok h w g (path_join dir (noise_name +:+ "_noisy.png")) s1 Hs0 Hg Hh Hw)
      as (s3 & E3 & H3 & T3 & _); [unfold path_join; png_name_tac|].
    destruct (ex_save_ok h w k (path_join dir (noise_name +:+ "_" +:+ name +:+ ".png")) s3 H3 Hk Hh Hw)
      as (s4 & E4 & H4 & T4 & _).
    { unfold path_join. do 4 apply png_name_app. apply filter_names_png. rewrite <- Hnames.
      apply list_elem_of_fmap. by exists (name, n, fx, dm, k). }
    exists s4, [CStr name; CInt n; CInt fx; CInt dm]. unfold mbind at 1, pyM_bind at 1. cbn.
    rewrite (pyM_bind_ok _ _ s1 s3 tt E3), E4. split_ands; [done|done| |by exists n, fx, dm].
    by rewrite T4, T3; cbn; rewrite Ht.
  - done.
  - unfold s2. cbn. by rewrite lookup_insert_eq.
  - exists s', (filters_header :: rows). unfold filters_step, mbind at 1, pyM_bind at 1, ex_random.
    rewrite Eg. cbn. rewrite Eres. cbn. fold tp. split_ands; [exact E'|exact Hs'| |].
    + rewrite T'. cbn. by rewrite insert_insert_eq.
    + exists rows. split; [done|]. unfold filter_names. rewrite <- Hnames, Forall2_fmap_l. exact Rrows.
Qed.

(** A loop whose every iteration keeps [I] and sets the table of its own
    key: every key ends with its table, and the other paths keep theirs. *)
Lemma for_inserts {A} (l : list A) (body : A -> pyM (experiment St) unit) (key : A -> string)
    (R : A -> csv -> Prop) (I : experiment St -> Prop) s :
  (forall a s, a ∈ l -> I s ->
     exists s' t, body a s = (s', Ok tt) /\ I s' /\ ex_tables s' = <[key a := t]> (ex_tables s) /\ R a t) ->
  NoDup (key <$> l) -> I s ->
  exists s', for_ l body s = (s', Ok tt) /\ I s' /\
    (forall a, a ∈ l -> exists t, ex_tables s' !! key a = Some t /\ R a t) /\
    (forall p, p ∉ key <$> l -> ex_tables s' !! p = ex_tables s !! p).
Proof.
  intros Hb. revert s. induction l as [|a l IH]; intros s Hnd Hs.
  - exists s. split_ands; [done|done| |done]. intros a Ha. by apply elem_of_nil in Ha.
  - apply NoDup_cons in Hnd as [Hna Hnd].
    destruct (Hb a s ltac:(by left) Hs) as (s1 & t & E1 & Hs1 & T1 & Ra).
    destruct (IH ltac:(intros; apply Hb; [by right|done]) s1 Hnd Hs1) as (s' & E' & Hs' & Hin & Hout).
    exists s'. simpl. rewrite (pyM_bind_ok _ _ s s1 tt E1). split_ands; [done|done| |].
    + intros a' [-> | Ha']%elem_of_cons; [|by apply Hin].
      exists t. by rewrite Hout, T1, lookup_insert_eq.
    + intros p Hp. apply not_elem_of_cons in Hp as [Hpa Hp]. by rewrite Hout, T1, lookup_insert_ne.
Qed.

#[local] Instance path_join_inj dir : Inj (=) (=) (path_join dir).
Proof. intros x y E. unfold path_join in E. by apply (inj (String.append dir)), (inj (String.append "/")) in E. Qed.

Lemma filters_paths_nodup dir :
  NoDup ((fun nt : string * (matrix Z -> pyM St (matrix Z)) => path_join dir ("filters_" +:+ nt.1 +:+ ".csv"))
          <$> noise_types).
Proof.
  change (NoDup (path_join dir ∘ (fun nt : string * (matrix Z -> pyM St (matrix Z)) => "filters_" +:+ nt.1 +:+ ".csv")
                <$> noise_types)).
  rewrite list_fmap_compose. apply (NoDup_fmap_2 (path_join dir)). apply (bool_decide_unpack _). vm_compute. reflexivity.
Qed.

Lemma lift_bind {S A B} (o : outcome A) a (f : A -> pyM S B) s : o = Ok a -> (lift o ≫= f) s = f a s.
Proof. by intros ->. Qed.

Lemma level_step_ok h w f dir tp lv (s : experiment St) t :
  lv ∈ noise_levels -> rect h w f -> (0 < h)%nat -> (0 < w)%nat -> files_ok (ex_files s) -> ex_tables s !! tp = Some t ->
  exists s' row, level_step f dir tp lv s = (s', Ok tt) /\ files_ok (ex_files s') /\
    ex_tables s' = <[tp := t ++ [row]]> (ex_tables s) /\ count_row h w (CFloat lv.1) row.
Proof.
  intros Hlv Hf Hh Hw Hfs Ht. pose proof (noise_levels_png lv Hlv) as Hpng. destruct lv as [level label]. simpl in *.
  destruct (sp_family_inv h w f level (ex_rng s) Hf Hh) as ((g & r' & Eg & [Hg _]) & _).
  destruct (median3_total h w g Hg Hh Hw) as (k & Ek).
  pose proof (filters_rect h w g 3 1 1 k Hg Hh (or_introl Ek)) as Hk.
  destruct (count_bounds h w f g Hf Hg Hh k Hk) as (n & fx & dm & En & Efx & Edm & Hfx & Hdm & _).
  set (s1 := mkExperiment (ex_files s) r' (ex_tables s)).
  destruct (ex_save_ok h w g (path_join dir ("noisy_level_" +:+ label +:+ ".png")) s1 Hfs Hg Hh Hw)
    as (s2 & E2 & H2 & T2 & R2); [by unfold path_join; do 3 apply png_name_app|].
  destruct (ex_save_ok h w k (path_join dir ("filtered_level_" +:+ label +:+ ".png")) s2 H2 Hk Hh Hw)
    as (s3 & E3 & H3 & T3 & R3); [by unfold path_join; do 3 apply png_name_app|].
  eexists _, _. unfold level_step, mbind at 1, pyM_bind at 1, ex_random. rewrite Eg. fold s1.
  rewrite (lift_bind _ k _ _ Ek), (lift_bind _ n _ _ En), (lift_bind _ fx _ _ Efx), (lift_bind _ dm _ _ Edm).
  rewrite (pyM_bind_ok _ _ s1 s2 tt E2), (pyM_bind_ok _ _ s2 s3 tt E3).
  split_ands; [reflexivity|exact H3| |by exists n, fx, dm].
  cbn. rewrite T3, T2. subst s1. cbn. by rewrite Ht.
Qed.

End Steps.

(** The kinds of noise of [multiple_filters], one table each. *)
Definition noise_names : list string := ["salt_and_pepper"; "salt"; "pepper"; "gaussian"; "uniform"]%string.

Lemma noise_names_types {St} `{!RandomSource St} : fst <$> noise_types (St := St) = noise_names.
Proof. reflexivity. Qed.

Lemma ex_load_ok {St} (s : experiment St) path img :
  files_ok (ex_files s) -> ex_files s !! path = Some img ->
  ex_load path s = (s, Ok img) /\ img_ok img.
Proof.
  intros Hfs E. destruct (load_file_ok _ _ _ Hfs E) as [El Hi]. unfold ex_load, get, mbind, pyM_bind.
  by rewrite El.
Qed.

(** C25: [multiple_filters.py] runs to the end on any well-formed disk
    holding the typed path, whatever the generator draws: it writes one
    table per kind of noise, each a header and the rows of the four
    filters in order, whose counts satisfy the bounds of the metrics,
    and leaves every other CSV file as it was. *)
Theorem multiple_filters_main_ok {St} `{!RandomSource St} `{PilRegistryLaws} (s : experiment St) path dir img :
  files_ok (ex_files s) -> ex_files s !! path = Some img ->
  exists s', multiple_filters_main path dir s = (s', Ok tt) /\ files_ok (ex_files s') /\
    (forall name, name ∈ noise_names ->
       exists t, ex_tables s' !! path_join dir ("filters_" +:+ name +:+ ".csv") = Some t /\
                 filters_table_ok (rows img) (cols img) t) /\
    (forall p, (forall name, name ∈ noise_names -> p <> path_join dir ("filters_" +:+ name +:+ ".csv")) ->
       ex_tables s' !! p = ex_tables s !! p).
Proof.
  intros Hfs E. destruct (ex_load_ok s path img Hfs E) as [El (h & w & Hi & Hh & Hw & Hp)].
  destruct (rect_rows_cols h w img Hi Hh) as [-> ->].
  destruct (for_inserts noise_types (filters_step img dir) (fun nt => path_join dir ("filters_" +:+ nt.1 +:+ ".csv"))
      (fun _ t => filters_table_ok h w t) (fun s => files_ok (ex_files s)) s) as (s' & E' & Hs' & Hin & Hout).
  - intros nt s0 Hnt Hs0. by apply (filters_step_ok h w).
  - apply filters_paths_nodup.
  - done.
  - exists s'. unfold multiple_filters_main. rewrite (pyM_bind_ok _ _ s s img El). split_ands; [done|done| |].
    + intros name Hn. rewrite <- noise_names_types in Hn. apply list_elem_of_fmap in Hn as (nt & -> & Hnt).
      by apply (Hin nt).
    + intros p Hnot. apply Hout. intros (nt & -> & Hnt)%list_elem_of_fmap.
      apply (Hnot nt.1); [rewrite <- noise_names_types; by apply list_elem_of_fmap_2|done].
Qed.

(** C26: [multiple_noise_levels.py] runs to the end on any well-formed
    disk holding the typed path, whatever the generator draws: its
    table is the header and one row per level, in the order of
    [noise_levels], whose counts satisfy the bounds of the metrics. *)
Theorem noise_levels_main_ok {St} `{!RandomSource St} `{PilRegistryLaws} (s : experiment St) path dir img :
  files_ok (ex_files s) -> ex_files s !! path = Some img ->
  exists s' body, noise_levels_main path dir s = (s', Ok tt) /\ files_ok (ex_files s') /\
    ex_tables s' = <[path_join dir "noise_levels.csv" := levels_header :: body]> (ex_tables s) /\
    Forall2 (fun lv => count_row (rows img) (cols img) (CFloat lv.1)) noise_levels body.
Proof.
  intros Hfs E. destruct (ex_load_ok s path img Hfs E) as [El (h & w & Hi & Hh & Hw & _)].
  destruct (rect_rows_cols h w img Hi Hh) as [-> ->].
  set (tp := path_join dir "noise_levels.csv").
  set (s1 := mkExperiment (ex_files s) (ex_rng s) (<[tp := [levels_header]]> (ex_tables s))).
  destruct (for_appends noise_levels (level_step img dir tp) tp (fun lv => count_row h w (CFloat lv.1))
      (fun s => files_ok (ex_files s)) s1 [levels_header]) as (s' & rows & E' & Hs' & T' & Rs).
  - intros lv s0 t Hlv Hs0 Ht. by apply (level_step_ok h w).
  - done.
  - subst s1. cbn. by rewrite lookup_insert_eq.
  - exists s', rows. unfold noise_levels_main. rewrite (pyM_bind_ok _ _ s s img El). fold tp.
    unfold mbind at 1, pyM_bind at 1, open_table, modify. fold s1. rewrite E'.
    split_ands; [done|done| |done]. rewrite T'. subst s1. cbn. by rewrite insert_insert_eq.
Qed.

Module ExperimentsWitness.
Import NoiseWitness ImageIOWitness.

Definition img : matrix Z := [[0; 128; 7]; [200; 255; 9]].
Definition disk : files := <["in.png"%string := img]> ∅.
Definition start : experiment nat := mkExperiment disk 0%nat ∅.

Lemma ex_disk_ok : files_ok disk.
Proof.
  apply map_Forall_insert_2; [|apply map_Forall_empty].
  exists 2%nat, 3%nat. split_ands; [rect_by_compute|lia|lia|repeat constructor; lia].
Qed.

Lemma multiple_filters_main_ok_witness :
  files_ok disk /\ disk !! "in.png"%string = Some img /\
  exists s', multiple_filters_main "in.png" "results" start = (s', Ok tt) /\ files_ok (ex_files s') /\
    exists t, ex_tables s' !! "results/filters_gaussian.csv"%string = Some t /\ filters_table_ok 2 3 t.
Proof.
  split_ands; [exact ex_disk_ok|reflexivity|].
  destruct (multiple_filters_main_ok start "in.png" "results" img ex_disk_ok eq_refl) as (s' & E & Hs' & Hin & _).
  exists s'. split_ands; [exact E|exact Hs'|]. apply (Hin "gaussian"%string). vm_compute. right. right. right. left.
Defined.

Lemma noise_levels_main_ok_witness :
  files_ok disk /\ disk !! "in.png"%string = Some img /\
  exists s' body, noise_levels_main "in.png" "results" start = (s', Ok tt) /\
    ex_tables s' = {["results/noise_levels.csv"%string := levels_header :: body]} /\
    Forall2 (fun lv => count_row 2 3 (CFloat lv.1)) noise_levels body.
Proof.
  split_ands; [exact ex_disk_ok|reflexivity|].
  destruct (noise_levels_main_ok start "in.png" "results" img ex_disk_ok eq_refl) as (s' & body & E & _ & T & R).
  exists s', body. split_ands; [exact E|exact T|exact R].
Defined.

End ExperimentsWitness.
