(* ===== verification/Demos.v ===== *)
(** * The command-line demos of the image helpers

    Five small scripts read image paths at the prompt, call the helpers
    of [common] and print what they found:
    [project/task1_add_noise/add_noise_demo.py] (salt and pepper noise at
    four levels, each saved and counted),
    [project/task2_count_noisy_pixels/count_noisy_pixels_demo.py],
    [project/task4_count_fixed_pixels/count_fixed_pixels_demo.py],
    [HW2/task5_count_damaged_clean_pixels/count_damaged_clean_pixels_demo.py]
    (one count and its percentage each) and
    [HW2/task3_denoise/median_filter_demo.py] (the median filter at
    windows 3 and 5, saved and counted).

    The three counting demos only read the disk: each is an [outcome] of
    the line it prints ([demo_line]; the [%.2f] formatting is not
    modelled, the line holds the numbers).  The two others save images
    and draw from the generator: they are [pyM] programs over the record
    [demo] (disk, state of [random], lines printed).  The typed paths
    are given already stripped, and [os.makedirs] of the output folder
    does not change the modelled state, as in [Experiments].

    The theorem: each counting demo prints the count and percentage the
    matching counting window shows for the same images, and raises
    exactly when that window's handler raises, with the same
    exception. *)

From stdpp Require Import base list numbers strings gmap.
From Stdlib Require Import ZArith QArith Lia.
From S2P Require Import Prelude Filters Metrics Noise Offsets ImageIO GuiCommon Experiments.
Local Open Scope Z_scope.

(** What a demo prints, one line. *)
Inductive demo_line :=
(** ["Noisy pixels: {n} of {total} ({percent:.2f}%)"] *)
| NoisyLine (noisy_pixels total_pixels : Z) (percent : Q)
(** ["Fixed noisy pixels: {fixed} of {total_noisy} ({percent:.2f}%)"] *)
| FixedLine (fixed total_noisy : Z) (percent : Q)
(** ["Damaged clean pixels: {damaged} of {clean_pixels} ({percent:.2f}%)"] *)
| DamagedLine (damaged clean_pixels : Z) (percent : Q)
(** ["Noise level {level}: noisy pixels = {n} ({percent:.2f}%) saved to {path}"] *)
| LevelLine (level : Q) (noisy_count : Z) (percent : Q) (output_path : string)
(** ["Median window {window}: fixed noisy pixels = {fixed}, damaged clean pixels = {damaged}. Saved to {path}"] *)
| WindowLine (window fixed damaged : Z) (output_path : string).

(** ** The counting demos *)

(** [count_noisy_pixels_demo.main], lines 12-23. *)
Definition count_noisy_demo (fs : files) (original_path noisy_path : string) : outcome demo_line :=
  original ← load_grayscale_image fs original_path;
  noisy ← load_grayscale_image fs noisy_path;
  noisy_pixels ← count_noisy_pixels original noisy;
  row0 ← py_lookup original 0;
  let total_pixels := Z.of_nat (length original) * Z.of_nat (length row0) in
  q ← py_truediv noisy_pixels total_pixels;
  mret (NoisyLine noisy_pixels total_pixels (q * 100)%Q).

(** [count_fixed_pixels_demo.main], lines 12-28. *)
Definition count_fixed_demo (fs : files) (original_path noisy_path denoised_path : string) : outcome demo_line :=
  original ← load_grayscale_image fs original_path;
  noisy ← load_grayscale_image fs noisy_path;
  denoised ← load_grayscale_image fs denoised_path;
  fixed ← count_fixed_noisy_pixels original noisy denoised;
  total_noisy ← count_noisy_pixels original noisy;
  percent ← (if 0 <? total_noisy then q ← py_truediv fixed total_noisy; mret (q * 100)%Q else mret 0%Q);
  mret (FixedLine fixed total_noisy percent).

(** [count_damaged_clean_pixels_demo.main], lines 12-28: [len(original)]
    and [original[0]] are read before [count_noisy_pixels] is called. *)
Definition count_damaged_demo (fs : files) (original_path noisy_path denoised_path : string) : outcome demo_line :=
  original ← load_grayscale_image fs original_path;
  noisy ← load_grayscale_image fs noisy_path;
  denoised ← load_grayscale_image fs denoised_path;
  damaged ← count_damaged_clean_pixels original noisy denoised;
  row0 ← py_lookup original 0;
  noisy_count ← count_noisy_pixels original noisy;
  let clean_pixels := Z.of_nat (length original) * Z.of_nat (length row0) - noisy_count in
  percent ← (if 0 <? clean_pixels then q ← py_truediv damaged clean_pixels; mret (q * 100)%Q else mret 0%Q);
  mret (DamagedLine damaged clean_pixels percent).

(** ** The demos that save images *)

Record demo (St : Type) := mkDemo {
  dm_files : files;
  dm_rng : St;
  dm_out : list demo_line;
}.
Arguments mkDemo {St}.
Arguments dm_files {St}.
Arguments dm_rng {St}.
Arguments dm_out {St}.

Section SavingDemos.
Context {St : Type} `{!RandomSource St} `{!PilRegistry}.

Definition dm_load (path : string) : pyM (demo St) (matrix Z) :=
  s ← get; lift (load_grayscale_image (dm_files s) path).

Definition dm_save (pixels : matrix Z) (path : string) : pyM (demo St) unit :=
  s ← get;
  fs ← lift (save_grayscale_image pixels path (dm_files s));
  put (mkDemo fs (dm_rng s) (dm_out s)).

Definition dm_random {A} (c : pyM St A) : pyM (demo St) A :=
  fun s => let '(r, o) := c (dm_rng s) in (mkDemo (dm_files s) r (dm_out s), o).

Definition dm_print (line : demo_line) : pyM (demo St) unit :=
  modify (fun s => mkDemo (dm_files s) (dm_rng s) (dm_out s ++ [line])).

(** [add_noise_demo.main], lines 12-28, with the folder of the script:
    the levels and their file names are those of [Experiments.noise_levels]. *)
Definition add_noise_demo (input_path script_dir : string) : pyM (demo St) unit :=
  original ← dm_load input_path;
  let output_dir := path_join script_dir "sample_outputs" in
  for_ noise_levels (fun '(level, label) =>
    noisy ← dm_random (add_salt_and_pepper_noise original level);
    let output_path := path_join output_dir ("noisy_level_" +:+ label +:+ ".png") in
    dm_save noisy output_path;;
    noisy_count ← lift (count_noisy_pixels original noisy);
    row0 ← lift (py_lookup original 0);
    let total_pixels := Z.of_nat (length original) * Z.of_nat (length row0) in
    q ← lift (py_truediv noisy_count total_pixels);
    dm_print (LevelLine level noisy_count (q * 100)%Q output_path)).

(** [median_filter_demo.main], lines 12-30. *)
Definition median_filter_demo (original_path noisy_path script_dir : string) : pyM (demo St) unit :=
  original ← dm_load original_path;
  noisy ← dm_load noisy_path;
  let output_dir := path_join script_dir "sample_outputs" in
  for_ [3; 5] (fun window =>
    filtered ← lift (median_filter noisy window);
    let output_path := path_join output_dir ("median_window_" +:+ String.string_of_list_ascii (show_Z window) +:+ ".png") in
    dm_save filtered output_path;;
    fixed ← lift (count_fixed_noisy_pixels original noisy filtered);
    damaged ← lift (count_damaged_clean_pixels original noisy filtered);
    dm_print (WindowLine window fixed damaged output_path)).

End SavingDemos.

(** ** The counting demos and the counting windows *)

(** The count and the percentage of a printed line. *)
Definition line_count (line : demo_line) : option (Z * Q) :=
  match line with
  | NoisyLine n _ p | FixedLine n _ p | DamagedLine n _ p => Some (n, p)
  | _ => None
  end.

(** A demo's outcome matches a window's report: the same count and
    percentage, or the same exception. *)
Definition agrees (d : outcome demo_line) (w : outcome report) : Prop :=
  match w, d with
  | Ok (Count n p), Ok line => line_count line = Some (n, p)
  | Raise e, Raise e' => e = e'
  | _, _ => False
  end.

(** C38: For images the three paths load, each counting demo prints the
    count and percentage the matching counting window
    ([gui_count_noisy], [gui_count_fixed], [gui_count_damaged]) shows
    for them, and raises exactly when the window's handler raises,
    with the same exception: the demos and the windows agree. *)
Theorem demos_match_windows fs op np dp o g k :
  load_grayscale_image fs op = Ok o -> load_grayscale_image fs np = Ok g -> load_grayscale_image fs dp = Ok k ->
  agrees (count_noisy_demo fs op np) (gui_count_noisy (Some o) (Some g)) /\
  agrees (count_fixed_demo fs op np dp) (gui_count_fixed (Some o) (Some g) (Some k)) /\
  agrees (count_damaged_demo fs op np dp) (gui_count_damaged (Some o) (Some g) (Some k)).
Proof.
  intros Ho Hg Hk. unfold count_noisy_demo, count_fixed_demo, count_damaged_demo.
  rewrite Ho, Hg, Hk. unfold gui_count_noisy, gui_count_fixed, gui_count_damaged.
  unfold mbind, outcome_bind, mret, outcome_ret. simpl.
  split_ands; repeat (case_match; simplify_eq/=); done.
Qed.

Module DemosWitness.
Import NoiseWitness ImageIOWitness.

Definition orig : matrix Z := [[10; 20]; [30; 40]].
Definition noisy : matrix Z := [[0; 20]; [255; 40]].
Definition denoised : matrix Z := [[10; 20]; [255; 41]].
Definition disk : files := <["o.png" := orig]> (<["n.png" := noisy]> (<["d.png" := denoised]> ∅)).

Lemma demos_match_windows_witness :
  load_grayscale_image disk "o.png" = Ok orig /\ load_grayscale_image disk "n.png" = Ok noisy /\
  load_grayscale_image disk "d.png" = Ok denoised /\
  agrees (count_noisy_demo disk "o.png" "n.png") (gui_count_noisy (Some orig) (Some noisy)) /\
  agrees (count_fixed_demo disk "o.png" "n.png" "d.png") (gui_count_fixed (Some orig) (Some noisy) (Some denoised)) /\
  agrees (count_damaged_demo disk "o.png" "n.png" "d.png") (gui_count_damaged (Some orig) (Some noisy) (Some denoised)).
Proof.
  assert (Ho : load_grayscale_image disk "o.png" = Ok orig) by (vm_compute; reflexivity).
  assert (Hn : load_grayscale_image disk "n.png" = Ok noisy) by (vm_compute; reflexivity).
  assert (Hd : load_grayscale_image disk "d.png" = Ok denoised) by (vm_compute; reflexivity).
  split; [exact Ho|]. split; [exact Hn|]. split; [exact Hd|].
  exact (demos_match_windows disk _ _ _ _ _ _ Ho Hn Hd).
Defined.

(** What the three demos print here. *)
Example demo_lines :
  count_noisy_demo disk "o.png" "n.png" = Ok (NoisyLine 2 4 ((2 # 4) * 100)%Q) /\
  count_fixed_demo disk "o.png" "n.png" "d.png" = Ok (FixedLine 1 2 ((1 # 2) * 100)%Q) /\
  count_damaged_demo disk "o.png" "n.png" "d.png" = Ok (DamagedLine 1 2 ((1 # 2) * 100)%Q).
Proof. vm_compute. split_ands; reflexivity. Qed.

(** The median demo saves two images and prints two lines. *)
Example median_demo_run :
  let s := (median_filter_demo "o.png" "n.png" "hw2" (mkDemo disk 0%nat [])).1 in
  length (dm_out s) = 2%nat /\ is_Some (dm_files s !! "hw2/sample_outputs/median_window_5.png"%string).
Proof. vm_compute. split; [reflexivity|eexists; reflexivity]. Qed.

End DemosWitness.
