(* ===== verification/Csv.v ===== *)
(** * CSV text as Python's [csv] module writes and reads it

    The experiment scripts write their tables with [csv.writer] and the
    plotting and summary scripts read them back with [csv.reader], both
    in the default [excel] dialect: [","] between fields, ["\r\n"] after
    each row, fields quoted with the double quote only when needed
    ([QUOTE_MINIMAL]), a quote inside a quoted field doubled.  This file
    models the two sides on ASCII text ([list ascii]):

    - [writerow] as [_csv.c]'s [join_append]: a field is quoted when it
      holds the delimiter, the quote or a line break, and a row of one
      empty field is written as a quoted empty field;
    - the file iterator of [open(path, newline="")], which cuts the text
      after each ["\n"], ["\r\n"] or lone ["\r"]: [with_eols] marks the
      end of each line with [EOL];
    - [csv.reader] as the state machine of [_csv.c]'s
      [parse_process_char] ([StartRecord], [StartField], [InField],
      [InQuotedField], [QuoteInQuotedField], [EatCrnl]), non-strict,
      that yields a row whenever a line ends in [StartRecord], and at the
      end of the text keeps an unterminated quoted field.

    [parse_add_char] raises once a field would exceed
    [csv.field_size_limit()] ([field_limit], 131072 characters).

    The theorems: reading the text of rows written by [writerow] gives
    the rows back when their fields are within the limit; the reader
    raises no error on a text within the limit, and raises on an
    unquoted field over it. *)

From stdpp Require Import base list numbers strings.
From Stdlib Require Import ZArith Ascii Lia.
From S2P Require Import Prelude.

(** ** Characters *)

Definition dquote : ascii := ascii_of_nat 34.
Definition comma : ascii := ascii_of_nat 44.
Definition cr : ascii := ascii_of_nat 13.
Definition lf : ascii := ascii_of_nat 10.

Definition is_break (c : ascii) : bool := bool_decide (c = cr) || bool_decide (c = lf).

(** A character written as it is in an unquoted field. *)
Definition plain (c : ascii) : Prop := c <> comma /\ c <> dquote /\ c <> cr /\ c <> lf.

#[export] Instance plain_dec c : Decision (plain c).
Proof. unfold plain. apply _. Defined.

(** ** [csv.writer(f).writerow(row)] *)

(** [QUOTE_MINIMAL]: quote a field holding [","], the double quote, ["\r"] or ["\n"]. *)
Definition needs_quotes (f : list ascii) : bool := bool_decide (Exists (fun c => ~ plain c) f).

(** [doublequote=True]: a quote inside a quoted field is written twice. *)
Fixpoint escape (f : list ascii) : list ascii :=
  match f with
  | [] => []
  | c :: f' => if decide (c = dquote) then dquote :: dquote :: escape f' else c :: escape f'
  end.

Definition write_field (f : list ascii) : list ascii :=
  if needs_quotes f then dquote :: escape f ++ [dquote] else f.

(** [",".join(...)] of the written fields. *)
Fixpoint join_fields (fs : list (list ascii)) : list ascii :=
  match fs with
  | [] => []
  | [f] => write_field f
  | f :: fs' => write_field f ++ comma :: join_fields fs'
  end.

(** A row and its line terminator ["\r\n"]; a row of a single empty
    field would read back as an empty row, so it is written quoted. *)
Definition writerow (row : list (list ascii)) : list ascii :=
  match row with
  | [[]] => [dquote; dquote; cr; lf]
  | _ => join_fields row ++ [cr; lf]
  end.

(** The text of a file written row by row. *)
Definition write_rows (rows : list (list (list ascii))) : list ascii := rows ≫= writerow.

(** ** [csv.reader(open(path, newline=""))] *)

(** The characters of the text, with [EOL] at the end of each line the
    file iterator yields. *)
Inductive tok := Ch (c : ascii) | EOL.

Definition starts_lf (l : list ascii) : bool :=
  match l with c :: _ => bool_decide (c = lf) | [] => false end.

Fixpoint with_eols (l : list ascii) : list tok :=
  match l with
  | [] => []
  | c :: l' =>
      Ch c :: (if bool_decide (c = lf) then EOL :: with_eols l'
               else if bool_decide (c = cr) then (if starts_lf l' then with_eols l' else EOL :: with_eols l')
               else match l' with [] => [EOL] | _ => with_eols l' end)
  end.

Inductive rstate := StartRecord | StartField | InField | InQuotedField | QuoteInQuotedField | EatCrnl.

#[export] Instance rstate_eq_dec : EqDecision rstate.
Proof. solve_decision. Defined.

(** [parse_save_field] *)
Definition save (fields : list (list ascii)) (field : list ascii) : list (list ascii) := fields ++ [field].

(** [csv.field_size_limit()], [128 * 1024] unless a script changes it
    (none does). *)
Definition field_limit : Z := 131072%Z.

(** [parse_add_char]: [csv.Error] ["field larger than field limit"]
    when the field already holds [field_limit] characters. *)
Definition add_char (st : rstate) (fields : list (list ascii)) (field : list ascii) (c : ascii) :
    option (rstate * list (list ascii) * list ascii) :=
  if decide (field_limit <= Z.of_nat (length field))%Z then None else Some (st, fields, field ++ [c]).

(** One character, [parse_process_char]: the next state, the fields
    of the record so far and the field being read; [None] is a
    [csv.Error]: ["new-line character seen in unquoted field"], or a
    field over the limit. *)
Definition step (st : rstate) (fields : list (list ascii)) (field : list ascii) (c : ascii) :
    option (rstate * list (list ascii) * list ascii) :=
  let start_field :=
    if is_break c then Some (EatCrnl, save fields field, [])
    else if decide (c = dquote) then Some (InQuotedField, fields, field)
    else if decide (c = comma) then Some (StartField, save fields field, [])
    else add_char InField fields field c in
  match st with
  | StartRecord => if is_break c then Some (EatCrnl, fields, field) else start_field
  | StartField => start_field
  | InField =>
      if is_break c then Some (EatCrnl, save fields field, [])
      else if decide (c = comma) then Some (StartField, save fields field, [])
      else add_char InField fields field c
  | InQuotedField =>
      if decide (c = dquote) then Some (QuoteInQuotedField, fields, field)
      else add_char InQuotedField fields field c
  | QuoteInQuotedField =>
      if decide (c = dquote) then add_char InQuotedField fields field c
      else if decide (c = comma) then Some (StartField, save fields field, [])
      else if is_break c then Some (EatCrnl, save fields field, [])
      else add_char InField fields field c
  | EatCrnl => if is_break c then Some (EatCrnl, fields, field) else None
  end.

(** The end of a line: inside quotes the field goes on, otherwise the
    record is complete ([__next__] returns it). *)
Definition step_eol (st : rstate) (fields : list (list ascii)) (field : list ascii) :
    option (list (list ascii)) :=
  match st with
  | StartRecord | EatCrnl => Some fields
  | StartField | InField | QuoteInQuotedField => Some (save fields field)
  | InQuotedField => None
  end.

(** The reader over the tokens.  At the end of the input a field being
    read, or an open quoted field, is saved and its record returned. *)
Fixpoint parse (ts : list tok) (st : rstate) (fields : list (list ascii)) (field : list ascii) :
    option (list (list (list ascii))) :=
  match ts with
  | [] =>
      match st, field with
      | InQuotedField, _ => Some [save fields field]
      | _, [] => Some []
      | _, _ => Some [save fields field]
      end
  | EOL :: ts' =>
      match step_eol st fields field with
      | Some record => rows ← parse ts' StartRecord [] []; Some (record :: rows)
      | None => parse ts' st fields field
      end
  | Ch c :: ts' =>
      match step st fields field c with
      | Some (st', fields', field') => parse ts' st' fields' field'
      | None => None
      end
  end.

(** [list(csv.reader(f))] on the text of the file. *)
Definition read_rows (text : list ascii) : option (list (list (list ascii))) :=
  parse (with_eols text) StartRecord [] [].

(** ** Reading back what was written *)

(** A field the reader accepts: at most [field_limit] characters. *)
Definition fits (f : list ascii) : Prop := (Z.of_nat (length f) <= field_limit)%Z.

#[export] Instance fits_dec f : Decision (fits f).
Proof. unfold fits. apply _. Defined.

Arguments add_char : simpl never.

Ltac fits_lia := unfold fits, field_limit in *; rewrite ?length_app in *; simpl length in *; lia.

Lemma add_char_ok st fs f c :
  (Z.of_nat (length f) < field_limit)%Z -> add_char st fs f c = Some (st, fs, f ++ [c]).
Proof. intros Hf. unfold add_char. by rewrite decide_False by lia. Qed.

Lemma add_char_full st fs f c : (field_limit <= Z.of_nat (length f))%Z -> add_char st fs f c = None.
Proof. intros Hf. unfold add_char. by rewrite decide_True. Qed.

(** A plain character outside quotes goes into the field. *)
Lemma step_plain st fs f c :
  plain c -> st = StartRecord \/ st = StartField \/ st = InField ->
  step st fs f c = add_char InField fs f c.
Proof.
  intros (? & ? & ? & ?) Hst. unfold step, is_break. rewrite !bool_decide_eq_false_2 by done.
  destruct Hst as [-> | [-> | ->]]; simpl; by rewrite ?decide_False.
Qed.

Lemma with_eols_cons c l :
  l <> [] ->
  with_eols (c :: l) =
    Ch c :: (if bool_decide (c = lf) then EOL :: with_eols l
             else if bool_decide (c = cr) then (if starts_lf l then with_eols l else EOL :: with_eols l)
             else with_eols l).
Proof. intros Hl. destruct l; [done|reflexivity]. Qed.

(** A character that ends no line. *)
Lemma with_eols_char c l :
  l <> [] -> c <> lf -> c <> cr -> with_eols (c :: l) = Ch c :: with_eols l.
Proof. intros Hl H1 H2. rewrite with_eols_cons by done. by rewrite !bool_decide_eq_false_2. Qed.

Ltac chars_neq := let H := fresh in intros H; vm_compute in H; discriminate.

(** Lines end at the end of a row: the tokens of rows written one
    after the other are the tokens of each. *)
Lemma with_eols_app l1 l2 :
  last l1 = Some lf -> with_eols (l1 ++ l2) = with_eols l1 ++ with_eols l2.
Proof.
  induction l1 as [|c l1 IH]; intros Hl; [done|].
  destruct l1 as [|c' l1].
  - simpl in Hl. simplify_eq. reflexivity.
  - rewrite <- app_comm_cons, !with_eols_cons by done.
    rewrite IH by done. cbn [starts_lf app]. by repeat case_match.
Qed.

(** The separator after a field, and what follows it. *)
Definition sep_ok (s : ascii) (rest : list ascii) : Prop :=
  (s = comma /\ rest <> []) \/ (s = cr /\ starts_lf rest = true).

Lemma with_eols_sep s rest : sep_ok s rest -> with_eols (s :: rest) = Ch s :: with_eols rest.
Proof.
  intros [[-> Hr] | [-> Hr]].
  - by rewrite with_eols_cons.
  - rewrite with_eols_cons by (by destruct rest). by rewrite Hr.
Qed.

Lemma with_eols_plain f rest :
  Forall plain f -> rest <> [] -> with_eols (f ++ rest) = (Ch <$> f) ++ with_eols rest.
Proof.
  intros Hf Hr. induction Hf as [|c f (? & ? & ? & ?) Hf IH]; [done|].
  rewrite <- app_comm_cons, with_eols_cons by (by destruct f).
  rewrite !bool_decide_eq_false_2 by done. by rewrite IH.
Qed.

Lemma parse_plain f ts fs acc :
  Forall plain f -> fits (acc ++ f) -> parse ((Ch <$> f) ++ ts) InField fs acc = parse ts InField fs (acc ++ f).
Proof.
  intros Hf. revert acc. induction Hf as [|c f Hc Hf IH]; intros acc Hfit; [by rewrite app_nil_r|].
  cbn [fmap list_fmap app parse]. rewrite step_plain, add_char_ok by (auto || fits_lia).
  rewrite IH by (by rewrite <- app_assoc). by rewrite <- app_assoc.
Qed.

Lemma parse_doubled_quote ts fs acc :
  fits (acc ++ [dquote]) ->
  parse (Ch dquote :: Ch dquote :: ts) InQuotedField fs acc = parse ts InQuotedField fs (acc ++ [dquote]).
Proof. intros Hfit. cbn [parse step]. rewrite decide_True by done. simpl. by rewrite add_char_ok by fits_lia. Qed.

(** Inside quotes every character is kept, a doubled quote read as
    one, and the ends of lines are skipped. *)
Lemma parse_escape f x fs acc :
  fits (acc ++ f) ->
  parse (with_eols (escape f ++ dquote :: x)) InQuotedField fs acc =
  parse (with_eols (dquote :: x)) InQuotedField fs (acc ++ f).
Proof.
  revert acc. induction f as [|c f IH]; intros acc Hfit; [by rewrite app_nil_r|].
  simpl escape. case_decide as Hq.
  - subst c. rewrite <- !app_comm_cons, !with_eols_char by (by destruct (escape f)) || chars_neq.
    rewrite parse_doubled_quote by fits_lia. rewrite IH by (rewrite <- app_assoc; fits_lia).
    by rewrite <- app_assoc.
  - rewrite <- app_comm_cons, with_eols_cons by (by destruct (escape f)).
    assert (Hs : forall ts, parse (Ch c :: ts) InQuotedField fs acc = parse ts InQuotedField fs (acc ++ [c])).
    { intros ts. cbn [parse step]. rewrite decide_False by done. by rewrite add_char_ok by fits_lia. }
    destruct (bool_decide (c = lf)); [|destruct (bool_decide (c = cr)); [destruct (starts_lf _)|]];
      rewrite Hs; simpl; rewrite IH by (rewrite <- app_assoc; fits_lia); by rewrite <- app_assoc.
Qed.

Lemma needs_quotes_false f : needs_quotes f = false -> Forall plain f.
Proof.
  unfold needs_quotes. intros Hq%bool_decide_eq_false_1.
  apply Forall_forall. intros c Hc. destruct (decide (plain c)); [done|]. exfalso. apply Hq, Exists_exists. eauto.
Qed.

(** One written field and its separator: the field is saved and the
    reader is at the start of the next field, or past the ["\r"]. *)
Lemma parse_field f s rest acc :
  fits f -> sep_ok s rest ->
  parse (with_eols (write_field f ++ s :: rest)) StartField acc [] =
  parse (with_eols rest) (if decide (s = comma) then StartField else EatCrnl) (save acc f) [].
Proof.
  intros Hfit Hs. assert (Hsep : s = comma \/ s = cr) by (destruct Hs as [[] | []]; auto).
  unfold write_field. destruct (needs_quotes f) eqn:Hq.
  - replace ((dquote :: escape f ++ [dquote]) ++ s :: rest) with (dquote :: escape f ++ dquote :: s :: rest)
      by (simpl; by rewrite <- app_assoc).
    rewrite with_eols_char by (by destruct (escape f)) || chars_neq.
    change (parse (Ch dquote :: ?ts) StartField acc []) with (parse ts InQuotedField acc []).
    rewrite (parse_escape f (s :: rest) acc []), with_eols_char by done || chars_neq.
    rewrite with_eols_sep by done. simpl app.
    destruct Hsep as [-> | ->]; reflexivity.
  - apply needs_quotes_false in Hq. destruct Hq as [|c f Hc Hf].
    + simpl app. rewrite with_eols_sep by done. destruct Hsep as [-> | ->]; reflexivity.
    + pose proof Hc as (? & ? & ? & ?). rewrite <- app_comm_cons, with_eols_char by first [by destruct f | done].
      rewrite with_eols_plain by done.
      transitivity (parse ((Ch <$> f) ++ with_eols (s :: rest)) InField acc [c]).
      { cbn [parse]. rewrite step_plain, add_char_ok by (auto || fits_lia). done. }
      rewrite parse_plain by (done || fits_lia). rewrite with_eols_sep by done.
      destruct Hsep as [-> | ->]; reflexivity.
Qed.

(** The end of a written row: ["\n"] after the ["\r"], then the end of
    the line, where the record is returned. *)
Lemma parse_row_end fields rest :
  parse (with_eols (lf :: rest)) EatCrnl fields [] =
  rows ← parse (with_eols rest) StartRecord [] []; Some (fields :: rows).
Proof. reflexivity. Qed.

(** The fields of a row, from the start of its first field. *)
Lemma parse_fields fs acc rest :
  fs <> [] -> Forall fits fs ->
  parse (with_eols (join_fields fs ++ cr :: lf :: rest)) StartField acc [] =
  rows ← parse (with_eols rest) StartRecord [] []; Some ((acc ++ fs) :: rows).
Proof.
  revert acc. induction fs as [|f fs IH]; intros acc Hfs Hfit; [done|]. apply Forall_cons in Hfit as [Hf Hfit].
  destruct fs as [|f' fs].
  - simpl join_fields. rewrite parse_field by (done || (right; done)).
    rewrite decide_False by chars_neq. apply parse_row_end.
  - change (join_fields (f :: f' :: fs)) with (write_field f ++ comma :: join_fields (f' :: fs)).
    rewrite <- app_assoc, <- app_comm_cons, parse_field by (done || (left; split; [done|by destruct (join_fields _)])).
    rewrite decide_True by done. rewrite IH by done. unfold save. by rewrite <- app_assoc.
Qed.

(** The first character of a written row starts a field. *)
Lemma writerow_first f fs rest :
  ~ (f = [] /\ fs = []) -> exists c t, join_fields (f :: fs) ++ [cr; lf] ++ rest = c :: t /\ is_break c = false.
Proof.
  intros Hne. destruct fs as [|f' fs]; simpl join_fields; unfold write_field.
  all: destruct (needs_quotes f) eqn:Hq; [by eexists _, _|].
  all: apply needs_quotes_false in Hq; destruct Hq as [|c f (? & ? & ? & ?) _]; [naive_solver|].
  all: eexists _, _; split; [reflexivity|]; unfold is_break; by rewrite !bool_decide_eq_false_2.
Qed.

(** A written row from the start of a record: the reader returns it. *)
Lemma parse_writerow row rest :
  Forall fits row ->
  parse (with_eols (writerow row ++ rest)) StartRecord [] [] =
  rows ← parse (with_eols rest) StartRecord [] []; Some (row :: rows).
Proof.
  intros Hfit. destruct row as [|f fs]; [reflexivity|].
  destruct (decide (f = [] /\ fs = [])) as [[-> ->] | Hne]; [reflexivity|].
  assert (Hw : writerow (f :: fs) = join_fields (f :: fs) ++ [cr; lf])
    by (destruct f, fs; naive_solver).
  rewrite Hw, <- app_assoc.
  destruct (writerow_first f fs rest Hne) as (c & t & Ht & Hc).
  transitivity (parse (with_eols (join_fields (f :: fs) ++ [cr; lf] ++ rest)) StartField [] []).
  { rewrite Ht. destruct t as [|c' t].
    { exfalso. apply (f_equal length) in Ht. rewrite !length_app in Ht. simpl in Ht. lia. }
    rewrite with_eols_cons by done. simpl. by rewrite Hc. }
  by apply parse_fields.
Qed.

Lemma read_rows_write_rows rows :
  Forall (Forall fits) rows -> read_rows (write_rows rows) = Some rows.
Proof.
  unfold read_rows. induction 1 as [|row rows Hrow Hrows IH]; [reflexivity|].
  change (write_rows (row :: rows)) with (writerow row ++ write_rows rows).
  rewrite parse_writerow, IH by done. reflexivity.
Qed.

(** C33: Reading the text of rows written by [writerow] with
    [csv.reader] gives back the same rows, fields with commas, quotes
    and line breaks, empty fields and empty rows included, when no field
    is longer than [csv.field_size_limit()] (131072 characters). *)
Theorem csv_roundtrip rows :
  Forall (Forall (fun f => Z.of_nat (length f) <= field_limit)%Z) rows -> read_rows (write_rows rows) = Some rows.
Proof. apply read_rows_write_rows. Qed.

(** ** When the reader raises *)

(** Out of [EatCrnl], a field below the limit takes one more character. *)
Lemma step_progress st fs f c :
  st <> EatCrnl -> (Z.of_nat (length f) < field_limit)%Z ->
  exists st' fs' f', step st fs f c = Some (st', fs', f') /\ (length f' <= S (length f))%nat.
Proof.
  intros Hst Hf. unfold step.
  destruct st; try done; cbv zeta; repeat case_match;
    (eexists _, _, _; split; [first [apply add_char_ok; done | reflexivity] | rewrite ?length_app; simpl; lia]).
Qed.

Lemma step_eatcrnl st fs f c fs' f' : step st fs f c = Some (EatCrnl, fs', f') -> is_break c = true.
Proof. unfold step, add_char. destruct st; simpl; repeat case_match; congruence. Qed.

Lemma parse_eol_some ts st fs f :
  is_Some (parse ts StartRecord [] []) -> (st = InQuotedField -> is_Some (parse ts st fs f)) ->
  is_Some (parse (EOL :: ts) st fs f).
Proof.
  intros Hs Hq. simpl. destruct (step_eol st fs f) eqn:E.
  - destruct Hs as [? ->]. simpl. eauto.
  - apply Hq. by destruct st.
Qed.

Lemma is_break_cases c : is_break c = true -> c = cr \/ c = lf.
Proof. unfold is_break. intros [H%bool_decide_eq_true_1 | H%bool_decide_eq_true_1]%orb_true_iff; auto. Qed.

(** The line breaks of a file always reach the end of a line before
    another character, so [EatCrnl] never sees one; a field never grows
    past the characters read. *)
Lemma parse_with_eols_some l st fs f :
  st <> EatCrnl -> (Z.of_nat (length f + length l) <= field_limit)%Z -> is_Some (parse (with_eols l) st fs f).
Proof.
  revert st fs f. induction l as [l IH] using (induction_ltof1 _ length); unfold ltof in IH.
  intros st fs f Hst Hb. destruct l as [|c l]; [simpl; repeat case_match; eauto|].
  assert (Hlt : forall l' : list ascii, (length l' <= length l)%nat -> (length l' < length (c :: l))%nat)
    by (simpl; lia).
  (** after the end of a line the reader is never in [EatCrnl] *)
  assert (Hrec : forall l' st' fs' f', (length l' <= length l)%nat ->
                   (Z.of_nat (length f' + length l') <= field_limit)%Z ->
                   is_Some (parse (EOL :: with_eols l') st' fs' f')).
  { intros l' st' fs' f' Hl' Hb'. apply parse_eol_some.
    - apply IH; [by apply Hlt|done|simpl in *; lia].
    - intros ->. apply IH; [by apply Hlt|done|lia]. }
  simpl length in Hb.
  destruct (step_progress st fs f c) as (st' & fs' & f' & Es & Hf'); [done|lia|].
  cbn [with_eols parse]. rewrite Es.
  destruct (bool_decide (c = lf)) eqn:E1; [apply Hrec; lia|].
  destruct (bool_decide (c = cr)) eqn:E2.
  - destruct (starts_lf l) eqn:Hl; [|apply Hrec; lia].
    destruct (decide (st' = EatCrnl)) as [-> | Hne]; [|apply IH; [apply Hlt; lia|done|lia]].
    destruct l as [|c' l]; [done|]. simpl in Hl. apply bool_decide_eq_true_1 in Hl as ->.
    cbn [with_eols]. rewrite bool_decide_eq_true_2 by done.
    assert (Hs : step EatCrnl fs' f' lf = Some (EatCrnl, fs', f')) by reflexivity.
    cbn [parse]. rewrite Hs. apply Hrec; simpl in *; lia.
  - assert (st' <> EatCrnl).
    { intros ->. apply step_eatcrnl in Es. unfold is_break in Es. rewrite E1, E2 in Es. done. }
    destruct l; [apply (Hrec []); simpl in *; lia|apply IH; [apply Hlt; lia|done|simpl in *; lia]].
Qed.

(** C34: [csv.reader] on a file opened with [newline=""] raises no
    [csv.Error] on a text of at most [field_limit] characters: whatever
    its line breaks and quotes, it yields its rows. *)
Theorem read_rows_total text : (Z.of_nat (length text) <= field_limit)%Z -> is_Some (read_rows text).
Proof. intros Hb. apply parse_with_eols_some; [done|simpl; lia]. Qed.

(** A field at the limit: the next plain character raises. *)
Lemma parse_full_field c ts fs acc :
  plain c -> Z.of_nat (length acc) = field_limit -> parse (Ch c :: ts) InField fs acc = None.
Proof. intros Hc Hl. cbn [parse]. rewrite step_plain, add_char_full by (auto || lia). done. Qed.

(** C35: A record that starts with more than [field_limit] characters
    other than a comma, a quote or a line break makes [csv.reader] raise
    [csv.Error] (["field larger than field limit"]), whatever follows. *)
Theorem read_rows_field_limit f rest :
  Forall plain f -> (field_limit < Z.of_nat (length f))%Z -> read_rows (f ++ rest) = None.
Proof.
  intros Hf Hlen. set (n := Z.to_nat field_limit).
  rewrite <- (take_drop n f) in Hf |- *. apply Forall_app in Hf as [Hf1 Hf2].
  destruct (drop n f) as [|c f2] eqn:Ed.
  { apply (f_equal length) in Ed. rewrite length_drop in Ed. simpl in Ed. unfold n, field_limit in *. lia. }
  assert (Hn : length (take n f) = n) by (rewrite length_take; unfold n, field_limit in *; lia).
  destruct (take n f) as [|c0 f1] eqn:Et; [simpl in Hn; unfold n, field_limit in *; lia|].
  apply Forall_cons in Hf1 as [Hc0 Hf1]. apply Forall_cons in Hf2 as [Hc Hf2].
  pose proof Hc0 as (? & ? & ? & ?).
  unfold read_rows. rewrite <- !app_assoc, <- app_comm_cons, with_eols_char by (by destruct f1) || done.
  rewrite with_eols_plain by (done || by destruct f2).
  cbn [parse]. rewrite step_plain, add_char_ok by (auto || fits_lia).
  rewrite parse_plain by (done || (simpl; unfold fits, n, field_limit in *; simpl in *; lia)).
  apply parse_full_field; [done|]. simpl in *. unfold n, field_limit in *. lia.
Qed.

Module CsvWitness.

Notation s x := (String.list_ascii_of_string x).

(** A field with a comma is quoted, an empty row is a bare line end,
    a row of one empty field a quoted empty field. *)
Example write_quoting :
  write_rows [[s "a,b"; s "x"]; []; [[]]] =
    dquote :: s "a,b" ++ dquote :: comma :: s "x" ++ [cr; lf; cr; lf; dquote; dquote; cr; lf].
Proof. reflexivity. Qed.

(** A lone ["\r"] ends a line, and a last line needs no terminator. *)
Example read_lone_cr : read_rows (s "a" ++ cr :: s "b") = Some [[s "a"]; [s "b"]].
Proof. reflexivity. Qed.

(** A quoted field goes on across a line break. *)
Example read_quoted_newline :
  read_rows (dquote :: s "x" ++ lf :: s "y" ++ [dquote; cr; lf]) = Some [[s "x" ++ lf :: s "y"]].
Proof. reflexivity. Qed.

Definition rows_ex : list (list (list ascii)) := [[s "a,b"; s "say " ++ dquote :: s "hi" ++ [dquote]]; []; [[]]; [s "x" ++ [cr; lf]]].

Lemma csv_roundtrip_witness :
  Forall (Forall (fun f => Z.of_nat (length f) <= field_limit)%Z) rows_ex /\
  read_rows (write_rows rows_ex) = Some rows_ex.
Proof.
  assert (Hr : Forall (Forall (fun f => Z.of_nat (length f) <= field_limit)%Z) rows_ex)
    by (apply (bool_decide_unpack _); vm_compute; reflexivity).
  split; [exact Hr|exact (csv_roundtrip rows_ex Hr)].
Defined.

Definition text_ex : list ascii := write_rows rows_ex ++ [cr] ++ s "tail".

Lemma read_rows_total_witness :
  (Z.of_nat (length text_ex) <= field_limit)%Z /\ is_Some (read_rows text_ex).
Proof.
  assert (Ht : (Z.of_nat (length text_ex) <= field_limit)%Z) by (apply Z.leb_le; vm_compute; reflexivity).
  split; [exact Ht|exact (read_rows_total text_ex Ht)].
Defined.

(** A line of 131073 letters. *)
Definition long_line : list ascii := replicate (Z.to_nat 131073) (ascii_of_nat 97).

Lemma read_rows_field_limit_witness :
  Forall plain long_line /\ (field_limit < Z.of_nat (length long_line))%Z /\ read_rows (long_line ++ []) = None.
Proof.
  assert (Hp : Forall plain long_line) by (apply Forall_replicate; vm_compute; split_ands; discriminate).
  assert (Hl : (field_limit < Z.of_nat (length long_line))%Z)
    by (unfold long_line, field_limit; rewrite length_replicate, Z2Nat.id; lia).
  split_ands; [exact Hp|exact Hl|exact (read_rows_field_limit long_line [] Hp Hl)].
Defined.

End CsvWitness.
