(* ===== verification/Plots.v ===== *)
(** * Reading the experiment tables back: [ex2/experiments/generate_plots.py]
    and [HW2/experiments/generate_tables.py]

    The experiment scripts ([Experiments]) write their tables with
    [csv.writer]: each cell is written as [str()] of the value, then
    the row as [Csv.writerow] writes it ([table_text]).  Two scripts
    read such tables back with [csv.reader] ([Csv.read_rows]):

    - [generate_plots.main] asks for a path, reads the table, and plots
      the counts of a noise-level table against the levels, or the
      fixed and damaged counts of a filter table per filter, parsing
      the cells with [float()] and [int()];
    - [generate_tables.main] writes [results/summary.txt]: for each
      [.csv] file of the folder, its name and its rows, the cells
      joined by [", "].

    The disk is a map from paths to texts.  A plot is the data handed
    to [matplotlib] ([plot]); [plt.show()] and the figure layout are
    not modelled.  [str(float)] and [float()] of a [float] are the
    interface [FloatRepr], whose law is Python's guarantee that
    [float(repr(x)) == x]; [str(int)] and [int()] are [Offsets.show_Z]
    and [Offsets.int_of_str].

    The theorems: [generate_plots] plots exactly the levels and counts
    the experiment scripts wrote, in their order, for both kinds of
    table; [generate_tables] writes the cells of every table as they
    were written. *)

From stdpp Require Import base list numbers strings gmap.
From Stdlib Require Import ZArith QArith Ascii Lia.
From S2P Require Import Prelude Offsets Noise ImageIO Experiments Csv.
Local Open Scope Z_scope.

(** [str(x)] and [float(s)] for a Python [float]. *)
Class FloatRepr := {
  float_repr : Q -> list ascii;
  py_float : list ascii -> outcome Q;
  py_float_repr q : py_float (float_repr q) = Ok q;
}.

Notation text := (list ascii).

(** ASCII text of a string literal of the scripts. *)
Notation txt s := (String.list_ascii_of_string s).

Section Plots.
Context `{!FloatRepr}.

(** [str(value)] of a cell given to [writer.writerow]. *)
Definition cell_text (c : csv_cell) : text :=
  match c with
  | CStr s => txt s
  | CInt n => show_Z n
  | CFloat q => float_repr q
  end.

(** The text of a table written row by row with [csv.writer]. *)
Definition table_text (t : csv) : text := write_rows (map (map cell_text) t).

(** ** [generate_plots.py] *)

Inductive plot :=
(** [plot_noise_levels]: three lines against the noise levels *)
| NoiseLevelsPlot (title : string) (noise_levels : list Q) (noisy_pixels fixed_pixels damaged_pixels : list Z)
(** [plot_filters]: two bars per filter, at positions [range(len(filters))] *)
| FiltersPlot (title : string) (filters : list string) (fixed_pixels damaged_pixels : list Z).

(** What [main] ends with: a message printed, a figure shown, or an
    exception ([csv.Error] apart from the exceptions of [Prelude]). *)
Inductive gp_result :=
| GPrinted (msg : string)
| GShown (p : plot)
| GRaised (e : exn)
| GCsvError.

(** [read_csv(path)], lines 7-13: [open] raises [OSError] on a missing
    file. *)
Definition read_csv (disk : gmap string text) (path : string) : outcome (option (list (list text))) :=
  match disk !! path with
  | Some t => Ok (read_rows t)
  | None => Raise OSError
  end.

(** One row of [plot_noise_levels], lines 23-26, in the order the
    cells are read. *)
Definition level_row (row : list text) : outcome (Q * Z * Z * Z) :=
  c0 ← py_lookup row 0; level ← py_float c0;
  c1 ← py_lookup row 1; noisy ← int_of_str c1;
  c2 ← py_lookup row 2; fixed ← int_of_str c2;
  c3 ← py_lookup row 3; damaged ← int_of_str c3;
  mret (level, noisy, fixed, damaged).

(** [plot_noise_levels(header, data, title)], lines 16-38. *)
Definition plot_noise_levels (data : list (list text)) (title : string) : outcome plot :=
  rs ← mapM level_row data;
  mret (NoiseLevelsPlot title (rs.*1.*1.*1) (rs.*1.*1.*2) (rs.*1.*2) (rs.*2)).

(** One row of [plot_filters], lines 46-49. *)
Definition filter_row (row : list text) : outcome (string * Z * Z) :=
  c0 ← py_lookup row 0;
  c2 ← py_lookup row 2; fixed ← int_of_str c2;
  c3 ← py_lookup row 3; damaged ← int_of_str c3;
  mret (String.string_of_list_ascii c0, fixed, damaged).

(** [plot_filters(header, data, title)], lines 41-62. *)
Definition plot_filters (data : list (list text)) (title : string) : outcome plot :=
  rs ← mapM filter_row data;
  mret (FiltersPlot title (rs.*1.*1) (rs.*1.*2) (rs.*2)).

Definition shown (o : outcome plot) : gp_result :=
  match o with Ok p => GShown p | Raise e => GRaised e end.

(** [main()], lines 65-84, with the text typed at the prompt. *)
Definition plots_main (disk : gmap string text) (typed : text) : gp_result :=
  let csv_path := String.string_of_list_ascii (strip typed) in
  if decide (disk !! csv_path = None) then GPrinted "CSV file not found." else
  match read_csv disk csv_path with
  | Raise e => GRaised e
  | Ok None => GCsvError
  | Ok (Some rows) =>
      match rows with
      | header :: (_ :: _) as data =>
          if decide (txt "noise_level" ∈ header) then shown (plot_noise_levels data "Noise Levels Experiment")
          else if decide (txt "filter" ∈ header) then shown (plot_filters data "Filter Comparison")
          else GPrinted "Unknown table format. Unable to plot."
      | _ => GPrinted "CSV file is empty."
      end
  end.

(** ** [generate_tables.py] *)

Definition nl : ascii := ascii_of_nat 10.

(** [filename.endswith(suffix)] *)
Definition str_endswith (filename suffix : string) : bool := bool_decide (txt suffix `suffix_of` txt filename).

(** [", ".join(row)] *)
Fixpoint join_comma_space (row : list text) : text :=
  match row with
  | [] => []
  | [c] => c
  | c :: row' => c ++ txt ", " ++ join_comma_space row'
  end.

(** What [main] writes for one table, lines 27-31. *)
Definition summary_block (filename : string) (rows : list (list text)) : text :=
  txt ("Table: " +:+ filename) ++ [nl] ++ (rows ≫= fun row => join_comma_space row ++ [nl]) ++ [nl].

(** The loop over [os.listdir(results_dir)], lines 22-31: the text
    written so far, and the exception that ends it. *)
Fixpoint summary_loop (disk : gmap string text) (results_dir : string) (names : list string) :
    text * option gp_result :=
  match names with
  | [] => ([], None)
  | filename :: names' =>
      if negb (str_endswith filename ".csv") then summary_loop disk results_dir names' else
      match read_csv disk (path_join results_dir filename) with
      | Raise e => ([], Some (GRaised e))
      | Ok None => ([], Some GCsvError)
      | Ok (Some rows) =>
          let '(rest, err) := summary_loop disk results_dir names' in
          (summary_block filename rows ++ rest, err)
      end
  end.

(** [main()] of [generate_tables.py], lines 14-32: [listing] is what
    [os.listdir] returns.  The summary file is opened (emptied) before
    the loop, and keeps what was written when the loop raises. *)
Definition tables_main (disk : gmap string text) (dirs : gset string) (listing : list string) (script_dir : string) :
    gmap string text * gp_result :=
  let results_dir := path_join script_dir "results" in
  if decide (results_dir ∉ dirs) then (disk, GPrinted "No results directory found.") else
  let summary_path := path_join results_dir "summary.txt" in
  let '(written, err) := summary_loop disk results_dir listing in
  (<[summary_path := written]> disk,
   default (GPrinted ("Summary written to " +:+ summary_path)) err).

End Plots.

(** ** The tables of the experiments, plotted *)

Section Proofs.
Context `{!FloatRepr}.

(** A row of the noise-level table: [level, noisy, fixed, damaged]. *)
Definition level_cells (r : Q * Z * Z * Z) : list csv_cell :=
  let '(q, n, fx, dm) := r in [CFloat q; CInt n; CInt fx; CInt dm].

(** A row of a filter table: [name, noisy, fixed, damaged]. *)
Definition filter_cells (r : string * Z * Z * Z) : list csv_cell :=
  let '(name, n, fx, dm) := r in [CStr name; CInt n; CInt fx; CInt dm].

(** A table whose cells [csv.reader] reads back: none longer than
    [field_limit] characters once written. *)
Definition short_cells (t : csv) : Prop := Forall (Forall (fun c => fits (cell_text c))) t.

#[export] Instance short_cells_dec t : Decision (short_cells t).
Proof. unfold short_cells. apply _. Defined.

Lemma read_table_text t : short_cells t -> read_rows (table_text t) = Some (map (map cell_text) t).
Proof.
  intros Ht. apply read_rows_write_rows.
  induction Ht as [|row t Hrow _ IH]; constructor; [|done]. induction Hrow; constructor; auto.
Qed.

Lemma level_rows_parse rs : mapM level_row (map (map cell_text) (level_cells <$> rs)) = Ok rs.
Proof.
  induction rs as [|[[[q n] fx] dm] rs IH]; [done|].
  rewrite fmap_cons, map_cons, mapM_cons_outcome, IH.
  unfold level_row. simpl. by rewrite py_float_repr, !int_of_str_show.
Qed.

Lemma filter_rows_parse rs :
  mapM filter_row (map (map cell_text) (filter_cells <$> rs)) = Ok ((fun r => (r.1.1.1, r.1.2, r.2)) <$> rs).
Proof.
  induction rs as [|[[[name n] fx] dm] rs IH]; [done|].
  rewrite fmap_cons, map_cons, mapM_cons_outcome, IH.
  unfold filter_row. simpl. by rewrite !int_of_str_show, String.string_of_list_ascii_of_string.
Qed.

(** [main] on the path of a table it can read: the dispatch on the
    header. *)
Lemma plots_main_table disk typed p t :
  strip typed = txt p -> disk !! p = Some (table_text t) -> short_cells t ->
  plots_main disk typed =
    match map (map cell_text) t with
    | header :: (_ :: _) as data =>
        if decide (txt "noise_level" ∈ header) then shown (plot_noise_levels data "Noise Levels Experiment")
        else if decide (txt "filter" ∈ header) then shown (plot_filters data "Filter Comparison")
        else GPrinted "Unknown table format. Unable to plot."
    | _ => GPrinted "CSV file is empty."
    end.
Proof.
  intros Hs Hp Ht. unfold plots_main. rewrite Hs, String.string_of_list_ascii_of_string, Hp.
  rewrite decide_False by done. unfold read_csv. by rewrite Hp, read_table_text.
Qed.

Lemma levels_header_is_levels : txt "noise_level" ∈ map cell_text levels_header.
Proof. apply (bool_decide_unpack _). vm_compute. reflexivity. Qed.

Lemma headers_short : short_cells [levels_header] /\ short_cells [filters_header].
Proof. split; apply (bool_decide_unpack _); vm_compute; reflexivity. Qed.

Lemma filters_header_is_filters :
  txt "noise_level" ∉ map cell_text filters_header /\ txt "filter" ∈ map cell_text filters_header.
Proof. split; apply (bool_decide_unpack _); vm_compute; reflexivity. Qed.

(** C36: [generate_plots.py] reads back exactly what the experiment
    scripts write: given the path of a noise-level table (its header
    and one [level, noisy, fixed, damaged] row per level), it shows the
    three count series against the levels, in the order of the rows;
    given a filter table, it shows the fixed and damaged counts of each
    filter by name.  The typed path may carry surrounding spaces; the
    cells are at most [field_limit] characters long, as [csv.reader]
    requires. *)
Theorem plots_show_experiment_tables disk typed p :
  strip typed = txt p ->
  (forall rs, rs <> [] -> disk !! p = Some (table_text (levels_header :: (level_cells <$> rs))) ->
     short_cells (level_cells <$> rs) ->
     plots_main disk typed =
       GShown (NoiseLevelsPlot "Noise Levels Experiment" (rs.*1.*1.*1) (rs.*1.*1.*2) (rs.*1.*2) (rs.*2))) /\
  (forall rs, rs <> [] -> disk !! p = Some (table_text (filters_header :: (filter_cells <$> rs))) ->
     short_cells (filter_cells <$> rs) ->
     plots_main disk typed = GShown (FiltersPlot "Filter Comparison" (rs.*1.*1.*1) (rs.*1.*2) (rs.*2))).
Proof.
  intros Hs. destruct headers_short as [Hl Hf].
  split; intros rs Hne Hp Hr; rewrite (plots_main_table disk typed p _ Hs Hp)
    by (unfold short_cells; constructor; [exact (Forall_inv Hl) || exact (Forall_inv Hf)|exact Hr]);
    (destruct rs as [|r rs]; [done|]); rewrite map_cons, fmap_cons, map_cons; lazy beta iota;
    rewrite <- map_cons, <- fmap_cons.
  - rewrite decide_True by apply levels_header_is_levels.
    unfold plot_noise_levels. rewrite level_rows_parse. reflexivity.
  - destruct filters_header_is_filters as [Hn Hf'].
    rewrite decide_False, decide_True by done.
    unfold plot_filters. rewrite filter_rows_parse. simpl. by rewrite <- !list_fmap_compose.
Qed.

(** The cells of a row with [", "] before each one but the first. *)
Definition comma_joined (cells : list text) : text :=
  match cells with
  | [] => []
  | c :: cs => c ++ (cs ≫= fun c' => txt ", " ++ c')
  end.

(** What [summary.txt] should say of the tables [tab] of the listed
    [.csv] files: each name, then each row as the cells' texts. *)
Definition summary_spec (tab : string -> csv) (listing : list string) : text :=
  filter (fun n => str_endswith n ".csv" = true) listing ≫= fun n =>
    txt ("Table: " +:+ n) ++ [nl] ++ (tab n ≫= fun row => comma_joined (map cell_text row) ++ [nl]) ++ [nl].

Lemma join_comma_space_joined row : join_comma_space row = comma_joined row.
Proof.
  induction row as [|c [|c' row] IH]; [done|simpl; by rewrite app_nil_r|].
  change (join_comma_space (c :: c' :: row)) with (c ++ txt ", " ++ join_comma_space (c' :: row)).
  rewrite IH. unfold comma_joined. rewrite bind_cons. by rewrite <- !app_assoc.
Qed.

Lemma bind_map_rows {B} (g : list text -> list B) (h : list csv_cell -> list B) (rows : csv) :
  (forall row, g (map cell_text row) = h row) ->
  map (map cell_text) rows ≫= g = rows ≫= h.
Proof. intros Hgh. induction rows as [|row rows IH]; [done|]. by rewrite map_cons, !bind_cons, IH, Hgh. Qed.

Lemma summary_loop_tables disk dir (tab : string -> csv) listing :
  (forall n, n ∈ listing -> str_endswith n ".csv" = true ->
     disk !! path_join dir n = Some (table_text (tab n)) /\ short_cells (tab n)) ->
  summary_loop disk dir listing = (summary_spec tab listing, None).
Proof.
  intros Ht. induction listing as [|n listing IH]; [done|].
  unfold summary_spec. rewrite filter_cons.
  assert (IH' : summary_loop disk dir listing = (summary_spec tab listing, None))
    by (apply IH; intros; apply Ht; [by right|done]).
  simpl. destruct (str_endswith n ".csv") eqn:E; simpl; [|exact IH'].
  destruct (Ht n) as [Hn Hs]; [by left|done|].
  unfold read_csv. rewrite Hn, read_table_text by done.
  rewrite IH'. unfold summary_block.
  rewrite (bind_map_rows _ (fun row => comma_joined (map cell_text row) ++ [nl]))
    by (intros; by rewrite join_comma_space_joined).
  by rewrite <- !app_assoc.
Qed.

(** C37: When the results folder exists and every [.csv] name it lists
    holds a table written by [csv.writer], with cells of at most
    [field_limit] characters, [generate_tables.py] writes
    [summary.txt] with, for each such name in the listing's order, a
    [Table:] line and the table's rows as the texts of their cells
    joined by [", "], and reports where it wrote it; no other file
    changes. *)
Theorem tables_summary disk dirs listing script_dir (tab : string -> csv) :
  path_join script_dir "results" ∈ dirs ->
  (forall n, n ∈ listing -> str_endswith n ".csv" = true ->
     disk !! path_join (path_join script_dir "results") n = Some (table_text (tab n)) /\ short_cells (tab n)) ->
  tables_main disk dirs listing script_dir =
    (<[path_join (path_join script_dir "results") "summary.txt" := summary_spec tab listing]> disk,
     GPrinted ("Summary written to " +:+ path_join (path_join script_dir "results") "summary.txt")).
Proof.
  intros Hd Ht. unfold tables_main. rewrite decide_False by (intros Hn; exact (Hn Hd)).
  by rewrite (summary_loop_tables _ _ tab).
Qed.

End Proofs.

Module PlotsWitness.

(** A printing of [Q] as [num/den] stands for [repr] in the examples:
    the theorems use only the law [float(repr(x)) == x]. *)
Definition slash : ascii := ascii_of_nat 47.

Fixpoint break_at (c : ascii) (l : list ascii) : option (list ascii * list ascii) :=
  match l with
  | [] => None
  | x :: l' => if decide (x = c) then Some ([], l') else (fun '(p, s) => (x :: p, s)) <$> break_at c l'
  end.

Definition frac_repr (q : Q) : list ascii := show_Z (Qnum q) ++ slash :: show_Z (Zpos (Qden q)).

Definition frac_parse (t : list ascii) : outcome Q :=
  match break_at slash t with
  | Some (a, b) => n ← int_of_str a; d ← int_of_str b; if 0 <? d then mret (Qmake n (Z.to_pos d)) else Raise ValueError
  | None => Raise ValueError
  end.

Lemma break_at_app c p s : Forall (fun x => x <> c) p -> break_at c (p ++ c :: s) = Some (p, s).
Proof.
  induction 1 as [|x p Hx _ IH]; simpl; [by rewrite decide_True|]. by rewrite decide_False, IH.
Qed.

Lemma frac_law q : frac_parse (frac_repr q) = Ok q.
Proof.
  unfold frac_parse, frac_repr. rewrite break_at_app.
  - simpl. rewrite !int_of_str_show. simpl. by destruct q.
  - destruct (show_Z_chars (Qnum q)) as [Hc _]. eapply Forall_impl; [exact Hc|].
    intros c [Hd | ->]; [by apply digit_neq|done].
Qed.

#[local] Instance frac_float : FloatRepr := {| float_repr := frac_repr; py_float := frac_parse; py_float_repr := frac_law |}.

Definition levels_rows : list (Q * Z * Z * Z) := [(1 # 100, 2, 1, 0); (1 # 10, 5, 3, 1)].
Definition filters_rows : list (string * Z * Z * Z) := [("median_3", 2, 2, 0); ("mean_3", 2, 1, 3)]%string.
Definition levels_disk : gmap string text := {["results/noise_levels.csv" := table_text (levels_header :: (level_cells <$> levels_rows))]}.
Definition filters_disk : gmap string text := {["results/noise_levels.csv" := table_text (filters_header :: (filter_cells <$> filters_rows))]}.
Definition typed : text := txt "  results/noise_levels.csv ".

Lemma plots_show_experiment_tables_witness :
  strip typed = txt "results/noise_levels.csv" /\
  plots_main levels_disk typed = GShown (NoiseLevelsPlot "Noise Levels Experiment" [1 # 100; 1 # 10] [2; 5] [1; 3] [0; 1]) /\
  plots_main filters_disk typed = GShown (FiltersPlot "Filter Comparison" ["median_3"; "mean_3"] [2; 1] [0; 3]).
Proof.
  assert (Hs : strip typed = txt "results/noise_levels.csv") by reflexivity.
  split; [exact Hs|]. split.
  - apply (proj1 (plots_show_experiment_tables levels_disk typed _ Hs) levels_rows); [done|reflexivity|].
    apply (bool_decide_unpack _). vm_compute. reflexivity.
  - apply (proj2 (plots_show_experiment_tables filters_disk typed _ Hs) filters_rows); [done|reflexivity|].
    apply (bool_decide_unpack _). vm_compute. reflexivity.
Defined.

Definition tab (n : string) : csv := levels_header :: (level_cells <$> levels_rows).
Definition tables_disk : gmap string text := {["hw2/results/levels.csv" := table_text (tab "levels.csv")]}.

Lemma tables_summary_witness :
  path_join "hw2" "results" ∈ ({["hw2/results"]} : gset string) /\
  tables_main tables_disk {["hw2/results"]} ["notes.md"; "levels.csv"] "hw2" =
    (<["hw2/results/summary.txt" := summary_spec tab ["notes.md"; "levels.csv"]]> tables_disk,
     GPrinted "Summary written to hw2/results/summary.txt").
Proof.
  assert (Hd : path_join "hw2" "results" ∈ ({["hw2/results"]} : gset string)) by (vm_compute; set_solver).
  split; [exact Hd|]. apply (tables_summary tables_disk _ _ "hw2" tab Hd).
  intros n Hn He. apply elem_of_cons in Hn as [-> | [-> | []%elem_of_nil]%elem_of_cons]; [done|].
  split; [reflexivity|]. apply (bool_decide_unpack _). vm_compute. reflexivity.
Defined.

(** The summary text of that table. *)
Example summary_text :
  summary_spec tab ["notes.md"; "levels.csv"] =
  txt ("Table: levels.csv" +:+ String (ascii_of_nat 10) ("noise_level, noisy_pixels, fixed_pixels, damaged_clean_pixels"
    +:+ String (ascii_of_nat 10) ("1/100, 2, 1, 0" +:+ String (ascii_of_nat 10) ("1/10, 5, 3, 1"
    +:+ String (ascii_of_nat 10) (String (ascii_of_nat 10) ""))))).
Proof. vm_compute. reflexivity. Qed.

Import NoiseWitness ImageIOWitness.

(** The two scripts chained: the table [multiple_noise_levels] writes
    for a small image is plotted with its four levels. *)
Example plot_of_noise_levels_run :
  exists noisy fixed damaged,
    plots_main (table_text <$> ex_tables (noise_levels_main "in.png" "results" ExperimentsWitness.start).1)
      (txt "results/noise_levels.csv") =
    GShown (NoiseLevelsPlot "Noise Levels Experiment" [1 # 100; 3 # 100; 5 # 100; 1 # 10] noisy fixed damaged).
Proof. vm_compute. eexists _, _, _. reflexivity. Qed.

End PlotsWitness.
